(* ===== verification/_CoqProject ===== *)
-Q . S2P
Prelude.v
CString.v
BpfMap.v
Atomics.v
Sampling.v
Host.v
Memory.v
HostIvshmem.v
PhantomSwitch.v
PhantomTimer.v
Buffers.v
IdleAvg.v
IdleConcurrent.v
H2gTimer.v
GuestIvshmem.v
OmpThreadReg.v
GuestProbes.v
LinkedList.v
Qmp.v
RegisterVm.v
System.v
Concurrent.v
Libbpf.v
Loaders.v
ProbeLoaders.v
BackendTool.v
Readers.v
EndToEnd.v
MultiVm.v
TimerRace.v
UnfilledSample.v
