(* ===== verification/Prelude.v ===== *)
(** * Phantom Tracker: a verification library

    Phantom Tracker tells a guest how many of its virtual CPUs are phantom:
    runnable for the guest, but preempted by the host.  This library models the
    C code of the host and of the guest and proves what the parts promise to
    one another and to the guest.

    ** The program

    - Two kernel modules share memory.  On the host [host_ivshmem.c] allocates
      a backend per VM (a metadata page, one host-to-guest page, and
      guest-to-host pages) and exports two kfuncs; in the guest
      [guest_ivshmem.c] is the PCI driver of the same memory.
    - In the guest [omp_thread_reg.bpf.c] follows the OpenMP threads and writes,
      on every context switch, whether one of them runs on the CPU.
    - On the host [create_maps.bpf.c] watches the context switches of the vCPU
      threads: a vCPU that runs an OpenMP thread and is preempted becomes
      phantom.  It keeps a counter per VM and appends timestamped values of it
      to one of two buffers.  [timer.bpf.c] averages the buffer every 4 ms, swaps
      the two and publishes the average with the idle average that
      [global_running_tracker.bpf.c] computes.  [h2g_msg_timer.bpf.c] is an
      independent test publisher.
    - In user space [register_vm.c], with [register_vm.h] and [linkedlist.c],
      asks QEMU for the vCPU threads of a VM and fills the maps; [cleanup.c]
      empties them.  Five loaders open the eBPF objects, share their maps through
      paths in the bpf file system and attach the programs;
      [register_vm_backend.c] asks the host module for the memory of a VM.
    - The programs under [test/] watch the system from the guest: readers of the
      host-to-guest page, and two sets of probes on libgomp with their loaders
      ([barrier_sync], [dynamic_dop]).

    ** The files

    - [Prelude]: machine integers, results, loops, the clock, counting in maps,
      tactics and the hint database [pv].
    - [CString]: character arrays, [strncpy], [snprintf], [strcmp], and the name
      copying of the eBPF programs.
    - [BpfMap]: array and hash maps and the structures stored in them
      ([register_vm_bpf.h], [phantom_tracker.h]).
    - [Atomics]: the compare-and-swap loops of [create_maps.bpf.c] with the
      interference of other CPUs.
    - [Sampling]: time-weighted averages, the reference and the machine loop.
    - [Host]: the pinned maps as one record, and the class [HostKfuncs] with
      its laws [HostKfuncsLaws], through which the eBPF programs see the module.
    - [Memory]: byte memory and the layout of a backend ([pvsched_shmem.h]).
    - [HostIvshmem]: [host_ivshmem.c]; instances of the two classes.
    - [PhantomSwitch]: [phantom_switch_handler] and the counter invariant.
    - [PhantomTimer]: [timer.bpf.c].
    - [Buffers]: the double buffer as a refinement: each VM has a history, and
      the handlers of the two files above append to it, average it, restart it.
    - [IdleAvg]: [global_running_tracker.bpf.c] and the initialisation its
      loader does.
    - [IdleConcurrent]: the tracker's handler and timer as sequences of accesses
      to shared memory, on any number of CPUs.
    - [H2gTimer]: [h2g_msg_timer.bpf.c].
    - [GuestIvshmem]: [guest_ivshmem.c]; the classes [GuestKfuncs] and
      [GuestKfuncsLaws] and their instances.
    - [OmpThreadReg]: [omp_thread_reg.bpf.c].
    - [GuestProbes]: [barrier_sync.bpf.c] and [dop_decision.bpf.c], beside the
      programs of [OmpThreadReg].
    - [LinkedList]: [linkedlist.c] on a heap of cells.
    - [Qmp]: reading and parsing of [register_vm.c].
    - [RegisterVm]: [register_vm.h], the main program of [register_vm.c], and
      [cleanup.c].
    - [System]: the host programs as steps of one system.
    - [Concurrent]: [phantom_switch_handler] as a sequence of accesses to shared
      memory, and the interleavings of any number of CPUs.
    - [TimerRace]: a visit of the timer as a sequence of accesses, and handlers
      and timer together; [UnfilledSample]: a visit while a handler has reserved
      a slot and not filled it.
    - [Libbpf]: the libbpf calls of the loaders as the class [Libbpf], what they
      rely on as the class [LibbpfLaws], and a small kernel with injected
      failures that satisfies it.
    - [Loaders]: the five loaders as programs over that class;
      [ProbeLoaders]: the loaders of the two experiments.
    - [BackendTool]: [register_vm_backend.c] on the state of the host module.
    - [Readers]: the device file of the guest driver and the three programs that
      read it ([h2g_read_test.c] and the two [read_phantom_avg.c]).
    - [EndToEnd]: one world with the guest's CPUs and tracked threads, the shared
      memory and the host's scheduler and timer.
    - [MultiVm]: several VMs on one host; the relation [agrees] of host states
      the kfuncs cannot tell apart, which the eBPF programs respect.

    Records are the C structures, with their field names where these do not
    clash; one definition models one C function or a named part of it.  A
    function that can fail returns [result]: [Ok], [Err] with the error number,
    or [Fault] for an access outside an object.  What the kernel, the C library
    or the peer of a socket answers is an argument of the operation that asks,
    so the error paths are theorems about those arguments.

    ** The theorems

    - End to end: whatever the host's scheduler, the first VM's guest and the timer
      do, the vCPUs of that VM flagged phantom are those that run a tracked OpenMP
      thread and left their CPU runnable, or for a thread that is not a vCPU (the
      handler then ignores the state), and a process of that guest that maps the
      device reads the average the timer computed ([EndToEndProps],
      [ReadersProps]).
    - Several VMs: the kfuncs know the backend of the first VM only, so the other
      guests influence nothing and read 0, and the first guest reads the average
      of the VM visited last ([MultiVmProps]).
    - Publishing: in every reachable state of the host the watermark the timer
      publishes is the time-weighted average of the counter's history, and lies
      between 0 and the size of the VM ([SystemProps], [BuffersProps],
      [PhantomTimerProps]).
    - Counting: the counter of a VM is the number of its vCPUs flagged phantom;
      on vCPUs that run OpenMP threads the handler implements the transition of
      the README on the set of phantom threads, except where a theorem says it
      does not ([PhantomSwitchProps]).
    - Counting and collecting on several CPUs: the accesses performed alone are
      the sequential handlers, every handler ends after at most 116 of them
      whatever the others do, counters stay exact under every interleaving with
      other handlers and the timer while no loop uses up its attempts, and
      concurrent handlers neither lose nor overwrite samples ([ConcurrentProps],
      [TimerRaceProps]).
    - Loading: whatever call fails, pins are only added; programs started in order
      share the pinned maps if the pins can be opened, otherwise the timer goes on
      with maps of its own, and a pinned state is kept ([LoadersProps]); the tool
      registers a backend with a slot per vCPU and prints what its caller reads
      back ([BackendToolProps]).
    - Registration and removal establish and keep what the tracker needs, and
      undo each other; the parser recovers the vCPUs ([RegisterVmProps],
      [QmpProps], [LinkedListProps], [VmKeys]).
    - Shared memory: backends are well formed, kernel objects are accounted
      for in every reachable state and leaving the module releases each once,
      error paths restore the state, the guest driver accepts what the host
      builds, and a word written on one side is read on the other
      ([HostIvshmemProps], [GuestIvshmemProps]).
    - Guest tracking: a slot is 1 only while its CPU runs a tracked thread
      ([OmpThreadRegProps]); the log of the experiments covers what the slots
      announce and reads back what libgomp stores ([GuestProbesProps]), and
      their loaders share the guest's map ([ProbeLoadersProps]).
    - Idle average and message timer, the first also with handlers of several
      CPUs: the first 3000 samples of a period are kept and averaged, and the
      published value stays within the number of CPUs
      ([IdleAvgProps], [IdleConcurrentProps], [H2gTimerProps]).
    - Defects are theorems too: a vCPU that sleeps is marked phantom, VM names
      of 62 characters lose their buffers, a backend of 0 vCPUs is read out of
      bounds, error paths release twice, a context switch during the swap makes
      the next average stale, a slot that is reserved and not filled erases an
      average, a loop that used up its attempts miscounts, loaders cannot run a
      second time, the test readers print the header or fail.

    ** Bounds and fuel

    Integers are kept at their width.  The 32-bit buffer indices are assumed not
    to wrap within one 4 ms period ([room], [index_room]), and the sums of the
    averages not to reach [2 ^ 63] ([period_ok], [uptime_ok]: size times
    nanoseconds).  Loops bounded in the source have that bound (24
    compare-and-swap attempts, 61 characters of a name); the loops over strings
    and lists have fuel equal to the length of their input, and the theorems
    show that it suffices.  Buffers have the source's 1000000 and 3000 entries; a
    sample that does not fit is dropped, and the histories say which.

    ** Not modelled

    Memory is sequentially consistent: the accesses of [Concurrent], [TimerRace]
    and [IdleConcurrent] are atomic and take effect in order.  The timers'
    iteration over a closed buffer is one access, and VMs are not registered or
    removed while handlers run.  [EndToEnd] has the handlers of both sides run in
    one go, and registers nothing after its start.  A registration is a step of
    [System] when it succeeds and its VM's name has at most 61 characters; the
    stores of guests are not steps of the invariant of [HostIvshmem]; a handler
    that reads outside a backend of 0 vCPUs takes the message for 0.  The
    run-queue sum of the idle tracker comes from a generated header and is an
    argument.  Of the loaders and test programs the printed messages are left
    out.  [omp_test.c] is a workload without state of the system;
    [ebpf_compatibility.h] defines macros for different kernels; the shell
    scripts drive experiments.  libgomp, which reads the averages, is not part
    of the repository.  The commented-out wakeup handler of
    [create_maps.bpf.c] is not code.

    What these choices leave open: the 32-bit indices past a wrap-around within
    one period, which takes [2 ^ 32] switches in 4 ms; a slot that is filled
    while the timer iterates over its buffer; registrations that race with the
    handlers. *)

From stdpp Require Export base list gmap fin_maps relations.
From Stdlib Require Export ZArith Lia.

#[export] Set Default Proof Using "Type".
#[global] Open Scope Z_scope.

(** ** Machine integers

    C integers are modelled as [Z] together with the wrap-around of their
    width.  [u32], [u64] reduce modulo the width; [s32], [s64] are the
    two's-complement reductions. *)

Declare Scope pv_scope.
Delimit Scope pv_scope with pv.

Definition u16 (x : Z) : Z := x mod 2 ^ 16.
Definition u32 (x : Z) : Z := x mod 2 ^ 32.
Definition u64 (x : Z) : Z := x mod 2 ^ 64.
Definition s32 (x : Z) : Z := (x + 2 ^ 31) mod 2 ^ 32 - 2 ^ 31.
Definition s64 (x : Z) : Z := (x + 2 ^ 63) mod 2 ^ 64 - 2 ^ 63.

Abbreviation is_u16 x := (0 <= x < 2 ^ 16).
Abbreviation is_u32 x := (0 <= x < 2 ^ 32).
Abbreviation is_u64 x := (0 <= x < 2 ^ 64).
Abbreviation is_s32 x := (- 2 ^ 31 <= x < 2 ^ 31).
Abbreviation is_s64 x := (- 2 ^ 63 <= x < 2 ^ 63).

Create HintDb pv discriminated.

Lemma u32_id x : is_u32 x → u32 x = x.
Proof. apply Z.mod_small. Qed.

Lemma u64_id x : is_u64 x → u64 x = x.
Proof. apply Z.mod_small. Qed.

Lemma s64_id x : is_s64 x → s64 x = x.
Proof. intros H. unfold s64. rewrite Z.mod_small; lia. Qed.

Lemma s32_id x : is_s32 x → s32 x = x.
Proof. intros H. unfold s32. rewrite Z.mod_small; lia. Qed.

Lemma u32_range x : is_u32 (u32 x).
Proof. apply Z.mod_pos_bound. lia. Qed.

Lemma u64_range x : is_u64 (u64 x).
Proof. apply Z.mod_pos_bound. lia. Qed.

Lemma u16_range x : is_u16 (u16 x).
Proof. apply Z.mod_pos_bound. lia. Qed.

Lemma s64_range x : is_s64 (s64 x).
Proof.
  unfold s64. pose proof (Z.mod_pos_bound (x + 2 ^ 63) (2 ^ 64)). lia.
Qed.

#[export] Hint Resolve u32_range u64_range u16_range s64_range : pv.

(** Addition modulo the width absorbs an inner reduction. *)
Lemma u32_add_l x y : u32 (u32 x + y) = u32 (x + y).
Proof. unfold u32. apply Zplus_mod_idemp_l. Qed.

(** 64-bit bit-field packing: a value below [2 ^ n] or-ed under a shifted one
    is their sum. *)
Lemma lor_shiftl_add a b n :
  0 <= n → 0 <= b < 2 ^ n → Z.lor (Z.shiftl a n) b = a * 2 ^ n + b.
Proof.
  intros Hn Hb. rewrite <- Z.shiftl_mul_pow2 by done.
  symmetry. apply Z.add_nocarry_lor. apply Z.bits_inj'. intros i Hi.
  rewrite Z.land_spec, Z.bits_0. destruct (decide (i < n)).
  - by rewrite Z.shiftl_spec_low.
  - rewrite <- (Z.mod_small b (2 ^ n)), Z.mod_pow2_bits_high by lia.
    apply andb_false_r.
Qed.

(** Masking with [2 ^ n - 1] is reduction modulo [2 ^ n]. *)
Lemma land_mask x n m : 0 <= n → m = 2 ^ n - 1 → Z.land x m = x mod 2 ^ n.
Proof.
  intros Hn ->. replace (2 ^ n - 1) with (Z.ones n) by (rewrite Z.ones_equiv; lia).
  by apply Z.land_ones.
Qed.

(** ** Error values

    Kernel functions return [0] or a negative [errno]; the model keeps the two
    cases apart.  [Fault] is a memory access outside the object it is meant
    for: what the C program does then is undefined, and the safety theorems
    show where it cannot happen. *)

Inductive errno :=
  | ENOENT | EIO | ENOMEM | EFAULT | EBUSY | EEXIST | ENODEV | EINVAL
  | ENOSPC | E2BIG | EOPNOTSUPP | EOTHER (code : Z).

#[global] Instance errno_eq_dec : EqDecision errno.
Proof. solve_decision. Defined.

Inductive result (A : Type) :=
  | Ok (a : A)
  | Err (e : errno)
  | Fault.
Arguments Ok {A} a.
Arguments Err {A} e.
Arguments Fault {A}.

#[global] Instance result_eq_dec `{EqDecision A} : EqDecision (result A).
Proof. solve_decision. Defined.

Definition is_ok {A} (r : result A) : bool :=
  match r with Ok _ => true | _ => false end.

(** [x = f(); if (error) return error; ...] *)
Notation "'let!' x ':=' r 'in' k" :=
  (match r with Ok x => k | Err e => Err e | Fault => Fault end)
  (at level 10, x pattern, r at level 100, k at level 200) : pv_scope.

(** ** Bounded loops

    [zfor n f a] is [for (k = 0; k < n; k++) a = f(k, a)]. *)

Definition zfor {A} (n : Z) (f : Z → A → A) (a : A) : A :=
  snd (Z.iter n (λ '(k, a), (k + 1, f k a)) (0, a)).
#[global] Arguments zfor : simpl never.

Lemma zfor_ind {A} (I : Z → A → Prop) (n : Z) (f : Z → A → A) (a : A) :
  0 <= n → I 0 a → (∀ k x, 0 <= k < n → I k x → I (k + 1) (f k x)) → I n (zfor n f a).
Proof.
  intros Hn H0 Hstep. unfold zfor.
  enough (∀ m : nat, Z.of_nat m <= n →
    let '(k, x) := Nat.iter m (λ '(k, a), (k + 1, f k a)) (0, a) in
    k = Z.of_nat m ∧ I k x) as H.
  { specialize (H (Z.to_nat n)). rewrite Z2Nat.id in H by done.
    destruct n as [|p|p]; simpl in *; [done| |lia].
    rewrite Pos2Nat.inj_iter. unfold Nat.iter in H. destruct (nat_rect _ _ _ _) as [k x].
    destruct H as [-> HI]; [lia|]. done. }
  intros m. induction m as [|m IH]; simpl; [done|]. intros Hm.
  destruct (Nat.iter m _ _) as [k x]. destruct IH as [-> HI]; [lia|].
  split; [lia|]. apply Hstep; [lia|done].
Qed.

(** Two loops whose bodies preserve a relation end in related states. *)
Lemma zfor_rel {A B} (R : A → B → Prop) (n : Z) (f : Z → A → A) (g : Z → B → B) a b :
  0 <= n → R a b → (∀ k x y, 0 <= k < n → R x y → R (f k x) (g k y)) →
  R (zfor n f a) (zfor n g b).
Proof.
  intros Hn H0 Hstep. unfold zfor.
  enough (∀ m : nat, Z.of_nat m <= n →
    let '(k, x) := Nat.iter m (λ '(k, a), (k + 1, f k a)) (0, a) in
    let '(k', y) := Nat.iter m (λ '(k, a), (k + 1, g k a)) (0, b) in
    k = Z.of_nat m ∧ k' = k ∧ R x y) as H.
  { specialize (H (Z.to_nat n)). rewrite Z2Nat.id in H by done.
    destruct n as [|p|p]; simpl in *; [done| |lia].
    rewrite !Pos2Nat.inj_iter. unfold Nat.iter in H.
    destruct (nat_rect _ _ _ _) as [k x], (nat_rect _ _ _ _) as [k' y].
    destruct H as (_ & _ & ?); [lia|]. done. }
  intros m. induction m as [|m IH]; simpl; [done|]. intros Hm.
  destruct (Nat.iter m _ _) as [k x], (Nat.iter m _ _) as [k' y].
  destruct IH as (-> & -> & HR); [lia|]. split_and!; [lia|lia|]. apply Hstep; [lia|done].
Qed.

Lemma zfor_ext {A} (n : Z) (f g : Z → A → A) (a : A) :
  0 <= n → (∀ k x, 0 <= k < n → f k x = g k x) → zfor n f a = zfor n g a.
Proof.
  intros Hn Hfg. apply (zfor_rel eq); [done..|]. intros k x y Hk ->. by apply Hfg.
Qed.

(** ** The clock

    [bpf_ktime_get_ns()] reads an external clock.  A run of the programs sees
    the successive readings [reading 0], [reading 1], ...; [ticks] counts the
    readings already consumed. *)

Record clock := Clock { reading : nat → Z; ticks : nat }.

Definition ktime (c : clock) : Z := reading c (ticks c).
Definition ktick (c : clock) : clock := Clock (reading c) (S (ticks c)).

(** What the kernel documents of the clock: 64-bit readings that never go
    back. *)
Definition clock_ok (c : clock) : Prop :=
  (∀ i, is_u64 (reading c i)) ∧ ∀ i j, (i <= j)%nat → reading c i <= reading c j.

Lemma clock_ok_tick c : clock_ok c → clock_ok (ktick c).
Proof. done. Qed.

Lemma ktime_mono c : clock_ok c → ktime c <= ktime (ktick c).
Proof. intros [_ Hm]. apply Hm. simpl. lia. Qed.

Lemma ktime_u64 c : clock_ok c → is_u64 (ktime c).
Proof. intros [Hr _]. apply Hr. Qed.

#[export] Hint Resolve clock_ok_tick ktime_mono ktime_u64 : pv.

(** ** Counting the entries of a finite map that satisfy a test *)

Section map_count.
Context `{Countable K} {V : Type} (P : V → bool).

Definition map_count (m : gmap K V) : Z :=
  map_fold (λ _ v n, Z.b2z (P v) + n) 0 m.

(** The contribution of one key. *)
Definition count_at (m : gmap K V) (k : K) : Z :=
  from_option (λ v, Z.b2z (P v)) 0 (m !! k).

Lemma map_count_empty : map_count ∅ = 0.
Proof. apply map_fold_empty. Qed.

Lemma map_count_insert_fresh m k v :
  m !! k = None → map_count (<[k := v]> m) = Z.b2z (P v) + map_count m.
Proof.
  intros Hk. unfold map_count. rewrite map_fold_insert_L; [done| |done].
  intros. lia.
Qed.

Lemma map_count_delete m k :
  map_count (delete k m) = map_count m - count_at m k.
Proof.
  unfold count_at. destruct (m !! k) as [v|] eqn:E; simpl.
  - rewrite <- (insert_delete_id m k v E) at 2.
    rewrite map_count_insert_fresh by apply lookup_delete_eq. lia.
  - rewrite delete_id by done. lia.
Qed.

Lemma map_count_insert m k v :
  map_count (<[k := v]> m) = map_count m - count_at m k + Z.b2z (P v).
Proof.
  rewrite <- insert_delete_eq.
  rewrite map_count_insert_fresh by apply lookup_delete_eq.
  rewrite map_count_delete. lia.
Qed.

Lemma map_count_nonneg m : 0 <= map_count m.
Proof.
  apply (map_fold_weak_ind (λ n _, 0 <= n)); [lia|].
  intros i x m' r _ Hr. destruct (P x); simpl; lia.
Qed.

Lemma map_count_pos m k v : m !! k = Some v → P v = true → 1 <= map_count m.
Proof.
  intros Hk Hv. rewrite <- (insert_delete_id m k v Hk).
  rewrite map_count_insert_fresh by apply lookup_delete_eq.
  pose proof (map_count_nonneg (delete k m)). rewrite Hv. simpl. lia.
Qed.
End map_count.

(** A test that implies another counts no more entries. *)
Lemma map_count_le `{Countable K} {V} (P Q : V → bool) (m : gmap K V) :
  (∀ v, P v = true → Q v = true) → map_count P m <= map_count Q m.
Proof.
  intros HPQ. induction m as [|k v m Hk IH] using map_ind.
  - by rewrite !map_count_empty.
  - rewrite !map_count_insert_fresh by done.
    specialize (HPQ v). destruct (P v), (Q v); simpl; try lia; naive_solver.
Qed.

(** One entry that satisfies [Q] but not [P] makes the inequality strict. *)
Lemma map_count_lt `{Countable K} {V} (P Q : V → bool) (m : gmap K V) k v :
  (∀ v, P v = true → Q v = true) →
  m !! k = Some v → P v = false → Q v = true → map_count P m < map_count Q m.
Proof.
  intros HPQ Hk HP HQ. rewrite <- (insert_delete_id m k v Hk).
  rewrite !map_count_insert_fresh by apply lookup_delete_eq.
  pose proof (map_count_le P Q (delete k m) HPQ). rewrite HP, HQ. simpl. lia.
Qed.

Lemma map_count_ext `{Countable K} {V} (P Q : V → bool) (m : gmap K V) :
  (∀ k v, m !! k = Some v → P v = Q v) → map_count P m = map_count Q m.
Proof.
  induction m as [|k v m Hk IH] using map_ind; intros HPQ.
  - by rewrite !map_count_empty.
  - rewrite !map_count_insert_fresh by done.
    rewrite (HPQ k v) by apply lookup_insert_eq. f_equal. apply IH.
    intros k' v' Hk'. apply (HPQ k'). rewrite lookup_insert_ne; [done|].
    congruence.
Qed.

(** Removing entries the test rejects anyway does not change the count. *)
Lemma map_count_filter `{Countable K} {V} (P : V → bool) (Q : K * V → Prop)
    `{∀ x, Decision (Q x)} (m : gmap K V) :
  (∀ k v, m !! k = Some v → P v = true → Q (k, v)) →
  map_count P (filter Q m) = map_count P m.
Proof.
  induction m as [|k v m Hk IH] using map_ind; intros HPQ.
  - by rewrite map_filter_empty.
  - assert (Hm : map_count P (filter Q m) = map_count P m).
    { apply IH. intros k' v' Hk'. apply HPQ. rewrite lookup_insert_ne; [done|congruence]. }
    rewrite (map_count_insert_fresh P m) by done. destruct (decide (Q (k, v))) as [HQ|HQ].
    + rewrite map_filter_insert_True, map_count_insert_fresh; [by rewrite Hm| |done].
      apply map_lookup_filter_None. by left.
    + rewrite map_filter_insert_False, delete_id by done. rewrite Hm.
      specialize (HPQ k v (lookup_insert_eq _ _ _)). destruct (P v); [naive_solver|simpl; lia].
Qed.

Lemma map_count_none `{Countable K} {V} (P : V → bool) (m : gmap K V) :
  (∀ k v, m !! k = Some v → P v = false) → map_count P m = 0.
Proof.
  intros HP. rewrite <- (map_count_filter P (λ _, False) m).
  - rewrite (map_empty_filter_2 _ m); [apply map_count_empty|]. intros k v _ Hf. exact Hf.
  - intros k v Hk Hv. rewrite (HP k v Hk) in Hv. done.
Qed.

Lemma count_at_nonneg `{Countable K} {V} (P : V → bool) (m : gmap K V) k : 0 <= count_at P m k.
Proof. unfold count_at. destruct (m !! k) as [v|]; simpl; [destruct (P v); simpl|]; lia. Qed.

(** Distinct entries that satisfy [P] point to distinct entries that satisfy
    [Q]. *)
Lemma map_count_inj `{Countable K, Countable L} {V W} (P : V → bool) (Q : W → bool)
    (f : V → L) (m : gmap K V) (m' : gmap L W) :
  (∀ k v, m !! k = Some v → P v = true → ∃ w, m' !! f v = Some w ∧ Q w = true) →
  (∀ k1 k2 v1 v2, m !! k1 = Some v1 → m !! k2 = Some v2 → P v1 = true → P v2 = true →
     f v1 = f v2 → k1 = k2) →
  map_count P m <= map_count Q m'.
Proof.
  revert m'. induction m as [|k v m Hk IH] using map_ind; intros m' Hf Hinj.
  { rewrite map_count_empty. apply map_count_nonneg. }
  assert (Hne : ∀ k' v', m !! k' = Some v' → <[k := v]> m !! k' = Some v')
    by (intros k' v' Hk'; rewrite lookup_insert_ne; [done|congruence]).
  rewrite map_count_insert_fresh by done. destruct (P v) eqn:HP.
  - destruct (Hf k v (lookup_insert_eq _ _ _) HP) as (w & Hw & HQ).
    rewrite <- (insert_delete_id m' (f v) w Hw).
    rewrite map_count_insert_fresh by apply lookup_delete_eq. rewrite HQ. simpl.
    apply Z.add_le_mono_l, IH.
    + intros k' v' Hk' HP'. destruct (Hf k' v' (Hne _ _ Hk') HP') as (w' & Hw' & HQ').
      exists w'. split; [|done]. rewrite lookup_delete_ne; [done|]. intros He.
      assert (k = k') by (apply (Hinj k k' v v'); [apply lookup_insert_eq|by apply Hne|done..]).
      congruence.
    + intros k1 k2 v1 v2 H1 H2. apply Hinj; auto.
  - simpl. apply IH.
    + intros k' v' Hk'. apply (Hf k' v'). auto.
    + intros k1 k2 v1 v2 H1 H2. apply Hinj; auto.
Qed.

Lemma map_count_split `{Countable K} {V} (P Q R : V → bool) (m : gmap K V) :
  (∀ k v, m !! k = Some v → Z.b2z (P v) = Z.b2z (Q v) + Z.b2z (R v)) →
  map_count P m = map_count Q m + map_count R m.
Proof.
  induction m as [|k v m Hk IH] using map_ind; intros HP.
  { by rewrite !map_count_empty. }
  rewrite !map_count_insert_fresh by done.
  rewrite (HP k v (lookup_insert_eq _ _ _)), IH; [lia|].
  intros k' v' Hk'. apply (HP k'). rewrite lookup_insert_ne; [done|congruence].
Qed.

(** ** Sums over lists *)

Definition zsum (l : list Z) : Z := foldr Z.add 0 l.

Lemma zsum_app l1 l2 : zsum (l1 ++ l2) = zsum l1 + zsum l2.
Proof. induction l1 as [|x l1 IH]; simpl; [done|]. rewrite IH. lia. Qed.

Lemma head_app_snoc {A} (l : list A) x : head (l ++ [x]) = Some (default x (head l)).
Proof. by destruct l. Qed.

(** ** Tactics *)

(** Splits every boolean test of the goal, turning it into a fact [lia]
    understands. *)
Ltac case_bool :=
  match goal with
  | |- context [ if ?b then _ else _ ] =>
      lazymatch b with
      | context [ if _ then _ else _ ] => fail
      | _ => let E := fresh "E" in destruct b eqn:E
      end
  end.

(** Turns boolean hypotheses into propositions. *)
Ltac bool_hyps :=
  repeat match goal with
  | H : (_ && _)%bool = true |- _ => apply andb_true_iff in H as [? ?]
  | H : (_ || _)%bool = false |- _ => apply orb_false_iff in H as [? ?]
  | H : (_ =? _) = true |- _ => apply Z.eqb_eq in H
  | H : (_ =? _) = false |- _ => apply Z.eqb_neq in H
  | H : (_ <? _) = true |- _ => apply Z.ltb_lt in H
  | H : (_ <? _) = false |- _ => apply Z.ltb_ge in H
  | H : (_ <=? _) = true |- _ => apply Z.leb_le in H
  | H : (_ <=? _) = false |- _ => apply Z.leb_gt in H
  | H : (_ >=? _) = true |- _ => rewrite Z.geb_leb in H; apply Z.leb_le in H
  | H : (_ >=? _) = false |- _ => rewrite Z.geb_leb in H; apply Z.leb_gt in H
  | H : (_ >? _) = true |- _ => rewrite Z.gtb_ltb in H; apply Z.ltb_lt in H
  | H : (_ >? _) = false |- _ => rewrite Z.gtb_ltb in H; apply Z.ltb_ge in H
  | H : negb _ = true |- _ => apply negb_true_iff in H
  | H : negb _ = false |- _ => apply negb_false_iff in H
  end.

(** Proves a decidable closed proposition by evaluating its decision. *)
Ltac decide_now := refine (bool_decide_unpack _ _); vm_compute; exact I.
