(* ===== verification/CString.v ===== *)
(** C character arrays and the strings kept in them.

    A [char] is a [Z]; a C string (an [argv] element) is a list of non-zero
    characters; a [char buf[n]] is a list of length [n], its string being the
    characters before the first NUL.  The file models the string functions the
    sources use on zeroed buffers ([strncpy], [snprintf], [strcmp]) and the
    loop, repeated three times in the eBPF programs, that derives the two
    buffer names of a VM from its name. *)

From S2P Require Import Prelude.
From Stdlib Require Ascii String.

(** ** Arrays and strings *)

Definition str (s : String.string) : list Z :=
  (λ a, Z.of_nat (Ascii.nat_of_ascii a)) <$> String.list_ascii_of_string s.

Definition is_cstr (s : list Z) : Prop := Forall (λ c, c ≠ 0) s.

#[global] Instance is_cstr_dec s : Decision (is_cstr s).
Proof. apply Forall_dec. intros; apply _. Defined.

(** [l] followed by NULs up to [n] characters. *)
Definition pad (n : nat) (l : list Z) : list Z := l ++ replicate (n - length l) 0.

(** The string stored in an array: the characters before the first NUL. *)
Fixpoint cstr_of (buf : list Z) : list Z :=
  match buf with
  | [] => []
  | c :: buf' => if c =? 0 then [] else c :: cstr_of buf'
  end.

(** [strcmp(a, b) == 0]. *)
Definition strcmp_eq (a b : list Z) : bool := bool_decide (cstr_of a = cstr_of b).

(** [memset(dst, 0, n); strncpy(dst, src, n - 1)] on [char dst[n]]. *)
Definition strncpy_zeroed (n : nat) (src : list Z) : list Z := pad n (take (n - 1) src).

(** [memset(dst, 0, n); snprintf(dst, n, ...)] where the format produces [out]. *)
Definition snprintf_zeroed (n : nat) (out : list Z) : list Z := pad n (take (n - 1) out).

Definition VM_NAME_LEN : nat := 64.

Definition suffix_1 : list Z := [95; 49].
Definition suffix_2 : list Z := [95; 50].

(** ** The buffer names of a VM, as the eBPF programs compute them *)

(** [for (i = 0; i < VM_NAME_LEN - 3; i++) { c = vm_name[i];
    collection_buff_1[i] = c; collection_buff_2[i] = c; if (c == 0) break; }]:
    [fuel] iterations remain. *)
Fixpoint copy_name (fuel i : nat) (name b1 b2 : list Z) : nat * list Z * list Z :=
  match fuel with
  | O => (i, b1, b2)
  | S fuel' =>
      let c := nth i name 0 in
      let b1 := <[i := c]> b1 in
      let b2 := <[i := c]> b2 in
      if c =? 0 then (i, b1, b2) else copy_name fuel' (S i) name b1 b2
  end.

Definition append_suffix (i : nat) (digit : Z) (b : list Z) : list Z :=
  <[(i + 2)%nat := 0]> (<[(i + 1)%nat := digit]> (<[i := 95]> b)).

(** The pair (collection_buff_1, collection_buff_2) for a 64-byte name. *)
Definition collection_keys (name : list Z) : list Z * list Z :=
  let z := replicate VM_NAME_LEN 0 in
  let '(i, b1, b2) := copy_name (VM_NAME_LEN - 3) 0 name z z in
  (append_suffix i 49 b1, append_suffix i 50 b2).

(** The key user space registers: [snprintf(key, 64, "%s_1", vm_name)]. *)
Definition registry_key (name suffix : list Z) : list Z :=
  snprintf_zeroed VM_NAME_LEN (name ++ suffix).

(** ** Lemmas *)

Lemma length_pad n l : (length l <= n)%nat → length (pad n l) = n.
Proof. intros H. unfold pad. rewrite length_app, length_replicate. lia. Qed.

Lemma length_strncpy n s : (1 <= n)%nat → length (strncpy_zeroed n s) = n.
Proof. intros H. apply length_pad. rewrite length_take. lia. Qed.

Lemma cstr_of_pad n l : is_cstr l → cstr_of (pad n l) = l.
Proof.
  intros Hl. unfold pad. generalize (n - length l)%nat as k.
  induction Hl as [|c l Hc _ IH]; intros k; simpl.
  - by destruct k.
  - apply Z.eqb_neq in Hc. rewrite Hc. f_equal. apply IH.
Qed.

Lemma is_cstr_take n l : is_cstr l → is_cstr (take n l).
Proof. apply Forall_take. Qed.

Lemma is_cstr_cstr_of buf : is_cstr (cstr_of buf).
Proof.
  induction buf as [|c buf IH]; simpl; [constructor|].
  destruct (Z.eqb_spec c 0); constructor; done.
Qed.

Lemma is_cstr_app l1 l2 : is_cstr l1 → is_cstr l2 → is_cstr (l1 ++ l2).
Proof. apply Forall_app_2. Qed.

#[export] Hint Resolve is_cstr_take is_cstr_cstr_of is_cstr_app : pv.

(** Zero-padded C strings determine the string. *)
Lemma pad_inj n l1 l2 : is_cstr l1 → is_cstr l2 → pad n l1 = pad n l2 → l1 = l2.
Proof.
  intros H1 H2 He. rewrite <- (cstr_of_pad n l1), <- (cstr_of_pad n l2) by done.
  by rewrite He.
Qed.

Lemma cstr_of_strncpy n s : is_cstr s → cstr_of (strncpy_zeroed n s) = take (n - 1) s.
Proof. intros Hs. apply cstr_of_pad. auto with pv. Qed.

(** A string shorter than the array is stored whole. *)
Lemma strncpy_short n s :
  (length s < n)%nat → strncpy_zeroed n s = pad n s.
Proof. intros H. unfold strncpy_zeroed. by rewrite take_ge by lia. Qed.

(** Storing a character at the end of the copied prefix. *)
Lemma insert_pad_end n l c :
  (length l < n)%nat → <[length l := c]> (pad n l) = pad n (l ++ [c]).
Proof.
  intros H. unfold pad. rewrite insert_app_r_alt by lia. rewrite Nat.sub_diag.
  destruct (n - length l)%nat as [|k] eqn:E; [lia|]. simpl.
  rewrite <- app_assoc. simpl. do 3 f_equal. rewrite length_app. simpl. lia.
Qed.

Lemma insert_pad_nul n l :
  (length l < n)%nat → <[length l := 0]> (pad n l) = pad n l.
Proof.
  intros H. apply list_insert_id. unfold pad.
  rewrite lookup_app_r, Nat.sub_diag by lia. apply lookup_replicate. split; [done|lia].
Qed.

(** The [i]-th character of an array, seen from its string. *)
Lemma nth_cstr_of i buf :
  (i < length (cstr_of buf))%nat → ∃ c,
    nth i buf 0 = c ∧ c ≠ 0 ∧ take (S i) (cstr_of buf) = take i (cstr_of buf) ++ [c].
Proof.
  revert i. induction buf as [|c buf IH]; intros i; simpl; [lia|].
  destruct (Z.eqb_spec c 0) as [|Hc]; simpl; [lia|].
  destruct i as [|i]; intros Hi.
  - by exists c.
  - destruct (IH i) as (c' & ? & ? & Ht); [lia|].
    exists c'. split; [done|]. split; [done|]. simpl in *. by rewrite <- Ht.
Qed.

Lemma nth_cstr_of_end buf : nth (length (cstr_of buf)) buf 0 = 0.
Proof.
  induction buf as [|c buf IH]; simpl; [done|].
  by destruct (Z.eqb_spec c 0).
Qed.

(** The copy loop leaves the first 61 characters of the name, at most. *)
Lemma copy_name_spec name fuel i :
  let s := cstr_of name in
  (i + fuel < VM_NAME_LEN)%nat → (i <= length s)%nat →
  let b := pad VM_NAME_LEN (take i s) in
  let n := Nat.min (i + fuel) (length s) in
  copy_name fuel i name b b =
    (n, pad VM_NAME_LEN (take n s), pad VM_NAME_LEN (take n s)).
Proof.
  intros s. revert i. induction fuel as [|fuel IH]; intros i Hf Hi; simpl.
  { by replace (Nat.min (i + 0) (length s)) with i by lia. }
  assert (Hlen : length (take i s) = i) by (rewrite length_take; lia).
  destruct (decide (i < length s)%nat) as [Hlt|Hge].
  - destruct (nth_cstr_of i name Hlt) as (c & -> & Hc & Ht).
    apply Z.eqb_neq in Hc. rewrite Hc.
    assert (Hins : <[i := c]> (pad VM_NAME_LEN (take i s)) = pad VM_NAME_LEN (take (S i) s)).
    { fold s in Ht. rewrite Ht, <- insert_pad_end by (rewrite Hlen; lia). by rewrite Hlen. }
    rewrite Hins, IH by lia.
    by replace (S i + fuel)%nat with (i + S fuel)%nat by lia.
  - replace i with (length s) in * by lia.
    pose proof (nth_cstr_of_end name) as Hend. fold s in Hend. rewrite Hend. simpl.
    assert (Hins : <[length s := 0]> (pad VM_NAME_LEN (take (length s) s))
                   = pad VM_NAME_LEN (take (length s) s)).
    { rewrite <- Hlen at 1. apply insert_pad_nul. lia. }
    rewrite Hins.
    by replace (Nat.min (length s + S fuel) (length s)) with (length s) by lia.
Qed.

Lemma append_suffix_pad l d :
  (length l + 3 <= VM_NAME_LEN)%nat →
  append_suffix (length l) d (pad VM_NAME_LEN l) = pad VM_NAME_LEN (l ++ [95; d]).
Proof.
  intros H. unfold append_suffix. rewrite insert_pad_end by lia.
  replace (length l + 1)%nat with (length (l ++ [95])) by (rewrite length_app; simpl; lia).
  rewrite insert_pad_end by (rewrite length_app; simpl; lia).
  replace (length l + 2)%nat with (length ((l ++ [95]) ++ [d]))
    by (rewrite !length_app; simpl; lia).
  rewrite insert_pad_nul by (rewrite !length_app; simpl; lia).
  by rewrite <- app_assoc.
Qed.

(** What the eBPF programs compute: at most 61 characters of the name, then
    the suffix. *)
Lemma collection_keys_spec name :
  let s := take (VM_NAME_LEN - 3) (cstr_of name) in
  collection_keys name =
    (pad VM_NAME_LEN (s ++ suffix_1), pad VM_NAME_LEN (s ++ suffix_2)).
Proof.
  intros s. unfold collection_keys.
  pose proof (copy_name_spec name (VM_NAME_LEN - 3) 0) as Hc.
  cbv zeta in Hc. rewrite take_0 in Hc.
  change (pad VM_NAME_LEN []) with (replicate VM_NAME_LEN 0) in Hc.
  rewrite Hc by (unfold VM_NAME_LEN; lia). clear Hc.
  set (n := Nat.min _ _).
  assert (Hs : take n (cstr_of name) = s).
  { unfold s, n. destruct (decide (length (cstr_of name) <= VM_NAME_LEN - 3)%nat).
    - by rewrite !take_ge by lia.
    - by replace (Nat.min _ _) with (VM_NAME_LEN - 3)%nat by lia. }
  assert (Hn : n = length s) by (unfold s; rewrite length_take; lia).
  rewrite Hs, Hn. rewrite !append_suffix_pad; [done|..];
    unfold s, VM_NAME_LEN; rewrite length_take; lia.
Qed.

(** ** Agreement of the kernel-side and user-side names *)

Module VmKeys.

Lemma keys_agree_short (s : list Z) :
  is_cstr s → (length s <= 61)%nat →
  collection_keys (strncpy_zeroed VM_NAME_LEN s) =
    (registry_key s suffix_1, registry_key s suffix_2).
Proof.
  intros Hs Hlen. rewrite collection_keys_spec, cstr_of_strncpy by done.
  unfold registry_key, snprintf_zeroed.
  rewrite !(take_ge s) by (unfold VM_NAME_LEN; simpl; lia).
  rewrite !take_ge by (rewrite length_app; simpl; lia). done.
Qed.

(** From 62 characters on, user space registers both buffers under one key. *)
Lemma registry_keys_collide (s : list Z) :
  (62 <= length s)%nat → registry_key s suffix_1 = registry_key s suffix_2.
Proof.
  intros Hlen. unfold registry_key, snprintf_zeroed. f_equal.
  rewrite !take_app. f_equal. unfold VM_NAME_LEN.
  destruct (64 - 1 - length s)%nat as [|[|k]] eqn:E; [done..|lia].
Qed.

Lemma suffixes_differ l : is_cstr l →
  pad VM_NAME_LEN (l ++ suffix_1) ≠ pad VM_NAME_LEN (l ++ suffix_2).
Proof.
  intros Hl He. apply pad_inj in He; [simplify_list_eq|..];
    apply is_cstr_app; try done; repeat constructor; lia.
Qed.

(** C36: the buffer names the eBPF programs derive from the stored VM name are
    the keys user space registered in [map_registry] exactly when the name has
    at most 61 characters; from 62 characters on they do not agree. *)
Theorem collection_keys_agree (s : list Z) :
  is_cstr s →
  collection_keys (strncpy_zeroed VM_NAME_LEN s) =
    (registry_key s suffix_1, registry_key s suffix_2) ↔ (length s <= 61)%nat.
Proof.
  intros Hs. split; [|by apply keys_agree_short].
  intros He. destruct (decide (length s <= 61)%nat) as [|Hlong]; [done|exfalso].
  rewrite registry_keys_collide in He by lia.
  rewrite collection_keys_spec in He. injection He as H1 H2.
  eapply suffixes_differ; [|by rewrite H1, H2]. auto with pv.
Qed.

Lemma collection_keys_agree_witness :
  collection_keys (strncpy_zeroed VM_NAME_LEN [118; 109]) =
    (registry_key [118; 109] suffix_1, registry_key [118; 109] suffix_2).
Proof. apply collection_keys_agree; [repeat constructor; lia|simpl; lia]. Defined.

(** Distinct short names never share a key, whichever suffix is appended. *)
Lemma registry_key_inj (s s' x : list Z) :
  is_cstr s → is_cstr s' → x ∈ [suffix_1; suffix_2] →
  (length s <= 61)%nat → (length s' <= 61)%nat →
  registry_key s x = registry_key s' x → s = s'.
Proof.
  intros Hs Hs' Hx Hl Hl' He.
  assert (is_cstr x ∧ length x = 2%nat) as [Hcx Hlx].
  { apply list_elem_of_In in Hx as [<-|[<-|[]]]; split; try done; repeat constructor; lia. }
  unfold registry_key, snprintf_zeroed in He.
  rewrite !take_ge in He by (rewrite length_app, Hlx; unfold VM_NAME_LEN; simpl; lia).
  apply pad_inj in He; auto with pv. by apply app_inv_tail in He.
Qed.

(** A "_1" name is never a "_2" name. *)
Lemma registry_key_suffix_ne (s s' : list Z) :
  is_cstr s → is_cstr s' → (length s <= 61)%nat → (length s' <= 61)%nat →
  registry_key s suffix_1 ≠ registry_key s' suffix_2.
Proof.
  intros Hs Hs' Hl Hl' He. unfold registry_key, snprintf_zeroed in He.
  rewrite !take_ge in He by (rewrite length_app; unfold VM_NAME_LEN; simpl; lia).
  apply pad_inj in He; [|apply is_cstr_app; [done|repeat constructor; lia]..].
  apply (f_equal last) in He. unfold suffix_1, suffix_2 in He.
  change [95; 49] with ([95] ++ [49]) in He. change [95; 50] with ([95] ++ [50]) in He.
  rewrite !app_assoc, !last_snoc in He. congruence.
Qed.
End VmKeys.
