(* ===== verification/BpfMap.v ===== *)
(** BPF maps and the structures stored in them.

    Hash maps are finite maps with a capacity; array maps have a fixed number
    of zero-initialised elements and refuse indices outside it.  The records
    are the structures of [register_vm_bpf.h] and [phantom_tracker.h], with the
    fields of the C types at their widths. *)

From S2P Require Import Prelude CString.

(** ** Array maps *)

Record array_map (V : Type) := ArrayMap { am_max : Z; am_vals : gmap Z V }.
Arguments ArrayMap {V} am_max am_vals.
Arguments am_max {V} a : rename.
Arguments am_vals {V} a : rename.

Definition array_new {V} (max : Z) : array_map V := ArrayMap max ∅.

(** [bpf_map_lookup_elem]: [NULL] outside the array, and the zeroed element
    [zero] where nothing was stored. *)
Definition array_lookup {V} (zero : V) (a : array_map V) (k : Z) : option V :=
  if (0 <=? k) && (k <? am_max a) then Some (default zero (am_vals a !! k)) else None.

(** [bpf_map_update_elem]: [-E2BIG] outside the array. *)
Definition array_update {V} (a : array_map V) (k : Z) (v : V) : array_map V :=
  if (0 <=? k) && (k <? am_max a) then ArrayMap (am_max a) (<[k := v]> (am_vals a)) else a.

(** [bpf_for_each_map_elem] with a callback that always returns 0 visits every
    element in index order. *)
Definition array_for_each {V C} (zero : V) (a : array_map V) (cb : Z → V → C → C) (c : C) : C :=
  zfor (am_max a) (λ k c, cb k (default zero (am_vals a !! k)) c) c.

Section array_map.
Context {V : Type} (zero : V).
Implicit Types a : array_map V.

Lemma array_lookup_update_eq a k v :
  0 <= k < am_max a → array_lookup zero (array_update a k v) k = Some v.
Proof.
  intros Hk. unfold array_lookup, array_update.
  destruct (Z.leb_spec 0 k), (Z.ltb_spec k (am_max a)); try lia; simpl.
  destruct (Z.leb_spec 0 k), (Z.ltb_spec k (am_max a)); try lia; simpl.
  by rewrite lookup_insert_eq.
Qed.

Lemma am_max_update a k v : am_max (array_update a k v) = am_max a.
Proof. unfold array_update. by case_bool. Qed.

Lemma array_lookup_update_ne a k k' v :
  k ≠ k' → array_lookup zero (array_update a k v) k' = array_lookup zero a k'.
Proof.
  intros Hk. unfold array_lookup. rewrite am_max_update. case_bool; [|done].
  f_equal. unfold array_update. case_bool; simpl; [|done].
  by rewrite lookup_insert_ne.
Qed.

(** An update outside the array has no effect. *)
Lemma array_update_oob a k v : am_max a <= k → array_update a k v = a.
Proof.
  intros Hk. unfold array_update. destruct (Z.ltb_spec k (am_max a)); [lia|].
  by rewrite andb_false_r.
Qed.

Lemma array_lookup_in a k :
  0 <= k < am_max a → array_lookup zero a k = Some (default zero (am_vals a !! k)).
Proof.
  intros Hk. unfold array_lookup.
  destruct (Z.leb_spec 0 k), (Z.ltb_spec k (am_max a)); try lia; done.
Qed.

Lemma array_lookup_oob a k : am_max a <= k → array_lookup zero a k = None.
Proof.
  intros Hk. unfold array_lookup. destruct (Z.ltb_spec k (am_max a)); [lia|].
  by rewrite andb_false_r.
Qed.
End array_map.

(** ** Hash maps *)

(** [bpf_map_update_elem(map, key, value, BPF_ANY)] on a hash map with
    [max_entries] entries. *)
Definition hash_update `{Countable K} {V} (max : Z) (k : K) (v : V) (m : gmap K V)
  : result (gmap K V) :=
  match m !! k with
  | Some _ => Ok (<[k := v]> m)
  | None => if Z.of_nat (size m) <? max then Ok (<[k := v]> m) else Err E2BIG
  end.

Section hash_update.
Context `{Countable K} {V : Type}.
Implicit Types m : gmap K V.

Lemma hash_update_ok max k v m m' : hash_update max k v m = Ok m' → m' = <[k := v]> m.
Proof.
  unfold hash_update. destruct (m !! k); [by intros [= <-]|]. case_bool; [by intros [= <-]|done].
Qed.

Lemma hash_update_room max k v m :
  Z.of_nat (size m) < max → hash_update max k v m = Ok (<[k := v]> m).
Proof.
  intros Hs. unfold hash_update. destruct (m !! k); [done|].
  by apply Z.ltb_lt in Hs as ->.
Qed.

Lemma map_size_insert_le k v m : (size (<[k := v]> m) <= size m + 1)%nat.
Proof.
  destruct (m !! k) as [w|] eqn:E.
  - rewrite map_size_insert_Some by done. lia.
  - rewrite map_size_insert_None by done. lia.
Qed.
End hash_update.

Definition VMS_MAX_ENTRIES : Z := 10000000.
Definition VCPUS_MAX_ENTRIES : Z := 10000000.
Definition MAP_REGISTRY_MAX_ENTRIES : Z := 1024.
Definition VM_MAP_MAX_ENTRIES : Z := 1000000.

(** ** Structures *)

(** [struct phantom_count] and [struct global_runnx_sample]: a timestamped
    counter value. *)
Record sample := Sample { count : Z; timestamp : Z }.

Definition sample_zero : sample := Sample 0 0.

Record vm_t := VM {
  qmp_socket : list Z;
  phantom_count : Z;              (* __s64 *)
  collection_buff_1_index : Z;    (* __u32 *)
  collection_buff_2_index : Z;    (* __u32 *)
  is_collectx_in_buff_1 : Z;      (* __u64 *)
  nb_vcpus : Z;                   (* __u32 *)
  h2g_history_index : Z           (* __u32 *)
}.

Record vcpu_t := VCPU {
  vcpu_index : Z;                 (* __u32 *)
  vm_name : list Z;               (* char[VM_NAME_LEN] *)
  is_phantom : Z                  (* __u64 *)
}.

Record global_runnx_tracker_state := Tracker {
  global_runnx_count : Z;         (* __s64 *)
  gt_buff_1_index : Z;            (* __u32 *)
  gt_buff_2_index : Z;            (* __u32 *)
  gt_collectx_in_buff_1 : Z;      (* __u64 *)
  nb_cpus : Z;                    (* __u32 *)
  last_idle_avg : Z;              (* __u64 *)
  global_runnx_avg : Z            (* __u64 *)
}.

Definition tracker_zero : global_runnx_tracker_state := Tracker 0 0 0 0 0 0 0.

#[global] Instance sample_eq_dec : EqDecision sample.
Proof. solve_decision. Defined.
#[global] Instance vm_t_eq_dec : EqDecision vm_t.
Proof. solve_decision. Defined.
#[global] Instance vcpu_t_eq_dec : EqDecision vcpu_t.
Proof. solve_decision. Defined.

(** Field updates. *)
Definition set_phantom_count (c : Z) (vm : vm_t) : vm_t :=
  VM (qmp_socket vm) c (collection_buff_1_index vm) (collection_buff_2_index vm)
     (is_collectx_in_buff_1 vm) (nb_vcpus vm) (h2g_history_index vm).
Definition set_buff_1_index (i : Z) (vm : vm_t) : vm_t :=
  VM (qmp_socket vm) (phantom_count vm) i (collection_buff_2_index vm)
     (is_collectx_in_buff_1 vm) (nb_vcpus vm) (h2g_history_index vm).
Definition set_buff_2_index (i : Z) (vm : vm_t) : vm_t :=
  VM (qmp_socket vm) (phantom_count vm) (collection_buff_1_index vm) i
     (is_collectx_in_buff_1 vm) (nb_vcpus vm) (h2g_history_index vm).
Definition set_collectx (b : Z) (vm : vm_t) : vm_t :=
  VM (qmp_socket vm) (phantom_count vm) (collection_buff_1_index vm)
     (collection_buff_2_index vm) b (nb_vcpus vm) (h2g_history_index vm).
Definition set_history_index (h : Z) (vm : vm_t) : vm_t :=
  VM (qmp_socket vm) (phantom_count vm) (collection_buff_1_index vm)
     (collection_buff_2_index vm) (is_collectx_in_buff_1 vm) (nb_vcpus vm) h.
Definition set_is_phantom (p : Z) (v : vcpu_t) : vcpu_t :=
  VCPU (vcpu_index v) (vm_name v) p.
