(* ===== verification/Atomics.v ===== *)
(** The compare-and-swap loops of [create_maps.bpf.c].

    Both loops read a 64-bit counter shared by all CPUs, give up when it is at
    its bound, and otherwise try to swap in the neighbouring value, at most 24
    times.  The other CPUs are an environment: [env n p] is what they leave in
    [*p] before the [n]-th access this CPU makes to it, given that it held [p].
    [quiet] is the environment that does nothing. *)

From S2P Require Import Prelude.

Definition CAS_ATTEMPTS : nat := 24.

Definition env_t := nat → Z → Z.
Definition quiet : env_t := λ _ p, p.

(** What a loop did: decremented or incremented the counter, found it at the
    bound, or used up its attempts. *)
Inductive cas_outcome := Swapped | AtBound | GaveUp.

Record cas_result := CasResult { cas_ret : Z; cas_mem : Z; cas_how : cas_outcome }.

Fixpoint dec_loop (attempts n : nat) (env : env_t) (p : Z) : cas_result :=
  match attempts with
  | O => let p := env n p in CasResult p p GaveUp
  | S attempts' =>
      let p := env n p in
      let old := p in
      if old <=? 0 then CasResult old p AtBound
      else
        let new := s64 (old - 1) in
        let p := env (S n) p in
        if p =? old then CasResult new new Swapped
        else dec_loop attempts' (S (S n)) env p
  end.

Definition atomic_dec_if_pos (env : env_t) (p : Z) : cas_result :=
  dec_loop CAS_ATTEMPTS 0 env p.

Fixpoint inc_loop (attempts n : nat) (env : env_t) (ceil_val p : Z) : cas_result :=
  match attempts with
  | O => let p := env n p in CasResult p p GaveUp
  | S attempts' =>
      let p := env n p in
      let old := p in
      if old >=? ceil_val then CasResult old p AtBound
      else
        let new := s64 (old + 1) in
        let p := env (S n) p in
        if p =? old then CasResult new new Swapped
        else inc_loop attempts' (S (S n)) env ceil_val p
  end.

Definition atomic_inc_if_lt_ceil (env : env_t) (p ceil_val : Z) : cas_result :=
  inc_loop CAS_ATTEMPTS 0 env ceil_val p.

(** ** Alone on the counter *)

Lemma dec_quiet p :
  is_s64 p → atomic_dec_if_pos quiet p =
    if p <=? 0 then CasResult p p AtBound else CasResult (p - 1) (p - 1) Swapped.
Proof.
  intros Hp. unfold atomic_dec_if_pos, CAS_ATTEMPTS. simpl. unfold quiet.
  destruct (Z.leb_spec p 0); [done|].
  rewrite Z.eqb_refl, s64_id by lia. done.
Qed.

Lemma inc_quiet p c :
  is_s64 p → c < 2 ^ 63 → atomic_inc_if_lt_ceil quiet p c =
    if p >=? c then CasResult p p AtBound else CasResult (p + 1) (p + 1) Swapped.
Proof.
  intros Hp Hc. unfold atomic_inc_if_lt_ceil, CAS_ATTEMPTS. simpl. unfold quiet.
  destruct (p >=? c) eqn:E; [done|]. bool_hyps.
  rewrite Z.eqb_refl, s64_id by lia. done.
Qed.

(** ** Among other CPUs *)

(** The environment keeps the counter between its bounds. *)
Definition env_keeps (lo hi : Z) (env : env_t) : Prop :=
  ∀ n p, lo <= p <= hi → lo <= env n p <= hi.

Lemma dec_loop_bounds hi env a n p :
  hi < 2 ^ 63 → env_keeps 0 hi env → 0 <= p <= hi →
  let r := dec_loop a n env p in
  0 <= cas_mem r <= hi ∧ 0 <= cas_ret r <= hi ∧ cas_ret r = cas_mem r.
Proof.
  intros Hhi Henv. revert n p. induction a as [|a IH]; intros n p Hp; simpl.
  - pose proof (Henv n p Hp). lia.
  - pose proof (Henv n p Hp) as H1. pose proof (Henv (S n) _ H1) as H2.
    destruct (Z.leb_spec (env n p) 0); simpl; [lia|].
    rewrite s64_id by lia. destruct (_ =? _) eqn:E; simpl; [lia|]. by apply IH.
Qed.

Lemma inc_loop_bounds hi env a n p :
  hi < 2 ^ 63 → env_keeps 0 hi env → 0 <= p <= hi →
  let r := inc_loop a n env hi p in
  0 <= cas_mem r <= hi ∧ 0 <= cas_ret r <= hi ∧ cas_ret r = cas_mem r.
Proof.
  intros Hhi Henv. revert n p. induction a as [|a IH]; intros n p Hp; simpl.
  - pose proof (Henv n p Hp). lia.
  - pose proof (Henv n p Hp) as H1. pose proof (Henv (S n) _ H1) as H2.
    destruct (env n p >=? hi) eqn:E; simpl; [lia|]. bool_hyps.
    rewrite s64_id by lia. destruct (_ =? _) eqn:E'; simpl; [lia|]. by apply IH.
Qed.

(** A loop gives up only if every one of its attempts was disturbed between
    its read and its compare-and-swap: a single undisturbed attempt among the
    remaining ones ends it. *)
Lemma dec_loop_progress env a n p :
  (∃ j, (j < a)%nat ∧ ∀ q, env (S (n + 2 * j)) q = q) →
  cas_how (dec_loop a n env p) ≠ GaveUp.
Proof.
  revert n p. induction a as [|a IH]; intros n p (j & Hj & Hq); [lia|]. simpl.
  destruct (Z.leb_spec (env n p) 0); simpl; [done|].
  destruct (Z.eqb_spec (env (S n) (env n p)) (env n p)) as [|Hne]; simpl; [done|].
  apply IH. destruct j as [|j].
  - exfalso. apply Hne. specialize (Hq (env n p)). by rewrite Nat.add_0_r in Hq.
  - exists j. split; [lia|]. intros q.
    replace (S (S (S n) + 2 * j)) with (S (n + 2 * S j)) by lia. apply Hq.
Qed.

Lemma inc_loop_progress env c a n p :
  (∃ j, (j < a)%nat ∧ ∀ q, env (S (n + 2 * j)) q = q) →
  cas_how (inc_loop a n env c p) ≠ GaveUp.
Proof.
  revert n p. induction a as [|a IH]; intros n p (j & Hj & Hq); [lia|]. simpl.
  destruct (env n p >=? c); simpl; [done|].
  destruct (Z.eqb_spec (env (S n) (env n p)) (env n p)) as [|Hne]; simpl; [done|].
  apply IH. destruct j as [|j].
  - exfalso. apply Hne. specialize (Hq (env n p)). by rewrite Nat.add_0_r in Hq.
  - exists j. split; [lia|]. intros q.
    replace (S (S (S n) + 2 * j)) with (S (n + 2 * S j)) by lia. apply Hq.
Qed.
