(* ===== verification/Sampling.v ===== *)
(** Time-weighted averages of a sampled counter.

    Both averaging programs ([timer.bpf.c] and [global_running_tracker.bpf.c])
    walk an array map of timestamped samples and accumulate, for each pair of
    neighbours, the counter value times the time it was held.  This file has
    the reference definition over a list of samples, the machine-width loop
    body the two callbacks share, and the theorem that the loop over the array
    computes the reference when nothing overflows. *)

From S2P Require Import Prelude BpfMap.

(** ** Reference definition *)

(** How long the value of [a] was held; out-of-order neighbours count for
    nothing. *)
Definition held (a b : sample) : Z := Z.max 0 (timestamp b - timestamp a).

Definition area (a b : sample) : Z := Z.max 0 (count a) * held a b.

Fixpoint pair_sum (f : sample → sample → Z) (l : list sample) : Z :=
  match l with
  | a :: (b :: _) as l' => f a b + pair_sum f l'
  | _ => 0
  end.

Definition weighted_sum : list sample → Z := pair_sum area.
Definition weighted_time : list sample → Z := pair_sum held.

(** Sum of value times duration over total duration, rounded down; 0 when no
    time has passed. *)
Definition weighted_avg (l : list sample) : Z :=
  if 0 <? weighted_time l then weighted_sum l / weighted_time l else 0.

(** ** The loop body at machine width *)

(** One callback invocation on element [k] with value [cur], accumulating
    ([__s64 sum], [__u64 total_time]). *)
Definition sample_step (nb : Z) (a : array_map sample) (k : Z) (cur : sample)
    (acc : Z * Z) : Z * Z :=
  if k >=? u32 nb then acc
  else match array_lookup sample_zero a (u32 (k + 1)) with
  | None => acc
  | Some next =>
      if timestamp next <? timestamp cur then acc
      else
        let c := if count cur <? 0 then 0 else count cur in
        let duration := u64 (timestamp next - timestamp cur) in
        (s64 (acc.1 + s64 (c * s64 duration)), u64 (acc.2 + duration))
  end.

(** ** Arrays that hold a list of samples *)

Definition holds (a : array_map sample) (l : list sample) : Prop :=
  Z.of_nat (length l) <= am_max a ∧
  ∀ i x, l !! i = Some x → array_lookup sample_zero a (Z.of_nat i) = Some x.

Lemma holds_nil a : 0 <= am_max a → holds a [].
Proof. intros H. split; [simpl; lia|]. intros i x Hi. by rewrite lookup_nil in Hi. Qed.

(** Storing a sample at index [length l] appends it. *)
Lemma holds_snoc a l x :
  holds a l → Z.of_nat (length l) < am_max a →
  holds (array_update a (Z.of_nat (length l)) x) (l ++ [x]).
Proof.
  intros [Hlen Hl] Hlt. split; [rewrite am_max_update, length_app; simpl; lia|].
  intros i y Hi. apply lookup_snoc_Some in Hi as [[Hi Hy]|[-> ->]].
  - rewrite array_lookup_update_ne by lia. by apply Hl.
  - apply array_lookup_update_eq. lia.
Qed.

(** Storing a sample at index 0 starts a new list. *)
Lemma holds_start a x : 0 < am_max a → holds (array_update a 0 x) [x].
Proof.
  intros H. apply (holds_snoc a [] x); [apply holds_nil; lia|done].
Qed.

(** ** Properties of the reference *)

Section pair_sum.
Context (f : sample → sample → Z).

Lemma pair_sum_cons a b l : pair_sum f (a :: b :: l) = f a b + pair_sum f (b :: l).
Proof. done. Qed.

Lemma pair_sum_snoc l a b :
  pair_sum f (l ++ [a; b]) = pair_sum f (l ++ [a]) + f a b.
Proof.
  induction l as [|x l IH]; [simpl; lia|].
  destruct l as [|y l]; simpl in *; [lia|]. rewrite IH. lia.
Qed.

(** The sum over a prefix grows by the next pair. *)
Lemma pair_sum_take l i a b :
  l !! i = Some a → l !! S i = Some b →
  pair_sum f (take (S (S i)) l) = pair_sum f (take (S i) l) + f a b.
Proof.
  intros Ha Hb. rewrite (take_S_r l (S i) b), (take_S_r l i a) by done.
  rewrite <- app_assoc. apply pair_sum_snoc.
Qed.

Lemma pair_sum_nonneg l : (∀ a b, 0 <= f a b) → 0 <= pair_sum f l.
Proof.
  intros Hf. induction l as [|a l IH]; simpl; [lia|].
  destruct l as [|b l]; [lia|]. specialize (Hf a b). lia.
Qed.

(** A prefix sums to no more than the whole. *)
Lemma pair_sum_take_le l n :
  (∀ a b, 0 <= f a b) → pair_sum f (take n l) <= pair_sum f l.
Proof.
  intros Hf. revert n. induction l as [|a l IH]; intros n; [by rewrite take_nil|].
  destruct n as [|n]; [apply pair_sum_nonneg; done|].
  specialize (IH n). destruct l as [|b l]; simpl; [by rewrite take_nil|].
  destruct n as [|n]; simpl in *; [|lia].
  pose proof (pair_sum_nonneg (b :: l) Hf). specialize (Hf a b). simpl in *. lia.
Qed.
End pair_sum.

Lemma held_nonneg a b : 0 <= held a b.
Proof. unfold held. lia. Qed.

Lemma area_nonneg a b : 0 <= area a b.
Proof. unfold area. pose proof (held_nonneg a b). nia. Qed.

#[export] Hint Resolve held_nonneg area_nonneg : pv.

Lemma weighted_time_nonneg l : 0 <= weighted_time l.
Proof. apply pair_sum_nonneg. auto with pv. Qed.

Lemma weighted_sum_nonneg l : 0 <= weighted_sum l.
Proof. apply pair_sum_nonneg. auto with pv. Qed.

(** With all values at most [c], the area is at most [c] times the time. *)
Lemma weighted_sum_le c l :
  0 <= c → Forall (λ x, count x <= c) l → weighted_sum l <= c * weighted_time l.
Proof.
  intros Hc Hl. unfold weighted_sum, weighted_time.
  induction Hl as [|a l Ha Hl IH]; [simpl; lia|].
  destruct l as [|b l]; [simpl; lia|]. rewrite !pair_sum_cons, Z.mul_add_distr_l.
  pose proof (held_nonneg a b). unfold area at 1.
  assert (Z.max 0 (count a) * held a b <= c * held a b) by (apply Z.mul_le_mono_nonneg_r; lia).
  lia.
Qed.

Lemma weighted_sum_ge c l :
  Forall (λ x, c <= count x) l → c * weighted_time l <= weighted_sum l.
Proof.
  intros Hl. unfold weighted_sum, weighted_time.
  induction Hl as [|a l Ha Hl IH]; [simpl; lia|].
  destruct l as [|b l]; [simpl; lia|]. rewrite !pair_sum_cons, Z.mul_add_distr_l.
  pose proof (held_nonneg a b). unfold area at 1.
  assert (c * held a b <= Z.max 0 (count a) * held a b) by (apply Z.mul_le_mono_nonneg_r; lia).
  lia.
Qed.

Lemma weighted_avg_bounds lo hi l :
  0 <= lo <= hi → Forall (λ x, lo <= count x <= hi) l →
  0 <= weighted_avg l <= hi ∧ (0 < weighted_time l → lo <= weighted_avg l).
Proof.
  intros Hlo Hl. unfold weighted_avg.
  destruct (Z.ltb_spec 0 (weighted_time l)) as [Ht|Ht]; [|lia].
  assert (lo * weighted_time l <= weighted_sum l).
  { apply weighted_sum_ge. eapply Forall_impl; [done|]. simpl. lia. }
  assert (weighted_sum l <= hi * weighted_time l).
  { apply weighted_sum_le; [lia|]. eapply Forall_impl; [done|]. simpl. lia. }
  assert (lo <= weighted_sum l / weighted_time l)
    by (apply Z.div_le_lower_bound; lia).
  assert (weighted_sum l / weighted_time l <= hi)
    by (apply Z.div_le_upper_bound; lia).
  lia.
Qed.

(** In-order samples cover the whole interval: the durations telescope. *)
Definition in_order (l : list sample) : Prop :=
  ∀ i a b, l !! i = Some a → l !! S i = Some b → timestamp a <= timestamp b.

Lemma in_order_tail a l : in_order (a :: l) → in_order l.
Proof. intros H i. apply (H (S i)). Qed.

Lemma in_order_snoc l x :
  in_order l → (∀ y, last l = Some y → timestamp y <= timestamp x) → in_order (l ++ [x]).
Proof.
  intros Hl Hx i a b Ha Hb.
  apply lookup_snoc_Some in Hb as [[Hi Hb]|[Hi ->]].
  - rewrite lookup_app_l in Ha by lia. by eapply Hl.
  - rewrite lookup_app_l in Ha by lia. apply Hx.
    rewrite last_lookup, <- Hi. done.
Qed.

Lemma weighted_time_in_order l a b :
  in_order l → head l = Some a → last l = Some b →
  weighted_time l = timestamp b - timestamp a.
Proof.
  revert a. induction l as [|x l IH]; intros a Ho Ha Hb; [done|]. simplify_eq/=.
  destruct l as [|y l]; simplify_eq/=; [unfold weighted_time; simpl; lia|].
  unfold weighted_time in *. simpl in *. rewrite (IH y); [|by eapply in_order_tail|done..].
  unfold held. specialize (Ho 0%nat a y eq_refl eq_refl). lia.
Qed.

(** They take no longer than from the first one to any later time. *)
Lemma weighted_time_span l x t :
  in_order l → head l = Some x → Forall (λ y, timestamp y <= t) l →
  weighted_time l <= t - timestamp x.
Proof.
  intros Ho Hx Hl. destruct (last l) as [y|] eqn:Hy.
  - rewrite (weighted_time_in_order l x y) by done. apply last_Some_elem_of in Hy.
    rewrite Forall_forall in Hl. specialize (Hl y Hy). lia.
  - apply last_None in Hy. by subst.
Qed.

(** In-order samples of values up to [c], over a time that times [c] fits the
    accumulator: no prefix overflows. *)
Lemma take_no_overflow c l x y m :
  0 <= c → in_order l → head l = Some x → last l = Some y →
  Forall (λ z, 0 <= count z <= c) l → 0 <= timestamp x → timestamp y < 2 ^ 64 →
  c * (timestamp y - timestamp x) < 2 ^ 63 →
  weighted_sum (take m l) < 2 ^ 63 ∧ weighted_time (take m l) < 2 ^ 64.
Proof.
  intros Hc Ho Hx Hy Hr Hx0 Hyu Hprod.
  pose proof (weighted_time_in_order l x y Ho Hx Hy) as Ht.
  pose proof (pair_sum_take_le held l m held_nonneg) as Ht'.
  pose proof (pair_sum_take_le area l m area_nonneg) as Hs'.
  assert (Hle : weighted_sum l <= c * weighted_time l).
  { apply weighted_sum_le; [lia|]. eapply Forall_impl; [exact Hr|]. simpl. lia. }
  fold (weighted_sum l) (weighted_sum (take m l)) in Hs'.
  fold (weighted_time l) (weighted_time (take m l)) in Ht'.
  rewrite Ht in Hle. lia.
Qed.

(** At most [N] samples, in any order: a bound on each pair bounds the sum. *)
Lemma pair_sum_scaled f N M l :
  0 < N → 0 < M → Z.of_nat (length l) <= N →
  (∀ a b, a ∈ l → b ∈ l → 0 <= f a b ∧ N * f a b < M) → pair_sum f l < M.
Proof.
  intros HN HM Hlen Hf.
  assert (N * pair_sum f l <= Z.of_nat (length l) * (M - 1)) as Hle.
  { clear Hlen. induction l as [|a [|b l] IH]; [simpl; lia|simpl; lia|]. rewrite pair_sum_cons.
    destruct (Hf a b) as [_ Hab]; [set_solver|set_solver|].
    assert (N * pair_sum f (b :: l) <= Z.of_nat (length (b :: l)) * (M - 1)) by (apply IH; set_solver).
    simpl length in *. lia. }
  assert (Z.of_nat (length l) * (M - 1) <= N * (M - 1)) by (apply Z.mul_le_mono_nonneg_r; lia). nia.
Qed.

Lemma scattered_no_overflow c t N l :
  0 < c → 0 < N → Z.of_nat (length l) <= N →
  Forall (λ x, 0 <= count x <= c ∧ timestamp x <= t ∧ N * (c * (t - timestamp x)) < 2 ^ 63) l →
  weighted_sum l < 2 ^ 63 ∧ weighted_time l < 2 ^ 64.
Proof.
  intros Hc HN Hlen Hl. rewrite Forall_forall in Hl.
  assert (∀ a b, a ∈ l → b ∈ l → held a b <= t - timestamp a) as Hh.
  { intros a b Ha Hb. destruct (Hl a Ha), (Hl b Hb). unfold held. lia. }
  split; (apply (pair_sum_scaled _ N); [lia..|done|]); intros a b Ha Hb.
  - split; [apply area_nonneg|]. destruct (Hl a Ha) as (Hca & _ & Hb3). specialize (Hh a b Ha Hb).
    pose proof (held_nonneg a b). eapply Z.le_lt_trans; [|exact Hb3].
    apply Z.mul_le_mono_nonneg_l; [lia|]. unfold area. apply Z.mul_le_mono_nonneg; lia.
  - split; [apply held_nonneg|]. destruct (Hl a Ha) as (_ & Hta & Hb3). specialize (Hh a b Ha Hb).
    pose proof (held_nonneg a b).
    assert (N * held a b <= N * (c * (t - timestamp a))) by (apply Z.mul_le_mono_nonneg_l; [lia|nia]).
    lia.
Qed.

(** ** The machine loop computes the reference *)

Section machine.
Context (a : array_map sample) (l : list sample) (nb : Z).
Context (Hholds : holds a l) (Hlen : Z.of_nat (length l) = nb + 1).
Context (Hnb : is_u32 nb).
Context (Hts : Forall (λ x, is_u64 (timestamp x)) l).
Context (Hsum : weighted_sum l < 2 ^ 63) (Htime : weighted_time l < 2 ^ 64).

Lemma sample_step_ok k x :
  0 <= k < nb → l !! Z.to_nat k = Some x →
  sample_step nb a k x
    (weighted_sum (take (S (Z.to_nat k)) l), weighted_time (take (S (Z.to_nat k)) l)) =
  (weighted_sum (take (S (S (Z.to_nat k))) l), weighted_time (take (S (S (Z.to_nat k))) l)).
Proof using All.
  intros Hk Hx. destruct Hholds as [_ Hl].
  destruct (lookup_lt_is_Some_2 l (S (Z.to_nat k))) as [y Hy]; [lia|].
  unfold sample_step. rewrite u32_id by lia.
  destruct (k >=? nb) eqn:E; bool_hyps; [lia|].
  rewrite u32_id by lia. replace (k + 1) with (Z.of_nat (S (Z.to_nat k))) by lia.
  rewrite (Hl _ _ Hy). unfold weighted_sum, weighted_time in *.
  pose proof (pair_sum_take area l (Z.to_nat k) x y Hx Hy) as Hs.
  pose proof (pair_sum_take held l (Z.to_nat k) x y Hx Hy) as Ht.
  pose proof (pair_sum_take_le area l (S (S (Z.to_nat k)))) as Hs'.
  pose proof (pair_sum_take_le held l (S (S (Z.to_nat k)))) as Ht'.
  pose proof (pair_sum_nonneg area (take (S (Z.to_nat k)) l)) as Hs0.
  pose proof (pair_sum_nonneg held (take (S (Z.to_nat k)) l)) as Ht0.
  do 4 (match goal with H : (∀ a b, _) → _ |- _ => specialize (H ltac:(auto with pv)) end).
  rewrite Forall_lookup in Hts. pose proof (Hts _ _ Hx). pose proof (Hts _ _ Hy).
  rewrite Hs, Ht in *. clear Hs Ht.
  destruct (Z.ltb_spec (timestamp y) (timestamp x)) as [Hlt|Hge].
  { assert (Hh : held x y = 0) by (unfold held; lia).
    assert (Ha : area x y = 0) by (unfold area; rewrite Hh; lia).
    by rewrite Hh, Ha, !Z.add_0_r. }
  simpl. assert (Hh : held x y = timestamp y - timestamp x) by (unfold held; lia).
  assert (Ha : area x y = Z.max 0 (count x) * (timestamp y - timestamp x))
    by (unfold area; by rewrite Hh).
  rewrite Hh, Ha in *. clear Hh Ha.
  rewrite (u64_id (timestamp y - timestamp x)) by lia.
  assert (Hc : (if count x <? 0 then 0 else count x) = Z.max 0 (count x)).
  { destruct (Z.ltb_spec (count x) 0); lia. }
  rewrite Hc. clear Hc. set (c := Z.max 0 (count x)) in *.
  set (d := timestamp y - timestamp x) in *.
  assert (s64 (c * s64 d) = c * d) as ->.
  { destruct (decide (c = 0)) as [->|]; [done|].
    assert (0 <= d ∧ 0 < c) by lia. assert (d <= c * d) by nia.
    rewrite (s64_id d) by lia. apply s64_id. lia. }
  assert (0 <= c * d) by (apply Z.mul_nonneg_nonneg; lia).
  rewrite s64_id, u64_id by lia. done.
Qed.

(** The [bpf_for_each_map_elem] loop over the whole array accumulates the
    reference sums. *)
Lemma for_each_weighted :
  array_for_each sample_zero a (sample_step nb a) (0, 0) = (weighted_sum l, weighted_time l).
Proof using All.
  unfold array_for_each.
  pose proof Hholds as [Hmax Hl].
  set (I k acc := acc =
    (weighted_sum (take (S (Nat.min (Z.to_nat k) (Z.to_nat nb))) l),
     weighted_time (take (S (Nat.min (Z.to_nat k) (Z.to_nat nb))) l))).
  enough (I (am_max a) (zfor (am_max a)
    (λ k c, sample_step nb a k (default sample_zero (am_vals a !! k)) c) (0, 0))) as HI.
  { unfold I in HI. rewrite HI. rewrite !take_ge by lia. done. }
  apply zfor_ind; [lia| |].
  - unfold I. simpl. destruct l as [|x l']; simpl; [done|by destruct l'].
  - intros k acc Hk ->. unfold I. destruct (decide (k < nb)) as [Hlt|Hge].
    + destruct (lookup_lt_is_Some_2 l (Z.to_nat k)) as [x Hx]; [lia|].
      pose proof (Hl _ _ Hx) as Hax. rewrite Z2Nat.id in Hax by lia.
      rewrite array_lookup_in in Hax by lia. simplify_eq.
      rewrite !Nat.min_l by lia. rewrite sample_step_ok by (done || lia).
      by replace (Z.to_nat (k + 1)) with (S (Z.to_nat k)) by lia.
    + unfold sample_step. rewrite u32_id by lia.
      destruct (k >=? nb) eqn:E; bool_hyps; [|lia].
      by rewrite !Nat.min_r by lia.
Qed.
End machine.

(** ** Buffers that overflow *)

(** An array that holds the samples of [l] that fit in it: appending beyond
    the end changes nothing. *)
Definition fits (a : array_map sample) (l : list sample) : list sample :=
  take (Z.to_nat (am_max a)) l.

Lemma fits_snoc a l x :
  holds a (fits a l) →
  holds (array_update a (Z.of_nat (length l)) x)
        (fits (array_update a (Z.of_nat (length l)) x) (l ++ [x])).
Proof.
  unfold fits. intros Hh. rewrite am_max_update.
  destruct (decide (Z.of_nat (length l) < am_max a)) as [Hlt|Hge].
  - rewrite take_ge in Hh by lia. rewrite take_ge by (rewrite length_app; simpl; lia).
    by apply holds_snoc.
  - rewrite array_update_oob by lia. rewrite take_app_le by lia. done.
Qed.

Lemma fits_start a x : 0 < am_max a → holds (array_update a 0 x) (fits (array_update a 0 x) [x]).
Proof.
  intros Ha. unfold fits. rewrite am_max_update, take_ge by (simpl; lia).
  by apply holds_start.
Qed.

(** Elements from the last one on contribute nothing, whatever the claimed
    number of samples. *)
Lemma for_each_clip a nb :
  0 < am_max a < 2 ^ 32 → am_max a - 1 <= nb < 2 ^ 32 →
  array_for_each sample_zero a (sample_step nb a) (0, 0) =
  array_for_each sample_zero a (sample_step (am_max a - 1) a) (0, 0).
Proof.
  intros Ha Hnb. apply zfor_ext; [lia|]. intros k acc Hk. unfold sample_step.
  rewrite !(u32_id nb), !(u32_id (am_max a - 1)) by lia.
  destruct (decide (k < am_max a - 1)) as [Hlt|Hge].
  - destruct (k >=? nb) eqn:E1, (k >=? am_max a - 1) eqn:E2; bool_hyps; try lia; done.
  - destruct (k >=? am_max a - 1) eqn:E2; bool_hyps; [|lia].
    rewrite u32_id by lia. rewrite array_lookup_oob by lia. by destruct (k >=? nb).
Qed.

(** The loop over a buffer into which [l] was stored, the last sample being
    the [nb]-th: the reference sums of the samples that fitted. *)
Lemma for_each_fits a l nb :
  0 < am_max a < 2 ^ 32 → holds a (fits a l) → Z.of_nat (length l) = nb + 1 → is_u32 nb →
  Forall (λ x, is_u64 (timestamp x)) l →
  weighted_sum (fits a l) < 2 ^ 63 → weighted_time (fits a l) < 2 ^ 64 →
  array_for_each sample_zero a (sample_step nb a) (0, 0) =
    (weighted_sum (fits a l), weighted_time (fits a l)).
Proof.
  intros Ha Hh Hlen Hnb Hts Hs Ht.
  assert (Hts' : Forall (λ x, is_u64 (timestamp x)) (fits a l)) by by apply Forall_take.
  destruct (decide (nb < am_max a)) as [Hlt|Hge].
  - apply for_each_weighted; try done. unfold fits. rewrite take_ge by lia. done.
  - rewrite for_each_clip by lia. apply for_each_weighted; try done; [|lia].
    unfold fits. rewrite length_take. lia.
Qed.
