(* ===== verification/Host.v ===== *)
(** The state the host programs share, and the interface they use.

    The pinned BPF maps ([vms], [vcpus], [map_registry] with its inner array
    maps, [global_tracker_state]) are one record, together with the clock and
    the state [S] of the kernel module that exports the ivshmem kfuncs.  The
    eBPF programs are written against the class [HostKfuncs]; its instance is
    the module [host_ivshmem.c]. *)

From S2P Require Import Prelude CString BpfMap.

(** The kfuncs of [host_ivshmem.ko]: publish one word in a host-to-guest slot,
    read one word of a guest-to-host slot. *)
Class HostKfuncs (S : Type) := {
  bpf_host_ivshmem_h2g_write : S → Z → Z → S * result unit;
  bpf_host_ivshmem_g2h_read : S → Z → result Z
}.

(** Number of messages in a page: [PVSCHED_IVSHMEM_PAGE_SIZE] is the 4 KiB
    page size, a message is one word and seven words of padding. *)
Definition PAGE_SIZE : Z := 4096.
Definition MSG_SIZE : Z := 64.
Definition NR_HOST_IVSHMEM_MSGS : Z := PAGE_SIZE / MSG_SIZE.
Definition NR_GUEST_IVSHMEM_MSGS : Z := PAGE_SIZE / MSG_SIZE.
Definition H2G_LATEST_SLOT : Z := 0.
Definition H2G_FIRST_HISTORY_SLOT : Z := 1.

(** What the publishing programs rely on: a write to a history slot is
    accepted, updates that slot and the latest slot and no other, and leaves
    the guest-to-host words alone. [h2g_view] is the guest's view of a slot. *)
Class HostKfuncsLaws (S : Type) `{HostKfuncs S} := {
  h2g_ready : S → Prop;
  h2g_view : S → Z → option Z;
  h2g_write_history s i m :
    h2g_ready s → H2G_FIRST_HISTORY_SLOT <= i < NR_HOST_IVSHMEM_MSGS → is_u64 m →
    ∃ s', bpf_host_ivshmem_h2g_write s i m = (s', Ok tt) ∧ h2g_ready s' ∧
      h2g_view s' i = Some m ∧ h2g_view s' H2G_LATEST_SLOT = Some m ∧
      (∀ j, j ≠ i → j ≠ H2G_LATEST_SLOT → h2g_view s' j = h2g_view s j) ∧
      (∀ j, 0 <= j → bpf_host_ivshmem_g2h_read s' j = bpf_host_ivshmem_g2h_read s j);
  h2g_write_latest s m :
    h2g_ready s →
    bpf_host_ivshmem_h2g_write s H2G_LATEST_SLOT m = (s, Err EINVAL)
}.

Record host (S : Type) := Host {
  vms : gmap (list Z) vm_t;
  vcpus : gmap Z vcpu_t;
  map_registry : gmap (list Z) Z;
  inner_maps : gmap Z (array_map sample);
  global_tracker_state : array_map global_runnx_tracker_state;
  clk : clock;
  shmem : S
}.
Arguments Host {S} _ _ _ _ _ _ _.
Arguments vms {S} h : rename.
Arguments vcpus {S} h : rename.
Arguments map_registry {S} h : rename.
Arguments inner_maps {S} h : rename.
Arguments global_tracker_state {S} h : rename.
Arguments clk {S} h : rename.
Arguments shmem {S} h : rename.

Section host.
Context {S : Type}.
Implicit Types st : host S.

(** Writing a field of a map value in place. *)
Definition put_vm (name : list Z) (vm : vm_t) st : host S :=
  Host (<[name := vm]> (vms st)) (vcpus st) (map_registry st) (inner_maps st)
       (global_tracker_state st) (clk st) (shmem st).

Definition put_vcpu (tid : Z) (v : vcpu_t) st : host S :=
  Host (vms st) (<[tid := v]> (vcpus st)) (map_registry st) (inner_maps st)
       (global_tracker_state st) (clk st) (shmem st).

(** [bpf_map_update_elem] on an inner map reached through [map_registry]. *)
Definition put_sample (mid idx : Z) (x : sample) st : host S :=
  match inner_maps st !! mid with
  | None => st
  | Some a =>
      Host (vms st) (vcpus st) (map_registry st)
           (<[mid := array_update a idx x]> (inner_maps st))
           (global_tracker_state st) (clk st) (shmem st)
  end.

(** [bpf_ktime_get_ns()]. *)
Definition now st : Z := ktime (clk st).
Definition tick st : host S :=
  Host (vms st) (vcpus st) (map_registry st) (inner_maps st)
       (global_tracker_state st) (ktick (clk st)) (shmem st).

Definition set_shmem (s : S) st : host S :=
  Host (vms st) (vcpus st) (map_registry st) (inner_maps st)
       (global_tracker_state st) (clk st) s.
End host.

(** ** The counters, without the buffer bookkeeping *)

Definition core (vm : vm_t) : Z * Z := (phantom_count vm, nb_vcpus vm).

Definition counts {S} (st : host S) : gmap (list Z) (Z * Z) := core <$> vms st.

(** States that agree on the vCPUs and on every VM's counter and ceiling. *)
Definition same_counts {S} (st st' : host S) : Prop :=
  vcpus st' = vcpus st ∧ counts st' = counts st.

#[global] Instance same_counts_preorder {S} : PreOrder (@same_counts S).
Proof.
  split; [done|]. intros x y z [H1 H2] [H3 H4]. split; congruence.
Qed.

Section counts.
Context {S : Type}.
Implicit Types st : host S.

Lemma counts_lookup st n vm :
  vms st !! n = Some vm → counts st !! n = Some (phantom_count vm, nb_vcpus vm).
Proof. intros H. unfold counts. by rewrite lookup_fmap, H. Qed.

Lemma counts_put_vm st n vm :
  counts (put_vm n vm st) = <[n := core vm]> (counts st).
Proof. unfold counts. simpl. by rewrite fmap_insert. Qed.

(** Rewriting the bookkeeping fields of a VM leaves the counters alone. *)
Lemma same_counts_put_vm st n vm vm' :
  vms st !! n = Some vm → core vm' = core vm → same_counts st (put_vm n vm' st).
Proof.
  intros Hn Hc. split; [done|]. rewrite counts_put_vm, Hc.
  apply insert_id. by apply counts_lookup.
Qed.

Lemma same_counts_put_sample st m i x : same_counts st (put_sample m i x st).
Proof. unfold put_sample. by destruct (inner_maps st !! m). Qed.

Lemma same_counts_tick st : same_counts st (tick st).
Proof. done. Qed.

Lemma same_counts_set_shmem st s : same_counts st (set_shmem s st).
Proof. done. Qed.
End counts.

#[export] Hint Resolve same_counts_put_sample same_counts_tick same_counts_set_shmem : pv.
