(* ===== verification/Memory.v ===== *)
(** Byte-addressed shared memory and the layout of an ivshmem backend.

    A region has a size and zero-initialised bytes; loads and stores of
    little-endian words outside the region are a [Fault].  The second part is
    the layout both kernel modules agree on: [struct ivshmem_header] in the
    metadata page, one host-to-guest page, then the guest-to-host pages. *)

From S2P Require Import Prelude Host.

Record mem := Mem { m_size : Z; m_bytes : gmap Z Z }.

Definition mem_new (size : Z) : mem := Mem size ∅.

Definition byte_at (bs : gmap Z Z) (off : Z) : Z := default 0 (bs !! off).

Fixpoint load_le (n : nat) (off : Z) (bs : gmap Z Z) : Z :=
  match n with
  | O => 0
  | S n' => byte_at bs off + 256 * load_le n' (off + 1) bs
  end.

Fixpoint store_le (n : nat) (off v : Z) (bs : gmap Z Z) : gmap Z Z :=
  match n with
  | O => bs
  | S n' => store_le n' (off + 1) (v / 256) (<[off := v mod 256]> bs)
  end.

Definition in_region (m : mem) (off : Z) (n : nat) : bool :=
  (0 <=? off) && (off + Z.of_nat n <=? m_size m).

Definition load (n : nat) (m : mem) (off : Z) : result Z :=
  if in_region m off n then Ok (load_le n off (m_bytes m)) else Fault.

Definition store (n : nat) (m : mem) (off v : Z) : result mem :=
  if in_region m off n then Ok (Mem (m_size m) (store_le n off v (m_bytes m))) else Fault.

(** ** Loads after stores *)

Lemma byte_at_store_out n off v bs i :
  i < off ∨ off + Z.of_nat n <= i → byte_at (store_le n off v bs) i = byte_at bs i.
Proof.
  revert off v bs. induction n as [|n IH]; intros off v bs Hi; simpl; [done|].
  rewrite IH by lia. unfold byte_at. by rewrite lookup_insert_ne by lia.
Qed.

Lemma load_le_store_out n n' off off' v bs :
  off' + Z.of_nat n' <= off ∨ off + Z.of_nat n <= off' →
  load_le n' off' (store_le n off v bs) = load_le n' off' bs.
Proof.
  revert off'. induction n' as [|n' IH]; intros off' Hd; simpl; [done|].
  rewrite byte_at_store_out, IH by lia. done.
Qed.

Lemma load_le_store n off v bs :
  load_le n off (store_le n off v bs) = v mod 256 ^ Z.of_nat n.
Proof.
  revert off v bs. induction n as [|n IH]; intros off v bs; simpl.
  { by rewrite Z.mod_1_r. }
  rewrite IH, byte_at_store_out by lia.
  unfold byte_at. rewrite lookup_insert_eq. simpl.
  rewrite Nat2Z.inj_succ, Z.pow_succ_r by lia.
  rewrite Z.rem_mul_r by lia. lia.
Qed.

Lemma load_le_range n off bs :
  (∀ i, 0 <= byte_at bs i < 256) → 0 <= load_le n off bs < 256 ^ Z.of_nat n.
Proof.
  intros Hb. revert off. induction n as [|n IH]; intros off; simpl; [lia|].
  rewrite Nat2Z.inj_succ, Z.pow_succ_r by lia.
  specialize (IH (off + 1)). specialize (Hb off). lia.
Qed.

Section mem.
Implicit Types m : mem.

Lemma in_region_true m off n :
  in_region m off n = true ↔ 0 <= off ∧ off + Z.of_nat n <= m_size m.
Proof. unfold in_region. rewrite andb_true_iff, Z.leb_le, Z.leb_le. done. Qed.

(** A store into the region succeeds, keeps the size, is read back, and
    leaves every disjoint word as it was. *)
Lemma store_spec n m off v :
  0 <= off → off + Z.of_nat n <= m_size m → ∃ m',
    store n m off v = Ok m' ∧ m_size m' = m_size m ∧
    load n m' off = Ok (v mod 256 ^ Z.of_nat n) ∧
    ∀ n' off', off' + Z.of_nat n' <= off ∨ off + Z.of_nat n <= off' →
      load n' m' off' = load n' m off'.
Proof.
  intros H0 H1. unfold store, load.
  assert (in_region m off n = true) as E by by apply in_region_true.
  rewrite E. eexists. split; [done|]. split; [done|].
  unfold in_region in *. simpl. rewrite E. split; [by rewrite load_le_store|].
  intros n' off' Hd. by rewrite load_le_store_out.
Qed.

Lemma load_fault n m off : m_size m < off + Z.of_nat n → load n m off = Fault.
Proof.
  intros H. unfold load, in_region.
  destruct (Z.leb_spec (off + Z.of_nat n) (m_size m)); [lia|]. by rewrite andb_false_r.
Qed.

Lemma load_in_region n m off :
  0 <= off → off + Z.of_nat n <= m_size m → load n m off = Ok (load_le n off (m_bytes m)).
Proof. intros H0 H1. unfold load. by rewrite (proj2 (in_region_true m off n)). Qed.
End mem.

(** ** The layout of a backend *)

Definition PVSCHED_MAGIC : Z := 1213551437. (* 0x4856534D *)
Definition PVSCHED_VERSION : Z := 1.
Definition HOST_NB_METADATA_PAGES : Z := 1.

Definition HOST_IVSHMEM_H2G_OFFSET : Z := PAGE_SIZE.
Definition HOST_IVSHMEM_G2H_OFFSET : Z := PAGE_SIZE + PAGE_SIZE.

Record ivshmem_header := Header {
  magic : Z;              (* __u32 *)
  version : Z;            (* __u32 *)
  latest_slot : Z;        (* __u32 *)
  h2g_page_offset : Z;    (* __u64 *)
  h2g_page_size : Z;      (* __u64 *)
  g2h_page_offset : Z;    (* __u64 *)
  g2h_page_size : Z       (* __u64 *)
}.

#[global] Instance ivshmem_header_eq_dec : EqDecision ivshmem_header.
Proof. solve_decision. Defined.

(** Field offsets: four bytes of padding follow [latest_slot]. *)
Definition HEADER_SIZE : Z := 48.

Local Open Scope pv_scope.

Definition write_header (m : mem) (h : ivshmem_header) : result mem :=
  let! m := store 4 m 0 (magic h) in
  let! m := store 4 m 4 (version h) in
  let! m := store 4 m 8 (latest_slot h) in
  let! m := store 8 m 16 (h2g_page_offset h) in
  let! m := store 8 m 24 (h2g_page_size h) in
  let! m := store 8 m 32 (g2h_page_offset h) in
  store 8 m 40 (g2h_page_size h).

(** [memcpy_fromio(&hdr, metadata_page, sizeof(hdr))]. *)
Definition read_header (m : mem) : result ivshmem_header :=
  let! a := load 4 m 0 in
  let! b := load 4 m 4 in
  let! c := load 4 m 8 in
  let! d := load 8 m 16 in
  let! e := load 8 m 24 in
  let! f := load 8 m 32 in
  let! g := load 8 m 40 in
  Ok (Header a b c d e f g).

Definition header_ok (h : ivshmem_header) : Prop :=
  is_u32 (magic h) ∧ is_u32 (version h) ∧ is_u32 (latest_slot h) ∧
  is_u64 (h2g_page_offset h) ∧ is_u64 (h2g_page_size h) ∧
  is_u64 (g2h_page_offset h) ∧ is_u64 (g2h_page_size h).

Lemma read_header_frame m m' :
  (∀ n off, off + Z.of_nat n <= HEADER_SIZE → load n m' off = load n m off) →
  read_header m' = read_header m.
Proof.
  intros Hf. unfold read_header.
  rewrite !Hf by (unfold HEADER_SIZE; simpl; lia). done.
Qed.

(** Runs one store of the goal and keeps what [store_spec] says of it. *)
Ltac next_store m n off v :=
  let m' := fresh "m" in let E := fresh "E" in let L := fresh "L" in
  let Sz := fresh "Sz" in let D := fresh "D" in
  destruct (store_spec n m off v) as (m' & E & Sz & L & D); [lia|simpl; lia|];
  rewrite E.

(** The header written by the host is the header the guest reads. *)
Lemma header_roundtrip m h :
  header_ok h → HEADER_SIZE <= m_size m →
  ∃ m', write_header m h = Ok m' ∧ m_size m' = m_size m ∧ read_header m' = Ok h ∧
    ∀ n off, HEADER_SIZE <= off → load n m' off = load n m off.
Proof.
  intros (H1 & H2 & H3 & H4 & H5 & H6 & H7) Hs. unfold HEADER_SIZE in *.
  unfold write_header.
  next_store m 4%nat 0 (magic h).
  next_store m0 4%nat 4 (version h).
  next_store m1 4%nat 8 (latest_slot h).
  next_store m2 8%nat 16 (h2g_page_offset h).
  next_store m3 8%nat 24 (h2g_page_size h).
  next_store m4 8%nat 32 (g2h_page_offset h).
  next_store m5 8%nat 40 (g2h_page_size h).
  exists m6. split; [done|]. split; [congruence|]. split.
  - unfold read_header.
    repeat (rewrite ?L, ?L0, ?L1, ?L2, ?L3, ?L4, ?L5;
      (rewrite D5 by (simpl; lia)) || (rewrite D4 by (simpl; lia)) || (rewrite D3 by (simpl; lia))
      || (rewrite D2 by (simpl; lia)) || (rewrite D1 by (simpl; lia)) || (rewrite D0 by (simpl; lia))).
    rewrite ?L, ?L0, ?L1, ?L2, ?L3, ?L4, ?L5.
    rewrite !Z.mod_small by (simpl; lia). by destruct h.
  - intros n off Ho. rewrite D5, D4, D3, D2, D1, D0, D by (simpl; lia). done.
Qed.
