(* ===== verification/HostIvshmem.v ===== *)
(** The host kernel module: [pvsched-shmem/host/host_ivshmem.c].

    One record holds the module's state: the registry of per-VM backends, the
    counter of VM ids, and the kernel objects the module has alive (character
    devices, device nodes, debugfs entries, allocations), so that error paths
    can be checked for leaks.  What the kernel answers to an allocation or a
    registration is an argument ([kenv]) of the operation that asks. *)

From S2P Require Import Prelude Host Memory.

Local Open Scope pv_scope.

Definition MAX_NB_DEVICES : Z := 256.

(** [struct host_ivshmem_backend]: [mem] is [None] for [NULL], [dev] and
    [debugfs_dentry] say whether the pointers are set. *)
Record backend := Backend {
  b_mem : option mem;
  b_size : Z;
  b_minor : Z;
  b_dev : bool;
  b_debugfs : bool
}.

Record hostmod := HostMod {
  next_vm_id : Z;                 (* atomic_t *)
  devices : gmap Z backend;       (* registry.devices[MAX_NB_DEVICES], NULL = absent *)
  registry_dev : bool;            (* registry.dev *)
  registry_cdev : bool;           (* registry.cdev added *)
  cdevs : gset Z;                 (* minors with a live cdev *)
  dev_nodes : gset Z;             (* minors with a /dev node *)
  blobs : gset Z;                 (* minors with a debugfs blob *)
  vmallocs : Z;                   (* live vmalloc_user areas *)
  kallocs : Z;                    (* live kzalloc objects *)
  chrdev_regions : Z;             (* alloc_chrdev_region minus unregister_chrdev_region *)
  mod_class : bool;               (* host_ivshmem_class *)
  debugfs_root : bool;            (* host_ivshmem_debugfs_root *)
  bad_releases : Z                (* releases of an object that was not alive *)
}.

(** The zero-initialised module data. *)
Definition hostmod0 : hostmod :=
  HostMod 0 ∅ false false ∅ ∅ ∅ 0 0 0 false false 0.

(** What the kernel answers: [None] is success for the registrations. *)
Record kenv := KEnv {
  kzalloc_ok : bool;
  vmalloc_ok : bool;
  cdev_add_err : option errno;
  device_create_err : option errno;
  debugfs_blob_ok : bool;
  copy_from_user_ok : bool;
  copy_to_user_ok : bool
}.

Definition kenv_ok : kenv := KEnv true true None None true true true.

(** ** Field updates *)

Definition set_next_vm_id (n : Z) (st : hostmod) : hostmod :=
  HostMod n (devices st) (registry_dev st) (registry_cdev st) (cdevs st) (dev_nodes st)
    (blobs st) (vmallocs st) (kallocs st) (chrdev_regions st) (mod_class st)
    (debugfs_root st) (bad_releases st).
Definition set_devices (d : gmap Z backend) (st : hostmod) : hostmod :=
  HostMod (next_vm_id st) d (registry_dev st) (registry_cdev st) (cdevs st) (dev_nodes st)
    (blobs st) (vmallocs st) (kallocs st) (chrdev_regions st) (mod_class st)
    (debugfs_root st) (bad_releases st).
Definition set_registry (dev cdev : bool) (st : hostmod) : hostmod :=
  HostMod (next_vm_id st) (devices st) dev cdev (cdevs st) (dev_nodes st)
    (blobs st) (vmallocs st) (kallocs st) (chrdev_regions st) (mod_class st)
    (debugfs_root st) (bad_releases st).
Definition set_cdevs (c : gset Z) (st : hostmod) : hostmod :=
  HostMod (next_vm_id st) (devices st) (registry_dev st) (registry_cdev st) c (dev_nodes st)
    (blobs st) (vmallocs st) (kallocs st) (chrdev_regions st) (mod_class st)
    (debugfs_root st) (bad_releases st).
Definition set_dev_nodes (d : gset Z) (st : hostmod) : hostmod :=
  HostMod (next_vm_id st) (devices st) (registry_dev st) (registry_cdev st) (cdevs st) d
    (blobs st) (vmallocs st) (kallocs st) (chrdev_regions st) (mod_class st)
    (debugfs_root st) (bad_releases st).
Definition set_blobs (b : gset Z) (st : hostmod) : hostmod :=
  HostMod (next_vm_id st) (devices st) (registry_dev st) (registry_cdev st) (cdevs st)
    (dev_nodes st) b (vmallocs st) (kallocs st) (chrdev_regions st) (mod_class st)
    (debugfs_root st) (bad_releases st).
Definition set_vmallocs (n : Z) (st : hostmod) : hostmod :=
  HostMod (next_vm_id st) (devices st) (registry_dev st) (registry_cdev st) (cdevs st)
    (dev_nodes st) (blobs st) n (kallocs st) (chrdev_regions st) (mod_class st)
    (debugfs_root st) (bad_releases st).
Definition set_kallocs (n : Z) (st : hostmod) : hostmod :=
  HostMod (next_vm_id st) (devices st) (registry_dev st) (registry_cdev st) (cdevs st)
    (dev_nodes st) (blobs st) (vmallocs st) n (chrdev_regions st) (mod_class st)
    (debugfs_root st) (bad_releases st).
Definition set_module (regions : Z) (cls root : bool) (st : hostmod) : hostmod :=
  HostMod (next_vm_id st) (devices st) (registry_dev st) (registry_cdev st) (cdevs st)
    (dev_nodes st) (blobs st) (vmallocs st) (kallocs st) regions cls root (bad_releases st).

(** ** Releasing kernel objects

    A release of an object that is not alive is counted. *)

Definition release (alive : bool) (st : hostmod) : hostmod :=
  HostMod (next_vm_id st) (devices st) (registry_dev st) (registry_cdev st) (cdevs st)
    (dev_nodes st) (blobs st) (vmallocs st) (kallocs st) (chrdev_regions st) (mod_class st)
    (debugfs_root st) (if alive then bad_releases st else bad_releases st + 1).

Definition debugfs_remove (minor : Z) (st : hostmod) : hostmod :=
  set_blobs (blobs st ∖ {[minor]}) (release (bool_decide (minor ∈ blobs st)) st).
Definition device_destroy (minor : Z) (st : hostmod) : hostmod :=
  set_dev_nodes (dev_nodes st ∖ {[minor]}) (release (bool_decide (minor ∈ dev_nodes st)) st).
Definition cdev_del (minor : Z) (st : hostmod) : hostmod :=
  set_cdevs (cdevs st ∖ {[minor]}) (release (bool_decide (minor ∈ cdevs st)) st).
Definition vfree (st : hostmod) : hostmod :=
  set_vmallocs (vmallocs st - 1) (release (0 <? vmallocs st) st).
Definition kfree (st : hostmod) : hostmod :=
  set_kallocs (kallocs st - 1) (release (0 <? kallocs st) st).
Definition unregister_chrdev_region (st : hostmod) : hostmod :=
  set_module (chrdev_regions st - 1) (mod_class st) (debugfs_root st)
    (release (0 <? chrdev_regions st) st).
Definition class_destroy (st : hostmod) : hostmod :=
  set_module (chrdev_regions st) false (debugfs_root st) (release (mod_class st) st).

(** [device_destroy] and [cdev_del] of the registry's own device, minor 0. *)
Definition registry_device_destroy (st : hostmod) : hostmod :=
  set_registry false (registry_cdev st) (release (registry_dev st) st).
Definition registry_cdev_del (st : hostmod) : hostmod :=
  set_registry (registry_dev st) false (release (registry_cdev st) st).

(** [debugfs_remove_recursive(root); root = NULL]: nothing to do for [NULL]. *)
Definition debugfs_remove_root (st : hostmod) : hostmod :=
  set_module (chrdev_regions st) (mod_class st) false st.

(** ** Message access *)

(** [host_ivshmem_h2g_write_msg] on one backend; [None] is a [NULL] backend. *)
Definition host_ivshmem_h2g_write_msg (b : option backend) (index msg : Z) : result backend :=
  match b with
  | None => Err ENODEV
  | Some b =>
      match b_mem b with
      | None => Err ENODEV
      | Some m =>
          if (index =? H2G_LATEST_SLOT) || (index >=? NR_HOST_IVSHMEM_MSGS) then Err EINVAL
          else
            let h2g_page := HOST_IVSHMEM_H2G_OFFSET in
            let history := h2g_page + index * MSG_SIZE in
            let latest := h2g_page + H2G_LATEST_SLOT * MSG_SIZE in
            let! m := store 8 m history msg in
            let! m := store 8 m latest msg in
            Ok (Backend (Some m) (b_size b) (b_minor b) (b_dev b) (b_debugfs b))
      end
  end.

Definition host_ivshmem_g2h_read (b : option backend) (index : Z) : result Z :=
  match b with
  | None => Err ENODEV
  | Some b =>
      match b_mem b with
      | None => Err ENODEV
      | Some m =>
          if index >=? NR_GUEST_IVSHMEM_MSGS then Err EINVAL
          else load 8 m (HOST_IVSHMEM_G2H_OFFSET + index * MSG_SIZE)
      end
  end.

(** The kfuncs target the backend of minor 1. *)
Definition kfunc_h2g_write (st : hostmod) (index msg : Z) : hostmod * result unit :=
  match host_ivshmem_h2g_write_msg (devices st !! 1) index msg with
  | Ok b => (set_devices (<[1 := b]> (devices st)) st, Ok tt)
  | Err e => (st, Err e)
  | Fault => (st, Fault)
  end.

Definition kfunc_g2h_read (st : hostmod) (index : Z) : result Z :=
  host_ivshmem_g2h_read (devices st !! 1) index.

#[global] Instance hostmod_kfuncs : HostKfuncs hostmod := {
  bpf_host_ivshmem_h2g_write := kfunc_h2g_write;
  bpf_host_ivshmem_g2h_read := kfunc_g2h_read
}.

(** ** File operations of a backend *)

(** [file->private_data]: nothing, the registry, or the backend of a minor. *)
Inductive private_data := NoData | RegistryData | BackendData (minor : Z).

Definition host_registry_open (file : private_data) : private_data * result unit :=
  (RegistryData, Ok tt).
Definition host_registry_release (file : private_data) : private_data * result unit :=
  (NoData, Ok tt).

Definition host_ivshmem_open (st : hostmod) (minor : Z) (file : private_data)
  : private_data * result unit :=
  if minor >=? MAX_NB_DEVICES then (file, Err ENODEV)
  else match devices st !! minor with
  | None => (file, Err ENODEV)
  | Some _ => (BackendData minor, Ok tt)
  end.
Definition host_ivshmem_release (file : private_data) : private_data * result unit :=
  (NoData, Ok tt).

(** The backend a file stands for. *)
Definition file_backend (st : hostmod) (file : private_data) : option backend :=
  match file with BackendData minor => devices st !! minor | _ => None end.

(** [host_ivshmem_mmap]: the checks before [remap_vmalloc_range], and the
    number of bytes it is asked to map. *)
Definition host_ivshmem_mmap (b : option backend) (vm_start vm_end vm_pgoff : Z) (shared : bool)
  : result Z :=
  let len := u64 (vm_end - vm_start) in
  match b with
  | None => Err ENODEV
  | Some b =>
      if negb (vm_pgoff =? 0) || negb (len =? b_size b) then Err EINVAL
      else if negb shared then Err EINVAL
      else Ok len
  end.

(** ** Creating and destroying backends *)

Definition new_header (size : Z) : ivshmem_header :=
  Header PVSCHED_MAGIC PVSCHED_VERSION H2G_LATEST_SLOT
    HOST_IVSHMEM_H2G_OFFSET PAGE_SIZE HOST_IVSHMEM_G2H_OFFSET
    (u64 (size - HOST_IVSHMEM_G2H_OFFSET)).

(** [host_ivshmem_create_static_backend]: the backend it fills in, or the
    error after undoing what was done. *)
Definition host_ivshmem_create_static_backend (env : kenv) (minor_number size : Z)
    (st : hostmod) : hostmod * result backend :=
  if negb (vmalloc_ok env) then (st, Err ENOMEM)
  else
    let st := set_vmallocs (vmallocs st + 1) st in
    match write_header (mem_new size) (new_header size) with
    | Ok m =>
        match cdev_add_err env with
        | Some e => (vfree st, Err e)
        | None =>
            let st := set_cdevs (cdevs st ∪ {[minor_number]}) st in
            match device_create_err env with
            | Some e => (vfree (cdev_del minor_number st), Err e)
            | None =>
                let st := set_dev_nodes (dev_nodes st ∪ {[minor_number]}) st in
                let dentry := debugfs_root st && debugfs_blob_ok env in
                let st := if dentry then set_blobs (blobs st ∪ {[minor_number]}) st else st in
                (st, Ok (Backend (Some m) size minor_number true dentry))
            end
        end
    | Err e => (st, Err e)
    | Fault => (st, Fault)
    end.

(** [host_ivshmem_destroy_static_backend]. *)
Definition host_ivshmem_destroy_static_backend (b : backend) (st : hostmod) : hostmod :=
  let st := if b_debugfs b then debugfs_remove (b_minor b) st else st in
  let st := if b_dev b then device_destroy (b_minor b) st else st in
  let st := cdev_del (b_minor b) st in
  match b_mem b with
  | Some _ => vfree st
  | None => st
  end.

(** ** Registering a VM *)

(** [struct vm_reg_req]; [backend_name] is not used by the module. *)
Record vm_reg_req := VmRegReq { nb_cpu : Z; req_vm_id : Z; req_size : Z }.

(** [DIV_ROUND_UP(n, d)] and [roundup_pow_of_two(n)] of the kernel. *)
Definition DIV_ROUND_UP (n d : Z) : Z := u64 (n + d - 1) / d.
Definition roundup_pow_of_two (n : Z) : Z := 2 ^ Z.log2_up n.

Definition backend_pages (nb : Z) : Z :=
  s32 (HOST_NB_METADATA_PAGES + 1 + DIV_ROUND_UP (u64 (nb * MSG_SIZE)) PAGE_SIZE).

Definition backend_size (nb : Z) : Z :=
  roundup_pow_of_two (u64 (backend_pages nb * PAGE_SIZE)).

Definition host_register_vm (env : kenv) (req : vm_reg_req) (st : hostmod)
  : hostmod * result vm_reg_req :=
  let vm_id := next_vm_id st in
  let st := set_next_vm_id (s32 (vm_id + 1)) st in
  if vm_id + 1 >=? MAX_NB_DEVICES then
    (set_next_vm_id (s32 (next_vm_id st - 1)) st, Err ENOSPC)
  else if negb (kzalloc_ok env) then (st, Err ENOMEM)
  else
    let st := set_kallocs (kallocs st + 1) st in
    let size := backend_size (nb_cpu req) in
    match host_ivshmem_create_static_backend env (vm_id + 1) size st with
    | (st, Ok b) =>
        (set_devices (<[vm_id + 1 := b]> (devices st)) st,
         Ok (VmRegReq (nb_cpu req) vm_id size))
    | (st, Err e) =>
        let st := kfree st in
        (set_next_vm_id (s32 (next_vm_id st - 1)) st, Err e)
    | (st, Fault) => (st, Fault)
    end.

(** [host_registry_ioctl]: [cmd_is_reg] says whether the command is
    [PHANT_REG]. *)
Definition host_registry_ioctl (env : kenv) (cmd_is_reg : bool) (req : vm_reg_req)
    (st : hostmod) : hostmod * result vm_reg_req :=
  if negb cmd_is_reg then (st, Err EOPNOTSUPP)
  else if negb (copy_from_user_ok env) then (st, Err EFAULT)
  else match host_register_vm env req st with
  | (st, Ok req) => if copy_to_user_ok env then (st, Ok req) else (st, Err EFAULT)
  | r => r
  end.

(** ** Module life cycle *)

(** One iteration of the loop of [host_destroy_registry_backend]. *)
Definition destroy_slot (i : Z) (st : hostmod) : hostmod :=
  match devices st !! i with
  | None => st
  | Some b =>
      let st := host_ivshmem_destroy_static_backend b st in
      let st := kfree st in
      set_devices (delete i (devices st)) st
  end.

Definition host_destroy_registry_backend (st : hostmod) : hostmod :=
  let st := zfor MAX_NB_DEVICES destroy_slot st in
  let st := if registry_dev st then registry_device_destroy st else st in
  registry_cdev_del st.

(** [host_create_registry_backend]: answers to [cdev_add] and [device_create]. *)
Definition host_create_registry_backend (cdev_err dev_err : option errno) (st : hostmod)
  : hostmod * result unit :=
  match cdev_err with
  | Some e => (st, Err e)
  | None =>
      let st := set_registry (registry_dev st) true st in
      match dev_err with
      | Some e => (set_registry false true st, Err e)
      | None => (set_registry true true st, Ok tt)
      end
  end.

(** The answers [host_ivshmem_init] gets. *)
Record initenv := InitEnv {
  chrdev_err : option errno;
  class_err : option errno;
  debugfs_dir_ok : bool;
  reg_cdev_err : option errno;
  reg_dev_err : option errno;
  kfuncs_err : option errno
}.

(** The labels [err_destroy_backend], [err_destroy_class] and
    [err_unregister_chrdev] of [host_ivshmem_init], in order. *)
Definition err_destroy_backend (st : hostmod) : hostmod :=
  let st := host_destroy_registry_backend st in
  let st := debugfs_remove_root st in
  unregister_chrdev_region (class_destroy st).

Definition host_ivshmem_init (env : initenv) (st : hostmod) : hostmod * result unit :=
  if negb (PAGE_SIZE mod MSG_SIZE =? 0) then (st, Err EINVAL)
  else match chrdev_err env with
  | Some e => (st, Err e)
  | None =>
      let st := set_module (chrdev_regions st + 1) (mod_class st) (debugfs_dir_ok env) st in
      match class_err env with
      | Some e =>
          (* unregister_chrdev_region(); goto err_unregister_chrdev, which repeats it *)
          (unregister_chrdev_region (unregister_chrdev_region st), Err e)
      | None =>
          let st := set_module (chrdev_regions st) true (debugfs_root st) st in
          match host_create_registry_backend (reg_cdev_err env) (reg_dev_err env) st with
          | (st, Ok _) =>
              match kfuncs_err env with
              | Some e => (err_destroy_backend st, Err e)
              | None => (st, Ok tt)
              end
          | (st, Err e) => (err_destroy_backend st, Err e)
          | (st, Fault) => (st, Fault)
          end
      end
  end.

Definition host_ivshmem_exit (st : hostmod) : hostmod :=
  let st := host_destroy_registry_backend st in
  let st := debugfs_remove_root st in
  unregister_chrdev_region (class_destroy st).

(** ** The size of a backend *)

Section size.
Context (nb : Z) (Hnb : is_u32 nb).

Lemma backend_pages_eq : backend_pages nb = 2 + (nb * 64 + 4095) / 4096.
Proof using Hnb.
  unfold backend_pages, DIV_ROUND_UP, MSG_SIZE, PAGE_SIZE, HOST_NB_METADATA_PAGES.
  rewrite (u64_id (nb * 64)), u64_id by lia.
  replace (nb * 64 + 4096 - 1) with (nb * 64 + 4095) by lia.
  apply s32_id. pose proof (Z.div_mod (nb * 64 + 4095) 4096).
  pose proof (Z.mod_pos_bound (nb * 64 + 4095) 4096). lia.
Qed.

(** The request is rounded up to whole pages, then to a power of two. *)
Lemma backend_size_bounds :
  let need := backend_pages nb * PAGE_SIZE in
  HOST_IVSHMEM_G2H_OFFSET + nb * MSG_SIZE <= need ∧
  need <= backend_size nb < 2 * need ∧ backend_size nb < 2 ^ 64 ∧
  ∃ k, 0 <= k ∧ backend_size nb = 2 ^ k.
Proof using Hnb.
  unfold backend_size, roundup_pow_of_two. rewrite backend_pages_eq.
  unfold HOST_IVSHMEM_G2H_OFFSET, MSG_SIZE, PAGE_SIZE.
  pose proof (Z.div_mod (nb * 64 + 4095) 4096 ltac:(lia)) as Hd.
  pose proof (Z.mod_pos_bound (nb * 64 + 4095) 4096 ltac:(lia)) as Hm.
  set (p := (nb * 64 + 4095) / 4096) in *. clearbody p.
  rewrite u64_id by lia.
  set (need := (2 + p) * 4096) in *.
  assert (Hneed : 8192 <= need < 2 ^ 40) by lia.
  pose proof (Z.log2_up_spec need ltac:(lia)) as [Hlo Hhi].
  assert (0 < Z.log2_up need) by (apply Z.log2_up_pos; lia).
  set (k := Z.log2_up need) in *.
  assert (2 ^ k = 2 * 2 ^ Z.pred k) as Hk.
  { rewrite <- Z.pow_succ_r by lia. f_equal. lia. }
  split; [lia|]. split; [lia|]. split; [lia|]. exists k. split; [lia|done].
Qed.

Lemma backend_size_min : 2 * PAGE_SIZE <= backend_size nb.
Proof using Hnb.
  pose proof backend_size_bounds as (H1 & H2 & _).
  unfold HOST_IVSHMEM_G2H_OFFSET, MSG_SIZE in *. lia.
Qed.

(** With at least one vCPU there is room for a whole guest-to-host page. *)
Lemma backend_size_page : 1 <= nb → HOST_IVSHMEM_G2H_OFFSET + PAGE_SIZE <= backend_size nb.
Proof using Hnb.
  intros H1. pose proof backend_size_bounds as (_ & H2 & _).
  rewrite backend_pages_eq in H2.
  assert (1 <= (nb * 64 + 4095) / 4096) by (apply Z.div_le_lower_bound; lia).
  unfold HOST_IVSHMEM_G2H_OFFSET, PAGE_SIZE in *. lia.
Qed.
End size.

Lemma backend_size_0 : backend_size 0 = HOST_IVSHMEM_G2H_OFFSET.
Proof. vm_compute. reflexivity. Qed.

(** ** Well-formed backends *)

(** The memory of a backend of [size] bytes, with the layout of its header. *)
Definition backend_wf (b : backend) : Prop :=
  ∃ m, b_mem b = Some m ∧ m_size m = b_size b ∧ 2 * PAGE_SIZE <= b_size b < 2 ^ 64 ∧
       read_header m = Ok (new_header (b_size b)).

Lemma new_header_ok size : header_ok (new_header size).
Proof.
  unfold header_ok, new_header. simpl.
  pose proof (u64_range (size - HOST_IVSHMEM_G2H_OFFSET)).
  unfold PVSCHED_MAGIC, PVSCHED_VERSION, H2G_LATEST_SLOT, HOST_IVSHMEM_H2G_OFFSET,
    HOST_IVSHMEM_G2H_OFFSET, PAGE_SIZE in *. lia.
Qed.

Lemma create_header size :
  2 * PAGE_SIZE <= size → ∃ m,
    write_header (mem_new size) (new_header size) = Ok m ∧ m_size m = size ∧
    read_header m = Ok (new_header size) ∧
    ∀ n off, HEADER_SIZE <= off → load n m off = load n (mem_new size) off.
Proof.
  intros Hs. destruct (header_roundtrip (mem_new size) (new_header size))
    as (m & H1 & H2 & H3 & H4); [apply new_header_ok| |by exists m].
  unfold HEADER_SIZE, PAGE_SIZE in *. simpl. lia.
Qed.

(** A write to a history slot of a well-formed backend succeeds and changes
    the slot, the latest slot, and nothing else. *)
Lemma h2g_write_spec b i msg :
  backend_wf b → H2G_FIRST_HISTORY_SLOT <= i < NR_HOST_IVSHMEM_MSGS →
  ∃ b' m m',
    host_ivshmem_h2g_write_msg (Some b) i msg = Ok b' ∧
    b_mem b = Some m ∧ b_mem b' = Some m' ∧ b_size b' = b_size b ∧
    b_minor b' = b_minor b ∧ b_dev b' = b_dev b ∧ b_debugfs b' = b_debugfs b ∧
    m_size m' = m_size m ∧
    load 8 m' (HOST_IVSHMEM_H2G_OFFSET + i * MSG_SIZE) = Ok (u64 msg) ∧
    load 8 m' (HOST_IVSHMEM_H2G_OFFSET + H2G_LATEST_SLOT * MSG_SIZE) = Ok (u64 msg) ∧
    ∀ n off,
      (off + Z.of_nat n <= HOST_IVSHMEM_H2G_OFFSET ∨ HOST_IVSHMEM_G2H_OFFSET <= off ∨
       ∃ j, 0 <= j ∧ j ≠ i ∧ j ≠ H2G_LATEST_SLOT ∧
            off = HOST_IVSHMEM_H2G_OFFSET + j * MSG_SIZE ∧ Z.of_nat n <= MSG_SIZE) →
      load n m' off = load n m off.
Proof.
  intros (m & Hm & Hsz & Hb & _) Hi. unfold host_ivshmem_h2g_write_msg. rewrite Hm.
  unfold H2G_FIRST_HISTORY_SLOT, H2G_LATEST_SLOT, NR_HOST_IVSHMEM_MSGS,
    HOST_IVSHMEM_H2G_OFFSET, HOST_IVSHMEM_G2H_OFFSET, PAGE_SIZE, MSG_SIZE in *.
  change (4096 / 64) with 64 in *.
  destruct (Z.eqb_spec i 0); [lia|]. destruct (i >=? 64) eqn:E; bool_hyps; [lia|]. simpl.
  next_store m 8%nat (4096 + i * 64) msg.
  next_store m0 8%nat (4096 + 0 * 64) msg.
  eexists _, m, m1. do 2 (split; [done|]). do 5 (split; [done|]).
  split; [congruence|]. split; [rewrite D0, L by (simpl; lia); done|].
  split; [exact L0|]. intros n' off Hoff. rewrite D0, D; [done|..].
  - destruct Hoff as [?|[?|(j & ? & ? & ? & -> & ?)]]; simpl; lia.
  - destruct Hoff as [?|[?|(j & ? & ? & ? & -> & ?)]]; simpl; lia.
Qed.

(** ** The module promises what the publishing programs rely on *)

Definition mod_ready (st : hostmod) : Prop := ∃ b, devices st !! 1 = Some b ∧ backend_wf b.

Definition mod_h2g_view (st : hostmod) (slot : Z) : option Z :=
  match devices st !! 1 with
  | Some (Backend (Some m) _ _ _ _) =>
      if (0 <=? slot) && (slot <? NR_HOST_IVSHMEM_MSGS) then
        match load 8 m (HOST_IVSHMEM_H2G_OFFSET + slot * MSG_SIZE) with
        | Ok v => Some v
        | _ => None
        end
      else None
  | _ => None
  end.

Lemma backend_wf_write b i msg b' :
  backend_wf b → H2G_FIRST_HISTORY_SLOT <= i < NR_HOST_IVSHMEM_MSGS →
  host_ivshmem_h2g_write_msg (Some b) i msg = Ok b' → backend_wf b'.
Proof.
  intros Hwf Hi Hw.
  destruct (h2g_write_spec b i msg Hwf Hi) as
    (b'' & m & m' & Hw' & Hm & Hm' & Hs & _ & _ & _ & Hms & _ & _ & Hf).
  assert (b'' = b') as -> by congruence.
  destruct Hwf as (m0 & Hm0 & Hsz & Hb & Hh). simplify_eq.
  exists m'. rewrite Hs. split; [done|]. split; [congruence|]. split; [done|].
  rewrite <- Hh. apply read_header_frame. intros n off Ho. apply Hf.
  left. unfold HEADER_SIZE, HOST_IVSHMEM_H2G_OFFSET, PAGE_SIZE in *. lia.
Qed.

#[global] Program Instance hostmod_laws : HostKfuncsLaws hostmod := {
  h2g_ready := mod_ready;
  h2g_view := mod_h2g_view
}.
Next Obligation.
  intros st i msg (b & Hb & Hwf) Hi Hmsg.
  destruct (h2g_write_spec b i msg Hwf Hi) as
    (b' & m & m' & Hw & Hm & Hm' & _ & _ & _ & _ & Hms & Hi' & Hl' & Hf).
  exists (set_devices (<[1 := b']> (devices st)) st).
  assert (Hview : ∀ j, mod_h2g_view (set_devices (<[1 := b']> (devices st)) st) j =
    if (0 <=? j) && (j <? NR_HOST_IVSHMEM_MSGS) then
      match load 8 m' (HOST_IVSHMEM_H2G_OFFSET + j * MSG_SIZE) with Ok v => Some v | _ => None end
    else None).
  { intros j. unfold mod_h2g_view. simpl. rewrite lookup_insert_eq.
    destruct b' as [mm ? ? ? ?]. simpl in Hm'. by subst mm. }
  split; [simpl; unfold kfunc_h2g_write; by rewrite Hb, Hw|].
  split; [exists b'; split; [apply lookup_insert_eq|by eapply backend_wf_write]|].
  unfold H2G_FIRST_HISTORY_SLOT, H2G_LATEST_SLOT, NR_HOST_IVSHMEM_MSGS, PAGE_SIZE, MSG_SIZE in *.
  change (4096 / 64) with 64 in *. rewrite u64_id in * by done.
  split; [|split; [|split]].
  - rewrite Hview. destruct (Z.leb_spec 0 i), (Z.ltb_spec i 64); try lia. simpl. by rewrite Hi'.
  - rewrite Hview. simpl. by rewrite Hl'.
  - intros j Hj Hj0. rewrite Hview. unfold mod_h2g_view. rewrite Hb.
    destruct b as [mm ? ? ? ?]. simpl in Hm. subst mm.
    unfold NR_HOST_IVSHMEM_MSGS, PAGE_SIZE, MSG_SIZE. change (4096 / 64) with 64.
    destruct (Z.leb_spec 0 j), (Z.ltb_spec j 64); try done. simpl.
    rewrite Hf; [done|]. right. right. exists j. simpl. lia.
  - intros j Hj. simpl. unfold kfunc_g2h_read, host_ivshmem_g2h_read. simpl.
    rewrite lookup_insert_eq, Hb, Hm, Hm'. case_bool; [done|].
    apply Hf. right. left. unfold HOST_IVSHMEM_G2H_OFFSET, MSG_SIZE. lia.
Qed.
Next Obligation.
  intros st m (b & Hb & (m0 & Hm & _)). simpl. unfold kfunc_h2g_write, host_ivshmem_h2g_write_msg.
  by rewrite Hb, Hm.
Qed.

(** ** The module invariant *)

(** Every registered backend sits at its minor, is well formed, and owns
    exactly the kernel objects the module has alive. *)
Record hm_wf (st : hostmod) : Prop := {
  wf_next : 0 <= next_vm_id st < MAX_NB_DEVICES;
  wf_backend i b : devices st !! i = Some b →
    1 <= i <= next_vm_id st ∧ b_minor b = i ∧ b_dev b = true ∧ backend_wf b ∧
    b_debugfs b = bool_decide (i ∈ blobs st);
  wf_cdevs : cdevs st = dom (devices st);
  wf_nodes : dev_nodes st = dom (devices st);
  wf_blobs : blobs st ⊆ dom (devices st);
  wf_vmallocs : vmallocs st = Z.of_nat (size (devices st));
  wf_kallocs : kallocs st = Z.of_nat (size (devices st));
  wf_released : bad_releases st = 0
}.

Lemma hm_wf_fresh st i : hm_wf st → next_vm_id st < i → devices st !! i = None.
Proof.
  intros Hwf Hi. destruct (devices st !! i) as [b|] eqn:E; [|done].
  apply (wf_backend _ Hwf) in E. lia.
Qed.

(** Releasing what was just acquired. *)
Lemma release_alive b st : b = true → release b st = st.
Proof. intros ->. by destruct st. Qed.

Lemma vfree_new st : 0 <= vmallocs st → vfree (set_vmallocs (vmallocs st + 1) st) = st.
Proof.
  intros Hv. unfold vfree. simpl. rewrite release_alive by lia.
  destruct st. unfold set_vmallocs. simpl. f_equal. lia.
Qed.

Lemma kfree_new st : 0 <= kallocs st → kfree (set_kallocs (kallocs st + 1) st) = st.
Proof.
  intros Hv. unfold kfree. simpl. rewrite release_alive by lia.
  destruct st. unfold set_kallocs. simpl. f_equal. lia.
Qed.

Lemma cdev_del_new k st : k ∉ cdevs st → cdev_del k (set_cdevs (cdevs st ∪ {[k]}) st) = st.
Proof.
  intros Hk. unfold cdev_del. simpl. rewrite release_alive by (apply bool_decide_true; set_solver).
  destruct st. unfold set_cdevs. simpl in *. f_equal. set_solver.
Qed.

(** What [host_ivshmem_create_static_backend] does, outcome by outcome: on an
    error nothing is left behind. *)
Lemma create_backend_spec env k size st :
  2 * PAGE_SIZE <= size < 2 ^ 64 → k ∉ cdevs st → 0 <= vmallocs st →
  (∃ e, host_ivshmem_create_static_backend env k size st = (st, Err e)) ∨
  ∃ b, host_ivshmem_create_static_backend env k size st =
    (set_blobs (if b_debugfs b then blobs st ∪ {[k]} else blobs st)
      (set_dev_nodes (dev_nodes st ∪ {[k]})
        (set_cdevs (cdevs st ∪ {[k]}) (set_vmallocs (vmallocs st + 1) st))), Ok b) ∧
    backend_wf b ∧ b_size b = size ∧ b_minor b = k ∧ b_dev b = true.
Proof.
  intros Hs Hk Hv. unfold host_ivshmem_create_static_backend.
  destruct (vmalloc_ok env); simpl; [|eauto].
  destruct (create_header size) as (m & -> & Hms & Hh & _); [lia|].
  destruct (cdev_add_err env) as [e|].
  { left. exists e. by rewrite vfree_new. }
  destruct (device_create_err env) as [e|].
  { left. exists e. pose proof (cdev_del_new k (set_vmallocs (vmallocs st + 1) st) Hk) as Hd.
    simpl in Hd. by rewrite Hd, vfree_new. }
  simpl.
  right. exists (Backend (Some m) size k true (debugfs_root st && debugfs_blob_ok env)).
  split; [|split; [by exists m|done]].
  simpl. by destruct (debugfs_root st && debugfs_blob_ok env).
Qed.

Lemma register_restore st :
  0 <= kallocs st → 0 <= next_vm_id st < MAX_NB_DEVICES →
  let st1 := set_next_vm_id (s32 (next_vm_id st + 1)) st in
  let st2 := kfree (set_kallocs (kallocs st + 1) st1) in
  set_next_vm_id (s32 (next_vm_id st2 - 1)) st2 = st.
Proof.
  intros Hk Hn st1 st2. unfold MAX_NB_DEVICES in *.
  assert (st2 = st1) as -> by by apply (kfree_new st1).
  unfold st1. simpl. rewrite !s32_id by (rewrite ?s32_id; lia).
  destruct st. unfold set_next_vm_id. simpl. f_equal. lia.
Qed.

(** The three ways a registration can end. *)
Lemma register_cases env req st :
  hm_wf st → is_u32 (nb_cpu req) →
  let k := next_vm_id st + 1 in
  let size := backend_size (nb_cpu req) in
  (∃ e, host_register_vm env req st = (st, Err e)) ∨
  (kzalloc_ok env = false ∧ k < MAX_NB_DEVICES ∧
   host_register_vm env req st = (set_next_vm_id k st, Err ENOMEM)) ∨
  ∃ b, k < MAX_NB_DEVICES ∧ backend_wf b ∧ b_size b = size ∧ b_minor b = k ∧ b_dev b = true ∧
    host_register_vm env req st =
      (HostMod k (<[k := b]> (devices st)) (registry_dev st) (registry_cdev st)
         (cdevs st ∪ {[k]}) (dev_nodes st ∪ {[k]})
         (if b_debugfs b then blobs st ∪ {[k]} else blobs st)
         (vmallocs st + 1) (kallocs st + 1) (chrdev_regions st) (mod_class st) (debugfs_root st)
         (bad_releases st),
       Ok (VmRegReq (nb_cpu req) (next_vm_id st) size)).
Proof.
  intros Hwf Hnb k size. pose proof (wf_next _ Hwf) as Hn.
  assert (Hs1 : s32 k = k) by (apply s32_id; unfold k, MAX_NB_DEVICES in *; lia).
  unfold host_register_vm. fold k size.
  destruct (k >=? MAX_NB_DEVICES) eqn:E; bool_hyps.
  { left. exists ENOSPC. f_equal. simpl. rewrite Hs1, s32_id by (unfold k, MAX_NB_DEVICES in *; lia).
    destruct st. unfold set_next_vm_id, k. simpl. f_equal. lia. }
  destruct (kzalloc_ok env) eqn:Ez; simpl; [|right; left; by rewrite Hs1].
  pose proof (backend_size_min _ Hnb) as Hmin.
  pose proof (backend_size_bounds _ Hnb) as (_ & _ & Hmax & _).
  set (st1 := set_kallocs (kallocs st + 1) (set_next_vm_id (s32 k) st)).
  destruct (create_backend_spec env k size st1) as [[e He]|(b & Hb & Hbwf & Hbs & Hbm & Hbd)].
  - fold size in Hmin, Hmax. lia.
  - unfold st1. simpl. rewrite (wf_cdevs _ Hwf), not_elem_of_dom.
    apply hm_wf_fresh; [done|lia].
  - unfold st1. simpl. rewrite (wf_vmallocs _ Hwf). lia.
  - left. exists e. rewrite He. f_equal. apply (register_restore st); [|done].
    rewrite (wf_kallocs _ Hwf). lia.
  - right. right. exists b. split; [lia|]. do 4 (split; [done|]).
    rewrite Hb. unfold st1. simpl. unfold set_devices. simpl.
    rewrite Hs1. done.
Qed.

Lemma hm_wf_set_next st k :
  hm_wf st → next_vm_id st <= k < MAX_NB_DEVICES → hm_wf (set_next_vm_id k st).
Proof.
  intros Hwf Hk. pose proof (wf_next _ Hwf). constructor; simpl; try apply Hwf; [lia|].
  intros i b Hi. apply (wf_backend _ Hwf) in Hi as (? & ? & ? & ? & ?). repeat split; try done; lia.
Qed.

Lemma hm_wf_add st b :
  let k := next_vm_id st + 1 in
  hm_wf st → k < MAX_NB_DEVICES → backend_wf b → b_minor b = k → b_dev b = true →
  hm_wf (HostMod k (<[k := b]> (devices st)) (registry_dev st) (registry_cdev st)
         (cdevs st ∪ {[k]}) (dev_nodes st ∪ {[k]})
         (if b_debugfs b then blobs st ∪ {[k]} else blobs st)
         (vmallocs st + 1) (kallocs st + 1) (chrdev_regions st) (mod_class st) (debugfs_root st)
         (bad_releases st)).
Proof.
  intros k Hwf Hk Hb Hm Hd. pose proof (wf_next _ Hwf) as Hn.
  assert (Hfresh : devices st !! k = None) by (apply hm_wf_fresh; [done|lia]).
  assert (Hkb : k ∉ blobs st).
  { intros Hin. apply (wf_blobs _ Hwf), elem_of_dom in Hin as [b' Hb']. congruence. }
  constructor; simpl; rewrite ?dom_insert_L, ?map_size_insert_None by done.
  - lia.
  - intros i b' Hi. rewrite lookup_insert in Hi. case_decide; simplify_eq.
    + split; [lia|]. do 3 (split; [done|]).
      destruct (b_debugfs b'); symmetry; [apply bool_decide_eq_true|apply bool_decide_eq_false];
        set_solver.
    + apply (wf_backend _ Hwf) in Hi as (? & ? & ? & ? & Hdb).
      split; [lia|]. do 3 (split; [done|]). rewrite Hdb. apply bool_decide_ext.
      destruct (b_debugfs b); set_solver.
  - rewrite (wf_cdevs _ Hwf). set_solver.
  - rewrite (wf_nodes _ Hwf). set_solver.
  - pose proof (wf_blobs _ Hwf). destruct (b_debugfs b); set_solver.
  - rewrite (wf_vmallocs _ Hwf). lia.
  - rewrite (wf_kallocs _ Hwf). lia.
  - apply Hwf.
Qed.

Lemma register_wf env req st :
  hm_wf st → is_u32 (nb_cpu req) → hm_wf (host_register_vm env req st).1.
Proof.
  intros Hwf Hnb. destruct (register_cases env req st Hwf Hnb)
    as [[e ->]|[(_ & Hk & ->)|(b & Hk & Hb & _ & Hm & Hd & ->)]]; simpl.
  - done.
  - apply hm_wf_set_next; [done|lia].
  - by apply hm_wf_add.
Qed.

Lemma ioctl_wf env c req st :
  hm_wf st → is_u32 (nb_cpu req) → hm_wf (host_registry_ioctl env c req st).1.
Proof.
  intros Hwf Hnb. unfold host_registry_ioctl.
  pose proof (register_wf env req st Hwf Hnb) as Hr.
  destruct c; simpl; [|done]. destruct (copy_from_user_ok env); simpl; [|done].
  destruct (host_register_vm env req st) as [st' [r| |]]; simpl in *; try done.
  by destruct (copy_to_user_ok env).
Qed.

Lemma kfunc_write_wf st i msg : hm_wf st → 0 <= i → hm_wf (kfunc_h2g_write st i msg).1.
Proof.
  intros Hwf Hi. unfold kfunc_h2g_write.
  destruct (devices st !! 1) as [b|] eqn:Eb; [|done].
  destruct (wf_backend _ Hwf _ _ Eb) as (H1 & Hm & Hd & Hb & Hdb).
  destruct (decide (H2G_FIRST_HISTORY_SLOT <= i < NR_HOST_IVSHMEM_MSGS)) as [Hr|Hr].
  - destruct (h2g_write_spec b i msg Hb Hr) as (b' & m & m' & Hw & _ & _ & _ & Hm' & Hd' & Hdb' & _).
    rewrite Hw. pose proof (backend_wf_write b i msg b' Hb Hr Hw) as Hb'.
    assert (Hdom : dom (<[1 := b']> (devices st)) = dom (devices st)).
    { rewrite dom_insert_L. assert (1 ∈ dom (devices st)) by by apply elem_of_dom. set_solver. }
    assert (Hsize : size (<[1 := b']> (devices st)) = size (devices st))
      by (by eapply map_size_insert_Some).
    constructor; simpl; rewrite ?Hdom, ?Hsize; try apply Hwf.
    intros j c Hj. rewrite lookup_insert in Hj. case_decide; simplify_eq; [|by apply Hwf].
    split; [lia|]. split; [congruence|]. split; [congruence|]. split; [done|]. congruence.
  - assert (host_ivshmem_h2g_write_msg (Some b) i msg = Err EINVAL) as ->; [|done].
    destruct Hb as (m & Hbm & _). unfold host_ivshmem_h2g_write_msg. rewrite Hbm.
    unfold H2G_FIRST_HISTORY_SLOT, H2G_LATEST_SLOT in *.
    destruct (Z.eqb_spec i 0); [done|]. simpl.
    destruct (i >=? NR_HOST_IVSHMEM_MSGS) eqn:E; [done|]. bool_hyps. lia.
Qed.

(** ** Tearing the module down *)

Lemma destroy_slot_wf i st : hm_wf st → hm_wf (destroy_slot i st).
Proof.
  intros Hwf. unfold destroy_slot. destruct (devices st !! i) as [b|] eqn:Eb; [|done].
  destruct (wf_backend _ Hwf _ _ Eb) as (Hi & Hm & Hd & (m & Hbm & _) & Hdb).
  pose proof (map_size_delete_Some _ _ (ex_intro _ b Eb : is_Some (devices st !! i))) as Hsz.
  assert (0 < size (devices st))%nat.
  { destruct (size (devices st)) eqn:E; [|lia]. apply map_size_empty_inv in E.
    by rewrite E, lookup_empty in Eb. }
  assert (Hin : i ∈ dom (devices st)) by by apply elem_of_dom.
  unfold host_ivshmem_destroy_static_backend. rewrite Hd, Hbm, Hm.
  constructor; simpl;
    (destruct (b_debugfs b) eqn:Edb; simpl; rewrite ?dom_delete_L, ?Hsz; try apply Hwf).
  1,2: intros j c Hj; apply lookup_delete_Some in Hj as [Hne Hj];
    apply (wf_backend _ Hwf) in Hj as (? & ? & ? & ? & Hcb); split; [lia|];
    do 3 (split; [done|]); rewrite Hcb; apply bool_decide_ext; set_solver.
  - by rewrite (wf_cdevs _ Hwf).
  - by rewrite (wf_cdevs _ Hwf).
  - by rewrite (wf_nodes _ Hwf).
  - by rewrite (wf_nodes _ Hwf).
  - pose proof (wf_blobs _ Hwf). set_solver.
  - symmetry in Hdb. apply bool_decide_eq_false in Hdb. pose proof (wf_blobs _ Hwf). set_solver.
  - rewrite (wf_vmallocs _ Hwf). lia.
  - rewrite (wf_vmallocs _ Hwf). lia.
  - rewrite (wf_kallocs _ Hwf). lia.
  - rewrite (wf_kallocs _ Hwf). lia.
  - symmetry in Hdb. rewrite Hdb, (wf_cdevs _ Hwf), (wf_nodes _ Hwf), (wf_vmallocs _ Hwf),
      (wf_kallocs _ Hwf), !bool_decide_true by done. rewrite !(proj2 (Z.ltb_lt _ _)) by lia. apply Hwf.
  - rewrite (wf_cdevs _ Hwf), (wf_nodes _ Hwf), (wf_vmallocs _ Hwf),
      (wf_kallocs _ Hwf), !bool_decide_true by done. rewrite !(proj2 (Z.ltb_lt _ _)) by lia. apply Hwf.
Qed.

Lemma destroy_slot_devices i st : devices (destroy_slot i st) = delete i (devices st).
Proof.
  unfold destroy_slot. destruct (devices st !! i) as [b|] eqn:Eb.
  - simpl. f_equal. unfold host_ivshmem_destroy_static_backend.
    by destruct (b_debugfs b), (b_dev b), (b_mem b).
  - by rewrite delete_id.
Qed.

(** The loop over all 256 slots empties the registry. *)
Lemma destroy_all st :
  hm_wf st → let st' := zfor MAX_NB_DEVICES destroy_slot st in hm_wf st' ∧ devices st' = ∅.
Proof.
  intros Hwf. cbv zeta.
  pose (I k st' := hm_wf st' ∧ ∀ i, i < k → devices st' !! i = None).
  enough (I MAX_NB_DEVICES (zfor MAX_NB_DEVICES destroy_slot st)) as [Hw Hd].
  { split; [done|]. apply map_empty. intros i.
    destruct (devices _ !! i) as [b|] eqn:E; [|done].
    pose proof (wf_next _ Hw). pose proof E as E'. apply (wf_backend _ Hw) in E' as (? & _).
    rewrite Hd in E by lia. done. }
  apply zfor_ind; [by vm_compute| |].
  - split; [done|]. intros i Hi. destruct (devices st !! i) as [b|] eqn:E; [|done].
    apply (wf_backend _ Hwf) in E as (? & _). lia.
  - intros k st' Hk [Hw Hd]. split; [by apply destroy_slot_wf|].
    intros i Hi. rewrite destroy_slot_devices, lookup_delete. case_decide; [done|].
    apply Hd. lia.
Qed.

(** The objects of the module itself. *)
Definition module_objects (st : hostmod) : bool * bool * Z * bool * bool :=
  (registry_dev st, registry_cdev st, chrdev_regions st, mod_class st, debugfs_root st).

Lemma destroy_slot_module i st : module_objects (destroy_slot i st) = module_objects st.
Proof.
  unfold destroy_slot. destruct (devices st !! i) as [b|]; [|done].
  unfold host_ivshmem_destroy_static_backend.
  by destruct (b_debugfs b), (b_dev b), (b_mem b).
Qed.

Lemma destroy_all_module st :
  module_objects (zfor MAX_NB_DEVICES destroy_slot st) = module_objects st.
Proof.
  apply (zfor_ind (λ _ st', module_objects st' = module_objects st)); [by vm_compute|done|].
  intros k x _ <-. apply destroy_slot_module.
Qed.

(** No kernel object is left behind. *)
Definition no_objects (st : hostmod) : Prop :=
  devices st = ∅ ∧ registry_dev st = false ∧ registry_cdev st = false ∧ cdevs st = ∅ ∧
  dev_nodes st = ∅ ∧ blobs st = ∅ ∧ vmallocs st = 0 ∧ kallocs st = 0.

(** The registry's own device goes last; its character device must be alive. *)
Lemma destroy_registry_no_objects st :
  hm_wf st → registry_cdev st = true →
  let st' := host_destroy_registry_backend st in
  no_objects st' ∧ bad_releases st' = 0 ∧ mod_class st' = mod_class st ∧
  chrdev_regions st' = chrdev_regions st.
Proof.
  intros Hwf Hc. cbv zeta. destruct (destroy_all st Hwf) as [Hw Hd]. unfold host_destroy_registry_backend.
  pose proof (destroy_all_module st) as Hm.
  generalize dependent (zfor MAX_NB_DEVICES destroy_slot st). intros st' Hw Hd [= _ Hrc Hreg Hcl _].
  pose proof (wf_cdevs _ Hw) as H1. pose proof (wf_nodes _ Hw) as H2.
  pose proof (wf_blobs _ Hw) as H3. pose proof (wf_vmallocs _ Hw) as H4.
  pose proof (wf_kallocs _ Hw) as H5. pose proof (wf_released _ Hw) as H6.
  rewrite Hd in H1, H2, H3, H4, H5. rewrite dom_empty_L in *. rewrite map_size_empty in *.
  rewrite Hc in Hrc. unfold no_objects.
  destruct (registry_dev st') eqn:Hrd; simpl; rewrite ?Hrd, ?Hrc; split_and!; try done; set_solver.
Qed.

(** The guest maps the same memory: a store it makes through its BAR. *)
Definition guest_store (st : hostmod) (off v : Z) : hostmod :=
  match devices st !! 1 with
  | Some (Backend (Some m) size minor dev dbg) =>
      match store 8 m off v with
      | Ok m' => set_devices (<[1 := Backend (Some m') size minor dev dbg]> (devices st)) st
      | _ => st
      end
  | _ => st
  end.

(** Stores outside the header keep the backend usable by the kfuncs. *)
Lemma guest_store_ready st off v :
  mod_ready st → HEADER_SIZE <= off → mod_ready (guest_store st off v).
Proof.
  intros (b & Hb & m & Hm & Hs & Hsz & Hh) Hoff. unfold guest_store. rewrite Hb.
  destruct b as [mm size minor dev dbg]. simpl in *. subst mm.
  destruct (decide (off + 8 <= m_size m)) as [Hin|Hout].
  - destruct (store_spec 8 m off v) as (m' & Hst & Hms & _ & Hf).
    { unfold HEADER_SIZE in *. lia. } { simpl. lia. }
    rewrite Hst. eexists. split; [apply lookup_insert_eq|]. exists m'. simpl.
    split; [done|]. split; [congruence|]. split; [done|]. rewrite <- Hh.
    apply read_header_frame. intros n o Ho. apply Hf. left. lia.
  - destruct (store 8 m off v) as [m'| |] eqn:E; try (by eexists; split; [exact Hb|exists m]).
    exfalso. unfold store in E. case_match eqn:Er; [|done].
    apply in_region_true in Er. simpl in Er. lia.
Qed.

(** ** Runs of the module *)

(** The state after a successful load. *)
Definition loaded (env : initenv) : hostmod := (host_ivshmem_init env hostmod0).1.

(** What happens while the module is loaded: ioctls on the registry device and
    host-to-guest writes by the eBPF programs. *)
Inductive hm_step : hostmod → hostmod → Prop :=
  | step_ioctl env cmd req st :
      is_u32 (nb_cpu req) → hm_step st (host_registry_ioctl env cmd req st).1
  | step_h2g_write index msg st :
      is_u32 index → hm_step st (kfunc_h2g_write st index msg).1.

Lemma hm_wf_empty st :
  no_objects (set_registry false false st) → next_vm_id st = 0 → bad_releases st = 0 → hm_wf st.
Proof.
  intros (H1 & _ & _ & H4 & H5 & H6 & H7 & H8) Hn Hb. simpl in *.
  constructor; rewrite ?H1, ?H4, ?H5, ?H6, ?H7, ?H8, ?Hn, ?dom_empty_L, ?map_size_empty; done.
Qed.

(** A load in which no kernel call failed. *)
Definition loads (env : initenv) : Prop :=
  chrdev_err env = None ∧ class_err env = None ∧ reg_cdev_err env = None ∧
  reg_dev_err env = None ∧ kfuncs_err env = None.

Lemma loaded_state env :
  loads env → hm_wf (loaded env) ∧ module_objects (loaded env) = (true, true, 1, true, debugfs_dir_ok env).
Proof.
  intros (H1 & H2 & H3 & H4 & H5). unfold loaded, host_ivshmem_init. rewrite H1, H2. simpl.
  unfold host_create_registry_backend. rewrite H3, H4, H5. simpl. split; [|done].
  apply hm_wf_empty; [by repeat split|done..].
Qed.

Lemma hm_steps_wf st st' : rtc hm_step st st' → hm_wf st → hm_wf st'.
Proof.
  induction 1 as [|st1 st2 st3 Hs _ IH]; [done|]. intros Hwf. apply IH. destruct Hs.
  - by apply ioctl_wf.
  - apply kfunc_write_wf; [done|lia].
Qed.

Lemma create_module env k size st :
  module_objects (host_ivshmem_create_static_backend env k size st).1 = module_objects st.
Proof.
  unfold host_ivshmem_create_static_backend. destruct (vmalloc_ok env); [|done].
  destruct (write_header _ _); [|done..].
  destruct (cdev_add_err env), (device_create_err env); try done. simpl.
  by destruct (debugfs_root st && debugfs_blob_ok env).
Qed.

(** Nothing that happens while the module is loaded touches its own objects. *)
Lemma step_module st st' : hm_step st st' → module_objects st' = module_objects st.
Proof.
  destruct 1 as [env cmd req st Hnb|i msg st Hi].
  - unfold host_registry_ioctl. destruct cmd; [|done]. destruct (copy_from_user_ok env); [|done].
    simpl. assert (module_objects (host_register_vm env req st).1 = module_objects st) as <-.
    { unfold host_register_vm. case_bool; [done|]. destruct (kzalloc_ok env); [|done]. simpl.
      match goal with |- context [host_ivshmem_create_static_backend ?e ?k ?z ?s] =>
        pose proof (create_module e k z s) as Hc;
        destruct (host_ivshmem_create_static_backend e k z s) as [st2 [b|e'|]] end; done. }
    destruct (host_register_vm env req st) as [st2 [r|e|]]; try done.
    by destruct (copy_to_user_ok env).
  - unfold kfunc_h2g_write. by destruct (host_ivshmem_h2g_write_msg _ _ _).
Qed.

Lemma steps_module st st' : rtc hm_step st st' → module_objects st' = module_objects st.
Proof.
  induction 1 as [|st1 st2 st3 Hs _ IH]; [done|]. rewrite IH. by apply step_module.
Qed.

(** ** Properties *)

Module HostIvshmemProps.

(** Registering a VM with at least one vCPU yields a backend whose size is
    a power of two that holds the metadata page, the host-to-guest page and one
    slot per vCPU, whose header describes that layout, at the VM's own minor;
    the answer carries the id and the size, and all other backends are
    untouched. *)
Theorem register_vm_backend_layout env req st st' rsp :
  hm_wf st → is_u32 (nb_cpu req) → host_register_vm env req st = (st', Ok rsp) →
  ∃ b m k,
    devices st' = <[req_vm_id rsp + 1 := b]> (devices st) ∧
    devices st !! (req_vm_id rsp + 1) = None ∧ req_vm_id rsp = next_vm_id st ∧
    b_mem b = Some m ∧ m_size m = req_size rsp ∧ b_size b = req_size rsp ∧
    req_size rsp = 2 ^ k ∧ 0 <= k ∧
    HOST_IVSHMEM_G2H_OFFSET + nb_cpu req * MSG_SIZE <= req_size rsp ∧
    read_header m = Ok (new_header (req_size rsp)).
Proof.
  intros Hwf Hnb Hr.
  destruct (register_cases env req st Hwf Hnb)
    as [[e He]|[(_ & _ & He)|(b & Hk & Hb & Hbs & Hbm & Hbd & He)]];
    rewrite Hr in He; [done..|]. injection He as -> ->. simpl.
  destruct (backend_size_bounds _ Hnb) as (H1 & H2 & _ & k & Hk0 & Hk2).
  destruct Hb as (m & Hm & Hms & _ & Hh).
  exists b, m, k. split; [done|].
  split; [apply hm_wf_fresh; [done|lia]|]. split; [done|]. split; [done|].
  rewrite Hbs in *. repeat split; try done; lia.
Qed.

(** A failed registration leaves the module exactly as it was, unless the
    descriptor itself could not be allocated; in that one case the VM id is
    consumed and nothing else changes. *)
Theorem register_vm_error_restores env req st st' e :
  hm_wf st → is_u32 (nb_cpu req) → host_register_vm env req st = (st', Err e) →
  st' = st ∨ (kzalloc_ok env = false ∧ e = ENOMEM ∧ st' = set_next_vm_id (next_vm_id st + 1) st).
Proof.
  intros Hwf Hnb Hr.
  destruct (register_cases env req st Hwf Hnb)
    as [[e' He]|[(Hz & _ & He)|(b & _ & _ & _ & _ & _ & He)]];
    rewrite Hr in He; simplify_eq; auto.
Qed.

(** C31: in every state a loaded module can reach through ioctls (with any
    answers of the kernel) and kfunc writes, the registered backends sit at
    their minors with valid headers and account for exactly the live character
    devices, device nodes, debugfs blobs and allocations; nothing was released
    that was not alive. *)
Theorem reachable_module_wf env st :
  loads env → rtc hm_step (loaded env) st → hm_wf st.
Proof. intros Hl Hst. eapply hm_steps_wf; [done|]. by apply loaded_state. Qed.

(** C32: unloading the module from any reachable state frees every backend,
    character device, device node, debugfs blob and allocation, the registry's
    device, the class and the device-number range, and releases nothing that
    is not alive at that moment, so nothing twice. *)
Theorem exit_releases_everything env st :
  loads env → rtc hm_step (loaded env) st →
  no_objects (host_ivshmem_exit st) ∧ chrdev_regions (host_ivshmem_exit st) = 0 ∧
  mod_class (host_ivshmem_exit st) = false ∧ debugfs_root (host_ivshmem_exit st) = false ∧
  bad_releases (host_ivshmem_exit st) = 0.
Proof.
  intros Hl Hst. destruct (loaded_state env Hl) as [Hwf0 Hm].
  rewrite <-(steps_module _ _ Hst) in Hm. injection Hm as _ Hc Hr Hcl _.
  destruct (destroy_registry_no_objects st (hm_steps_wf _ _ Hst Hwf0) Hc) as (Hno & Hb & Hcl' & Hr').
  unfold host_ivshmem_exit. generalize dependent (host_destroy_registry_backend st).
  intros st' Hno Hb Hcl' Hr'. rewrite Hcl in Hcl'. rewrite Hr in Hr'.
  split; [exact Hno|]. simpl. rewrite Hcl', Hr'. done.
Qed.

(** Reading a guest-to-host slot of a freshly registered backend stays
    inside its memory for every index, if and only if the VM was registered
    with at least one vCPU; a registration with 0 vCPUs, which the module
    accepts, makes every read of slots 0 to 63 run past the region. *)
Theorem g2h_read_in_bounds env req st st' rsp :
  hm_wf st → is_u32 (nb_cpu req) → host_register_vm env req st = (st', Ok rsp) →
  (∀ index, is_u32 index →
     host_ivshmem_g2h_read (devices st' !! (req_vm_id rsp + 1)) index ≠ Fault)
  ↔ 1 <= nb_cpu req.
Proof.
  intros Hwf Hnb Hr.
  destruct (register_cases env req st Hwf Hnb)
    as [[e He]|[(_ & _ & He)|(b & Hk & Hb & Hbs & Hbm & Hbd & He)]];
    rewrite Hr in He; [done..|]. injection He as -> ->. simpl. rewrite lookup_insert_eq.
  destruct Hb as (m & Hm & Hms & _). unfold host_ivshmem_g2h_read. rewrite Hm.
  unfold NR_GUEST_IVSHMEM_MSGS. change (PAGE_SIZE / MSG_SIZE) with 64. split.
  - intros Hsafe. destruct (decide (1 <= nb_cpu req)); [done|exfalso].
    assert (Hz : nb_cpu req = 0) by lia.
    specialize (Hsafe 0 ltac:(lia)). apply Hsafe. simpl. apply load_fault.
    rewrite Hms, Hbs, Hz, backend_size_0. simpl. lia.
  - intros H1 index Hi. case_bool; [done|]. bool_hyps.
    pose proof (backend_size_page _ Hnb H1) as Hp.
    unfold HOST_IVSHMEM_G2H_OFFSET, PAGE_SIZE, MSG_SIZE in *.
    rewrite load_in_region by (simpl; lia). done.
Qed.

(** In every state of the module, a mapping of a backend's device that is accepted
    covers the memory of that backend from its first to its last byte, is shared
    and starts at offset 0; a file that was released maps nothing. *)
Theorem host_mmap_exact st minor file vm_start vm_end vm_pgoff shared len :
  hm_wf st → (host_ivshmem_open st minor file).2 = Ok tt →
  let file := (host_ivshmem_open st minor file).1 in
  (host_ivshmem_mmap (file_backend st file) vm_start vm_end vm_pgoff shared = Ok len →
    ∃ b m, devices st !! minor = Some b ∧ b_mem b = Some m ∧ len = m_size m ∧
      vm_pgoff = 0 ∧ shared = true) ∧
  host_ivshmem_mmap (file_backend st (host_ivshmem_release file).1)
    vm_start vm_end vm_pgoff shared = Err ENODEV.
Proof.
  intros Hwf. unfold host_ivshmem_open. destruct (minor >=? MAX_NB_DEVICES); [done|].
  destruct (devices st !! minor) as [b|] eqn:Hb; [|done]. intros _. simpl. rewrite Hb.
  split; [|done]. unfold host_ivshmem_mmap.
  destruct (Z.eqb_spec vm_pgoff 0) as [-> |]; simpl; [|done].
  destruct (Z.eqb_spec (u64 (vm_end - vm_start)) (b_size b)) as [Hl|]; simpl; [|done].
  destruct shared; simpl; intros [= <-].
  apply (wf_backend _ Hwf) in Hb as (_ & _ & _ & (m & Hm & Hs & _) & _).
  exists b, m. split_and!; try done. congruence.
Qed.

(** When the class cannot be created, [host_ivshmem_init] gives the
    device-number range back twice and leaves the debugfs directory it had
    created behind. *)
Theorem init_class_error_unregisters_twice env e :
  chrdev_err env = None → class_err env = Some e →
  (host_ivshmem_init env hostmod0).2 = Err e ∧
  chrdev_regions (host_ivshmem_init env hostmod0).1 = -1 ∧
  debugfs_root (host_ivshmem_init env hostmod0).1 = debugfs_dir_ok env.
Proof.
  intros H1 H2. unfold host_ivshmem_init. rewrite H1, H2. done.
Qed.

(** *** Witnesses: a module loaded without failures, then one VM of 4 vCPUs. *)

Definition init_ok : initenv := InitEnv None None true None None None.
Definition req4 : vm_reg_req := VmRegReq 4 0 0.
Definition req0 : vm_reg_req := VmRegReq 0 0 0.
Definition one_vm : hostmod := (host_register_vm kenv_ok req4 (loaded init_ok)).1.
Definition one_empty_vm : hostmod := (host_register_vm kenv_ok req0 (loaded init_ok)).1.

Lemma loads_init_ok : loads init_ok.
Proof. by repeat split. Qed.

Lemma one_vm_reached : rtc hm_step (loaded init_ok) one_vm.
Proof.
  apply rtc_once.
  replace one_vm with (host_registry_ioctl kenv_ok true req4 (loaded init_ok)).1.
  - apply step_ioctl. simpl. lia.
  - vm_compute. reflexivity.
Qed.

Lemma one_vm_ready : mod_ready one_vm.
Proof.
  assert (Hwf : hm_wf one_vm).
  { eapply hm_steps_wf; [apply one_vm_reached|]. apply loaded_state, loads_init_ok. }
  destruct (devices one_vm !! 1) as [b|] eqn:Hb.
  - exists b. split; [done|]. by apply (wf_backend _ Hwf 1).
  - exfalso. revert Hb. vm_compute. discriminate.
Qed.

Lemma register_vm_backend_layout_witness :
  ∃ b m k, devices one_vm = <[1 := b]> ∅ ∧ b_mem b = Some m ∧ m_size m = 2 ^ k ∧
    read_header m = Ok (new_header 16384).
Proof.
  destruct (register_vm_backend_layout kenv_ok req4 (loaded init_ok) one_vm
    (VmRegReq 4 0 16384)) as (b & m & k & H1 & _ & _ & H2 & H3 & _ & H4 & _ & _ & H5).
  - apply loaded_state, loads_init_ok.
  - simpl. lia.
  - vm_compute. reflexivity.
  - exists b, m, k. split; [exact H1|]. split; [exact H2|]. split; [by rewrite H3, H4|exact H5].
Defined.

Lemma host_mmap_exact_witness :
  ∃ m, m_size m = 16384 ∧
    host_ivshmem_mmap (file_backend one_vm (BackendData 1)) 0 16384 0 true = Ok (m_size m).
Proof.
  destruct (host_mmap_exact one_vm 1 NoData 0 16384 0 true 16384) as [Hm _].
  - eapply hm_steps_wf; [apply one_vm_reached|]. apply loaded_state, loads_init_ok.
  - vm_compute. reflexivity.
  - destruct Hm as (b & m & _ & _ & Hl & _); [vm_compute; reflexivity|].
    exists m. rewrite <-Hl. split; [reflexivity|vm_compute; reflexivity].
Defined.

Lemma register_vm_error_restores_witness :
  let env := KEnv true true None (Some EEXIST) true true true in
  (host_register_vm env req4 (loaded init_ok)).1 = loaded init_ok.
Proof.
  intros env.
  destruct (register_vm_error_restores env req4 (loaded init_ok)
    (host_register_vm env req4 (loaded init_ok)).1 EEXIST) as [H|(H & _)].
  - apply loaded_state, loads_init_ok.
  - simpl. lia.
  - vm_compute. reflexivity.
  - exact H.
  - discriminate.
Defined.

Lemma reachable_module_wf_witness : hm_wf one_vm.
Proof. exact (reachable_module_wf init_ok one_vm loads_init_ok one_vm_reached). Defined.

Lemma exit_releases_everything_witness : no_objects (host_ivshmem_exit one_vm).
Proof.
  destruct (exit_releases_everything init_ok one_vm loads_init_ok one_vm_reached) as [H _].
  exact H.
Defined.

Lemma g2h_read_in_bounds_witness :
  host_ivshmem_g2h_read (devices one_vm !! 1) 63 ≠ Fault ∧
  ¬ ∀ index, is_u32 index → host_ivshmem_g2h_read (devices one_empty_vm !! 1) index ≠ Fault.
Proof.
  split.
  - apply (g2h_read_in_bounds kenv_ok req4 (loaded init_ok) one_vm (VmRegReq 4 0 16384)).
    + apply loaded_state, loads_init_ok.
    + simpl. lia.
    + vm_compute. reflexivity.
    + simpl. lia.
    + lia.
  - intros H. apply (g2h_read_in_bounds kenv_ok req0 (loaded init_ok) one_empty_vm
      (VmRegReq 0 0 8192)) in H; [simpl in H; lia|..].
    + apply loaded_state, loads_init_ok.
    + simpl. lia.
    + vm_compute. reflexivity.
Defined.

Lemma init_class_error_unregisters_twice_witness :
  chrdev_regions
    (host_ivshmem_init (InitEnv None (Some ENOMEM) true None None None) hostmod0).1 = -1.
Proof.
  destruct (init_class_error_unregisters_twice
    (InitEnv None (Some ENOMEM) true None None None) ENOMEM) as (_ & H & _);
    [reflexivity|reflexivity|exact H].
Defined.

End HostIvshmemProps.
