(* ===== verification/PhantomSwitch.v ===== *)
(** Phantom counting: [phantom_switch_handler] of [create_maps.bpf.c].

    On every context switch of the host the handler looks up the incoming and
    the outgoing thread among the registered vCPUs, clears or sets their
    phantom flag, moves the VM's counter and appends a timestamped sample to
    the VM's active buffer.  The handler is modelled as it runs when no other
    CPU interferes; the interference of the counters' compare-and-swap loops is
    in [Atomics]. *)

From S2P Require Import Prelude CString BpfMap Atomics Host Memory HostIvshmem.

Definition TASK_RUNNING : Z := 0.
Definition TASK_WAKING : Z := 512.

(** The fields of [trace_event_raw_sched_switch] the handler reads. *)
Record sched_switch := SchedSwitch { prev_pid : Z; prev_state : Z; next_pid : Z }.

Section handler.
Context {S : Type} `{HostKfuncs S}.
Implicit Types st : host S.

(** [struct gh_message msg = {}; (void)bpf_host_ivshmem_g2h_read(i, &msg)]:
    the word read, or 0 when the read fails.  For a read past the memory of a
    backend registered for 0 vCPUs ([Fault]) the model takes 0 too. *)
Definition openmp_msg st (v : vcpu_t) : Z :=
  match bpf_host_ivshmem_g2h_read (shmem st) (vcpu_index v) with
  | Ok m => m
  | _ => 0
  end.

(** The tail of both branches: pick the active buffer, reserve an index in it
    and store the new count there.  A buffer that is not registered drops the
    sample; an index past the end of the buffer makes the store fail. *)
Definition record_sample (name : list Z) (vm : vm_t) (new_count : Z) st : host S :=
  let '(collection_buff_1, collection_buff_2) := collection_keys name in
  if is_collectx_in_buff_1 vm =? 1 then
    match map_registry st !! collection_buff_1 with
    | None => st
    | Some collection_map =>
        let idx := collection_buff_1_index vm in
        let st := put_vm name (set_buff_1_index (u32 (idx + 1)) vm) st in
        put_sample collection_map idx (Sample new_count (now st)) (tick st)
    end
  else
    match map_registry st !! collection_buff_2 with
    | None => st
    | Some processing_map =>
        let idx := collection_buff_2_index vm in
        let st := put_vm name (set_buff_2_index (u32 (idx + 1)) vm) st in
        put_sample processing_map idx (Sample new_count (now st)) (tick st)
    end.

(** The incoming thread: the local [prev_state] is assigned only when it is a
    registered vCPU, and is 0 otherwise. *)
Definition switch_in (ctx : sched_switch) st : Z * host S :=
  let incoming_process := u32 (next_pid ctx) in
  match vcpus st !! incoming_process with
  | None => (0, st)
  | Some vcpu =>
      let msg := openmp_msg st vcpu in
      let prev_state := u64 (prev_state ctx) in
      if (msg =? 1) && (is_phantom vcpu =? 1) then
        let st := put_vcpu incoming_process (set_is_phantom 0 vcpu) st in
        match vms st !! vm_name vcpu with
        | None => (prev_state, st)
        | Some vm =>
            let r := atomic_dec_if_pos quiet (phantom_count vm) in
            let vm := set_phantom_count (cas_mem r) vm in
            let st := put_vm (vm_name vcpu) vm st in
            (prev_state, record_sample (vm_name vcpu) vm (cas_ret r) st)
        end
      else (prev_state, st)
  end.

(** The outgoing thread, with the [prev_state] left by the first half. *)
Definition switch_out (prev_state : Z) (ctx : sched_switch) st : host S :=
  let outgoing_process := u32 (prev_pid ctx) in
  match vcpus st !! outgoing_process with
  | None => st
  | Some vcpu =>
      let msg := openmp_msg st vcpu in
      if (msg =? 1) && ((prev_state =? TASK_RUNNING) || (prev_state =? TASK_WAKING))
         && (is_phantom vcpu =? 0) then
        let st := put_vcpu outgoing_process (set_is_phantom 1 vcpu) st in
        match vms st !! vm_name vcpu with
        | None => st
        | Some vm =>
            let r := atomic_inc_if_lt_ceil quiet (phantom_count vm) (nb_vcpus vm) in
            let vm := set_phantom_count (cas_mem r) vm in
            let st := put_vm (vm_name vcpu) vm st in
            record_sample (vm_name vcpu) vm (cas_ret r) st
        end
      else st
  end.

Definition phantom_switch_handler (ctx : sched_switch) st : host S :=
  let '(prev_state, st) := switch_in ctx st in
  switch_out prev_state ctx st.
End handler.

(** ** Specification: the set of phantom threads *)

Section spec.
Context {S : Type} `{HostKfuncs S}.
Implicit Types st : host S.

Definition of_vm (name : list Z) (v : vcpu_t) : bool := bool_decide (vm_name v = name).
Definition phantom_of (name : list Z) (v : vcpu_t) : bool :=
  of_vm name v && (is_phantom v =? 1).

(** How many vCPUs of a VM are registered, and how many are phantom. *)
Definition registered (name : list Z) st : Z := map_count (of_vm name) (vcpus st).
Definition phantoms (name : list Z) st : Z := map_count (phantom_of name) (vcpus st).

(** The invariant of the counters: flags are 0 or 1, every VM's counter is
    the number of its phantom vCPUs, and no VM has more registered vCPUs than
    the ceiling it was registered with. *)
Definition flags_ok st : Prop :=
  ∀ t v, vcpus st !! t = Some v → is_phantom v = 0 ∨ is_phantom v = 1.

Definition phantom_inv st : Prop :=
  flags_ok st ∧
  ∀ n c nb, counts st !! n = Some (c, nb) →
    c = phantoms n st ∧ registered n st <= nb ∧ is_u32 nb.

#[global] Instance flags_ok_dec st : Decision (flags_ok st).
Proof.
  refine (cast_if (decide (map_Forall (λ _ v, is_phantom v = 0 ∨ is_phantom v = 1) (vcpus st))));
    done.
Defined.

(** The invariant can be evaluated. *)
Lemma phantom_inv_alt st :
  phantom_inv st ↔ flags_ok st ∧ map_Forall (λ m p,
    p.1 = phantoms m st ∧ registered m st <= p.2 ∧ is_u32 p.2) (counts st).
Proof.
  unfold phantom_inv. split; intros [Hf Hi]; (split; [done|]).
  - intros m [c nb] Hm. by apply Hi.
  - intros m c nb Hm. exact (Hi m (c, nb) Hm).
Qed.

#[global] Instance phantom_inv_dec st : Decision (phantom_inv st).
Proof.
  refine (cast_if (decide (flags_ok st ∧ map_Forall (λ m p,
    p.1 = phantoms m st ∧ registered m st <= p.2 ∧ is_u32 p.2) (counts st))));
    by rewrite phantom_inv_alt.
Defined.

(** The set of threads currently flagged phantom. *)
Definition phantom_set st : gset Z :=
  dom (filter (λ tv, is_phantom tv.2 = 1) (vcpus st)).

(** A registered vCPU whose guest says it runs an OpenMP thread. *)
Definition runs_openmp st (t : Z) : bool :=
  match vcpus st !! t with
  | Some v => openmp_msg st v =? 1
  | None => false
  end.

(** A thread that leaves the CPU in one of these states was preempted. *)
Definition preempted (s : Z) : bool := (s =? TASK_RUNNING) || (s =? TASK_WAKING).

(** The transition [README.md] describes: the incoming vCPU is phantom no more,
    the outgoing one becomes phantom if it was preempted. *)
Definition readme_switch st (ctx : sched_switch) (P : gset Z) : gset Z :=
  let P := P ∖ {[next_pid ctx]} in
  if bool_decide (is_Some (vcpus st !! prev_pid ctx)) && preempted (prev_state ctx)
  then P ∪ {[prev_pid ctx]} else P.

(** The same, restricted to vCPUs whose guest says that they run an OpenMP
    thread: the README does not mention this condition, and the code asks for
    it in both directions. *)
Definition spec_switch st (ctx : sched_switch) (P : gset Z) : gset Z :=
  let P := if runs_openmp st (next_pid ctx) then P ∖ {[next_pid ctx]} else P in
  if runs_openmp st (prev_pid ctx) && preempted (prev_state ctx)
  then P ∪ {[prev_pid ctx]} else P.

Lemma same_counts_inv st st' : same_counts st st' → phantom_inv st → phantom_inv st'.
Proof.
  intros [Hv Hc] [Hf Hi]. unfold phantom_inv, flags_ok, phantoms, registered in *.
  rewrite Hv, Hc. done.
Qed.
End spec.

(** ** What each half of the handler does to flags and counters *)

Section effect.
Context {S : Type} `{HostKfuncs S}.
Implicit Types st : host S.

Lemma store_sample_counts name vm vm' m i x st :
  vms st !! name = Some vm → core vm' = core vm →
  same_counts st (put_sample m i x (tick (put_vm name vm' st))).
Proof.
  intros Hn Hc. etrans; [by apply (same_counts_put_vm st name vm vm')|].
  etrans; [apply same_counts_tick|apply same_counts_put_sample].
Qed.

Lemma record_sample_counts name vm c st :
  vms st !! name = Some vm → same_counts st (record_sample name vm c st).
Proof.
  intros Hn. unfold record_sample. destruct (collection_keys name) as [k1 k2].
  case_bool; case_match; try done; by apply (store_sample_counts name vm).
Qed.

Lemma record_sample_shmem name vm c st :
  shmem (record_sample name vm c st) = shmem st.
Proof.
  unfold record_sample. destruct (collection_keys name) as [k1 k2].
  unfold put_sample. repeat case_match; done.
Qed.

(** The counter update of a VM, on the counter view. *)
Definition bump (f : Z → Z → Z) (n : list Z) (m : gmap (list Z) (Z * Z)) :=
  alter (λ p : Z * Z, (f p.1 p.2, p.2)) n m.

Definition dec_count (c _ : Z) : Z := cas_mem (atomic_dec_if_pos quiet c).
Definition inc_count (c nb : Z) : Z := cas_mem (atomic_inc_if_lt_ceil quiet c nb).

(** Flipping the flag of thread [t] (vCPU [v]) and moving its VM's counter. *)
Definition flipped (flag : Z) (f : Z → Z → Z) (t : Z) (v : vcpu_t) st st' : Prop :=
  vcpus st' = <[t := set_is_phantom flag v]> (vcpus st) ∧
  counts st' = bump f (vm_name v) (counts st).

Lemma flip_effect flag (f : Z → Z → Z) t v st (g : vm_t → Z) :
  vcpus st !! t = Some v →
  flipped flag f t v st
    match vms st !! vm_name v with
    | None => put_vcpu t (set_is_phantom flag v) st
    | Some vm =>
        let vm' := set_phantom_count (f (phantom_count vm) (nb_vcpus vm)) vm in
        record_sample (vm_name v) vm' (g vm)
          (put_vm (vm_name v) vm' (put_vcpu t (set_is_phantom flag v) st))
    end.
Proof.
  intros Ht. unfold flipped, bump. destruct (vms st !! vm_name v) as [vm|] eqn:Hvm.
  - cbv zeta.
    match goal with |- context [record_sample ?n ?w ?c ?s] =>
      pose proof (record_sample_counts n w c s) as Hrs end.
    destruct Hrs as [-> ->]; [apply lookup_insert_eq|]. split; [done|].
    rewrite counts_put_vm. change (counts (put_vcpu _ _ st)) with (counts st).
    symmetry. apply map_eq. intros k.
    destruct (decide (k = vm_name v)) as [->|Hk].
    + rewrite lookup_alter_eq, lookup_insert_eq. by erewrite counts_lookup.
    + by rewrite lookup_alter_ne, lookup_insert_ne by done.
  - split; [done|]. change (counts (put_vcpu _ _ st)) with (counts st).
    symmetry. apply map_eq. intros k.
    destruct (decide (k = vm_name v)) as [->|Hk].
    + rewrite lookup_alter_eq. unfold counts. by rewrite lookup_fmap, Hvm.
    + by rewrite lookup_alter_ne by done.
Qed.

Definition enters st (t : Z) : bool :=
  match vcpus st !! t with
  | Some v => (openmp_msg st v =? 1) && (is_phantom v =? 1)
  | None => false
  end.

Definition leaves st (s t : Z) : bool :=
  match vcpus st !! t with
  | Some v => (openmp_msg st v =? 1) && preempted s && (is_phantom v =? 0)
  | None => false
  end.

Lemma switch_in_effect ctx st :
  let t := u32 (next_pid ctx) in
  let r := switch_in ctx st in
  shmem r.2 = shmem st ∧
  r.1 = (if decide (is_Some (vcpus st !! t)) then u64 (prev_state ctx) else 0) ∧
  if enters st t
  then ∃ v, vcpus st !! t = Some v ∧ is_phantom v = 1 ∧ flipped 0 dec_count t v st r.2
  else r.2 = st.
Proof.
  intros t r. unfold r, switch_in, enters. fold t.
  destruct (vcpus st !! t) as [v|] eqn:Ht; simpl; [|done].
  destruct ((openmp_msg st v =? 1) && (is_phantom v =? 1)) eqn:E; [|done].
  bool_hyps.
  pose proof (flip_effect 0 dec_count t v st
    (λ vm, cas_ret (atomic_dec_if_pos quiet (phantom_count vm))) Ht) as Hf.
  destruct (vms st !! vm_name v) as [vm|] eqn:Hvm; simpl; [|eauto 6].
  rewrite record_sample_shmem. eauto 6.
Qed.

Lemma switch_out_effect s ctx st :
  let t := u32 (prev_pid ctx) in
  let st' := switch_out s ctx st in
  shmem st' = shmem st ∧
  if leaves st s t
  then ∃ v, vcpus st !! t = Some v ∧ is_phantom v = 0 ∧ flipped 1 inc_count t v st st'
  else st' = st.
Proof.
  intros t st'. unfold st', switch_out, leaves, preempted. fold t.
  destruct (vcpus st !! t) as [v|] eqn:Ht; simpl; [|done].
  case_bool; [|done]. bool_hyps.
  pose proof (flip_effect 1 inc_count t v st
    (λ vm, cas_ret (atomic_inc_if_lt_ceil quiet (phantom_count vm) (nb_vcpus vm))) Ht) as Hf.
  destruct (vms st !! vm_name v) as [vm|] eqn:Hvm; simpl; [|eauto 6].
  rewrite record_sample_shmem. eauto 6.
Qed.
End effect.

(** ** The counting invariant *)

Section invariant.
Context {S : Type} `{HostKfuncs S}.
Implicit Types st : host S.

Lemma registered_flip flag t v n st st' :
  vcpus st !! t = Some v → vcpus st' = <[t := set_is_phantom flag v]> (vcpus st) →
  registered n st' = registered n st.
Proof.
  intros Ht Hv. unfold registered. rewrite Hv, map_count_insert.
  unfold count_at. rewrite Ht. simpl. unfold of_vm. simpl. lia.
Qed.

Lemma phantoms_flip flag t v n st st' :
  vcpus st !! t = Some v → vcpus st' = <[t := set_is_phantom flag v]> (vcpus st) →
  phantoms n st' = phantoms n st - Z.b2z (phantom_of n v)
                   + Z.b2z (of_vm n v && (flag =? 1)).
Proof.
  intros Ht Hv. unfold phantoms. rewrite Hv, map_count_insert.
  unfold count_at. rewrite Ht. done.
Qed.

Lemma phantoms_le_registered n st : phantoms n st <= registered n st.
Proof.
  apply map_count_le. intros v Hv. by apply andb_true_iff in Hv as [? _].
Qed.

Lemma flags_flip flag t v st st' :
  flag = 0 ∨ flag = 1 → vcpus st' = <[t := set_is_phantom flag v]> (vcpus st) →
  flags_ok st → flags_ok st'.
Proof.
  intros Hflag Hv Hf t' v'. rewrite Hv. rewrite lookup_insert. case_decide.
  - intros [= <-]. done.
  - apply Hf.
Qed.

Lemma bump_lookup f n m k c nb :
  bump f n m !! k = Some (c, nb) →
  ∃ c0, m !! k = Some (c0, nb) ∧ c = if decide (k = n) then f c0 nb else c0.
Proof.
  unfold bump. destruct (decide (k = n)) as [->|Hk].
  - rewrite lookup_alter_eq. intros Hm. apply fmap_Some in Hm as ([c0 nb0] & ? & [= -> ->]).
    eauto.
  - rewrite lookup_alter_ne by done. eauto.
Qed.

(** Clearing a set flag, with its decrement, keeps the invariant. *)
Lemma clear_inv t v st st' :
  phantom_inv st → vcpus st !! t = Some v → is_phantom v = 1 →
  flipped 0 dec_count t v st st' → phantom_inv st'.
Proof.
  intros [Hf Hi] Ht Hp [Hv Hc]. split; [apply (flags_flip 0 t v st); auto|].
  intros n c nb Hn. rewrite Hc in Hn. apply bump_lookup in Hn as (c0 & Hn & ->).
  destruct (Hi _ _ _ Hn) as (-> & Hr & Hnb).
  rewrite (registered_flip 0 t v n st st'), (phantoms_flip 0 t v n st st') by done.
  split; [|done]. rewrite andb_false_r. simpl. unfold phantom_of.
  rewrite Hp, Z.eqb_refl, andb_true_r. unfold of_vm.
  case_decide as Hd; subst.
  - rewrite bool_decide_true by done. simpl.
    pose proof (phantoms_le_registered (vm_name v) st).
    assert (1 <= phantoms (vm_name v) st).
    { eapply map_count_pos; [done|]. unfold phantom_of, of_vm.
      by rewrite Hp, bool_decide_true. }
    unfold dec_count. rewrite dec_quiet by lia.
    destruct (Z.leb_spec (phantoms (vm_name v) st) 0); simpl; lia.
  - rewrite bool_decide_false by congruence. simpl. lia.
Qed.

(** Setting a clear flag, with its increment, keeps the invariant: the
    ceiling never binds. *)
Lemma mark_inv t v st st' :
  phantom_inv st → vcpus st !! t = Some v → is_phantom v = 0 →
  flipped 1 inc_count t v st st' → phantom_inv st'.
Proof.
  intros [Hf Hi] Ht Hp [Hv Hc]. split; [apply (flags_flip 1 t v st); auto|].
  intros n c nb Hn. rewrite Hc in Hn. apply bump_lookup in Hn as (c0 & Hn & ->).
  destruct (Hi _ _ _ Hn) as (-> & Hr & Hnb).
  rewrite (registered_flip 1 t v n st st'), (phantoms_flip 1 t v n st st') by done.
  split; [|done]. unfold phantom_of. rewrite Hp, andb_false_r, andb_true_r. simpl.
  unfold of_vm. case_decide as Hd; subst.
  - rewrite bool_decide_true by done. simpl.
    assert (phantoms (vm_name v) st < registered (vm_name v) st).
    { eapply map_count_lt; [|done|..].
      - intros w Hw. by apply andb_true_iff in Hw as [? _].
      - unfold phantom_of. by rewrite Hp, andb_false_r.
      - unfold of_vm. by rewrite bool_decide_true. }
    pose proof (map_count_nonneg (phantom_of (vm_name v)) (vcpus st)).
    fold (phantoms (vm_name v) st) in *.
    unfold inc_count. rewrite inc_quiet by lia.
    destruct (phantoms (vm_name v) st >=? nb) eqn:E; bool_hyps; simpl; lia.
  - rewrite bool_decide_false by congruence. simpl. lia.
Qed.

Lemma switch_in_inv ctx st : phantom_inv st → phantom_inv (switch_in ctx st).2.
Proof.
  intros Hi. destruct (switch_in_effect ctx st) as (_ & _ & He).
  destruct (enters _ _); [|by rewrite He]. destruct He as (v & ? & ? & ?).
  by eapply clear_inv.
Qed.

Lemma switch_out_inv s ctx st : phantom_inv st → phantom_inv (switch_out s ctx st).
Proof.
  intros Hi. destruct (switch_out_effect s ctx st) as (_ & He).
  destruct (leaves _ _ _); [|by rewrite He]. destruct He as (v & ? & ? & ?).
  by eapply mark_inv.
Qed.

Lemma handler_inv ctx st : phantom_inv st → phantom_inv (phantom_switch_handler ctx st).
Proof.
  intros Hi. unfold phantom_switch_handler.
  pose proof (switch_in_inv ctx st Hi) as Hin. destruct (switch_in ctx st).
  by apply switch_out_inv.
Qed.
End invariant.

(** ** The flags implement the set specification *)

Section refinement.
Context {S : Type} `{HostKfuncs S}.
Implicit Types st : host S.

Lemma elem_of_phantom_set t st :
  t ∈ phantom_set st ↔ ∃ v, vcpus st !! t = Some v ∧ is_phantom v = 1.
Proof.
  unfold phantom_set. rewrite elem_of_dom. split.
  - intros [v Hv]. apply map_lookup_filter_Some in Hv as [? ?]. eauto.
  - intros (v & Hv & Hp). exists v. by apply map_lookup_filter_Some.
Qed.

Lemma phantom_set_clear t v st st' :
  vcpus st' = <[t := set_is_phantom 0 v]> (vcpus st) →
  phantom_set st' = phantom_set st ∖ {[t]}.
Proof.
  intros Hv. apply set_eq. intros u.
  rewrite elem_of_difference, elem_of_singleton, !elem_of_phantom_set, Hv.
  setoid_rewrite lookup_insert. case_decide; naive_solver.
Qed.

Lemma phantom_set_mark t v st st' :
  vcpus st' = <[t := set_is_phantom 1 v]> (vcpus st) →
  phantom_set st' = phantom_set st ∪ {[t]}.
Proof.
  intros Hv. apply set_eq. intros u.
  rewrite elem_of_union, elem_of_singleton, !elem_of_phantom_set, Hv.
  setoid_rewrite lookup_insert. case_decide; naive_solver.
Qed.

(** The first half removes the incoming thread, exactly when its guest says
    it runs OpenMP. *)
Lemma switch_in_set ctx st :
  is_u32 (next_pid ctx) →
  phantom_set (switch_in ctx st).2 =
    if runs_openmp st (next_pid ctx)
    then phantom_set st ∖ {[next_pid ctx]} else phantom_set st.
Proof.
  intros Hpid. destruct (switch_in_effect ctx st) as (_ & _ & He).
  rewrite u32_id in He by done. unfold enters, runs_openmp in *.
  destruct (vcpus st !! next_pid ctx) as [v|] eqn:Ht; [|by rewrite He].
  destruct (openmp_msg st v =? 1); simpl in He; [|by rewrite He].
  destruct (Z.eqb_spec (is_phantom v) 1) as [Hp|Hp].
  - destruct He as (v' & ? & _ & Hv & _). simplify_eq. by eapply phantom_set_clear.
  - rewrite He. apply set_eq. intros u.
    rewrite elem_of_difference, elem_of_singleton, elem_of_phantom_set. naive_solver.
Qed.

(** Only flags change: which vCPUs there are and what their guests say stays. *)
Lemma flipped_openmp flag f t v st st' u :
  vcpus st !! t = Some v → shmem st' = shmem st → flipped flag f t v st st' →
  runs_openmp st' u = runs_openmp st u.
Proof.
  intros Hv Hs [He _]. unfold runs_openmp. rewrite He. rewrite lookup_insert. case_decide; subst.
  - rewrite Hv. unfold openmp_msg. by rewrite Hs.
  - unfold openmp_msg. by rewrite Hs.
Qed.

Lemma switch_in_openmp ctx st t :
  runs_openmp (switch_in ctx st).2 t = runs_openmp st t.
Proof.
  destruct (switch_in_effect ctx st) as (Hs & _ & He).
  destruct (enters _ _); [|by rewrite He].
  destruct He as (v & Hv & _ & He). by eapply flipped_openmp.
Qed.

Lemma handler_shmem ctx st : shmem (phantom_switch_handler ctx st) = shmem st.
Proof.
  unfold phantom_switch_handler. destruct (switch_in_effect ctx st) as (<- & _ & _).
  destruct (switch_in ctx st) as [s st']. by destruct (switch_out_effect s ctx st') as [-> _].
Qed.

Lemma switch_out_openmp s ctx st u : runs_openmp (switch_out s ctx st) u = runs_openmp st u.
Proof.
  destruct (switch_out_effect s ctx st) as (Hs & He).
  destruct (leaves _ _ _); [|by rewrite He]. destruct He as (v & Hv & _ & He).
  by eapply flipped_openmp.
Qed.

Lemma handler_openmp ctx st u : runs_openmp (phantom_switch_handler ctx st) u = runs_openmp st u.
Proof.
  unfold phantom_switch_handler. rewrite <- (switch_in_openmp ctx st u).
  destruct (switch_in ctx st) as [s st']. apply switch_out_openmp.
Qed.

(** A vCPU keeps its index and its VM. *)
Lemma handler_index ctx st t v :
  vcpus (phantom_switch_handler ctx st) !! t = Some v →
  ∃ v0, vcpus st !! t = Some v0 ∧ vcpu_index v = vcpu_index v0 ∧ vm_name v = vm_name v0.
Proof.
  assert (∀ flag f u w (s s' : host S), vcpus s !! u = Some w → flipped flag f u w s s' → vcpus s' !! t = Some v →
    ∃ v0, vcpus s !! t = Some v0 ∧ vcpu_index v = vcpu_index v0 ∧ vm_name v = vm_name v0) as Hfl.
  { intros flag f u w s s' Hw [-> _] Ht. apply lookup_insert_Some in Ht as [[-> <-]|[_ Ht]]; eauto. }
  unfold phantom_switch_handler. destruct (switch_in_effect ctx st) as (_ & _ & Hin).
  destruct (switch_in ctx st) as [s st1]. simpl in *. intros Ht.
  assert (∃ v1, vcpus st1 !! t = Some v1 ∧ vcpu_index v = vcpu_index v1 ∧ vm_name v = vm_name v1)
    as (v1 & H1 & -> & ->).
  { destruct (switch_out_effect s ctx st1) as (_ & Hout). destruct (leaves _ _ _);
      [destruct Hout as (w & Hw & _ & Hf); by eapply Hfl|rewrite Hout in Ht; eauto]. }
  destruct (enters _ _); [|subst; eauto]. destruct Hin as (w & Hw & _ & [Hv _]). rewrite Hv in H1.
  apply lookup_insert_Some in H1 as [[<- <-]|[_ H1]]; eauto.
Qed.

(** The second half adds the outgoing thread when it was preempted. *)
Lemma switch_out_set s ctx st :
  flags_ok st → is_u32 (prev_pid ctx) →
  phantom_set (switch_out s ctx st) =
    if runs_openmp st (prev_pid ctx) && preempted s
    then phantom_set st ∪ {[prev_pid ctx]} else phantom_set st.
Proof.
  intros Hf Hpid. destruct (switch_out_effect s ctx st) as (_ & He).
  rewrite u32_id in He by done. unfold leaves, runs_openmp in *.
  destruct (vcpus st !! prev_pid ctx) as [v|] eqn:Ht; [|by rewrite He].
  destruct ((openmp_msg st v =? 1) && preempted s); simpl in He; [|by rewrite He].
  destruct (Z.eqb_spec (is_phantom v) 0) as [Hp|Hp].
  - destruct He as (v' & ? & _ & Hv & _). simplify_eq. by eapply phantom_set_mark.
  - rewrite He. apply set_eq. intros u.
    rewrite elem_of_union, elem_of_singleton, elem_of_phantom_set.
    destruct (Hf _ _ Ht); naive_solver.
Qed.

Lemma switch_in_flags ctx st : flags_ok st → flags_ok (switch_in ctx st).2.
Proof.
  intros Hf. destruct (switch_in_effect ctx st) as (_ & _ & He).
  destruct (enters _ _); [|by rewrite He]. destruct He as (v & _ & _ & Hv & _).
  eapply (flags_flip 0); eauto.
Qed.

(** The whole handler: preemption is judged by the [prev_state] of the event
    only if the incoming thread is a registered vCPU. *)
Lemma handler_set ctx st :
  flags_ok st → is_u32 (next_pid ctx) → is_u32 (prev_pid ctx) → is_u64 (prev_state ctx) →
  let P := if runs_openmp st (next_pid ctx)
           then phantom_set st ∖ {[next_pid ctx]} else phantom_set st in
  let s := if decide (is_Some (vcpus st !! next_pid ctx)) then prev_state ctx else 0 in
  phantom_set (phantom_switch_handler ctx st) =
    if runs_openmp st (prev_pid ctx) && preempted s then P ∪ {[prev_pid ctx]} else P.
Proof.
  intros Hf Hn Hp Hs P s. unfold phantom_switch_handler.
  pose proof (switch_in_set ctx st Hn) as Hin.
  pose proof (switch_in_openmp ctx st (prev_pid ctx)) as Ho.
  pose proof (switch_in_flags ctx st Hf) as Hf'.
  destruct (switch_in_effect ctx st) as (_ & Hst & _).
  destruct (switch_in ctx st) as [s' st']. simpl in *.
  rewrite switch_out_set, Ho, Hin by done. subst s'.
  rewrite u32_id, u64_id by done. done.
Qed.

(** With OpenMP threads on the vCPUs concerned, the README is right. *)
Lemma spec_is_readme ctx st :
  (∀ t, t = next_pid ctx ∨ t = prev_pid ctx → is_Some (vcpus st !! t) → runs_openmp st t = true) →
  spec_switch st ctx (phantom_set st) = readme_switch st ctx (phantom_set st).
Proof.
  intros Hall. unfold spec_switch, readme_switch.
  assert ((if runs_openmp st (next_pid ctx) then phantom_set st ∖ {[next_pid ctx]}
           else phantom_set st) = phantom_set st ∖ {[next_pid ctx]}) as ->.
  { destruct (vcpus st !! next_pid ctx) as [v|] eqn:Hv.
    - rewrite Hall by (rewrite ?Hv; eauto). done.
    - assert (next_pid ctx ∉ phantom_set st) by (rewrite elem_of_phantom_set; naive_solver).
      case_match; set_solver. }
  assert (runs_openmp st (prev_pid ctx) = bool_decide (is_Some (vcpus st !! prev_pid ctx))) as ->; [|done].
  case_bool_decide as Hd; [by apply Hall; auto|].
  unfold runs_openmp. destruct (vcpus st !! prev_pid ctx); [destruct Hd; eauto|done].
Qed.
End refinement.

(** ** Properties *)

Module PhantomSwitchProps.
Section props.
Context {S : Type} `{HostKfuncs S}.
Implicit Types st : host S.

(** The phantom counter is exact: if every VM's [phantom_count] is the
    number of its vCPUs flagged phantom (and no VM has more vCPUs than it was
    registered with), the same holds after any context switch, whichever
    branch of the handler runs. *)
Theorem switch_preserves_phantom_inv ctx st :
  phantom_inv st → phantom_inv (phantom_switch_handler ctx st).
Proof. apply handler_inv. Qed.

(** C8: what the handler does to the set of phantom threads, whenever the
    incoming thread is itself a registered vCPU or the outgoing one really was
    runnable: an incoming vCPU that runs an OpenMP thread leaves the set, an
    outgoing one that runs an OpenMP thread and was preempted enters it, and
    vCPUs that run none stay as they are.  That is the transition of the README
    when the vCPUs concerned run OpenMP threads. *)
Theorem switch_refines_spec ctx st :
  flags_ok st → is_u32 (next_pid ctx) → is_u32 (prev_pid ctx) → is_u64 (prev_state ctx) →
  is_Some (vcpus st !! next_pid ctx) ∨ preempted (prev_state ctx) = true →
  let P' := phantom_set (phantom_switch_handler ctx st) in
  P' = spec_switch st ctx (phantom_set st) ∧
  ((∀ t, t = next_pid ctx ∨ t = prev_pid ctx → is_Some (vcpus st !! t) → runs_openmp st t = true) →
   P' = readme_switch st ctx (phantom_set st)).
Proof.
  intros Hf Hn Hp Hs Hcase. assert (phantom_set (phantom_switch_handler ctx st) =
    spec_switch st ctx (phantom_set st)) as HP.
  { rewrite handler_set by done. unfold spec_switch.
    case_decide as Hd; [done|]. destruct Hcase as [?|Hpre]; [done|]. by rewrite Hpre. }
  split; [done|]. intros Hall. rewrite HP. by apply spec_is_readme.
Qed.

(** C39: the handler does not implement the specification in the remaining
    case: when the incoming thread is not a vCPU, the [prev_state] of the
    event is ignored, so a vCPU that went to sleep of its own accord while
    its guest word says OpenMP is marked phantom. *)
Theorem sleeping_vcpu_marked_phantom ctx st v :
  flags_ok st → is_u32 (next_pid ctx) → is_u32 (prev_pid ctx) → is_u64 (prev_state ctx) →
  vcpus st !! next_pid ctx = None →
  vcpus st !! prev_pid ctx = Some v → openmp_msg st v = 1 →
  preempted (prev_state ctx) = false →
  phantom_set (phantom_switch_handler ctx st) = phantom_set st ∪ {[prev_pid ctx]} ∧
  spec_switch st ctx (phantom_set st) = phantom_set st.
Proof.
  intros Hf Hn Hp Hs Hnext Hprev Hmsg Hpre.
  assert (Hr : runs_openmp st (next_pid ctx) = false) by (unfold runs_openmp; by rewrite Hnext).
  assert (Hr' : runs_openmp st (prev_pid ctx) = true)
    by (unfold runs_openmp; rewrite Hprev; by apply Z.eqb_eq).
  split.
  - rewrite handler_set by done. rewrite Hr, Hr', Hnext. done.
  - unfold spec_switch. by rewrite Hr, Hr', Hpre.
Qed.
End props.

(** *** Witnesses: one VM of 4 vCPUs, two of them registered, both running
    OpenMP threads according to their guest words; thread 101 is phantom. *)

Definition w_name : list Z := strncpy_zeroed VM_NAME_LEN [118; 109].

Definition w_mod : hostmod :=
  guest_store (guest_store HostIvshmemProps.one_vm HOST_IVSHMEM_G2H_OFFSET 1)
    (HOST_IVSHMEM_G2H_OFFSET + MSG_SIZE) 1.

Definition w_host : host hostmod :=
  Host {[w_name := VM [] 1 0 0 0 4 0]}
       (<[100 := VCPU 0 w_name 0]> {[101 := VCPU 1 w_name 1]})
       (<[registry_key [118; 109] suffix_1 := 1]> {[registry_key [118; 109] suffix_2 := 2]})
       (<[1 := array_new VM_MAP_MAX_ENTRIES]> {[2 := array_new VM_MAP_MAX_ENTRIES]})
       (array_new 1) (Clock (λ n, 1000 * Z.of_nat n) 0) w_mod.

Lemma switch_preserves_phantom_inv_witness :
  phantom_inv (phantom_switch_handler (SchedSwitch 100 0 101) w_host) ∧
  phantom_count <$> (vms (phantom_switch_handler (SchedSwitch 100 0 101) w_host) !! w_name)
    = Some 1.
Proof.
  split; [|vm_compute; reflexivity].
  apply switch_preserves_phantom_inv. decide_now.
Defined.

Lemma switch_refines_spec_witness :
  phantom_set (phantom_switch_handler (SchedSwitch 100 0 101) w_host) = {[100]} ∧
  phantom_set (phantom_switch_handler (SchedSwitch 100 0 101) w_host)
    = readme_switch w_host (SchedSwitch 100 0 101) (phantom_set w_host).
Proof.
  split; [decide_now|].
  apply switch_refines_spec; try (simpl; lia).
  - decide_now.
  - right. reflexivity.
  - intros t [-> | ->] _; vm_compute; reflexivity.
Defined.

Lemma sleeping_vcpu_marked_phantom_witness :
  phantom_set (phantom_switch_handler (SchedSwitch 100 1 7) w_host)
    = phantom_set w_host ∪ {[100]}.
Proof.
  refine (proj1 (sleeping_vcpu_marked_phantom (SchedSwitch 100 1 7) w_host (VCPU 0 w_name 0)
    _ _ _ _ _ _ _ _)).
  - decide_now.
  - simpl. lia.
  - simpl. lia.
  - simpl. lia.
  - vm_compute. reflexivity.
  - vm_compute. reflexivity.
  - vm_compute. reflexivity.
  - reflexivity.
Defined.
End PhantomSwitchProps.
