(* ===== verification/PhantomTimer.v ===== *)
(** The averaging timer: [timer.bpf.c].

    Every 4 ms the timer visits every VM, closes its active sample buffer with
    a final sample, makes the other buffer active with a first sample, averages
    the closed buffer over time and publishes the average, the latest idle
    average and the time as one 64-bit watermark in the next history slot of
    the shared page.  [bpf_for_each_map_elem] visits a hash map in an order the
    kernel chooses, which is the argument [order] of [timer_cb]; the result of
    [bpf_timer_init] is an argument of the handler that starts the timer. *)

From S2P Require Import Prelude CString BpfMap Sampling Host.

Definition MSG_TIMER_PERIOD_NS : Z := 4000000.
Definition H2G_HISTORY_SLOT_COUNT : Z := NR_HOST_IVSHMEM_MSGS - H2G_FIRST_HISTORY_SLOT.

(** ** The time-weighted average *)

Record phantom_avg_ctx := PhantomAvgCtx {
  pa_sum : Z;          (* __s64 *)
  pa_total_time : Z;   (* __u64 *)
  pa_nb_samples : Z;   (* int *)
  pa_avg : Z           (* __s64 *)
}.

(** [k >= data->nb_samples] compares as unsigned 32-bit integers. *)
Definition phantom_avg_cb (map : array_map sample) (k : Z) (current_sample : sample)
    (data : phantom_avg_ctx) : phantom_avg_ctx :=
  if k >=? u32 (pa_nb_samples data) then data
  else
    let next_k := u32 (k + 1) in
    match array_lookup sample_zero map next_k with
    | None => data
    | Some next_sample =>
        if timestamp next_sample <? timestamp current_sample then data
        else
          let count := count current_sample in
          let count := if count <? 0 then 0 else count in
          let duration := u64 (timestamp next_sample - timestamp current_sample) in
          PhantomAvgCtx (s64 (pa_sum data + s64 (count * s64 duration)))
            (u64 (pa_total_time data + duration)) (pa_nb_samples data) (pa_avg data)
    end.

(** [ctx.sum / ctx.total_time] divides unsigned 64-bit integers. *)
Definition phantom_average (map : array_map sample) (nb_samples : Z) : Z :=
  let ctx := PhantomAvgCtx 0 0 nb_samples 0 in
  let ctx := array_for_each sample_zero map (phantom_avg_cb map) ctx in
  if pa_total_time ctx >? 0 then s64 (u64 (pa_sum ctx) / pa_total_time ctx) else 0.

(** ** The watermark *)

(** [idx = fetch_and_add(&vm->h2g_history_index, 1) % H2G_HISTORY_SLOT_COUNT]:
    the slot and the VM with its cursor advanced. *)
Definition next_history_slot (vm : vm_t) : Z * vm_t :=
  let idx := h2g_history_index vm mod H2G_HISTORY_SLOT_COUNT in
  (H2G_FIRST_HISTORY_SLOT + idx, set_history_index (u32 (h2g_history_index vm + 1)) vm).

Definition watermark (ts phantom_avg idle_avg : Z) : Z :=
  Z.lor (Z.lor (u64 (Z.shiftl (Z.land ts 4294967295) 32))
               (u64 (Z.shiftl (Z.land (u64 phantom_avg) 65535) 16)))
        (Z.land idle_avg 65535).

(** ** The timer program *)

(** [struct bpf_timer]: how often it was initialised, whether its callback is
    set, and the delay of the last start. *)
Record bpf_timer := BpfTimer { bt_inits : nat; bt_callback : bool; bt_armed : option Z }.

Record elem := Elem { timer : bpf_timer; counter : Z; started : Z }.

Definition elem_zero : elem := Elem (BpfTimer 0 false None) 0 0.

Definition bpf_timer_start (delay : Z) (t : bpf_timer) : bpf_timer :=
  BpfTimer (bt_inits t) (bt_callback t) (Some delay).

Section timer.
Context {S : Type} `{HostKfuncs S}.
Implicit Types st : host S.

Definition write_watermark (index ts phantom_avg idle_avg : Z) st : host S :=
  set_shmem
    (bpf_host_ivshmem_h2g_write (shmem st) index (watermark ts phantom_avg idle_avg)).1 st.

(** The idle average last published, 0 without a tracker element. *)
Definition published_idle_avg st : Z :=
  match array_lookup tracker_zero (global_tracker_state st) 0 with
  | Some gstate => last_idle_avg gstate
  | None => 0
  end.

(** [phantom_average] of a map reached through its pointer. *)
Definition average_of (mid nb_samples : Z) st : Z :=
  match inner_maps st !! mid with
  | Some map => phantom_average map nb_samples
  | None => 0
  end.

(** The swap: the first sample of the next buffer, the flag, the reserved
    index and the last sample of the old one.  Returns the closed map and its
    number of samples. *)
Definition swap_buffers (name : list Z) (vm : vm_t) (collection_map processing_map : Z)
    (count_start count_end : sample) st : Z * Z * vm_t * host S :=
  if is_collectx_in_buff_1 vm =? 1 then
    let st := put_sample processing_map 0 count_start st in
    let vm := set_buff_2_index 1 vm in
    let vm := set_collectx 0 vm in
    let end_idx := collection_buff_1_index vm in
    let vm := set_buff_1_index (u32 (end_idx + 1)) vm in
    let st := put_vm name vm st in
    (collection_map, end_idx, vm, put_sample collection_map end_idx count_end st)
  else
    let st := put_sample collection_map 0 count_start st in
    let vm := set_buff_1_index 1 vm in
    let vm := if is_collectx_in_buff_1 vm =? 0 then set_collectx 1 vm else vm in
    let end_idx := collection_buff_2_index vm in
    let vm := set_buff_2_index (u32 (end_idx + 1)) vm in
    let st := put_vm name vm st in
    (processing_map, end_idx, vm, put_sample processing_map end_idx count_end st).

Definition callback_fn (name : list Z) (vm : vm_t) st : host S :=
  let '(collection_buff_1, collection_buff_2) := collection_keys name in
  match map_registry st !! collection_buff_1, map_registry st !! collection_buff_2 with
  | Some collection_map, Some processing_map =>
      let count_end := Sample (phantom_count vm) (now st) in
      let st := tick st in
      let count_start := Sample (phantom_count vm) (now st) in
      let st := tick st in
      let '(map_to_use, nb_samples, vm, st) :=
        swap_buffers name vm collection_map processing_map count_start count_end st in
      let avg := average_of map_to_use (s32 nb_samples) st in
      let idle_avg := published_idle_avg st in
      let ts := now st in
      let st := tick st in
      let '(history_slot, vm) := next_history_slot vm in
      write_watermark history_slot ts avg idle_avg (put_vm name vm st)
  | _, _ => st
  end.

(** [bpf_for_each_map_elem(&vms, callback_fn, NULL, 0)], visiting the keys in
    the given order. *)
Definition visit_vm (name : list Z) st : host S :=
  match vms st !! name with
  | Some vm => callback_fn name vm st
  | None => st
  end.

Definition for_each_vm (order : list (list Z)) st : host S :=
  foldl (λ st name, visit_vm name st) st order.

Definition timer_cb (order : list (list Z)) (val : elem) st : elem * host S :=
  let val := Elem (timer val) (u64 (counter val + 1)) (started val) in
  let st := for_each_vm order st in
  (Elem (bpf_timer_start MSG_TIMER_PERIOD_NS (timer val)) (counter val) (started val), st).
End timer.

(** [phantom_timer_handler], with [ret] what [bpf_timer_init] returns if it is
    called. *)
Definition phantom_timer_handler (ret : Z) (timer_map : array_map elem) : array_map elem :=
  match array_lookup elem_zero timer_map 0 with
  | None => timer_map
  | Some e =>
      let old := started e in
      let e := Elem (timer e) (counter e) 1 in
      if negb (old =? 0) then array_update timer_map 0 e
      else if negb (ret =? 0) then
        array_update timer_map 0 (Elem (timer e) (counter e) 0)
      else
        let t := BpfTimer (1 + bt_inits (timer e)) true (bt_armed (timer e)) in
        array_update timer_map 0
          (Elem (bpf_timer_start MSG_TIMER_PERIOD_NS t) (counter e) (started e))
  end.

(** ** The average is the reference average *)

(** The two accumulators of the callback are those of the shared loop body. *)
Lemma phantom_avg_cb_step nb map k x data acc :
  pa_nb_samples data = nb → acc = (pa_sum data, pa_total_time data) →
  let data' := phantom_avg_cb map k x data in
  pa_nb_samples data' = nb ∧ pa_avg data' = pa_avg data ∧
  sample_step nb map k x acc = (pa_sum data', pa_total_time data').
Proof.
  intros Hnb ->. unfold phantom_avg_cb, sample_step. rewrite Hnb.
  repeat case_match; simpl; auto.
Qed.

Lemma phantom_average_accs map nb :
  0 <= am_max map →
  phantom_average map nb =
    let acc := array_for_each sample_zero map (sample_step nb map) (0, 0) in
    if acc.2 >? 0 then s64 (u64 acc.1 / acc.2) else 0.
Proof.
  intros Hmax. unfold phantom_average, array_for_each.
  match goal with |- context [zfor _ ?f (PhantomAvgCtx _ _ _ _)] =>
  match goal with |- context [zfor _ ?g (0, 0)] =>
    pose proof (zfor_rel (λ data acc, pa_nb_samples data = nb ∧
      acc = (pa_sum data, pa_total_time data)) (am_max map) f g
      (PhantomAvgCtx 0 0 nb 0) (0, 0)) as Hrel end end.
  destruct Hrel as [_ ->]; simpl; [done|done| |done].
  intros k data acc Hk [Hnb Hacc].
  destruct (phantom_avg_cb_step nb map k (default sample_zero (am_vals map !! k)) data acc)
    as (? & _ & ?); done.
Qed.

Lemma s32_u32 x : u32 (s32 x) = u32 x.
Proof.
  unfold u32, s32. rewrite Zminus_mod_idemp_l.
  replace (x + 2 ^ 31 - 2 ^ 31) with x by lia. done.
Qed.

Lemma sample_step_s32 nb map k x acc : sample_step (s32 nb) map k x acc = sample_step nb map k x acc.
Proof. unfold sample_step. by rewrite s32_u32. Qed.

Lemma phantom_average_ref map l nb :
  0 < am_max map < 2 ^ 32 → holds map (fits map l) →
  Z.of_nat (length l) = nb + 1 → is_u32 nb →
  Forall (λ x, is_u64 (timestamp x)) l →
  weighted_sum (fits map l) < 2 ^ 63 → weighted_time (fits map l) < 2 ^ 64 →
  phantom_average map (s32 nb) = weighted_avg (fits map l).
Proof.
  intros Hmax Hh Hlen Hnb Hts Hs Ht. rewrite phantom_average_accs by lia.
  assert (array_for_each sample_zero map (sample_step (s32 nb) map) (0, 0) =
          (weighted_sum (fits map l), weighted_time (fits map l))) as ->.
  { rewrite <- (for_each_fits map l nb) by done. unfold array_for_each.
    apply zfor_ext; [lia|]. intros. apply sample_step_s32. }
  simpl. unfold weighted_avg. rewrite Z.gtb_ltb.
  destruct (Z.ltb_spec 0 (weighted_time (fits map l))) as [Hpos|]; [|done].
  pose proof (weighted_sum_nonneg (fits map l)).
  rewrite u64_id by lia. apply s64_id.
  split; [apply Z.le_trans with 0; [lia|]; apply Z.div_pos; lia|].
  apply Z.div_lt_upper_bound; nia.
Qed.

(** ** The watermark round trip *)

(** The fields of a watermark as documented: 32 bits of timestamp, 16 of the
    phantom average, 16 of the idle average. *)
Definition wm_ts (w : Z) : Z := Z.shiftr w 32.
Definition wm_phantom (w : Z) : Z := Z.land (Z.shiftr w 16) 65535.
Definition wm_idle (w : Z) : Z := Z.land w 65535.

Lemma watermark_value ts p i :
  watermark ts p i = (ts mod 2 ^ 32) * 2 ^ 32 + (p mod 2 ^ 16) * 2 ^ 16 + i mod 2 ^ 16.
Proof.
  unfold watermark.
  rewrite (land_mask ts 32), (land_mask (u64 p) 16), (land_mask i 16) by lia.
  assert (Hu : u64 p mod 2 ^ 16 = p mod 2 ^ 16).
  { unfold u64. apply Z.mod_mod_divide. by exists (2 ^ 48). }
  rewrite Hu.
  pose proof (u32_range ts). pose proof (u16_range p). pose proof (u16_range i).
  unfold u32, u16 in *.
  rewrite !Z.shiftl_mul_pow2 by lia. rewrite !u64_id by lia.
  rewrite <- (Z.shiftl_mul_pow2 (ts mod 2 ^ 32)) by lia.
  rewrite (lor_shiftl_add _ (p mod 2 ^ 16 * 2 ^ 16) 32) by lia.
  replace (ts mod 2 ^ 32 * 2 ^ 32 + p mod 2 ^ 16 * 2 ^ 16)
    with ((ts mod 2 ^ 32 * 2 ^ 16 + p mod 2 ^ 16) * 2 ^ 16) by lia.
  rewrite <- (Z.shiftl_mul_pow2 (_ + _)) by lia. rewrite lor_shiftl_add by lia.
  rewrite Z.shiftl_mul_pow2 by lia. lia.
Qed.

Lemma watermark_u64 ts p i : is_u64 (watermark ts p i).
Proof.
  rewrite watermark_value.
  pose proof (u32_range ts). pose proof (u16_range p). pose proof (u16_range i).
  unfold u32, u16 in *. lia.
Qed.

Lemma watermark_fields ts p i :
  wm_ts (watermark ts p i) = u32 ts ∧
  wm_phantom (watermark ts p i) = u16 p ∧
  wm_idle (watermark ts p i) = u16 i.
Proof.
  unfold wm_ts, wm_phantom, wm_idle, u16, u32. rewrite watermark_value.
  pose proof (u32_range ts). pose proof (u16_range p). pose proof (u16_range i).
  unfold u32, u16 in *.
  rewrite !Z.shiftr_div_pow2, !(land_mask _ 16) by lia.
  set (t := ts mod 2 ^ 32) in *. set (q := p mod 2 ^ 16) in *. set (r := i mod 2 ^ 16) in *.
  assert (H32 : (t * 2 ^ 32 + q * 2 ^ 16 + r) / 2 ^ 32 = t)
    by (symmetry; apply Z.div_unique with (q * 2 ^ 16 + r); lia).
  assert (H16 : (t * 2 ^ 32 + q * 2 ^ 16 + r) / 2 ^ 16 = t * 2 ^ 16 + q)
    by (symmetry; apply Z.div_unique with r; lia).
  rewrite H32, H16. split_and!; [done| |].
  - symmetry. apply Z.mod_unique with t; lia.
  - symmetry. apply Z.mod_unique with (t * 2 ^ 16 + q); lia.
Qed.

(** The slot is always one the kfunc accepts. *)
Lemma next_history_slot_range vm :
  H2G_FIRST_HISTORY_SLOT <= (next_history_slot vm).1 < NR_HOST_IVSHMEM_MSGS.
Proof.
  change (1 <= 1 + h2g_history_index vm mod 63 < 64).
  pose proof (Z.mod_pos_bound (h2g_history_index vm) 63). lia.
Qed.

#[export] Hint Resolve next_history_slot_range watermark_u64 : pv.

(** ** Starting the timer *)

(** The timer map after a sequence of context switches; the [i]-th element of
    [rets] is what [bpf_timer_init] returns if the [i]-th switch calls it. *)
Definition sched_switches (rets : list Z) : array_map elem :=
  foldl (λ m ret, phantom_timer_handler ret m) (array_new 1) rets.

(** A map whose timer runs is left alone. *)
Lemma handler_started ret m e :
  am_max m = 1 → array_lookup elem_zero m 0 = Some e → started e = 1 →
  array_lookup elem_zero (phantom_timer_handler ret m) 0 = Some e ∧
  am_max (phantom_timer_handler ret m) = 1.
Proof.
  intros Hm He Hs. unfold phantom_timer_handler. rewrite He, Hs. simpl.
  rewrite array_lookup_update_eq, am_max_update by lia. split; [|done].
  destruct e as [t c s]. simpl in *. by subst s.
Qed.

(** ** The history cursor *)

Definition advance (vm : vm_t) : vm_t := (next_history_slot vm).2.

(** The slot of the [k]-th publication from now. *)
Definition slot_after (k : nat) (vm : vm_t) : Z := (next_history_slot (Nat.iter k advance vm)).1.

Lemma slot_after_eq k vm :
  0 <= h2g_history_index vm → h2g_history_index vm + Z.of_nat k < 2 ^ 32 →
  slot_after k vm = 1 + (h2g_history_index vm + Z.of_nat k) mod 63.
Proof.
  intros H0 Hk. unfold slot_after.
  assert (h2g_history_index (Nat.iter k advance vm) = h2g_history_index vm + Z.of_nat k) as Hi.
  { induction k as [|k IH]; [simpl; lia|]. simpl. rewrite IH by lia. rewrite u32_id; lia. }
  unfold next_history_slot. cbn [fst]. by rewrite Hi.
Qed.

Module PhantomTimerProps.
(** The timer is started exactly once.  After any sequence of context
    switches, if [bpf_timer_init] has succeeded at some switch the timer was
    initialised once, has its callback and was armed with the 4 ms period; as
    long as it has only failed, the element is as it was and the next switch
    tries again. *)
Theorem timer_started_once (rets : list Z) :
  array_lookup elem_zero (sched_switches rets) 0 =
    Some (if existsb (λ ret, ret =? 0) rets
          then Elem (BpfTimer 1 true (Some MSG_TIMER_PERIOD_NS)) 0 1 else elem_zero).
Proof.
  assert (am_max (sched_switches rets) = 1 ∧
    array_lookup elem_zero (sched_switches rets) 0 =
    Some (if existsb (λ ret, ret =? 0) rets
          then Elem (BpfTimer 1 true (Some MSG_TIMER_PERIOD_NS)) 0 1 else elem_zero))
    as [_ H]; [|done].
  induction rets as [|ret rets IH] using rev_ind; [done|]. destruct IH as [Hm He].
  unfold sched_switches in *. rewrite foldl_app, existsb_app. simpl. rewrite orb_false_r.
  set (m := foldl _ _ rets) in *. clearbody m.
  destruct (existsb _ rets) eqn:Ex; simpl.
  - destruct (handler_started ret _ _ Hm He eq_refl). done.
  - unfold phantom_timer_handler. rewrite He. simpl.
    destruct (ret =? 0); simpl; rewrite array_lookup_update_eq, am_max_update by lia; done.
Qed.

(** Packing a watermark loses nothing that fits its field: the low 32 bits
    of the time, and the phantom and idle averages whenever they are below
    [2 ^ 16], are recovered from the published word. *)
Theorem watermark_roundtrip ts p i :
  is_u16 p → is_u16 i →
  wm_ts (watermark ts p i) = u32 ts ∧ wm_phantom (watermark ts p i) = p ∧
  wm_idle (watermark ts p i) = i.
Proof.
  intros Hp Hi. destruct (watermark_fields ts p i) as (H1 & H2 & H3).
  rewrite H1, H2, H3. unfold u16. by rewrite !Z.mod_small.
Qed.

Lemma watermark_roundtrip_witness :
  wm_ts (watermark (2 ^ 40 + 7) 3 250) = 7 ∧ wm_phantom (watermark (2 ^ 40 + 7) 3 250) = 3.
Proof.
  destruct (watermark_roundtrip (2 ^ 40 + 7) 3 250) as (H1 & H2 & _); [lia|lia|].
  split; [rewrite H1; reflexivity|exact H2].
Defined.

(** The history is a ring.  Until the 32-bit cursor wraps around, the next
    63 publications go to the 63 different history slots, every slot is
    written, and the 64th publication reuses the slot of the first. *)
Theorem history_slots_cycle vm :
  0 <= h2g_history_index vm → h2g_history_index vm + 64 <= 2 ^ 32 →
  (∀ i j, (i < 63)%nat → (j < 63)%nat → slot_after i vm = slot_after j vm → i = j) ∧
  (∀ s, H2G_FIRST_HISTORY_SLOT <= s < NR_HOST_IVSHMEM_MSGS →
     ∃ k, (k < 63)%nat ∧ slot_after k vm = s) ∧
  slot_after 63 vm = slot_after 0 vm.
Proof.
  intros H0 Hw. change H2G_FIRST_HISTORY_SLOT with 1. change NR_HOST_IVSHMEM_MSGS with 64.
  set (c := h2g_history_index vm) in *.
  assert (Hs : ∀ k, (k < 64)%nat → slot_after k vm = 1 + (c + Z.of_nat k) mod 63).
  { intros k Hk. apply slot_after_eq; lia. }
  split_and!.
  - intros i j Hi Hj. rewrite !Hs by lia. intros He.
    pose proof (Z.div_mod (c + Z.of_nat i) 63). pose proof (Z.div_mod (c + Z.of_nat j) 63). lia.
  - intros s Hr. exists (Z.to_nat ((s - 1 - c) mod 63)).
    pose proof (Z.mod_pos_bound (s - 1 - c) 63). split; [lia|].
    rewrite Hs by lia. rewrite Z2Nat.id by lia. rewrite Zplus_mod_idemp_r.
    replace (c + (s - 1 - c)) with (s - 1) by lia. rewrite Z.mod_small; lia.
  - rewrite !Hs by lia. replace (c + Z.of_nat 63) with (c + Z.of_nat 0 + 1 * 63) by lia.
    by rewrite Z.mod_add.
Qed.

Lemma history_slots_cycle_witness :
  slot_after 63 (VM [] 0 0 0 0 4 17) = slot_after 0 (VM [] 0 0 0 0 4 17) ∧
  slot_after 0 (VM [] 0 0 0 0 4 17) = 18.
Proof.
  destruct (history_slots_cycle (VM [] 0 0 0 0 4 17)) as (_ & _ & H); [simpl; lia|simpl; lia|].
  split; [exact H|reflexivity].
Defined.
End PhantomTimerProps.
