(* ===== verification/Buffers.v ===== *)
(** The double buffer of a VM and the history of its counter.

    Each VM has two array maps; the switch handler appends a sample to the
    active one, the timer closes it and activates the other.  The file relates
    the two arrays, the indices and the flag to the list of samples recorded
    since the buffer became active, shows that the switch handler appends to
    that list and the timer averages it and starts a new one, and concludes
    that the published watermark carries the time-weighted average of the
    phantom counter over the last period. *)

From S2P Require Import Prelude CString BpfMap Atomics Sampling Host Memory HostIvshmem.
From S2P Require Import PhantomSwitch PhantomTimer.

(** ** Representation *)

(** The samples recorded since the active buffer was opened, per VM. *)
Definition history : Type := list Z → list sample.

Definition set_history (n : list Z) (h : list sample) (H : history) : history :=
  λ n', if decide (n' = n) then h else H n'.
Definition append (n : list Z) (x : sample) (H : history) : history :=
  set_history n (H n ++ [x]) H.
Definition restart (n : list Z) (x : sample) (H : history) : history := set_history n [x] H.

(** The samples that fit in a buffer. *)
Definition clip (h : list sample) : list sample := take (Z.to_nat VM_MAP_MAX_ENTRIES) h.

Section buffers.
Context {S : Type}.
Implicit Types st : host S.

(** The two maps registered for a VM name. *)
Definition buf_maps st (n : list Z) : option (Z * Z) :=
  match map_registry st !! (collection_keys n).1, map_registry st !! (collection_keys n).2 with
  | Some m1, Some m2 => Some (m1, m2)
  | _, _ => None
  end.

Definition owns st (n : list Z) (m : Z) : Prop :=
  ∃ m1 m2, buf_maps st n = Some (m1, m2) ∧ (m = m1 ∨ m = m2).

(** Which map and index the flag selects. *)
Definition active (vm : vm_t) (m1 m2 : Z) : Z := if is_collectx_in_buff_1 vm =? 1 then m1 else m2.
Definition spare (vm : vm_t) (m1 m2 : Z) : Z := if is_collectx_in_buff_1 vm =? 1 then m2 else m1.
Definition buffer_index (vm : vm_t) : Z :=
  if is_collectx_in_buff_1 vm =? 1 then collection_buff_1_index vm else collection_buff_2_index vm.

Definition full_size (a : array_map sample) : Prop := am_max a = VM_MAP_MAX_ENTRIES.

Definition flag_ok (vm : vm_t) : Prop :=
  is_collectx_in_buff_1 vm = 0 ∨ is_collectx_in_buff_1 vm = 1.

(** The active buffer of the VM stores the list [h]. *)
Definition collecting st (n : list Z) (vm : vm_t) (h : list sample) : Prop :=
  flag_ok vm ∧
  ∃ m1 m2 a b, buf_maps st n = Some (m1, m2) ∧ m1 ≠ m2 ∧
    inner_maps st !! active vm m1 m2 = Some a ∧ full_size a ∧
    inner_maps st !! spare vm m1 m2 = Some b ∧ full_size b ∧
    buffer_index vm = Z.of_nat (length h) ∧ holds a (clip h).

(** The list is a sound record of the counter: values within the VM's size, in
    the order of time, the last one current. *)
Record sound st (vm : vm_t) (h : list sample) : Prop := {
  sound_range : Forall (λ x, 0 <= count x <= nb_vcpus vm ∧ 0 <= timestamp x <= now st) h;
  sound_order : in_order h;
  sound_last : ∀ x, last h = Some x → count x = phantom_count vm
}.

(** No two VMs share a buffer. *)
Definition maps_disjoint st : Prop :=
  ∀ n n' m, is_Some (vms st !! n) → is_Some (vms st !! n') →
    owns st n m → owns st n' m → n = n'.

Record tracks st (H : history) : Prop := {
  tracks_clock : clock_ok (clk st);
  tracks_disjoint : maps_disjoint st;
  tracks_vm n vm : vms st !! n = Some vm →
    collecting st n vm (H n) ∧ sound st vm (H n) ∧ 0 <= phantom_count vm <= nb_vcpus vm ∧ is_u32 (nb_vcpus vm)
}.

(** ** Frames *)

Lemma buf_maps_registry st st' n :
  map_registry st' = map_registry st → buf_maps st' n = buf_maps st n.
Proof. intros Hr. unfold buf_maps. by rewrite Hr. Qed.

Lemma owns_registry st st' n m :
  map_registry st' = map_registry st → owns st' n m ↔ owns st n m.
Proof. intros Hr. unfold owns. by rewrite (buf_maps_registry st st' n Hr). Qed.

Lemma collecting_frame st st' n vm h :
  map_registry st' = map_registry st →
  (∀ m, owns st n m → inner_maps st' !! m = inner_maps st !! m) →
  collecting st n vm h → collecting st' n vm h.
Proof.
  intros Hr Hi (Hf & m1 & m2 & a & b & Hm & Hne & Ha & Hfa & Hb & Hfb & Hidx & Hh).
  split; [done|]. exists m1, m2, a, b. rewrite (buf_maps_registry st st' n Hr).
  assert (Ho : ∀ m, m = m1 ∨ m = m2 → owns st n m) by (unfold owns; eauto).
  unfold active, spare in *.
  rewrite !Hi by (apply Ho; destruct (is_collectx_in_buff_1 vm =? 1); auto).
  done.
Qed.

Lemma sound_frame st st' vm vm' h :
  now st <= now st' → core vm' = core vm → sound st vm h → sound st' vm' h.
Proof.
  intros Hn [= Hc Hnb] [Hr Ho Hl]. split; [|done|by rewrite Hc].
  eapply Forall_impl; [exact Hr|]. simpl. intros x ?. rewrite Hnb. lia.
Qed.

(** Appending a current value to a sound record. *)
Lemma sound_append st st' vm vm' h :
  clock_ok (clk st) → now st <= now st' → nb_vcpus vm' = nb_vcpus vm →
  0 <= phantom_count vm' <= nb_vcpus vm →
  sound st vm h → sound st' vm' (h ++ [Sample (phantom_count vm') (now st)]).
Proof.
  intros Hc Hn Hnb Hp [Hr Ho Hl]. pose proof (ktime_u64 _ Hc). fold (now st) in *. split.
  - rewrite Forall_app, Forall_singleton. cbn [count timestamp]. split; [|lia].
    eapply Forall_impl; [exact Hr|]. simpl. intros x ?. rewrite Hnb. lia.
  - apply in_order_snoc; [done|]. intros y Hy. simpl.
    apply last_Some_elem_of in Hy. rewrite Forall_forall in Hr.
    destruct (Hr _ Hy) as [_ ?]. lia.
  - intros x. rewrite last_snoc. by intros [= <-].
Qed.

Lemma sound_start st st' vm vm' :
  clock_ok (clk st) → now st <= now st' → core vm' = core vm →
  0 <= phantom_count vm <= nb_vcpus vm →
  sound st' vm' [Sample (phantom_count vm) (now st)].
Proof.
  intros Hc Hn [= Hcv Hnb] Hp. pose proof (ktime_u64 _ Hc). fold (now st) in *. split.
  - rewrite Forall_singleton. cbn [count timestamp]. lia.
  - by intros [|[|i]].
  - intros x [= <-]. done.
Qed.
End buffers.

(** ** Appending and swapping, on the representation *)

(** The VM after an index of its active buffer was reserved. *)
Definition reserve (vm : vm_t) : vm_t :=
  if is_collectx_in_buff_1 vm =? 1
  then set_buff_1_index (u32 (collection_buff_1_index vm + 1)) vm
  else set_buff_2_index (u32 (collection_buff_2_index vm + 1)) vm.

(** The VM after its buffers were swapped and the last index of the old one
    reserved. *)
Definition swapped (vm : vm_t) : vm_t :=
  if is_collectx_in_buff_1 vm =? 1
  then set_buff_1_index (u32 (collection_buff_1_index vm + 1))
         (set_collectx 0 (set_buff_2_index 1 vm))
  else set_buff_2_index (u32 (collection_buff_2_index vm + 1))
         (set_collectx 1 (set_buff_1_index 1 vm)).

Lemma core_reserve vm : core (reserve vm) = core vm.
Proof. unfold reserve. by case_bool. Qed.

Lemma core_swapped vm : core (swapped vm) = core vm.
Proof. unfold swapped. by case_bool. Qed.

Lemma history_swapped vm : h2g_history_index (swapped vm) = h2g_history_index vm.
Proof. unfold swapped. by case_bool. Qed.

Section representation.
Context {S : Type}.
Implicit Types st : host S.

Lemma buf_maps_Some st n m1 m2 :
  buf_maps st n = Some (m1, m2) →
  map_registry st !! (collection_keys n).1 = Some m1 ∧
  map_registry st !! (collection_keys n).2 = Some m2.
Proof. unfold buf_maps. repeat case_match; naive_solver. Qed.

Lemma put_sample_eq m i x st a :
  inner_maps st !! m = Some a →
  inner_maps (put_sample m i x st) = <[m := array_update a i x]> (inner_maps st).
Proof. intros Hm. unfold put_sample. by rewrite Hm. Qed.

(** Every other part of the state is untouched by a store. *)
Lemma put_sample_frame m i x st :
  vms (put_sample m i x st) = vms st ∧ vcpus (put_sample m i x st) = vcpus st ∧
  map_registry (put_sample m i x st) = map_registry st ∧
  global_tracker_state (put_sample m i x st) = global_tracker_state st ∧
  clk (put_sample m i x st) = clk st ∧ shmem (put_sample m i x st) = shmem st.
Proof. unfold put_sample. by destruct (inner_maps st !! m). Qed.

Lemma put_sample_ne m i x st m' :
  m' ≠ m → inner_maps (put_sample m i x st) !! m' = inner_maps st !! m'.
Proof.
  intros Hne. unfold put_sample. destruct (inner_maps st !! m); simpl; [|done].
  by rewrite lookup_insert_ne.
Qed.

Lemma put_sample_size m i x st m' a :
  inner_maps st !! m' = Some a →
  ∃ a', inner_maps (put_sample m i x st) !! m' = Some a' ∧ am_max a' = am_max a.
Proof.
  intros Ha. destruct (decide (m' = m)) as [->|Hne].
  - rewrite (put_sample_eq m i x st a Ha), lookup_insert_eq. eexists. split; [done|].
    apply am_max_update.
  - rewrite put_sample_ne by done. eauto.
Qed.

Lemma record_sample_eq n vm c st m1 m2 :
  buf_maps st n = Some (m1, m2) →
  record_sample n vm c st =
    put_sample (active vm m1 m2) (buffer_index vm) (Sample c (now st))
      (tick (put_vm n (reserve vm) st)).
Proof.
  intros Hm. apply buf_maps_Some in Hm as [H1 H2].
  unfold record_sample, active, buffer_index, reserve.
  destruct (collection_keys n) as [k1 k2]; simpl in *. rewrite H1, H2.
  by destruct (is_collectx_in_buff_1 vm =? 1).
Qed.

Lemma swap_buffers_eq n vm m1 m2 cs ce st :
  flag_ok vm →
  swap_buffers n vm m1 m2 cs ce st =
    (active vm m1 m2, buffer_index vm, swapped vm,
     put_sample (active vm m1 m2) (buffer_index vm) ce
       (put_vm n (swapped vm) (put_sample (spare vm m1 m2) 0 cs st))).
Proof.
  intros Hf. unfold swap_buffers, active, spare, buffer_index, swapped.
  destruct Hf as [Hf|Hf]; rewrite Hf; simpl; by rewrite ?Hf.
Qed.

Lemma clip_fits a h : full_size a → clip h = fits a h.
Proof. intros Ha. unfold clip, fits. by rewrite Ha. Qed.

(** One more sample in the active buffer. *)
Lemma collecting_append st st' n vm vm' h x m1 m2 :
  collecting st n vm h → Z.of_nat (length h) + 1 < 2 ^ 32 →
  buf_maps st n = Some (m1, m2) → map_registry st' = map_registry st →
  inner_maps st' = inner_maps (put_sample (active vm m1 m2) (buffer_index vm) x st) →
  is_collectx_in_buff_1 vm' = is_collectx_in_buff_1 vm →
  buffer_index vm' = u32 (buffer_index vm + 1) →
  collecting st' n vm' (h ++ [x]).
Proof.
  intros (Hf & m1' & m2' & a & b & Hm' & Hne & Ha & Hfa & Hb & Hfb & Hidx & Hh) Hlen Hm Hr Hi
    Hflag Hix.
  rewrite Hm in Hm'. simplify_eq.
  split; [unfold flag_ok in *; by rewrite Hflag|].
  exists m1', m2', (array_update a (buffer_index vm) x), b.
  rewrite (buf_maps_registry st st' n Hr).
  assert (Hact : active vm' m1' m2' = active vm m1' m2') by (unfold active; by rewrite Hflag).
  assert (Hsp : spare vm' m1' m2' = spare vm m1' m2') by (unfold spare; by rewrite Hflag).
  assert (spare vm m1' m2' ≠ active vm m1' m2') by (unfold spare, active; case_bool; congruence).
  rewrite Hact, Hsp, Hi, (put_sample_ne _ _ _ _ (spare vm m1' m2')) by done. rewrite (put_sample_eq _ _ _ _ a) by done.
  rewrite lookup_insert_eq. split_and!; try done.
  - unfold full_size. by rewrite am_max_update.
  - rewrite Hix, Hidx, length_app. simpl. rewrite u32_id; lia.
  - rewrite Hidx. rewrite (clip_fits a h Hfa) in Hh.
    rewrite (clip_fits (array_update a (Z.of_nat (length h)) x));
      [|unfold full_size; by rewrite am_max_update].
    by apply fits_snoc.
Qed.
(** After a swap the closed buffer stores the list and the final sample, and
    the other one the first sample of the next list. *)
Lemma collecting_swap st st' n vm vm' h cs ce m1 m2 :
  collecting st n vm h → buf_maps st n = Some (m1, m2) →
  map_registry st' = map_registry st →
  inner_maps st' = inner_maps (put_sample (active vm m1 m2) (buffer_index vm) ce
                     (put_sample (spare vm m1 m2) 0 cs st)) →
  is_collectx_in_buff_1 vm' = is_collectx_in_buff_1 (swapped vm) →
  buffer_index vm' = 1 →
  collecting st' n vm' [cs] ∧
  ∃ a, inner_maps st' !! active vm m1 m2 = Some a ∧ full_size a ∧ holds a (clip (h ++ [ce])).
Proof.
  intros (Hf & m1' & m2' & a & b & Hm' & Hne & Ha & Hfa & Hb & Hfb & Hidx & Hh) Hm Hr Hi
    Hflag Hix.
  rewrite Hm in Hm'. simplify_eq.
  assert (Hsw : active vm' m1' m2' = spare vm m1' m2' ∧ spare vm' m1' m2' = active vm m1' m2').
  { unfold active, spare. rewrite Hflag. unfold swapped.
    by destruct (is_collectx_in_buff_1 vm =? 1). }
  assert (Hsa : spare vm m1' m2' ≠ active vm m1' m2')
    by (unfold spare, active; case_bool; congruence).
  assert (Hnew : inner_maps st' !! spare vm m1' m2' = Some (array_update b 0 cs)).
  { rewrite Hi, put_sample_ne, (put_sample_eq _ _ _ _ b) by done. apply lookup_insert_eq. }
  assert (Hold : inner_maps st' !! active vm m1' m2' = Some (array_update a (buffer_index vm) ce)).
  { rewrite Hi, (put_sample_eq _ _ _ _ a); [apply lookup_insert_eq|].
    by rewrite put_sample_ne. }
  assert (Hfull : full_size (array_update a (buffer_index vm) ce))
    by (unfold full_size; by rewrite am_max_update).
  split.
  - destruct Hsw as [Hs1 Hs2]. split.
    { unfold flag_ok. rewrite Hflag. unfold swapped. case_bool; simpl; auto. }
    exists m1', m2', (array_update b 0 cs), (array_update a (buffer_index vm) ce).
    rewrite (buf_maps_registry st st' n Hr), Hs1, Hs2.
    assert (full_size (array_update b 0 cs)) by (unfold full_size; by rewrite am_max_update).
    split_and!; try done.
    rewrite (clip_fits (array_update b 0 cs)) by done. apply fits_start. by rewrite Hfb.
  - eexists. split; [exact Hold|]. split; [done|].
    rewrite (clip_fits (array_update a (buffer_index vm) ce)) by done.
    rewrite Hidx. apply fits_snoc. by rewrite <- clip_fits.
Qed.
End representation.

(** ** The handlers preserve the representation *)

Section preserve.
Context {S : Type} `{HostKfuncs S}.
Implicit Types st : host S.

Lemma set_history_eq n h (H0 : history) : set_history n h H0 n = h.
Proof. unfold set_history. by rewrite decide_True. Qed.

Lemma set_history_ne n n' h (H0 : history) : n' ≠ n → set_history n h H0 n' = H0 n'.
Proof. intros Hn. unfold set_history. by rewrite decide_False. Qed.

(** A change confined to one VM and to its own buffers: the other VMs keep
    their representation. *)
Lemma tracks_update st st' (H0 : history) n vm' h' :
  tracks st H0 → is_Some (vms st !! n) →
  vms st' = <[n := vm']> (vms st) → map_registry st' = map_registry st →
  clock_ok (clk st') → now st <= now st' →
  (∀ m, ¬ owns st n m → inner_maps st' !! m = inner_maps st !! m) →
  collecting st' n vm' h' → sound st' vm' h' →
  0 <= phantom_count vm' <= nb_vcpus vm' ∧ is_u32 (nb_vcpus vm') →
  tracks st' (set_history n h' H0).
Proof.
  intros [_ Hd Ht] Hn Hv Hr Hc Hnow Hi Hcol Hs Hp.
  assert (Hdom : ∀ k, is_Some (vms st' !! k) → is_Some (vms st !! k)).
  { intros k. rewrite Hv, lookup_insert. case_decide; subst; done. }
  split; [done| |].
  - intros k k' m Hk Hk' Ho Ho'. rewrite (owns_registry st) in Ho, Ho' by done.
    eapply Hd; eauto.
  - intros k vm. rewrite Hv, lookup_insert. case_decide as Hk.
    + intros [= <-]. subst k. rewrite set_history_eq. done.
    + intros Hvm. rewrite set_history_ne by done.
      destruct (Ht k vm Hvm) as (Hck & Hsk & Hpk). split_and!; try lia.
      * apply (collecting_frame st); [done| |done]. intros m Hm. apply Hi.
        intros Hm'. apply Hk. apply (Hd n k m); [done|by eexists|done|done].
      * by apply (sound_frame st st' vm vm).
Qed.

(** Only the buffers of [n] change when the active one is written. *)
Lemma active_owned st n vm m1 m2 : buf_maps st n = Some (m1, m2) →
  owns st n (active vm m1 m2) ∧ owns st n (spare vm m1 m2).
Proof. intros Hm. unfold owns, active, spare. case_bool; split; eauto 10. Qed.

(** Recording the new value of a counter appends it to the VM's history. *)
Lemma tracks_record st (H0 : history) n vm c :
  tracks st H0 → vms st !! n = Some vm → Z.of_nat (length (H0 n)) + 1 < 2 ^ 32 →
  0 <= c <= nb_vcpus vm →
  tracks (record_sample n (set_phantom_count c vm) c
            (put_vm n (set_phantom_count c vm) st))
         (append n (Sample c (now st)) H0).
Proof.
  intros Ht Hn Hlen Hc. destruct (tracks_vm _ _ Ht n vm Hn) as (Hcol & Hs & Hp).
  pose proof Hcol as (_ & m1 & m2 & _ & _ & Hm & _).
  set (vm' := set_phantom_count c vm). set (st1 := put_vm n vm' st).
  rewrite (record_sample_eq n vm' c st1 m1 m2) by done.
  change (now st1) with (now st).
  destruct (put_sample_frame (active vm' m1 m2) (buffer_index vm') (Sample c (now st))
    (tick (put_vm n (reserve vm') st1))) as (Hv & _ & Hr & _ & Hk & _).
  assert (Hnow : now st <= ktime (ktick (clk st)))
    by (apply ktime_mono; apply (tracks_clock _ _ Ht)).
  assert (Hpc : phantom_count (reserve vm') = c) by (by injection (core_reserve vm')).
  assert (Hnb : nb_vcpus (reserve vm') = nb_vcpus vm) by (by injection (core_reserve vm')).
  apply (tracks_update st _ _ n (reserve vm')); auto.
  - rewrite Hv. simpl. by rewrite insert_insert_eq.
  - rewrite Hk. apply (tracks_clock _ _ Ht).
  - unfold now at 2. rewrite Hk. done.
  - intros m Hm'. rewrite put_sample_ne; [done|].
    intros ->. apply Hm'. by destruct (active_owned st n vm' m1 m2 Hm).
  - apply (collecting_append st _ n vm _ _ _ m1 m2); try done.
    + unfold put_sample. simpl. by destruct (inner_maps st !! _).
    + unfold reserve. by destruct (is_collectx_in_buff_1 vm' =? 1).
    + unfold reserve, buffer_index, vm'. simpl.
      destruct (is_collectx_in_buff_1 vm =? 1) eqn:E; simpl; by rewrite E.
  - rewrite <- Hpc. apply (sound_append st _ vm); auto.
    + apply (tracks_clock _ _ Ht).
    + rewrite Hpc. unfold now at 2. by rewrite Hk.
    + by rewrite Hpc.
  - rewrite Hpc, Hnb. lia.
Qed.
(** The histories do not depend on the vCPU table or on the shared page. *)
Lemma tracks_frame st st' (H0 : history) :
  vms st' = vms st → map_registry st' = map_registry st → inner_maps st' = inner_maps st →
  clk st' = clk st → tracks st H0 → tracks st' H0.
Proof.
  intros Hv Hr Hi Hk [Hc Hd Ht]. split.
  - by rewrite Hk.
  - intros n n' m. rewrite Hv, !(owns_registry st st') by done. apply Hd.
  - intros n vm. rewrite Hv. intros Hn. destruct (Ht n vm Hn) as (? & ? & ?).
    split; [|split; [|done]].
    + apply (collecting_frame st); try done. intros. by rewrite Hi.
    + apply (sound_frame st st' vm vm); try done. unfold now. by rewrite Hk.
Qed.

(** What the switch handler adds to the histories. *)
Definition switch_in_hist (ctx : sched_switch) st (H0 : history) : history :=
  match vcpus st !! u32 (next_pid ctx) with
  | None => H0
  | Some v =>
      if (openmp_msg st v =? 1) && (is_phantom v =? 1) then
        match vms st !! vm_name v with
        | None => H0
        | Some vm => append (vm_name v) (Sample (Z.max 0 (phantom_count vm - 1)) (now st)) H0
        end
      else H0
  end.

Definition switch_out_hist (s : Z) (ctx : sched_switch) st (H0 : history) : history :=
  match vcpus st !! u32 (prev_pid ctx) with
  | None => H0
  | Some v =>
      if (openmp_msg st v =? 1) && preempted s && (is_phantom v =? 0) then
        match vms st !! vm_name v with
        | None => H0
        | Some vm =>
            append (vm_name v)
              (Sample (Z.min (nb_vcpus vm) (phantom_count vm + 1)) (now st)) H0
        end
      else H0
  end.

Definition switch_hist (ctx : sched_switch) st (H0 : history) : history :=
  let '(s, st') := switch_in ctx st in
  switch_out_hist s ctx st' (switch_in_hist ctx st H0).

(** Room for [k] more samples before the 32-bit indices wrap around. *)
Definition room (k : Z) (H0 : history) : Prop := ∀ n, Z.of_nat (length (H0 n)) + k < 2 ^ 32.

Lemma switch_in_tracks ctx st (H0 : history) :
  tracks st H0 → room 1 H0 → tracks (switch_in ctx st).2 (switch_in_hist ctx st H0).
Proof.
  intros Ht Hroom. unfold switch_in, switch_in_hist.
  destruct (vcpus st !! _) as [v|]; [|done]. case_bool; [|done].
  set (st1 := put_vcpu _ _ st).
  assert (Ht1 : tracks st1 H0) by by apply (tracks_frame st).
  change (vms st1) with (vms st). destruct (vms st !! vm_name v) as [vm|] eqn:Hn; [|done].
  destruct (tracks_vm _ _ Ht1 _ _ Hn) as (_ & _ & Hp & Hnb).
  rewrite dec_quiet by lia. change (now st) with (now st1).
  pose proof (tracks_record st1 H0 (vm_name v) vm (Z.max 0 (phantom_count vm - 1)) Ht1 Hn
    (Hroom _) ltac:(lia)) as Hrec.
  replace (if phantom_count vm <=? 0 then _ else _)
    with (CasResult (Z.max 0 (phantom_count vm - 1)) (Z.max 0 (phantom_count vm - 1))
            (if phantom_count vm <=? 0 then AtBound else Swapped)); [done|].
  destruct (Z.leb_spec (phantom_count vm) 0); f_equal; lia.
Qed.

Lemma switch_out_tracks s ctx st (H0 : history) :
  tracks st H0 → room 1 H0 → tracks (switch_out s ctx st) (switch_out_hist s ctx st H0).
Proof.
  intros Ht Hroom. unfold switch_out, switch_out_hist, preempted.
  destruct (vcpus st !! _) as [v|]; [|done]. case_bool; [|done].
  set (st1 := put_vcpu _ _ st).
  assert (Ht1 : tracks st1 H0) by by apply (tracks_frame st).
  change (vms st1) with (vms st). destruct (vms st !! vm_name v) as [vm|] eqn:Hn; [|done].
  destruct (tracks_vm _ _ Ht1 _ _ Hn) as (_ & _ & Hp & Hnb).
  rewrite inc_quiet by lia. change (now st) with (now st1).
  pose proof (tracks_record st1 H0 (vm_name v) vm (Z.min (nb_vcpus vm) (phantom_count vm + 1))
    Ht1 Hn (Hroom _) ltac:(lia)) as Hrec.
  replace (if phantom_count vm >=? nb_vcpus vm then _ else _)
    with (CasResult (Z.min (nb_vcpus vm) (phantom_count vm + 1))
            (Z.min (nb_vcpus vm) (phantom_count vm + 1))
            (if phantom_count vm >=? nb_vcpus vm then AtBound else Swapped)); [done|].
  destruct (phantom_count vm >=? nb_vcpus vm) eqn:E'; bool_hyps; f_equal; lia.
Qed.

Lemma room_switch_in ctx st (H0 : history) : room 2 H0 → room 1 (switch_in_hist ctx st H0).
Proof.
  intros Hr n. unfold switch_in_hist. repeat case_match; try (specialize (Hr n); lia).
  unfold append, set_history. case_decide; [subst|specialize (Hr n); lia].
  rewrite length_app. simpl. pose proof (Hr (vm_name v)). lia.
Qed.

Lemma handler_tracks ctx st (H0 : history) :
  tracks st H0 → room 2 H0 → tracks (phantom_switch_handler ctx st) (switch_hist ctx st H0).
Proof.
  intros Ht Hr. unfold phantom_switch_handler, switch_hist.
  pose proof (switch_in_tracks ctx st H0 Ht) as Hin.
  destruct (switch_in ctx st) as [s st']. apply switch_out_tracks.
  - apply Hin. intros n. specialize (Hr n). lia.
  - by apply room_switch_in.
Qed.
End preserve.

(** ** The timer averages the history and restarts it *)

Section publish.
Context {S : Type} `{HostKfuncs S}.
Implicit Types st : host S.

(** The list the timer averages: the samples that fitted, up to the closing
    one. *)
Definition closed st (vm : vm_t) (h : list sample) : list sample :=
  clip (h ++ [Sample (phantom_count vm) (now st)]).

(** The product of the VM's size and the time since the buffer was opened fits
    in the accumulator. *)
Definition period_ok st (vm : vm_t) (h : list sample) : Prop :=
  ∀ x, head h = Some x → nb_vcpus vm * (now st - timestamp x) < 2 ^ 63.

Lemma closed_no_overflow st vm h :
  clock_ok (clk st) → sound st vm h → 0 <= phantom_count vm <= nb_vcpus vm →
  period_ok st vm h →
  weighted_sum (closed st vm h) < 2 ^ 63 ∧ weighted_time (closed st vm h) < 2 ^ 64.
Proof.
  intros Hc Hs Hp Hper.
  pose proof (sound_append st st vm vm h Hc ltac:(lia) eq_refl Hp Hs) as [Hr Ho _].
  pose proof (ktime_u64 _ Hc) as Hu. fold (now st) in Hu.
  apply (take_no_overflow (nb_vcpus vm) _ (default (Sample (phantom_count vm) (now st)) (head h))
    (Sample (phantom_count vm) (now st))); [lia|done|apply head_app_snoc|apply last_snoc|..].
  - eapply Forall_impl; [exact Hr|]. simpl. lia.
  - destruct h as [|x h]; simpl; [lia|]. apply Forall_app in Hr as [Hr _].
    apply Forall_cons in Hr as [? _]. lia.
  - simpl. lia.
  - destruct h as [|x h]; simpl; [lia|]. by apply Hper.
Qed.

Lemma closed_timestamps st vm h :
  clock_ok (clk st) → sound st vm h →
  Forall (λ x, is_u64 (timestamp x)) (h ++ [Sample (phantom_count vm) (now st)]).
Proof.
  intros Hc [Hr _ _]. pose proof (ktime_u64 _ Hc) as Hu. fold (now st) in Hu.
  rewrite Forall_app, Forall_singleton. split; [|done].
  eapply Forall_impl; [exact Hr|]. simpl. intros x [_ ?]. lia.
Qed.

(** The state after the swap. *)
Definition after_swap st (n : list Z) (vm : vm_t) (m1 m2 : Z) : host S :=
  put_sample (active vm m1 m2) (buffer_index vm) (Sample (phantom_count vm) (now st))
    (put_vm n (swapped vm)
      (put_sample (spare vm m1 m2) 0 (Sample (phantom_count vm) (now (tick st)))
        (tick (tick st)))).

Lemma after_swap_frame st n vm m1 m2 :
  let st' := after_swap st n vm m1 m2 in
  vms st' = <[n := swapped vm]> (vms st) ∧ vcpus st' = vcpus st ∧
  map_registry st' = map_registry st ∧
  global_tracker_state st' = global_tracker_state st ∧
  clk st' = ktick (ktick (clk st)) ∧ shmem st' = shmem st.
Proof.
  unfold after_swap, put_sample; simpl.
  destruct (inner_maps st !! spare vm m1 m2); simpl; case_match; done.
Qed.

Lemma after_swap_inner st n vm m1 m2 :
  inner_maps (after_swap st n vm m1 m2) =
  inner_maps (put_sample (active vm m1 m2) (buffer_index vm) (Sample (phantom_count vm) (now st))
    (put_sample (spare vm m1 m2) 0 (Sample (phantom_count vm) (now (tick st))) st)).
Proof.
  unfold after_swap, put_sample; simpl.
  destruct (inner_maps st !! spare vm m1 m2); simpl; case_match; done.
Qed.

(** The callback, with the swap and the average made explicit. *)
Lemma callback_eq st n vm m1 m2 :
  flag_ok vm → buf_maps st n = Some (m1, m2) →
  let st2 := after_swap st n vm m1 m2 in
  callback_fn n vm st =
    write_watermark (next_history_slot vm).1 (now st2)
      (average_of (active vm m1 m2) (s32 (buffer_index vm)) st2) (published_idle_avg st)
      (put_vm n (next_history_slot (swapped vm)).2 (tick st2)).
Proof.
  intros Hf Hm st2. apply buf_maps_Some in Hm as [H1 H2].
  unfold callback_fn. destruct (collection_keys n) as [k1 k2]; simpl in H1, H2.
  rewrite H1, H2. rewrite swap_buffers_eq by done. fold st2.
  destruct (after_swap_frame st n vm m1 m2) as (_ & _ & _ & Hg & _). fold st2 in Hg.
  assert (published_idle_avg st2 = published_idle_avg st) as <-
    by (unfold published_idle_avg; by rewrite Hg).
  unfold next_history_slot. rewrite history_swapped. done.
Qed.
(** The swap keeps every VM's representation, the swapped VM with its new
    history, and leaves the closed one in the old buffer. *)
Lemma after_swap_tracks st (H0 : history) n vm m1 m2 :
  tracks st H0 → vms st !! n = Some vm → buf_maps st n = Some (m1, m2) →
  tracks (after_swap st n vm m1 m2)
    (restart n (Sample (phantom_count vm) (now (tick st))) H0) ∧
  ∃ a, inner_maps (after_swap st n vm m1 m2) !! active vm m1 m2 = Some a ∧ full_size a ∧
    holds a (clip (H0 n ++ [Sample (phantom_count vm) (now st)])).
Proof.
  intros Ht Hn Hm. destruct (tracks_vm _ _ Ht n vm Hn) as (Hcol & Hs & Hp & Hnb).
  pose proof (tracks_clock _ _ Ht) as Hc.
  destruct (after_swap_frame st n vm m1 m2) as (Hv & _ & Hr & _ & Hk & _).
  pose proof (after_swap_inner st n vm m1 m2) as Hi.
  destruct (collecting_swap st _ n vm (swapped vm) _ _ _ m1 m2 Hcol Hm Hr Hi eq_refl)
    as (Hcol' & Ha).
  { unfold swapped, buffer_index. by destruct (is_collectx_in_buff_1 vm =? 1). }
  split; [|exact Ha].
  pose proof (core_swapped vm) as Hcore. injection Hcore as Hpc Hnbc.
  pose proof (ktime_mono _ Hc) as Hk1. pose proof (ktime_mono _ (clock_ok_tick _ Hc)) as Hk2.
  assert (Hnow : now (after_swap st n vm m1 m2) = ktime (ktick (ktick (clk st))))
    by (unfold now; by rewrite Hk).
  apply (tracks_update st _ _ n (swapped vm)); try done.
  - by rewrite Hk.
  - rewrite Hnow. unfold now. lia.
  - intros m Hm'. rewrite Hi. destruct (active_owned st n vm m1 m2 Hm).
    rewrite !put_sample_ne; [done|congruence..].
  - apply (sound_start (tick st) _ vm (swapped vm)); try done.
    { rewrite Hnow. exact Hk2. }
    apply core_swapped.
  - rewrite Hpc, Hnbc. done.
Qed.

(** Advancing the cursor and publishing do not touch the histories. *)
Lemma tracks_publish st (H0 : history) n vm vm' s :
  tracks st H0 → vms st !! n = Some vm → core vm' = core vm →
  is_collectx_in_buff_1 vm' = is_collectx_in_buff_1 vm → buffer_index vm' = buffer_index vm →
  tracks (set_shmem s (put_vm n vm' (tick st))) H0.
Proof.
  intros Ht Hn Hcore Hf Hix. pose proof (ktime_mono _ (tracks_clock _ _ Ht)) as Hk.
  destruct (tracks_vm _ _ Ht n vm Hn) as (Hcol & Hs & Hp).
  assert (Hext : tracks (set_shmem s (put_vm n vm' (tick st))) (set_history n (H0 n) H0)).
  { apply (tracks_update st _ _ n vm'); try done.
    - apply (tracks_clock _ _ Ht).
    - destruct Hcol as (Hfl & m1 & m2 & a & b & Hrest). split.
      + unfold flag_ok. by rewrite Hf.
      + exists m1, m2, a, b. unfold active, spare in *. rewrite Hf, Hix. done.
    - by apply (sound_frame st _ vm vm').
    - injection Hcore as -> ->. done. }
  destruct Hext as [? ? Hvm]. split; [done..|]. intros k w Hk'.
  specialize (Hvm k w Hk'). unfold set_history in Hvm. by case_decide; subst.
Qed.

Lemma callback_spec st (H0 : history) n vm :
  tracks st H0 → vms st !! n = Some vm → Z.of_nat (length (H0 n)) + 1 < 2 ^ 32 →
  period_ok st vm (H0 n) →
  let st' := callback_fn n vm st in
  tracks st' (restart n (Sample (phantom_count vm) (now (tick st))) H0) ∧
  (∃ vm', vms st' = <[n := vm']> (vms st) ∧ core vm' = core vm ∧
     h2g_history_index vm' = u32 (h2g_history_index vm + 1)) ∧
  vcpus st' = vcpus st ∧ map_registry st' = map_registry st ∧
  global_tracker_state st' = global_tracker_state st ∧
  clk st' = ktick (ktick (ktick (clk st))) ∧
  shmem st' = (bpf_host_ivshmem_h2g_write (shmem st) (next_history_slot vm).1
    (watermark (now (tick (tick st))) (weighted_avg (closed st vm (H0 n)))
       (published_idle_avg st))).1.
Proof.
  intros Ht Hn Hlen Hper. destruct (tracks_vm _ _ Ht n vm Hn) as (Hcol & Hs & Hp & Hnb).
  pose proof (tracks_clock _ _ Ht) as Hc.
  pose proof Hcol as (Hf & m1 & m2 & _ & _ & Hm & _ & _ & _ & _ & _ & Hidx & _).
  rewrite (callback_eq st n vm m1 m2 Hf Hm). cbv zeta.
  destruct (after_swap_frame st n vm m1 m2) as (Hv & Hvc & Hr & Hg & Hk & Hsh).
  destruct (after_swap_tracks st H0 n vm m1 m2 Ht Hn Hm) as [Ht' (a & Ha & Hfa & Hh)].
  set (st2 := after_swap st n vm m1 m2) in *. clearbody st2.
  assert (Havg : average_of (active vm m1 m2) (s32 (buffer_index vm)) st2 =
                 weighted_avg (closed st vm (H0 n))).
  { unfold average_of. rewrite Ha. unfold closed. rewrite (clip_fits a _ Hfa) in *.
    destruct (closed_no_overflow st vm (H0 n) Hc Hs Hp Hper) as [Hso Hto].
    unfold closed in Hso, Hto. rewrite (clip_fits a _ Hfa) in Hso, Hto.
    apply phantom_average_ref; try done.
    - rewrite Hfa. unfold VM_MAP_MAX_ENTRIES. lia.
    - rewrite Hidx, length_app. simpl. lia.
    - lia.
    - by apply closed_timestamps. }
  split; [|split_and!].
  - apply (tracks_publish st2 _ n (swapped vm)); try done.
    rewrite Hv. apply lookup_insert_eq.
  - exists (next_history_slot (swapped vm)).2. split_and!.
    + simpl. by rewrite Hv, insert_insert_eq.
    + rewrite <- (core_swapped vm). done.
    + simpl. by rewrite history_swapped.
  - done.
  - done.
  - done.
  - simpl. by rewrite Hk.
  - unfold write_watermark. simpl. rewrite Hsh, Havg.
    assert (now st2 = now (tick (tick st))) as -> by (unfold now; by rewrite Hk). done.
Qed.
End publish.

(** ** One period of the timer, over all VMs *)

Section all_vms.
Context {S : Type} `{HostKfuncs S}.
Implicit Types st : host S.

(** Storing a sample, then the VM with other bookkeeping, then a sample. *)
Lemma store_vm_store_counts st n vm vm' m i x m' i' x' :
  vms st !! n = Some vm → core vm' = core vm →
  let st' := put_sample m i x (put_vm n vm' (put_sample m' i' x' st)) in
  same_counts st st' ∧ vms st' !! n = Some vm'.
Proof.
  intros Hn Hc st'. destruct (put_sample_frame m' i' x' st) as (Hv' & _).
  destruct (put_sample_frame m i x (put_vm n vm' (put_sample m' i' x' st))) as (Hv & _).
  split.
  - etrans; [apply same_counts_put_sample|].
    etrans; [|apply same_counts_put_sample].
    apply (same_counts_put_vm _ n vm); [by rewrite Hv'|done].
  - unfold st'. rewrite Hv. apply lookup_insert_eq.
Qed.

Lemma swap_buffers_counts st n vm m1 m2 cs ce :
  vms st !! n = Some vm →
  let '(_, _, vm', st') := swap_buffers n vm m1 m2 cs ce st in
  same_counts st st' ∧ vms st' !! n = Some vm' ∧ core vm' = core vm.
Proof.
  intros Hn. unfold swap_buffers. destruct (is_collectx_in_buff_1 vm =? 1);
  match goal with |- context [put_sample ?m ?i ?x (put_vm n ?w (put_sample ?m' ?i' ?x' st))] =>
    assert (Hc : core w = core vm) by (by repeat case_bool);
    destruct (store_vm_store_counts st n vm w m i x m' i' x' Hn Hc) end; done.
Qed.

(** The callback never changes a counter, a ceiling or a flag, whatever the
    state of the buffers. *)
Lemma callback_counts st n vm : vms st !! n = Some vm → same_counts st (callback_fn n vm st).
Proof.
  intros Hn. unfold callback_fn. destruct (collection_keys n) as [k1 k2].
  repeat (case_match; [|done]).
  match goal with |- context [swap_buffers n vm ?m1 ?m2 ?cs ?ce ?s] =>
    pose proof (swap_buffers_counts s n vm m1 m2 cs ce Hn) as Hs;
    destruct (swap_buffers n vm m1 m2 cs ce s) as [[[m nb] vm'] st'] end.
  destruct Hs as (Hs & Hvm & Hc). simpl. etrans; [exact Hs|].
  etrans; [|apply same_counts_set_shmem].
  etrans; [apply same_counts_tick|]. by apply (same_counts_put_vm _ n vm').
Qed.

Lemma visit_counts n st : same_counts st (visit_vm n st).
Proof. unfold visit_vm. case_match; [by apply callback_counts|done]. Qed.

Lemma for_each_counts order st : same_counts st (for_each_vm order st).
Proof.
  revert st. induction order as [|n order IH]; intros st; simpl; [done|].
  etrans; [apply visit_counts|]. apply IH.
Qed.

(** [period_ok] up to the clock reading number [e]. *)
Definition period_ok_until (e : nat) st (vm : vm_t) (h : list sample) : Prop :=
  ∀ x, head h = Some x → nb_vcpus vm * (reading (clk st) e - timestamp x) < 2 ^ 63.

Lemma period_ok_now e st vm h :
  clock_ok (clk st) → 0 <= nb_vcpus vm → (ticks (clk st) <= e)%nat →
  period_ok_until e st vm h → period_ok st vm h.
Proof.
  intros [_ Hm] Hnb He Hp x Hx. specialize (Hp x Hx). unfold now, ktime.
  specialize (Hm (ticks (clk st)) e He). eapply Z.le_lt_trans; [|exact Hp].
  apply Z.mul_le_mono_nonneg_l; lia.
Qed.

(** One VM is visited: it starts afresh with its current count, the others are
    as they were. *)
Lemma visit_tracks n st (H0 : history) :
  tracks st H0 → room 1 H0 →
  (∀ vm, vms st !! n = Some vm → period_ok st vm (H0 n)) →
  ∃ H', tracks (visit_vm n st) H' ∧ room 1 H' ∧ now st <= now (visit_vm n st) ∧
    reading (clk (visit_vm n st)) = reading (clk st) ∧
    (ticks (clk (visit_vm n st)) <= ticks (clk st) + 3)%nat ∧
    (∀ k, k ≠ n → H' k = H0 k ∧ vms (visit_vm n st) !! k = vms st !! k) ∧
    (∀ vm, vms st !! n = Some vm → ∃ t, now st <= t ∧ H' n = [Sample (phantom_count vm) t]).
Proof.
  intros Ht Hr Hper. unfold visit_vm. destruct (vms st !! n) as [vm|] eqn:Hn.
  - pose proof (tracks_clock _ _ Ht) as Hc.
    destruct (callback_spec st H0 n vm Ht Hn (Hr n) (Hper vm eq_refl))
      as (Ht' & (vm' & Hv & _) & _ & _ & _ & Hk & _).
    eexists. split; [exact Ht'|]. rewrite Hk, Hv. split_and!.
    + intros k. unfold restart, set_history. case_decide; [simpl; lia|apply Hr].
    + unfold now, ktime. rewrite Hk. apply Hc. simpl. lia.
    + done.
    + simpl. lia.
    + intros k Hne. unfold restart. by rewrite set_history_ne, lookup_insert_ne.
    + intros ? [= <-]. eexists. split; [|apply set_history_eq]. unfold now. by apply ktime_mono.
  - exists H0. split_and!; try done; lia.
Qed.

(** The histories after a period. *)
Lemma for_each_tracks order st (H0 : history) e :
  NoDup order → tracks st H0 → room 1 H0 → (ticks (clk st) + 3 * length order <= e)%nat →
  (∀ n vm, n ∈ order → vms st !! n = Some vm → period_ok_until e st vm (H0 n)) →
  ∃ H', tracks (for_each_vm order st) H' ∧
    (∀ n vm, n ∈ order → vms st !! n = Some vm →
       ∃ t, now st <= t ∧ H' n = [Sample (phantom_count vm) t]) ∧
    (∀ n, n ∉ order → H' n = H0 n) ∧
    reading (clk (for_each_vm order st)) = reading (clk st) ∧
    (ticks (clk (for_each_vm order st)) <= ticks (clk st) + 3 * length order)%nat.
Proof.
  revert st H0. induction order as [|n order IH]; intros st H0 Hnd Ht Hr He Hper.
  { exists H0. split_and!; [done| |done|done|simpl; lia].
    intros n vm Hn. by apply not_elem_of_nil in Hn. }
  apply NoDup_cons in Hnd as [Hnot Hnd]. simpl in He.
  destruct (visit_tracks n st H0 Ht Hr) as (H1 & Ht1 & Hr1 & Hnow & Hrd & Htk & Hne & Hn1).
  { intros vm Hvm. pose proof (Hper n vm ltac:(by left) Hvm).
    destruct (tracks_vm _ _ Ht n vm Hvm) as (_ & _ & _ & ?).
    apply (period_ok_now e); [apply (tracks_clock _ _ Ht)|lia..|done]. }
  simpl. destruct (IH (visit_vm n st) H1 Hnd Ht1 Hr1) as (H' & HtH & Hin & Hout & Hrd' & Htk').
  { simpl. lia. }
  { intros k w Hk Hw x Hx. destruct (Hne k) as [Hh Hv]; [congruence|].
    rewrite Hrd. rewrite Hh in Hx. rewrite Hv in Hw.
    by apply (Hper k w ltac:(by right) Hw). }
  exists H'. split; [done|]. split; [|split; [|split; [by rewrite Hrd'|lia]]].
  - intros k w Hk Hw. apply elem_of_cons in Hk as [->|Hk].
    + rewrite (Hout n Hnot). by apply Hn1.
    + destruct (Hne k) as [_ Hv]; [congruence|].
      destruct (Hin k w Hk) as (t & ? & ?); [by rewrite Hv|]. exists t. split; [lia|done].
  - intros k Hk. apply not_elem_of_cons in Hk as [Hkn Hk].
    rewrite Hout by done. by apply Hne.
Qed.
End all_vms.

(** ** What the callback publishes *)

Section publish.
Context {S : Type} `{HK : HostKfuncs S} `{HL : !HostKfuncsLaws S}.
Implicit Types st : host S.

Lemma callback_publishes st (H0 : history) n vm :
  tracks st H0 → vms st !! n = Some vm → Z.of_nat (length (H0 n)) + 1 < 2 ^ 32 →
  period_ok st vm (H0 n) → nb_vcpus vm < 2 ^ 16 → h2g_ready (shmem st) →
  let st' := callback_fn n vm st in
  let slot := (next_history_slot vm).1 in
  ∃ w, h2g_view (shmem st') H2G_LATEST_SLOT = Some w ∧ h2g_view (shmem st') slot = Some w ∧
    wm_phantom w = weighted_avg (closed st vm (H0 n)) ∧ 0 <= wm_phantom w <= nb_vcpus vm ∧
    wm_ts w = u32 (now (tick (tick st))) ∧ wm_idle w = u16 (published_idle_avg st) ∧
    ∀ j, j ≠ slot → j ≠ H2G_LATEST_SLOT → h2g_view (shmem st') j = h2g_view (shmem st) j.
Proof.
  intros Ht Hn Hlen Hper Hnb Hready.
  destruct (callback_spec st H0 n vm Ht Hn Hlen Hper) as (_ & _ & _ & _ & _ & _ & Hsh).
  destruct (tracks_vm _ _ Ht n vm Hn) as (_ & [Hr _ _] & Hp & _).
  assert (Havg : 0 <= weighted_avg (closed st vm (H0 n)) <= nb_vcpus vm).
  { apply (weighted_avg_bounds 0); [lia|]. apply Forall_take, Forall_app. split.
    - eapply Forall_impl; [exact Hr|]. simpl. lia.
    - rewrite Forall_singleton. simpl. lia. }
  set (w := watermark (now (tick (tick st))) (weighted_avg (closed st vm (H0 n)))
    (published_idle_avg st)) in Hsh.
  destruct (h2g_write_history (shmem st) (next_history_slot vm).1 w Hready
    (next_history_slot_range vm) (watermark_u64 _ _ _)) as (s' & Hw & _ & Hi & Hl & Ho & _).
  destruct (watermark_fields (now (tick (tick st))) (weighted_avg (closed st vm (H0 n)))
    (published_idle_avg st)) as (Hts & Hph & Hid). fold w in Hts, Hph, Hid.
  assert (Hu : u16 (weighted_avg (closed st vm (H0 n))) = weighted_avg (closed st vm (H0 n)))
    by (apply Z.mod_small; lia).
  exists w. cbv zeta. rewrite Hsh, Hw, Hph, Hu. done.
Qed.
End publish.

(** ** Properties *)

Module BuffersProps.
Section props.
Context {S : Type} `{HostKfuncs S}.
Implicit Types st : host S.

(** The published value is the time-weighted average of the counter.  When
    the timer visits a VM, the watermark it leaves in the latest slot and in
    the VM's next history slot carries the average of the recorded values of
    [phantom_count] over the samples since the previous visit, which never
    exceeds the number of vCPUs, with the current time and the last idle
    average; the other history slots keep their content. *)
Theorem timer_publishes_average `{!HostKfuncsLaws S} st (H0 : history) n vm :
  tracks st H0 → vms st !! n = Some vm → Z.of_nat (length (H0 n)) + 1 < 2 ^ 32 →
  period_ok st vm (H0 n) → nb_vcpus vm < 2 ^ 16 → h2g_ready (shmem st) →
  let st' := callback_fn n vm st in
  let slot := (next_history_slot vm).1 in
  ∃ w, h2g_view (shmem st') H2G_LATEST_SLOT = Some w ∧ h2g_view (shmem st') slot = Some w ∧
    wm_phantom w = weighted_avg (closed st vm (H0 n)) ∧ 0 <= wm_phantom w <= nb_vcpus vm ∧
    wm_ts w = u32 (now (tick (tick st))) ∧ wm_idle w = u16 (published_idle_avg st) ∧
    ∀ j, j ≠ slot → j ≠ H2G_LATEST_SLOT → h2g_view (shmem st') j = h2g_view (shmem st) j.
Proof. apply callback_publishes. Qed.

(** C4: the switch handler appends to the VM's history: if the active buffers
    of all VMs store their histories, they do so after a context switch, with
    the new count and the time appended for the VM whose counter moved; a
    sample past the end of a buffer is dropped and nothing else is lost. *)
Theorem switch_appends_history ctx st (H0 : history) :
  tracks st H0 → room 2 H0 → tracks (phantom_switch_handler ctx st) (switch_hist ctx st H0).
Proof. apply handler_tracks. Qed.

(** C7: a period of the timer, in whatever order the VMs are visited, closes
    every visited VM's history and starts the next with the current count at
    a time no earlier than the start of the period, and leaves the buffers of
    all VMs storing their histories. *)
Theorem timer_restarts_histories order val st (H0 : history) :
  NoDup order → tracks st H0 → room 1 H0 →
  (∀ n vm, n ∈ order → vms st !! n = Some vm →
     period_ok_until (ticks (clk st) + 3 * length order) st vm (H0 n)) →
  ∃ H', tracks (timer_cb order val st).2 H' ∧
    (∀ n vm, n ∈ order → vms st !! n = Some vm →
       ∃ t, now st <= t ∧ H' n = [Sample (phantom_count vm) t]) ∧
    (∀ n, n ∉ order → H' n = H0 n).
Proof.
  intros Hnd Ht Hr Hper.
  destruct (for_each_tracks order st H0 _ Hnd Ht Hr (Nat.le_refl _) Hper) as (H' & Ht' & Hin & Hout & _).
  by exists H'.
Qed.

(** The timer never disturbs the counters: a period leaves the vCPU table,
    every counter and every ceiling as they are, so the counting invariant of
    the switch handler survives it; and it re-arms itself. *)
Theorem timer_preserves_phantom_inv order val st :
  phantom_inv st →
  phantom_inv (timer_cb order val st).2 ∧ same_counts st (timer_cb order val st).2 ∧
  bt_armed (timer (timer_cb order val st).1) = Some MSG_TIMER_PERIOD_NS.
Proof.
  intros Hi. pose proof (for_each_counts order st) as Hs. simpl.
  split_and!; [by eapply same_counts_inv|done|done].
Qed.
End props.

(** *** Witnesses: one VM of 4 vCPUs whose second buffer is active and holds
    two samples. *)

Definition b_hist : list sample := [Sample 1 0; Sample 2 1000].

Definition b_history : history := set_history PhantomSwitchProps.w_name b_hist (λ _, []).

Definition b_vm : vm_t := VM [] 2 0 2 0 4 5.

Definition b_map : array_map sample :=
  array_update (array_update (array_new VM_MAP_MAX_ENTRIES) 0 (Sample 1 0)) 1 (Sample 2 1000).

Definition b_host : host hostmod :=
  Host {[PhantomSwitchProps.w_name := b_vm]}
       (<[100 := VCPU 0 PhantomSwitchProps.w_name 0]>
          (<[101 := VCPU 1 PhantomSwitchProps.w_name 1]>
            {[102 := VCPU 2 PhantomSwitchProps.w_name 1]}))
       (<[registry_key [118; 109] suffix_1 := 1]> {[registry_key [118; 109] suffix_2 := 2]})
       (<[1 := array_new VM_MAP_MAX_ENTRIES]> {[2 := b_map]})
       (array_new 1) (Clock (λ n, Z.min (1000 * Z.of_nat n) (2 ^ 40)) 3) PhantomSwitchProps.w_mod.

Lemma b_clock_ok : clock_ok (clk b_host).
Proof. split; simpl; intros; lia. Qed.

Lemma b_hist_clip : clip b_hist = b_hist.
Proof. apply take_ge. unfold VM_MAP_MAX_ENTRIES. simpl length. lia. Qed.

Lemma b_only n vm : vms b_host !! n = Some vm → n = PhantomSwitchProps.w_name ∧ vm = b_vm.
Proof.
  change (vms b_host) with ({[PhantomSwitchProps.w_name := b_vm]} : gmap (list Z) vm_t).
  intros Hn. by apply lookup_singleton_Some in Hn as [<- <-].
Qed.

Lemma b_tracks : tracks b_host b_history.
Proof.
  pose proof b_only as Hone.
  split; [apply b_clock_ok| |].
  - intros n n' m [vm Hn] [vm' Hn'] _ _. apply Hone in Hn as [-> _], Hn' as [-> _]. done.
  - intros n vm Hn. apply Hone in Hn as [-> ->]. unfold b_history. rewrite set_history_eq.
    split; [|split; [|simpl; lia]].
    + split; [by left|]. exists 1, 2, b_map, (array_new VM_MAP_MAX_ENTRIES).
      split; [vm_compute; reflexivity|]. split; [lia|]. rewrite b_hist_clip.
      do 5 (split; [reflexivity|]). split; [by vm_compute|].
      intros [|[|i]] x [= <-]; reflexivity.
    + split.
      * change (now b_host) with 3000.
        apply Forall_cons_2; [|apply Forall_cons_2; [|apply Forall_nil_2]]; simpl; lia.
      * intros [|[|i]] a b [= <-] [= <-]. simpl. lia.
      * intros x [= <-]. reflexivity.
Qed.

Lemma b_ready : h2g_ready (shmem b_host).
Proof.
  unfold b_host, PhantomSwitchProps.w_mod. simpl.
  do 2 (apply guest_store_ready; [|by vm_compute]). apply HostIvshmemProps.one_vm_ready.
Qed.

(** 1 for 1000 ns, then 2 for 2000 ns: the average is 5000 / 3000. *)
Lemma timer_publishes_average_witness :
  ∃ w, h2g_view (shmem (callback_fn PhantomSwitchProps.w_name b_vm b_host)) H2G_LATEST_SLOT = Some w ∧
    wm_phantom w = 1 ∧ wm_ts w = 5000.
Proof.
  destruct (timer_publishes_average b_host b_history PhantomSwitchProps.w_name b_vm)
    as (w & Hl & _ & Hp & _ & Hts & _).
  - exact b_tracks.
  - vm_compute. reflexivity.
  - unfold b_history. rewrite set_history_eq. simpl. lia.
  - unfold b_history. rewrite set_history_eq. intros x [= <-].
    change (now b_host) with 3000. simpl. lia.
  - simpl. lia.
  - exact b_ready.
  - exists w. split; [exact Hl|]. split; [|rewrite Hts; reflexivity].
    rewrite Hp. unfold b_history. rewrite set_history_eq. unfold closed, clip.
    rewrite take_ge by (unfold VM_MAP_MAX_ENTRIES; simpl length; lia). reflexivity.
Defined.

(** Thread 101 comes back and 100 leaves: two more samples. *)
Lemma switch_appends_history_witness :
  tracks (phantom_switch_handler (SchedSwitch 100 0 101) b_host)
         (switch_hist (SchedSwitch 100 0 101) b_host b_history) ∧
  switch_hist (SchedSwitch 100 0 101) b_host b_history PhantomSwitchProps.w_name =
    [Sample 1 0; Sample 2 1000; Sample 1 3000; Sample 2 4000].
Proof.
  split; [|vm_compute; reflexivity]. apply switch_appends_history; [exact b_tracks|].
  intros n. unfold b_history, set_history. case_decide; simpl; lia.
Defined.

Lemma timer_restarts_histories_witness :
  ∃ H', tracks (timer_cb [PhantomSwitchProps.w_name] elem_zero b_host).2 H' ∧
    ∃ t, 3000 <= t ∧ H' PhantomSwitchProps.w_name = [Sample 2 t].
Proof.
  destruct (timer_restarts_histories [PhantomSwitchProps.w_name] elem_zero b_host b_history)
    as (H' & Ht & Hin & _).
  - apply NoDup_singleton.
  - exact b_tracks.
  - intros n. unfold b_history, set_history. case_decide; simpl; lia.
  - intros n vm Hn Hvm. apply b_only in Hvm as [-> ->].
    unfold b_history. rewrite set_history_eq. intros x [= <-]. simpl. lia.
  - exists H'. split; [exact Ht|].
    apply (Hin PhantomSwitchProps.w_name b_vm); [by left|vm_compute; reflexivity].
Defined.

Lemma timer_preserves_phantom_inv_witness :
  phantom_inv (timer_cb [PhantomSwitchProps.w_name] elem_zero b_host).2.
Proof.
  refine (proj1 (timer_preserves_phantom_inv [PhantomSwitchProps.w_name] elem_zero b_host _)).
  decide_now.
Defined.
End BuffersProps.
