(* ===== verification/IdleAvg.v ===== *)
(** The idle average: [global_running_tracker.bpf.c] and the initialisation
    its loader does.

    On every context switch the program samples the number of runnable threads
    of the host into the active one of two buffers of 3000 entries; every 4 ms
    the timer closes the buffer, averages it over time and publishes the number
    of CPUs minus that average.  The sum over the per-CPU run queues is computed
    by a header the build generates, so its value is the argument [nr_running]
    of both handlers. *)

From S2P Require Import Prelude BpfMap Sampling PhantomTimer.

Definition COLLECTX_MAX_ENTRIES : Z := 3000.
Definition TIMER_PERIOD_NS : Z := 4000000.

(** The program's maps and the clock. *)
Record idle := Idle {
  tracker_state : array_map global_runnx_tracker_state;
  collectx_buff_1 : array_map sample;
  collectx_buff_2 : array_map sample;
  idle_clk : clock
}.

Definition idle_now (i : idle) : Z := ktime (idle_clk i).
Definition idle_tick (i : idle) : idle :=
  Idle (tracker_state i) (collectx_buff_1 i) (collectx_buff_2 i) (ktick (idle_clk i)).
Definition put_state (s : global_runnx_tracker_state) (i : idle) : idle :=
  Idle (array_update (tracker_state i) 0 s) (collectx_buff_1 i) (collectx_buff_2 i) (idle_clk i).
Definition update_buff_1 (k : Z) (x : sample) (i : idle) : idle :=
  Idle (tracker_state i) (array_update (collectx_buff_1 i) k x) (collectx_buff_2 i) (idle_clk i).
Definition update_buff_2 (k : Z) (x : sample) (i : idle) : idle :=
  Idle (tracker_state i) (collectx_buff_1 i) (array_update (collectx_buff_2 i) k x) (idle_clk i).

Definition gt_set_index_1 (k : Z) (s : global_runnx_tracker_state) :=
  Tracker (global_runnx_count s) k (gt_buff_2_index s) (gt_collectx_in_buff_1 s)
          (nb_cpus s) (last_idle_avg s) (global_runnx_avg s).
Definition gt_set_index_2 (k : Z) (s : global_runnx_tracker_state) :=
  Tracker (global_runnx_count s) (gt_buff_1_index s) k (gt_collectx_in_buff_1 s)
          (nb_cpus s) (last_idle_avg s) (global_runnx_avg s).
Definition gt_set_collectx (b : Z) (s : global_runnx_tracker_state) :=
  Tracker (global_runnx_count s) (gt_buff_1_index s) (gt_buff_2_index s) b
          (nb_cpus s) (last_idle_avg s) (global_runnx_avg s).
Definition gt_set_avgs (idle_avg avg : Z) (s : global_runnx_tracker_state) :=
  Tracker (global_runnx_count s) (gt_buff_1_index s) (gt_buff_2_index s)
          (gt_collectx_in_buff_1 s) (nb_cpus s) idle_avg avg.

(** ** The averaging callback *)

Record nr_running_avg_ctx := NrRunningAvgCtx {
  nr_sum : Z;          (* __s64 *)
  nr_total_time : Z;   (* __u64 *)
  nr_nb_samples : Z    (* int *)
}.

Definition nr_running_avg_sample_cb (map : array_map sample) (k : Z) (current_sample : sample)
    (data : nr_running_avg_ctx) : nr_running_avg_ctx :=
  if k >=? u32 (nr_nb_samples data) then data
  else
    let next_k := u32 (k + 1) in
    match array_lookup sample_zero map next_k with
    | None => data
    | Some next_sample =>
        if timestamp next_sample <? timestamp current_sample then data
        else
          let count := count current_sample in
          let count := if count <? 0 then 0 else count in
          let duration := u64 (timestamp next_sample - timestamp current_sample) in
          NrRunningAvgCtx (s64 (nr_sum data + s64 (count * s64 duration)))
            (u64 (nr_total_time data + duration)) (nr_nb_samples data)
    end.

(** ** The handlers *)

Definition global_running_tracker_switch_handler (nr_running : Z) (i : idle) : idle :=
  match array_lookup tracker_zero (tracker_state i) 0 with
  | None => i
  | Some state =>
      let sample_rec := Sample nr_running (idle_now i) in
      let i := idle_tick i in
      if gt_collectx_in_buff_1 state =? 1 then
        let idx := gt_buff_1_index state in
        update_buff_1 idx sample_rec (put_state (gt_set_index_1 (u32 (idx + 1)) state) i)
      else
        let idx := gt_buff_2_index state in
        update_buff_2 idx sample_rec (put_state (gt_set_index_2 (u32 (idx + 1)) state) i)
  end.

(** The buffer swap of the timer callback: the closed buffer, its number of
    samples, and the tracker state. *)
Definition idle_swap (boundary : sample) (state : global_runnx_tracker_state) (i : idle)
  : array_map sample * Z * global_runnx_tracker_state * idle :=
  if gt_collectx_in_buff_1 state =? 1 then
    let i := update_buff_2 0 boundary i in
    let state := gt_set_index_2 1 state in
    let state := gt_set_collectx 0 state in
    let end_idx := gt_buff_1_index state in
    let state := gt_set_index_1 (u32 (end_idx + 1)) state in
    let i := update_buff_1 end_idx boundary i in
    (collectx_buff_1 i, end_idx, state, i)
  else
    let i := update_buff_1 0 boundary i in
    let state := gt_set_index_1 1 state in
    let state := if gt_collectx_in_buff_1 state =? 0 then gt_set_collectx 1 state else state in
    let end_idx := gt_buff_2_index state in
    let state := gt_set_index_2 (u32 (end_idx + 1)) state in
    let i := update_buff_2 end_idx boundary i in
    (collectx_buff_2 i, end_idx, state, i).

(** [avg_ctx.sum / avg_ctx.total_time] divides unsigned 64-bit integers. *)
Definition running_average (map_to_process : array_map sample) (nb_samples : Z) : Z :=
  let avg_ctx := array_for_each sample_zero map_to_process
    (nr_running_avg_sample_cb map_to_process) (NrRunningAvgCtx 0 0 nb_samples) in
  if nr_total_time avg_ctx >? 0 then u64 (nr_sum avg_ctx) / nr_total_time avg_ctx else 0.

Record ielem := IElem { itimer : bpf_timer; istarted : Z }.

Definition ielem_zero : ielem := IElem (BpfTimer 0 false None) 0.

Definition idle_avg_timer_cb (nr_running : Z) (val : ielem) (i : idle) : ielem * idle :=
  let i :=
    match array_lookup tracker_zero (tracker_state i) 0 with
    | None => i
    | Some state =>
        let boundary := Sample nr_running (idle_now i) in
        let i := idle_tick i in
        let '(map_to_process, end_idx, state, i) := idle_swap boundary state i in
        let avg := running_average map_to_process (s32 end_idx) in
        let idle_avg := if avg >? nb_cpus state then 0 else u64 (nb_cpus state - avg) in
        put_state (gt_set_avgs idle_avg avg state) i
    end in
  (IElem (bpf_timer_start TIMER_PERIOD_NS (itimer val)) (istarted val), i).

(** [global_running_tracker_timer_init], with [ret] what [bpf_timer_init]
    returns if it is called. *)
Definition global_running_tracker_timer_init (ret : Z) (timer_map : array_map ielem)
  : array_map ielem :=
  match array_lookup ielem_zero timer_map 0 with
  | None => timer_map
  | Some e =>
      let old := istarted e in
      let e := IElem (itimer e) 1 in
      if negb (old =? 0) then array_update timer_map 0 e
      else if negb (ret =? 0) then array_update timer_map 0 (IElem (itimer e) 0)
      else
        let t := BpfTimer (1 + bt_inits (itimer e)) true (bt_armed (itimer e)) in
        array_update timer_map 0 (IElem (bpf_timer_start TIMER_PERIOD_NS t) (istarted e))
  end.

(** What the loader leaves: fresh buffers, and either a fresh state element
    with the number of CPUs or the pinned one as it was. *)
Definition loader_init (nb : Z) (pinned : option global_runnx_tracker_state) (c : clock) : idle :=
  let state := match pinned with
    | Some s => s
    | None => Tracker 0 0 0 0 (u32 nb) 0 0
    end in
  Idle (array_update (array_new 1) 0 state) (array_new COLLECTX_MAX_ENTRIES)
       (array_new COLLECTX_MAX_ENTRIES) c.

(** ** Representation: the active buffer stores a list of samples *)

Definition idle_active (s : global_runnx_tracker_state) (i : idle) : array_map sample :=
  if gt_collectx_in_buff_1 s =? 1 then collectx_buff_1 i else collectx_buff_2 i.

Definition idle_index (s : global_runnx_tracker_state) : Z :=
  if gt_collectx_in_buff_1 s =? 1 then gt_buff_1_index s else gt_buff_2_index s.

Record sampling (i : idle) (s : global_runnx_tracker_state) (h : list sample) : Prop := {
  smp_state : array_lookup tracker_zero (tracker_state i) 0 = Some s;
  smp_one : am_max (tracker_state i) = 1;
  smp_flag : gt_collectx_in_buff_1 s = 0 ∨ gt_collectx_in_buff_1 s = 1;
  smp_size_1 : am_max (collectx_buff_1 i) = COLLECTX_MAX_ENTRIES;
  smp_size_2 : am_max (collectx_buff_2 i) = COLLECTX_MAX_ENTRIES;
  smp_index : idle_index s = Z.of_nat (length h);
  smp_holds : holds (idle_active s i) (fits (idle_active s i) h)
}.

(** The samples a buffer can store. *)
Definition idle_clip (h : list sample) : list sample := take (Z.to_nat COLLECTX_MAX_ENTRIES) h.

(** Samples in time order, up to now, of at most [c] runnable threads. *)
Record idle_sound (c : Z) (i : idle) (h : list sample) : Prop := {
  is_clock : clock_ok (idle_clk i);
  is_range : Forall (λ x, 0 <= count x <= c ∧ 0 <= timestamp x <= idle_now i) h;
  is_order : in_order h
}.

Lemma idle_sound_append c i i' n h :
  0 <= n <= c → idle_clk i' = ktick (idle_clk i) → idle_sound c i h →
  idle_sound c i' (h ++ [Sample n (idle_now i)]) ∧ idle_sound c i' [Sample n (idle_now i)].
Proof.
  intros Hn Hk [Hc Hr Ho]. pose proof (ktime_u64 _ Hc) as Hu. pose proof (ktime_mono _ Hc) as Hm.
  fold (idle_now i) in Hu, Hm.
  assert (Hnow : idle_now i' = ktime (ktick (idle_clk i))) by (unfold idle_now; by rewrite Hk).
  assert (Hc' : clock_ok (idle_clk i')) by by rewrite Hk.
  assert (Hx : 0 <= count (Sample n (idle_now i)) <= c ∧
    0 <= timestamp (Sample n (idle_now i)) <= idle_now i') by (cbn [count timestamp]; lia).
  split; (split; [done|..]).
  - rewrite Forall_app, Forall_singleton. split; [|exact Hx].
    eapply Forall_impl; [exact Hr|]. simpl. intros x ?. lia.
  - apply in_order_snoc; [done|]. intros y Hy. apply last_Some_elem_of in Hy.
    rewrite Forall_forall in Hr. destruct (Hr _ Hy). cbn [timestamp]. lia.
  - rewrite Forall_singleton. exact Hx.
  - by intros [|[|k]].
Qed.

(** A context switch appends one sample. *)
Lemma idle_switch_spec n i s h :
  sampling i s h → Z.of_nat (length h) + 1 < 2 ^ 32 →
  ∃ s', sampling (global_running_tracker_switch_handler n i) s' (h ++ [Sample n (idle_now i)]) ∧
    nb_cpus s' = nb_cpus s ∧ last_idle_avg s' = last_idle_avg s ∧
    global_runnx_avg s' = global_runnx_avg s ∧
    idle_clk (global_running_tracker_switch_handler n i) = ktick (idle_clk i).
Proof.
  intros [Hst H1 Hf Hs1 Hs2 Hix Hh] Hlen. unfold global_running_tracker_switch_handler.
  rewrite Hst. unfold idle_index, idle_active in *.
  destruct (Z.eqb_spec (gt_collectx_in_buff_1 s) 1) as [Hfl|Hfl].
  - exists (gt_set_index_1 (u32 (gt_buff_1_index s + 1)) s). split; [|done].
    split; simpl; rewrite ?am_max_update; auto.
    + apply array_lookup_update_eq. lia.
    + unfold idle_index. simpl. rewrite Hfl. simpl. rewrite Hix, length_app, u32_id; simpl; lia.
    + unfold idle_active. simpl. rewrite Hfl, Hix. simpl. by apply fits_snoc.
  - exists (gt_set_index_2 (u32 (gt_buff_2_index s + 1)) s). split; [|done].
    split; simpl; rewrite ?am_max_update; auto.
    + apply array_lookup_update_eq. lia.
    + unfold idle_index. simpl. rewrite (proj2 (Z.eqb_neq _ _) Hfl). simpl.
      rewrite Hix, length_app, u32_id; simpl; lia.
    + unfold idle_active. simpl. rewrite (proj2 (Z.eqb_neq _ _) Hfl), Hix. by apply fits_snoc.
Qed.

(** ** The average *)

Lemma running_average_accs map nb :
  0 <= am_max map →
  running_average map nb =
    let acc := array_for_each sample_zero map (sample_step nb map) (0, 0) in
    if acc.2 >? 0 then u64 acc.1 / acc.2 else 0.
Proof.
  intros Hmax. unfold running_average, array_for_each.
  match goal with |- context [zfor _ ?f (NrRunningAvgCtx _ _ _)] =>
  match goal with |- context [zfor _ ?g (0, 0)] =>
    pose proof (zfor_rel (λ data acc, nr_nb_samples data = nb ∧
      acc = (nr_sum data, nr_total_time data)) (am_max map) f g
      (NrRunningAvgCtx 0 0 nb) (0, 0)) as Hrel end end.
  destruct Hrel as [_ ->]; simpl; [done|done| |done].
  intros k data acc Hk [Hnb ->]. unfold nr_running_avg_sample_cb, sample_step. rewrite Hnb.
  repeat case_match; simpl; auto.
Qed.

(** The loop over a closed buffer, for either averaging program. *)
Lemma running_average_ref map l nb :
  0 < am_max map < 2 ^ 32 → holds map (fits map l) →
  Z.of_nat (length l) = nb + 1 → is_u32 nb →
  Forall (λ x, is_u64 (timestamp x)) l →
  weighted_sum (fits map l) < 2 ^ 63 → weighted_time (fits map l) < 2 ^ 64 →
  running_average map (s32 nb) = weighted_avg (fits map l).
Proof.
  intros Hmax Hh Hlen Hnb Hts Hs Ht. rewrite running_average_accs by lia.
  assert (array_for_each sample_zero map (sample_step (s32 nb) map) (0, 0) =
          (weighted_sum (fits map l), weighted_time (fits map l))) as ->.
  { rewrite <- (for_each_fits map l nb) by done. unfold array_for_each.
    apply zfor_ext; [lia|]. intros. apply sample_step_s32. }
  simpl. unfold weighted_avg. rewrite Z.gtb_ltb.
  pose proof (weighted_sum_nonneg (fits map l)). by rewrite u64_id by lia.
Qed.

Lemma running_average_nonneg map nb : 0 <= am_max map → 0 <= running_average map nb.
Proof.
  intros Hmax. rewrite running_average_accs by done. cbv zeta. case_bool; [|lia]. bool_hyps.
  apply Z.div_pos; [apply u64_range|done].
Qed.

(** ** One period *)

(** The swap closes the buffer that stores the list and opens the other. *)
Lemma idle_swap_spec e i s h :
  sampling i s h →
  let '(map_to_process, end_idx, s', i') := idle_swap e s (idle_tick i) in
  end_idx = Z.of_nat (length h) ∧ am_max map_to_process = COLLECTX_MAX_ENTRIES ∧
  holds map_to_process (fits map_to_process (h ++ [e])) ∧
  idle_clk i' = ktick (idle_clk i) ∧ nb_cpus s' = nb_cpus s ∧
  ∀ a b, sampling (put_state (gt_set_avgs a b s') i') (gt_set_avgs a b s') [e].
Proof.
  intros [Hst H1 Hf Hs1 Hs2 Hix Hh]. unfold idle_swap, idle_index, idle_active in *.
  assert (H3000 : 0 < COLLECTX_MAX_ENTRIES) by done.
  destruct Hf as [Hfl|Hfl]; rewrite Hfl in *; simpl in *; rewrite ?Hfl; simpl;
    rewrite Hix, ?am_max_update;
    (split_and!; [done|done|by apply fits_snoc|done|done|]); intros a b; rewrite ?Hfl;
    split; simpl; rewrite ?am_max_update; auto;
    first [apply array_lookup_update_eq; lia
      | unfold idle_active; simpl; rewrite ?Hfl; apply fits_start; lia].
Qed.

(** Whatever the order of the samples, as long as the sums do not overflow. *)
Lemma idle_timer_core n val i s h :
  let e := Sample n (idle_now i) in
  let i' := (idle_avg_timer_cb n val i).2 in
  let avg := weighted_avg (idle_clip (h ++ [e])) in
  sampling i s h → Z.of_nat (length h) + 1 < 2 ^ 32 → is_u32 (nb_cpus s) →
  Forall (λ x, is_u64 (timestamp x)) (h ++ [e]) →
  weighted_sum (idle_clip (h ++ [e])) < 2 ^ 63 → weighted_time (idle_clip (h ++ [e])) < 2 ^ 64 →
  ∃ s', sampling i' s' [e] ∧ idle_clk i' = ktick (idle_clk i) ∧ nb_cpus s' = nb_cpus s ∧
    global_runnx_avg s' = avg ∧ last_idle_avg s' = Z.max 0 (nb_cpus s - avg).
Proof.
  intros e i' avg Hsmp Hlen Hcpus Hts Hso Hto. unfold i', idle_avg_timer_cb.
  rewrite (smp_state _ _ _ Hsmp). fold e. cbn [snd].
  pose proof (idle_swap_spec e i s h Hsmp) as Hswap.
  destruct (idle_swap e s (idle_tick i)) as [[[map end_idx] s'] i1].
  destruct Hswap as (-> & Hmax & Hh & Hk & Hnb & Hsmp').
  assert (Hclip : fits map (h ++ [e]) = idle_clip (h ++ [e]))
    by (unfold fits, idle_clip; by rewrite Hmax).
  assert (Havg : running_average map (s32 (Z.of_nat (length h))) = avg).
  { unfold avg. rewrite <- Hclip. apply running_average_ref; try done.
    - rewrite Hmax. unfold COLLECTX_MAX_ENTRIES. lia.
    - rewrite length_app. simpl. lia.
    - lia.
    - by rewrite Hclip.
    - by rewrite Hclip. }
  rewrite Havg. eexists. split; [apply Hsmp'|]. split; [done|].
  simpl. split; [done|]. split; [done|]. rewrite Hnb.
  assert (0 <= avg).
  { unfold avg, weighted_avg. case_bool; [|lia]. bool_hyps.
    apply Z.div_pos; [apply weighted_sum_nonneg|done]. }
  destruct (avg >? nb_cpus s) eqn:E; bool_hyps; [lia|]. rewrite u64_id; lia.
Qed.

Section period.
Context (c n : Z) (val : ielem) (i : idle) (s : global_runnx_tracker_state) (h : list sample).
Context (Hsmp : sampling i s h) (Hsound : idle_sound c i h) (Hn : 0 <= n <= c).
Context (Hlen : Z.of_nat (length h) + 1 < 2 ^ 32).
Context (Hper : ∀ x, head h = Some x → c * (idle_now i - timestamp x) < 2 ^ 63).

Let e : sample := Sample n (idle_now i).

Lemma idle_closed_no_overflow m :
  weighted_sum (take m (h ++ [e])) < 2 ^ 63 ∧ weighted_time (take m (h ++ [e])) < 2 ^ 64.
Proof using All.
  destruct (idle_sound_append c i (idle_tick i) n h Hn eq_refl Hsound) as [[_ Hr Ho] _].
  pose proof (ktime_u64 _ (is_clock _ _ _ Hsound)) as Hu. fold (idle_now i) in Hu.
  apply (take_no_overflow c _ (default e (head h)) e);
    [lia|done|apply head_app_snoc|apply last_snoc|..].
  - eapply Forall_impl; [exact Hr|]. simpl. lia.
  - pose proof (is_range _ _ _ Hsound) as Hr'. destruct h as [|x h']; simpl; [lia|].
    apply Forall_cons in Hr' as [? _]. lia.
  - simpl. lia.
  - destruct h as [|x h']; simpl; [lia|]. by apply Hper.
Qed.

Lemma idle_closed_timestamps : Forall (λ x, is_u64 (timestamp x)) (h ++ [e]).
Proof using All.
  pose proof (ktime_u64 _ (is_clock _ _ _ Hsound)) as Hu. fold (idle_now i) in Hu.
  rewrite Forall_app, Forall_singleton. split; [|done].
  eapply Forall_impl; [exact (is_range _ _ _ Hsound)|]. simpl. intros x [_ ?]. lia.
Qed.

Lemma idle_timer_spec :
  is_u32 (nb_cpus s) →
  let i' := (idle_avg_timer_cb n val i).2 in
  let avg := weighted_avg (idle_clip (h ++ [e])) in
  ∃ s', sampling i' s' [e] ∧ idle_sound c i' [e] ∧ nb_cpus s' = nb_cpus s ∧
    global_runnx_avg s' = avg ∧ last_idle_avg s' = Z.max 0 (nb_cpus s - avg).
Proof using All.
  intros Hcpus i' avg.
  destruct (idle_closed_no_overflow (Z.to_nat COLLECTX_MAX_ENTRIES)) as [Hso Hto].
  destruct (idle_timer_core n val i s h) as (s' & Hs & Hk & Hr);
    [done..|apply idle_closed_timestamps|done|done|].
  exists s'. split; [done|]. split; [|done].
  by destruct (idle_sound_append c i i' n h Hn Hk Hsound).
Qed.
End period.

(** ** Runs *)

(** What happens to the program: context switches and timer expirations, each
    with the number of runnable threads it observes. *)
Inductive idle_event := ISwitch (nr_running : Z) | ITick (nr_running : Z).

Definition idle_step (i : idle) (ev : idle_event) : idle :=
  match ev with
  | ISwitch n => global_running_tracker_switch_handler n i
  | ITick n => (idle_avg_timer_cb n ielem_zero i).2
  end.

Definition idle_run (i : idle) (evs : list idle_event) : idle := foldl idle_step i evs.

(** The published value is within the number of CPUs. *)
Definition idle_bounded (nb : Z) (i : idle) : Prop :=
  am_max (tracker_state i) = 1 ∧ 0 <= am_max (collectx_buff_1 i) ∧
  0 <= am_max (collectx_buff_2 i) ∧
  ∃ s, array_lookup tracker_zero (tracker_state i) 0 = Some s ∧ nb_cpus s = nb ∧
    0 <= last_idle_avg s <= nb.

Lemma idle_step_bounded nb i ev : is_u32 nb → idle_bounded nb i → idle_bounded nb (idle_step i ev).
Proof.
  intros Hnb (Ht & H1 & H2 & s & Hs & Hc & Hl). destruct ev as [n|n]; simpl.
  - unfold global_running_tracker_switch_handler. rewrite Hs.
    destruct (gt_collectx_in_buff_1 s =? 1); unfold idle_bounded; simpl; rewrite !am_max_update;
      (split; [done|]; split; [done|]; split; [done|]);
      (eexists; split; [apply array_lookup_update_eq; lia|done]).
  - unfold idle_avg_timer_cb. rewrite Hs. cbn [snd].
    destruct (idle_swap (Sample n (idle_now i)) s (idle_tick i)) as [[[map ix] s'] i'] eqn:E.
    assert (am_max (tracker_state i') = 1 ∧ 0 <= am_max (collectx_buff_1 i') ∧
      0 <= am_max (collectx_buff_2 i') ∧ 0 <= am_max map ∧ nb_cpus s' = nb)
      as (Ht' & H1' & H2' & Hm & Hc').
    { unfold idle_swap in E. revert E. case_bool; intros [= <- <- <- <-]; simpl;
        rewrite ?am_max_update; split_and!; try done. by case_bool. }
    unfold idle_bounded. simpl. rewrite am_max_update.
    split; [done|]. split; [done|]. split; [done|].
    eexists. split; [apply array_lookup_update_eq; lia|]. split; [done|]. simpl.
    pose proof (running_average_nonneg map (s32 ix) Hm). rewrite Hc'.
    destruct (running_average map (s32 ix) >? nb) eqn:Eg; bool_hyps; [lia|].
    rewrite u64_id; lia.
Qed.

Lemma idle_run_bounded nb i evs : is_u32 nb → idle_bounded nb i → idle_bounded nb (idle_run i evs).
Proof.
  intros Hnb. revert i. induction evs as [|ev evs IH]; intros i Hi; simpl; [done|].
  apply IH. by apply idle_step_bounded.
Qed.

(** ** Reloading with a pinned state *)

(** Zeroed entries contribute no area. *)
Lemma weighted_sum_zeros k l : weighted_sum (replicate k sample_zero ++ l) = weighted_sum l.
Proof.
  induction k as [|k IH]; [done|]. simpl. unfold weighted_sum in *.
  destruct (replicate k sample_zero ++ l) as [|y l'] eqn:E.
  - destruct l; [done|]. by destruct k.
  - rewrite pair_sum_cons, IH. unfold area at 1. simpl. lia.
Qed.

(** Samples that follow zeroed entries, the first of them no earlier than
    [t0], are averaged over the absolute time. *)
Lemma diluted_avg c t0 k h n t :
  (1 <= k)%nat → 0 <= c → 0 < t →
  in_order (replicate k sample_zero ++ h ++ [Sample n t]) →
  Forall (λ x, 0 <= count x <= c) (h ++ [Sample n t]) →
  (∀ x, head h = Some x → t0 <= timestamp x) → t0 <= t → c * (t - t0) < t →
  weighted_avg (replicate k sample_zero ++ h ++ [Sample n t]) = 0.
Proof.
  intros Hk Hc Ht Ho Hr Hfst Ht0 Hup. unfold weighted_avg. rewrite weighted_sum_zeros.
  destruct k as [|k]; [lia|].
  assert (Htime : weighted_time (replicate (S k) sample_zero ++ h ++ [Sample n t]) = t).
  { rewrite (weighted_time_in_order _ sample_zero (Sample n t) Ho eq_refl); [simpl; lia|].
    rewrite app_assoc. apply last_snoc. }
  rewrite Htime. case_bool; [|done]. apply Z.div_small.
  split; [apply weighted_sum_nonneg|].
  assert (Ho' : in_order (h ++ [Sample n t])).
  { intros i a b Ha Hb. apply (Ho (S k + i)%nat).
    - rewrite lookup_app_r; rewrite length_replicate; [|lia].
      by replace (S k + i - S k)%nat with i by lia.
    - rewrite lookup_app_r; rewrite length_replicate; [|lia].
      by replace (S (S k + i) - S k)%nat with (S i) by lia. }
  pose proof (weighted_time_in_order _ _ (Sample n t) Ho' (head_app_snoc h _)
    ltac:(apply last_snoc)) as Hw.
  assert (weighted_sum (h ++ [Sample n t]) <= c * weighted_time (h ++ [Sample n t])).
  { apply weighted_sum_le; [done|]. eapply Forall_impl; [exact Hr|]. simpl. lia. }
  assert (t0 <= timestamp (default (Sample n t) (head h))).
  { destruct (head h) as [x|]; simpl; [by apply Hfst|done]. }
  rewrite Hw in *. simpl in *. nia.
Qed.

(** A fresh buffer stores as many zeroed samples as the remembered index. *)
Lemma reload_sampling nb p clk c :
  clock_ok clk → gt_collectx_in_buff_1 p = 0 ∨ gt_collectx_in_buff_1 p = 1 →
  0 <= idle_index p → 0 <= c →
  let z := replicate (Z.to_nat (idle_index p)) sample_zero in
  sampling (loader_init nb (Some p) clk) p z ∧ idle_sound c (loader_init nb (Some p) clk) z.
Proof.
  intros Hc Hf Hi Hc0 z. split.
  - split; try done.
    + unfold z. rewrite length_replicate. lia.
    + assert (idle_active p (loader_init nb (Some p) clk) = array_new COLLECTX_MAX_ENTRIES) as ->.
      { unfold idle_active. by case_bool. }
      unfold fits. split.
      { rewrite length_take. unfold COLLECTX_MAX_ENTRIES. simpl am_max. lia. }
      intros i x Hx. apply lookup_take_Some in Hx as [Hx Hlt].
      apply lookup_replicate in Hx as [-> _]. rewrite array_lookup_in by (simpl in *; lia). done.
  - split; [done| |].
    + apply Forall_replicate. simpl. pose proof (ktime_u64 clk Hc). unfold idle_now. simpl. lia.
    + intros i a b Ha Hb. apply lookup_replicate in Ha as [-> _], Hb as [-> _]. done.
Qed.

(** A run of context switches appends their samples. *)
Lemma idle_switches c ns i s h :
  sampling i s h → idle_sound c i h → Forall (λ k, 0 <= k <= c) ns →
  Z.of_nat (length h) + Z.of_nat (length ns) < 2 ^ 32 →
  ∃ s' h', sampling (foldl idle_step i (map ISwitch ns)) s' (h ++ h') ∧
    idle_sound c (foldl idle_step i (map ISwitch ns)) (h ++ h') ∧ nb_cpus s' = nb_cpus s ∧
    idle_clk (foldl idle_step i (map ISwitch ns)) =
      Clock (reading (idle_clk i)) (ticks (idle_clk i) + length ns) ∧
    length h' = length ns ∧ (∀ x, head h' = Some x → idle_now i <= timestamp x).
Proof.
  intros Hs Hd Hns. revert i s h Hs Hd. induction Hns as [|n ns Hn Hns IH]; intros i s h Hs Hd Hl.
  - exists s, []. rewrite app_nil_r. simpl. split_and!; try done.
    destruct (idle_clk i). simpl. by rewrite Nat.add_0_r.
  - simpl in *. destruct (idle_switch_spec n i s h Hs) as (s1 & Hs1 & Hc1 & _ & _ & Hk1); [lia|].
    destruct (idle_sound_append c i (idle_step i (ISwitch n)) n h Hn Hk1 Hd) as [Hd1 _].
    destruct (IH _ _ _ Hs1 Hd1) as (s' & h' & Hs' & Hd' & Hc' & Hk' & Hl' & _).
    { rewrite length_app. simpl. lia. }
    exists s', (Sample n (idle_now i) :: h').
    rewrite <- app_assoc in Hs', Hd'. simpl in *. split_and!; try done.
    + congruence.
    + rewrite Hk', Hk1. simpl. f_equal. lia.
    + simpl. lia.
    + intros x [= <-]. done.
Qed.

Module IdleAvgProps.
(** C12: the idle average is the number of CPUs minus the time-weighted average
    of the runnable threads.  When the timer closes a buffer that stores the
    samples of the last period, it publishes that average over the samples
    that fitted (the first 3000), clamped at 0, and starts the next period
    with the boundary sample. *)
Theorem idle_average_published c n val i s h :
  sampling i s h → idle_sound c i h → 0 <= n <= c → Z.of_nat (length h) + 1 < 2 ^ 32 →
  (∀ x, head h = Some x → c * (idle_now i - timestamp x) < 2 ^ 63) → is_u32 (nb_cpus s) →
  let i' := (idle_avg_timer_cb n val i).2 in
  let e := Sample n (idle_now i) in
  let avg := weighted_avg (idle_clip (h ++ [e])) in
  ∃ s', sampling i' s' [e] ∧ idle_sound c i' [e] ∧ nb_cpus s' = nb_cpus s ∧
    global_runnx_avg s' = avg ∧ last_idle_avg s' = Z.max 0 (nb_cpus s - avg).
Proof. intros. by apply idle_timer_spec. Qed.

(** A context switch appends one sample, in time order, to the samples of
    the period and leaves the published averages alone. *)
Theorem idle_switch_appends c n i s h :
  sampling i s h → idle_sound c i h → 0 <= n <= c → Z.of_nat (length h) + 1 < 2 ^ 32 →
  let i' := global_running_tracker_switch_handler n i in
  let h' := h ++ [Sample n (idle_now i)] in
  ∃ s', sampling i' s' h' ∧ idle_sound c i' h' ∧ nb_cpus s' = nb_cpus s ∧
    last_idle_avg s' = last_idle_avg s.
Proof.
  intros Hs Hsd Hn Hl i' h'. destruct (idle_switch_spec n i s h Hs Hl) as (s' & H1 & H2 & H3 & _ & H4).
  destruct (idle_sound_append c i i' n h Hn H4 Hsd). eauto.
Qed.

(** Whatever the buffers contain, whatever was sampled and however the two
    handlers interleave, the published idle average of a freshly loaded
    tracker stays between 0 and the number of CPUs. *)
Theorem idle_average_bounded nb c evs :
  is_u32 nb → idle_bounded nb (idle_run (loader_init nb None c) evs).
Proof.
  intros Hnb. apply idle_run_bounded; [done|].
  split; [done|]. do 2 (split; [done|]).
  exists (Tracker 0 0 0 0 (u32 nb) 0 0). split; [done|]. simpl. rewrite u32_id; lia.
Qed.

(** A reload that reuses the pinned state keeps its indices but starts
    with empty buffers, whose entries read as zero.  The first period after it
    is then averaged over the whole uptime: unless the elapsed time times the
    number of runnable threads reaches the uptime, the tracker publishes a
    fully idle host whatever is running. *)
Theorem reload_publishes_full_idle nb p clk c ns n :
  clock_ok clk → is_u32 (nb_cpus p) →
  gt_collectx_in_buff_1 p = 0 ∨ gt_collectx_in_buff_1 p = 1 →
  1 <= idle_index p → idle_index p + Z.of_nat (length ns) + 1 <= COLLECTX_MAX_ENTRIES →
  Forall (λ k, 0 <= k <= c) ns → 0 <= n <= c →
  let t := reading clk (ticks clk + length ns) in
  0 < t → c * t < 2 ^ 63 → c * (t - ktime clk) < t →
  ∃ s', array_lookup tracker_zero
          (tracker_state (idle_run (loader_init nb (Some p) clk) (map ISwitch ns ++ [ITick n]))) 0
        = Some s' ∧ global_runnx_avg s' = 0 ∧ last_idle_avg s' = nb_cpus p.
Proof.
  intros Hc Hcpus Hf H1 Hroom Hns Hn t Ht0 Hov Hup.
  set (z := replicate (Z.to_nat (idle_index p)) sample_zero).
  destruct (reload_sampling nb p clk c) as [Hs0 Hd0]; [done|done|lia|lia|]. fold z in Hs0, Hd0.
  assert (Hz : Z.of_nat (length z) = idle_index p) by (unfold z; rewrite length_replicate; lia).
  unfold COLLECTX_MAX_ENTRIES in Hroom.
  destruct (idle_switches c ns _ _ _ Hs0 Hd0 Hns) as (s & h & Hs & Hd & Hcs & Hk & Hlen & Hfst);
    [lia|].
  unfold idle_run at 1. rewrite foldl_app. simpl.
  set (i := foldl idle_step _ (map ISwitch ns)) in *.
  assert (Hnow : idle_now i = t) by (unfold idle_now, ktime, t; by rewrite Hk).
  destruct (idle_timer_spec c n ielem_zero i s (z ++ h) Hs Hd Hn)
    as (s' & Hs' & _ & Hc' & Ha & Hl).
  { rewrite length_app. lia. }
  { intros x Hx. assert (x = sample_zero) as ->.
    { unfold z in Hx. destruct (Z.to_nat (idle_index p)) eqn:E; [lia|]. by simplify_eq/=. }
    rewrite Hnow. simpl. lia. }
  { by rewrite Hcs. }
  exists s'. split; [apply Hs'|].
  assert (Hzero : weighted_avg (idle_clip ((z ++ h) ++ [Sample n (idle_now i)])) = 0).
  { unfold idle_clip. rewrite take_ge by (rewrite !length_app; unfold COLLECTX_MAX_ENTRIES; simpl; lia).
    rewrite <- app_assoc. apply (diluted_avg c (ktime clk)); try lia; rewrite ?Hnow.
    - rewrite <- Hnow, app_assoc.
      by destruct (idle_sound_append c i (idle_tick i) n (z ++ h) Hn eq_refl Hd) as [[] _].
    - rewrite Forall_app, Forall_singleton. split; [|done].
      pose proof (is_range _ _ _ Hd) as Hr. apply Forall_app in Hr as [_ Hr].
      eapply Forall_impl; [exact Hr|]. simpl. lia.
    - done.
    - apply Hc. lia. }
  rewrite Ha, Hl, Hzero, Hcs. split; [done|lia].
Qed.

(** *** Witnesses: 8 CPUs, the first buffer active with two samples. *)

Definition i_clk : clock := Clock (λ n, Z.min (1000 * Z.of_nat n + 5000) (2 ^ 40)) 0.
Definition i_hist : list sample := [Sample 3 1000; Sample 6 4000].
Definition i_state : global_runnx_tracker_state := Tracker 0 2 0 1 8 0 0.
Definition i_idle : idle :=
  Idle (array_update (array_new 1) 0 i_state)
       (array_update (array_update (array_new COLLECTX_MAX_ENTRIES) 0 (Sample 3 1000))
          1 (Sample 6 4000))
       (array_new COLLECTX_MAX_ENTRIES) i_clk.

Lemma i_clock_ok : clock_ok i_clk.
Proof. split; simpl; intros; lia. Qed.

Lemma i_sampling : sampling i_idle i_state i_hist.
Proof.
  split; try done; [by right|]. unfold fits. rewrite take_ge by (vm_compute; lia).
  split; [by vm_compute|]. intros [|[|k]] x [= <-]; reflexivity.
Qed.

Lemma i_sound : idle_sound 10 i_idle i_hist.
Proof.
  split; [apply i_clock_ok| |].
  - change (idle_now i_idle) with 5000.
    apply Forall_cons_2; [|apply Forall_cons_2; [|apply Forall_nil_2]]; simpl; lia.
  - intros [|[|k]] a b [= <-] [= <-]. simpl. lia.
Qed.

(** 3 for 3000 ns and 6 for 1000 ns average to 3; 8 - 3 CPUs are idle. *)
Lemma idle_average_published_witness :
  ∃ s', array_lookup tracker_zero (tracker_state (idle_avg_timer_cb 2 ielem_zero i_idle).2) 0 = Some s' ∧
    global_runnx_avg s' = 3 ∧ last_idle_avg s' = 5.
Proof.
  destruct (idle_average_published 10 2 ielem_zero i_idle i_state i_hist)
    as (s' & Hs & _ & _ & Ha & Hl).
  - exact i_sampling.
  - exact i_sound.
  - lia.
  - simpl. lia.
  - intros x [= <-]. change (idle_now i_idle) with 5000. simpl. lia.
  - simpl. lia.
  - exists s'. split; [apply Hs|].
    assert (Hc : idle_clip (i_hist ++ [Sample 2 (idle_now i_idle)]) =
                 i_hist ++ [Sample 2 (idle_now i_idle)]) by (apply take_ge; vm_compute; lia).
    rewrite Ha, Hl, Hc. split; reflexivity.
Defined.

Lemma idle_switch_appends_witness :
  ∃ s', sampling (global_running_tracker_switch_handler 7 i_idle) s'
          [Sample 3 1000; Sample 6 4000; Sample 7 5000].
Proof.
  destruct (idle_switch_appends 10 7 i_idle i_state i_hist) as (s' & Hs & _).
  - exact i_sampling.
  - exact i_sound.
  - lia.
  - simpl. lia.
  - exists s'. exact Hs.
Defined.

Lemma idle_average_bounded_witness :
  idle_bounded 8 (idle_run (loader_init 8 None i_clk) [ISwitch 3; ITick 4; ISwitch 20; ITick 30]).
Proof. apply idle_average_bounded. lia. Defined.

(** Two threads run on each of the 8 CPUs, and all 8 are reported idle. *)
Lemma reload_publishes_full_idle_witness :
  ∃ s', array_lookup tracker_zero
          (tracker_state (idle_run
             (loader_init 8 (Some (Tracker 0 0 5 0 8 0 16)) (Clock (λ n, Z.min (1000 * Z.of_nat n + 500000) (2 ^ 40)) 0))
             (map ISwitch [16; 16] ++ [ITick 16]))) 0
        = Some s' ∧ global_runnx_avg s' = 0 ∧ last_idle_avg s' = 8.
Proof.
  apply (reload_publishes_full_idle 8 (Tracker 0 0 5 0 8 0 16) _ 16 [16; 16] 16).
  - split; simpl; intros; lia.
  - simpl. lia.
  - by left.
  - by vm_compute.
  - by vm_compute.
  - apply Forall_cons_2; [lia|]. apply Forall_cons_2; [lia|]. apply Forall_nil_2.
  - lia.
  - by vm_compute.
  - by vm_compute.
  - by vm_compute.
Defined.
End IdleAvgProps.
