(* ===== verification/IdleConcurrent.v ===== *)
(** The idle tracker on several CPUs: [global_running_tracker.bpf.c] as
    sequences of accesses to its maps.

    [IdleAvg] runs the switch handler and the timer callback in one go.  Here
    each is a program counter with one constructor per access to the tracker's
    element, a buffer or the clock; handlers of any number of CPUs and the timer
    interleave.  The sum over the run queues, which the handlers compute from a
    generated header, is the number an event brings along.  A configuration also
    records the samples for which a slot was reserved, in that order: the atomic
    increment is where a sample takes its place. *)

From S2P Require Import Prelude BpfMap Sampling PhantomTimer IdleAvg.

(** ** Accesses *)

(** [one] says that the first of the two buffers is meant. *)
Definition buff (one : bool) (i : idle) : array_map sample :=
  if one then collectx_buff_1 i else collectx_buff_2 i.
Definition update_buff (one : bool) (k : Z) (x : sample) (i : idle) : idle :=
  if one then update_buff_1 k x i else update_buff_2 k x i.
Definition gt_index (one : bool) (s : global_runnx_tracker_state) : Z :=
  if one then gt_buff_1_index s else gt_buff_2_index s.
Definition gt_set_index (one : bool) (k : Z) (s : global_runnx_tracker_state) :=
  if one then gt_set_index_1 k s else gt_set_index_2 k s.

(** The switch handler: nothing to do, or the next access. *)
Inductive hpc :=
  | HOff
  | HLook (n : Z)
  | HTime (n : Z)
  | HFlag (x : sample)
  | HReserve (x : sample) (one : bool)
  | HFill (x : sample) (one : bool) (k : Z).

(** The timer callback. *)
Inductive ppc :=
  | POff
  | PLook (n : Z)
  | PTime (n : Z)
  | PFlag (b : sample)
  | PFirst (b : sample) (one : bool)
  | PIndex (b : sample) (one : bool)
  | PSwap (b : sample) (one : bool)
  | PReserve (b : sample) (one : bool)
  | PLast (b : sample) (one : bool) (k : Z)
  | PAverage (one : bool) (k : Z)
  | PAvg (avg : Z)
  | PIdle (avg : Z).

(** Through the pointer to the tracker's element. *)
Definition at_state {P} (off : P) (i : idle) (k : global_runnx_tracker_state → idle * P)
  : idle * P :=
  match array_lookup tracker_zero (tracker_state i) 0 with Some s => k s | None => (i, off) end.

Definition handler_step (p : hpc) (i : idle) : idle * hpc :=
  match p with
  | HOff => (i, HOff)
  | HLook n => at_state HOff i (λ _, (i, HTime n))
  | HTime n => (idle_tick i, HFlag (Sample n (idle_now i)))
  | HFlag x => at_state HOff i (λ s, (i, HReserve x (gt_collectx_in_buff_1 s =? 1)))
  | HReserve x one =>
      at_state HOff i (λ s,
        (put_state (gt_set_index one (u32 (gt_index one s + 1)) s) i, HFill x one (gt_index one s)))
  | HFill x one k => (update_buff one k x i, HOff)
  end.

Definition period_step (p : ppc) (i : idle) : idle * ppc :=
  match p with
  | POff => (i, POff)
  | PLook n => at_state POff i (λ _, (i, PTime n))
  | PTime n => (idle_tick i, PFlag (Sample n (idle_now i)))
  | PFlag b => at_state POff i (λ s, (i, PFirst b (gt_collectx_in_buff_1 s =? 1)))
  | PFirst b one => (update_buff (negb one) 0 b i, PIndex b one)
  | PIndex b one =>
      at_state POff i (λ s, (put_state (gt_set_index (negb one) 1 s) i, PSwap b one))
  | PSwap b one =>
      at_state POff i (λ s,
        (if gt_collectx_in_buff_1 s =? Z.b2z one
         then put_state (gt_set_collectx (Z.b2z (negb one)) s) i else i, PReserve b one))
  | PReserve b one =>
      at_state POff i (λ s,
        (put_state (gt_set_index one (u32 (gt_index one s + 1)) s) i, PLast b one (gt_index one s)))
  | PLast b one k => (update_buff one k b i, PAverage one k)
  | PAverage one k => (i, PAvg (running_average (buff one i) (s32 k)))
  | PAvg avg =>
      at_state POff i (λ s, (put_state (gt_set_avgs (last_idle_avg s) avg s) i, PIdle avg))
  | PIdle avg =>
      at_state POff i (λ s,
        (put_state (gt_set_avgs (if avg >? nb_cpus s then 0 else u64 (nb_cpus s - avg))
           (global_runnx_avg s) s) i, POff))
  end.

Fixpoint run_handler (k : nat) (p : hpc) (i : idle) : idle * hpc :=
  match k with
  | O => (i, p)
  | S k => let '(i, p) := handler_step p i in run_handler k p i
  end.

Fixpoint run_period (k : nat) (p : ppc) (i : idle) : idle * ppc :=
  match k with
  | O => (i, p)
  | S k => let '(i, p) := period_step p i in run_period k p i
  end.

(** ** Interleavings *)

Record hconf := HConf { cpus : gmap nat hpc; maps : idle; reserved : list sample }.

(** The sample whose place an access settles. *)
Definition settles (p : hpc) : list sample :=
  match p with HReserve x _ => [x] | _ => [] end.

(** A context switch on a CPU whose handler has ended, or the next access of a
    CPU. *)
Inductive hstep : hconf → hconf → Prop :=
  | h_event c n ps i l :
      default HOff (ps !! c) = HOff → hstep (HConf ps i l) (HConf (<[c := HLook n]> ps) i l)
  | h_run c p ps i l :
      ps !! c = Some p →
      hstep (HConf ps i l)
        (HConf (<[c := (handler_step p i).2]> ps) (handler_step p i).1 (l ++ settles p)).

(** The same with the timer, which fires again when its callback has ended. *)
Inductive istep : hconf * ppc → hconf * ppc → Prop :=
  | i_cpu c c' q : hstep c c' → istep (c, q) (c', q)
  | i_timer ps i l q :
      istep (HConf ps i l, q) (HConf ps (period_step q i).1 l, (period_step q i).2)
  | i_fire c n : istep (c, POff) (c, PLook n).

(** Schedules, to run an interleaving: an event on a CPU, or its next access.  An
    entry that is not possible is skipped. *)
Inductive hlabel := Event (c : nat) (n : Z) | Run (c : nat).

Definition hexec (x : hconf) (a : hlabel) : hconf :=
  match a with
  | Event c n =>
      match default HOff (cpus x !! c) with
      | HOff => HConf (<[c := HLook n]> (cpus x)) (maps x) (reserved x)
      | _ => x
      end
  | Run c =>
      match cpus x !! c with
      | Some p => HConf (<[c := (handler_step p (maps x)).2]> (cpus x))
                    (handler_step p (maps x)).1 (reserved x ++ settles p)
      | None => x
      end
  end.

Lemma hexec_steps la x : rtc hstep x (foldl hexec x la).
Proof.
  revert x. induction la as [|a la IH]; intros x; simpl; [done|]. etrans; [|apply IH].
  destruct x as [ps i l], a as [c n|c]; simpl.
  - destruct (default HOff (ps !! c)) eqn:E; try done. by apply rtc_once, h_event.
  - destruct (ps !! c) as [p|] eqn:E; [|done]. by apply rtc_once, h_run.
Qed.

Definition all_off (ps : gmap nat hpc) : Prop := ∀ c p, ps !! c = Some p → p = HOff.

(** ** Alone, the accesses are the sequential handlers *)

Lemma array_update_twice {V} (a : array_map V) k v w :
  array_update (array_update a k v) k w = array_update a k w.
Proof.
  unfold array_update. destruct ((0 <=? k) && (k <? am_max a)) eqn:E; simpl; rewrite E; [|done].
  by rewrite insert_insert_eq.
Qed.

Lemma put_state_twice s s' i : put_state s' (put_state s i) = put_state s' i.
Proof. unfold put_state. simpl. by rewrite array_update_twice. Qed.

Lemma at_state_some {P} (off : P) i s k :
  array_lookup tracker_zero (tracker_state i) 0 = Some s → at_state off i k = k s.
Proof. intros Hs. unfold at_state. by rewrite Hs. Qed.

Lemma lookup_put_state i s s' :
  array_lookup tracker_zero (tracker_state i) 0 = Some s →
  array_lookup tracker_zero (tracker_state (put_state s' i)) 0 = Some s'.
Proof.
  intros Hs. apply array_lookup_update_eq. unfold array_lookup in Hs.
  destruct (Z.ltb_spec 0 (am_max (tracker_state i))); [lia|done].
Qed.

Lemma handler_accesses n i :
  run_handler 5 (HLook n) i = (global_running_tracker_switch_handler n i, HOff).
Proof.
  unfold global_running_tracker_switch_handler.
  destruct (array_lookup tracker_zero (tracker_state i) 0) as [s|] eqn:Hs.
  - cbn [run_handler handler_step]. rewrite (at_state_some _ _ s) by done.
    cbn [run_handler handler_step]. rewrite (at_state_some _ _ s) by done.
    cbn [run_handler handler_step]. rewrite (at_state_some _ _ s) by done.
    cbn [run_handler handler_step]. by destruct (gt_collectx_in_buff_1 s =? 1).
  - cbn [run_handler handler_step]. unfold at_state. rewrite Hs. done.
Qed.

(** Stores to the buffers and the clock leave the tracker's element alone. *)
Lemma tracker_update_buff one k x i : tracker_state (update_buff one k x i) = tracker_state i.
Proof. by destruct one. Qed.

(** From the flag to the average, the accesses are the swap of the buffers. *)
Lemma swap_accesses b s i :
  array_lookup tracker_zero (tracker_state i) 0 = Some s →
  let '(map, k, s', i') := idle_swap b s i in
  let one := gt_collectx_in_buff_1 s =? 1 in
  run_period 6 (PFlag b) i = (put_state s' i', PAverage one k) ∧ map = buff one (put_state s' i') ∧
  tracker_state i' = tracker_state i.
Proof.
  intros Hs. unfold idle_swap.
  destruct (gt_collectx_in_buff_1 s =? 1) eqn:Hone; cbn [run_period period_step];
    rewrite (at_state_some _ _ s) by done; rewrite Hone; cbn [run_period period_step negb];
    rewrite (at_state_some _ _ s) by (by rewrite tracker_update_buff);
    cbn [run_period period_step negb Z.b2z];
    rewrite (at_state_some _ _ (gt_set_index _ 1 s))
      by (eapply lookup_put_state; rewrite tracker_update_buff; exact Hs).
  - change (gt_collectx_in_buff_1 (gt_set_index false 1 s)) with (gt_collectx_in_buff_1 s).
    rewrite Hone, put_state_twice. cbn [run_period period_step].
    erewrite at_state_some by (eapply lookup_put_state; exact Hs).
    cbn [run_period period_step]. by rewrite put_state_twice.
  - change (gt_collectx_in_buff_1 (gt_set_index true 1 s)) with (gt_collectx_in_buff_1 s).
    change (gt_collectx_in_buff_1 (gt_set_index_1 1 s)) with (gt_collectx_in_buff_1 s).
    destruct (gt_collectx_in_buff_1 s =? 0); cbn [run_period period_step]; rewrite ?put_state_twice;
      (erewrite at_state_some by (eapply lookup_put_state; exact Hs));
      cbn [run_period period_step]; by rewrite put_state_twice.
Qed.

Lemma run_period_add j k p i :
  run_period (j + k) p i = let '(i', p') := run_period j p i in run_period k p' i'.
Proof.
  revert p i. induction j as [|j IH]; intros p i; simpl; [done|].
  by destruct (period_step p i) as [i' p'].
Qed.

Lemma period_off k i : run_period k POff i = (i, POff).
Proof. by induction k. Qed.

Lemma period_accesses n val i :
  run_period 11 (PLook n) i = ((idle_avg_timer_cb n val i).2, POff).
Proof.
  unfold idle_avg_timer_cb. destruct (array_lookup tracker_zero (tracker_state i) 0) as [s|] eqn:Hs.
  - change 11%nat with (2 + (6 + 3))%nat. rewrite run_period_add. cbn [run_period period_step].
    rewrite (at_state_some _ _ s) by done. cbn [run_period period_step snd].
    set (b := Sample n (idle_now i)). rewrite run_period_add.
    pose proof (swap_accesses b s (idle_tick i) Hs) as Hsw.
    destruct (idle_swap b s (idle_tick i)) as [[[map k] s'] i']. cbv zeta in Hsw.
    destruct Hsw as (-> & -> & Ht). cbn [run_period period_step].
    erewrite at_state_some by (eapply lookup_put_state; rewrite Ht; exact Hs).
    cbn [run_period period_step]. rewrite put_state_twice.
    erewrite at_state_some by (eapply lookup_put_state; rewrite Ht; exact Hs).
    cbn [run_period period_step]. by rewrite put_state_twice.
  - cbn [run_period period_step]. unfold at_state. rewrite Hs. apply (period_off 10).
Qed.

(** ** The published value is bounded under every interleaving *)

Definition avg_nonneg (q : ppc) : Prop :=
  match q with PAvg avg | PIdle avg => 0 <= avg | _ => True end.

Lemma bounded_put_state nb i s :
  idle_bounded nb i → nb_cpus s = nb → 0 <= last_idle_avg s <= nb → idle_bounded nb (put_state s i).
Proof.
  intros (Ht & H1 & H2 & _) Hn Hl. split; simpl; [by rewrite am_max_update|].
  do 2 (split; [done|]). exists s. split; [|done]. apply array_lookup_update_eq. lia.
Qed.

Lemma bounded_update_buff nb i one k x : idle_bounded nb i → idle_bounded nb (update_buff one k x i).
Proof. intros Hi. destruct one; unfold idle_bounded; simpl; by rewrite am_max_update. Qed.

Lemma handler_step_bounded nb p i : idle_bounded nb i → idle_bounded nb (handler_step p i).1.
Proof.
  intros Hi. pose proof Hi as (_ & _ & _ & s & Hs & Hn & Hl).
  destruct p; simpl; unfold at_state; rewrite ?Hs; try done; [|by apply bounded_update_buff].
  apply bounded_put_state; by destruct one.
Qed.

Lemma period_step_bounded nb q i :
  is_u32 nb → idle_bounded nb i → avg_nonneg q →
  idle_bounded nb (period_step q i).1 ∧ avg_nonneg (period_step q i).2.
Proof.
  intros Hnb Hi Hq. pose proof Hi as (_ & H1 & H2 & s & Hs & Hn & Hl).
  destruct q; simpl in *; unfold at_state; rewrite ?Hs; simpl; try done;
    try (split; [|done]); try by apply bounded_update_buff.
  - by apply bounded_put_state; destruct one.
  - case_bool; [|done]. by apply bounded_put_state.
  - by apply bounded_put_state; destruct one.
  - split; [done|]. apply running_average_nonneg. by destruct one.
  - by apply bounded_put_state.
  - apply bounded_put_state; [done|done|]. simpl. rewrite Hn. case_bool; bool_hyps; [lia|].
    rewrite u64_id; lia.
Qed.

Lemma istep_bounded nb x y :
  is_u32 nb → istep x y → idle_bounded nb (maps x.1) ∧ avg_nonneg x.2 →
  idle_bounded nb (maps y.1) ∧ avg_nonneg y.2.
Proof.
  intros Hnb [c c' q [c0 n ps i l Hoff|c0 p ps i l Hp]|ps i l q|c n] [Hi Hq]; simpl in *.
  - done.
  - split; [by apply handler_step_bounded|done].
  - by apply period_step_bounded.
  - done.
Qed.

Lemma isteps_bounded nb x y :
  is_u32 nb → rtc istep x y → idle_bounded nb (maps x.1) ∧ avg_nonneg x.2 →
  idle_bounded nb (maps y.1) ∧ avg_nonneg y.2.
Proof. intros Hnb. induction 1; eauto using istep_bounded. Qed.

(** ** Handlers of many CPUs fill one buffer *)

Definition active (s : global_runnx_tracker_state) : bool := gt_collectx_in_buff_1 s =? 1.

(** Between two expirations: the index is the number of samples with a place;
    each place is filled, or one handler is about to fill it. *)
Record filling (h : list sample) (c : hconf) (s : global_runnx_tracker_state) : Prop := {
  fl_state : array_lookup tracker_zero (tracker_state (maps c)) 0 = Some s;
  fl_one : am_max (tracker_state (maps c)) = 1;
  fl_flag : gt_collectx_in_buff_1 s = 0 ∨ gt_collectx_in_buff_1 s = 1;
  fl_size one : am_max (buff one (maps c)) = COLLECTX_MAX_ENTRIES;
  fl_index : gt_index (active s) s = Z.of_nat (length (h ++ reserved c));
  fl_reserve c0 x one : cpus c !! c0 = Some (HReserve x one) → one = active s;
  fl_fill c0 x one k : cpus c !! c0 = Some (HFill x one k) →
    one = active s ∧ ∃ j, k = Z.of_nat j ∧ (h ++ reserved c) !! j = Some x;
  fl_once c1 c2 x1 x2 o1 o2 k : cpus c !! c1 = Some (HFill x1 o1 k) →
    cpus c !! c2 = Some (HFill x2 o2 k) → c1 = c2;
  fl_slots j x : (h ++ reserved c) !! j = Some x → Z.of_nat j < COLLECTX_MAX_ENTRIES →
    array_lookup sample_zero (buff (active s) (maps c)) (Z.of_nat j) = Some x ∨
    ∃ c0, cpus c !! c0 = Some (HFill x (active s) (Z.of_nat j))
}.

Lemma sampling_filling i s h : sampling i s h → filling h (HConf ∅ i []) s.
Proof.
  intros [Hst H1 Hf Hs1 Hs2 Hix [_ Hh]].
  split; simpl; rewrite ?app_nil_r; try done.
  - by intros [].
  - intros j x Hj Hlt. left. apply Hh. unfold fits. rewrite lookup_take_lt; [done|].
    unfold idle_active. case_bool; rewrite ?Hs1, ?Hs2; lia.
Qed.

Lemma filling_sampling h ps i l s :
  filling h (HConf ps i l) s → all_off ps → sampling i s (h ++ l).
Proof.
  intros Hf Hoff. pose proof (fl_size _ _ _ Hf) as Hz. pose proof (fl_slots _ _ _ Hf) as Hsl.
  simpl in Hz, Hsl.
  split; try apply Hf.
  - apply (Hz true).
  - apply (Hz false).
  - change (idle_active s i) with (buff (active s) i). unfold fits. rewrite (Hz (active s)). split.
    { rewrite length_take, (Hz (active s)). unfold COLLECTX_MAX_ENTRIES. lia. }
    intros j x Hj. apply lookup_take_Some in Hj as [Hj Hlt].
    destruct (Hsl j x Hj) as [|[c0 Hc0]]; [unfold COLLECTX_MAX_ENTRIES in *; lia|done|].
    simpl in Hc0. by apply Hoff in Hc0.
Qed.

(** Another access counter for a CPU that is not filling a slot changes nothing,
    if it does not come to reserve in the wrong buffer or to fill. *)
Lemma filling_move h ps i i' l s c0 p q :
  filling h (HConf ps i l) s → default HOff (ps !! c0) = p →
  tracker_state i' = tracker_state i → (∀ one, buff one i' = buff one i) →
  (∀ x one k, p ≠ HFill x one k) → (∀ x one k, q ≠ HFill x one k) →
  (∀ x one, q = HReserve x one → one = active s) →
  filling h (HConf (<[c0 := q]> ps) i' l) s.
Proof.
  intros [Hst H1 Hf Hz Hix Hr Hfl Ho Hsl] Hp Ht Hb Hnp Hnq Hq.
  split; simpl in *; rewrite ?Ht; try done.
  - intros one. rewrite Hb. apply Hz.
  - intros c1 x one Hc. apply lookup_insert_Some in Hc as [[_ Hc]|[_ Hc]]; eauto.
  - intros c1 x one k Hc. apply lookup_insert_Some in Hc as [[_ Hc]|[_ Hc]]; [by apply Hnq in Hc|eauto].
  - intros c1 c2 x1 x2 o1 o2 k Hc1 Hc2.
    apply lookup_insert_Some in Hc1 as [[_ Hc1]|[_ Hc1]]; [by apply Hnq in Hc1|].
    apply lookup_insert_Some in Hc2 as [[_ Hc2]|[_ Hc2]]; [by apply Hnq in Hc2|]. eauto.
  - intros j x Hj Hlt. rewrite Hb. destruct (Hsl j x Hj Hlt) as [|[c1 Hc1]]; [by left|].
    right. exists c1. rewrite lookup_insert_ne; [done|]. intros <-. rewrite Hc1 in Hp.
    by apply (Hnp x (active s) (Z.of_nat j)).
Qed.

(** Reserving settles the place of the sample. *)
Lemma filling_reserve h ps i l s c0 x :
  filling h (HConf ps i l) s → ps !! c0 = Some (HReserve x (active s)) →
  Z.of_nat (length (h ++ l)) + 1 < 2 ^ 32 →
  ∃ s', filling h (HConf (<[c0 := HFill x (active s) (gt_index (active s) s)]> ps)
    (put_state (gt_set_index (active s) (u32 (gt_index (active s) s + 1)) s) i) (l ++ [x])) s' ∧
    nb_cpus s' = nb_cpus s.
Proof.
  intros [Hst H1 Hf Hz Hix Hr Hfl Ho Hsl] Hp Hlen. simpl in *.
  set (s' := gt_set_index (active s) (u32 (gt_index (active s) s + 1)) s).
  assert (Hact : active s' = active s) by (unfold s'; destruct (active s) eqn:E; exact E).
  exists s'. split; [|by unfold s'; destruct (active s)].
  assert (Hnew : (h ++ l ++ [x]) !! length (h ++ l) = Some x)
    by (rewrite app_assoc; apply lookup_snoc_Some; by right).
  split; simpl; rewrite ?Hact, ?am_max_update; try done.
  - by eapply lookup_put_state.
  - unfold s'. by destruct (active s).
  - unfold s'. rewrite app_assoc, length_app. rewrite Hix. destruct (active s); simpl;
      rewrite u32_id; lia.
  - intros c1 y one Hc. apply lookup_insert_Some in Hc as [[_ Hc]|[_ Hc]]; [done|eauto].
  - intros c1 y one k Hc. apply lookup_insert_Some in Hc as [[_ [= <- <- <-]]|[_ Hc]]; [by eauto|].
    destruct (Hfl _ _ _ _ Hc) as (-> & j & -> & Hj). split; [done|]. exists j. split; [done|].
    rewrite app_assoc. by apply lookup_app_l_Some.
  - assert (∀ c1 y one, ps !! c1 ≠ Some (HFill y one (gt_index (active s) s))) as Hfree.
    { intros c1 y one Hc. destruct (Hfl _ _ _ _ Hc) as (_ & j & Hk & Hj).
      apply lookup_lt_Some in Hj. lia. }
    intros c1 c2 x1 x2 o1 o2 k Hc1 Hc2.
    apply lookup_insert_Some in Hc1 as [[-> [= <- <- <-]]|[_ Hc1]];
      apply lookup_insert_Some in Hc2 as [[-> Hk]|[_ Hc2]]; try done.
    + by destruct (Hfree c2 x2 o2).
    + simplify_eq. by destruct (Hfree c1 x1 o1).
    + eauto.
  - intros j y Hj Hlt. rewrite app_assoc in Hj. apply lookup_snoc_Some in Hj as [[Hj Hy]|[-> <-]].
    + destruct (Hsl j y Hy Hlt) as [Ha|[c1 Hc1]]; [left; by destruct (active s)|].
      right. exists c1. rewrite lookup_insert_ne; [done|]. intros <-. congruence.
    + right. exists c0. rewrite lookup_insert_eq, Hix. done.
Qed.

(** Filling stores the sample at its place and nowhere else. *)
Lemma filling_fill h ps i l s c0 x k :
  filling h (HConf ps i l) s → ps !! c0 = Some (HFill x (active s) k) →
  filling h (HConf (<[c0 := HOff]> ps) (update_buff (active s) k x i) l) s.
Proof.
  intros [Hst H1 Hf Hz Hix Hr Hfl Ho Hsl] Hp. simpl in *.
  destruct (Hfl _ _ _ _ Hp) as (_ & m & -> & Hm).
  assert (Hb : buff (active s) (update_buff (active s) (Z.of_nat m) x i) =
    array_update (buff (active s) i) (Z.of_nat m) x) by by destruct (active s).
  assert (Hold : ∀ c1 p, (<[c0 := HOff]> ps) !! c1 = Some p → p ≠ HOff → ps !! c1 = Some p).
  { intros c1 p Hc Hne. apply lookup_insert_Some in Hc as [[_ <-]|[_ Hc]]; done. }
  split; simpl; rewrite ?tracker_update_buff; try done.
  - intros one. destruct (active s), one; simpl; rewrite ?am_max_update; first [apply (Hz true)|apply (Hz false)].
  - intros c1 y one Hc. by eapply Hr, Hold.
  - intros c1 y one k Hc. by eapply Hfl, Hold.
  - intros c1 c2 x1 x2 o1 o2 k Hc1 Hc2. eapply Ho; by apply Hold.
  - intros j y Hj Hlt. rewrite Hb. destruct (decide (j = m)) as [->|Hne].
    { left. rewrite array_lookup_update_eq; [congruence|]. rewrite Hz. lia. }
    rewrite array_lookup_update_ne by lia. destruct (Hsl j y Hj Hlt) as [|[c1 Hc1]]; [by left|].
    right. exists c1. rewrite lookup_insert_ne; [done|]. intros <-. rewrite Hp in Hc1.
    injection Hc1 as _ Hk. lia.
Qed.

Lemma filling_step h c c' s :
  hstep c c' → filling h c s → Z.of_nat (length (h ++ reserved c')) < 2 ^ 32 →
  ∃ s', filling h c' s' ∧ nb_cpus s' = nb_cpus s.
Proof.
  intros [c0 n ps i l Hoff|c0 p ps i l Hp] Hf Hlen.
  { exists s. split; [|done]. by eapply filling_move. }
  pose proof (fl_state _ _ _ Hf) as Hs. simpl in Hs.
  assert (Hd : default HOff (ps !! c0) = p) by by rewrite Hp.
  destruct p as [|n|n|x|x one|x one k]; cbn [handler_step settles] in *;
    rewrite ?(at_state_some _ _ s) by done; cbn [fst snd]; rewrite ?app_nil_r.
  - exists s. split; [|done]. by eapply filling_move.
  - exists s. split; [|done]. by eapply filling_move.
  - exists s. split; [|done]. by eapply filling_move.
  - exists s. split; [|done]. eapply filling_move; try done. by intros ?? [= _ <-].
  - pose proof (fl_reserve _ _ _ Hf _ _ _ Hp) as ->. apply filling_reserve; [done|done|].
    simpl in Hlen. rewrite !length_app in *. simpl in *. lia.
  - destruct (fl_fill _ _ _ Hf _ _ _ _ Hp) as [-> _]. exists s. split; [|done]. by apply filling_fill.
Qed.

Lemma reserved_grows c c' : hstep c c' → (length (reserved c) <= length (reserved c'))%nat.
Proof. destruct 1; simpl; rewrite ?length_app; lia. Qed.

Lemma filling_steps h c c' s :
  rtc hstep c c' → filling h c s → Z.of_nat (length (h ++ reserved c')) < 2 ^ 32 →
  ∃ s', filling h c' s' ∧ nb_cpus s' = nb_cpus s.
Proof.
  intros Hr Hf. revert c' Hr. refine (rtc_ind_r _ c _ _); [by exists s|].
  intros c1 c2 _ Hs IH Hlen. destruct IH as (s1 & Hf1 & Hn1).
  { apply reserved_grows in Hs. rewrite length_app in *. lia. }
  destruct (filling_step h c1 c2 s1 Hs Hf1 Hlen) as (s2 & Hf2 & Hn2). exists s2. split; congruence.
Qed.

(** ** Times *)

(** The sample a handler carries. *)
Definition carried (p : hpc) : option sample :=
  match p with HFlag x | HReserve x _ | HFill x _ _ => Some x | _ => None end.

Definition past (i : idle) (x : sample) : Prop := 0 <= timestamp x <= idle_now i.

Record timed (c : hconf) : Prop := {
  tm_clock : clock_ok (idle_clk (maps c));
  tm_reserved : Forall (past (maps c)) (reserved c);
  tm_carried c0 p x : cpus c !! c0 = Some p → carried p = Some x → past (maps c) x
}.

Lemma step_clock p i :
  idle_clk (handler_step p i).1 = idle_clk i ∨ idle_clk (handler_step p i).1 = ktick (idle_clk i).
Proof.
  destruct p; simpl; unfold at_state; repeat case_match; simpl; auto; by destruct one; auto.
Qed.

Lemma past_mono i i' x :
  clock_ok (idle_clk i) → idle_clk i' = idle_clk i ∨ idle_clk i' = ktick (idle_clk i) →
  past i x → past i' x.
Proof.
  intros Hc Hk Hx. unfold past, idle_now in *. pose proof (ktime_mono _ Hc).
  destruct Hk as [-> | ->]; lia.
Qed.

Lemma carried_step p i x :
  clock_ok (idle_clk i) → carried (handler_step p i).2 = Some x →
  carried p = Some x ∨ past (handler_step p i).1 x.
Proof.
  intros Hc. destruct p as [|n|n|y|y one|y one k]; simpl; unfold at_state; repeat case_match; simpl;
    try done; try (intros [= <-]; by left).
  intros [= <-]. right. unfold past, idle_now. simpl. pose proof (ktime_mono _ Hc).
  pose proof (ktime_u64 _ Hc). simpl in *. lia.
Qed.

Lemma timed_step c c' : hstep c c' → timed c → timed c'.
Proof.
  intros [c0 n ps i l Hoff|c0 p ps i l Hp] [Hc Hl Hps]; simpl in *.
  { split; simpl; [done..|]. intros c1 q x Hq Hx.
    apply lookup_insert_Some in Hq as [[_ <-]|[_ Hq]]; [done|eauto]. }
  pose proof (step_clock p i) as Hk. split; simpl.
  - by destruct Hk as [-> | ->].
  - apply Forall_app. split.
    + eapply Forall_impl; [exact Hl|]. intros x. by apply past_mono.
    + destruct p; simpl; try apply Forall_nil_2. apply Forall_singleton.
      eapply past_mono; [done|exact Hk|]. by apply (Hps _ _ _ Hp).
  - intros c1 q x Hq Hx. apply lookup_insert_Some in Hq as [[_ <-]|[_ Hq]].
    + destruct (carried_step p i x Hc Hx) as [Hx'|]; [|done].
      eapply past_mono; [done|exact Hk|]. by apply (Hps _ _ _ Hp).
    + eapply past_mono; [done|exact Hk|]. by apply (Hps _ _ _ Hq).
Qed.

Lemma timed_steps c c' : rtc hstep c c' → timed c → timed c'.
Proof. induction 1; eauto using timed_step. Qed.

Lemma clock_steps c c' x :
  rtc hstep c c' → timed c → past (maps c) x → past (maps c') x.
Proof.
  intros Hr. revert x. induction Hr as [c0|c1 c2 c3 Hs _ IH]; intros x Ht Hx; [done|].
  apply IH; [by eapply timed_step|]. destruct Hs as [|c0 p ps i l Hp]; [done|].
  eapply past_mono; [apply Ht|apply step_clock|done].
Qed.

(** ** A slot that is reserved and not yet filled *)

(** The accesses of a handler up to the one that fills its slot. *)
Lemma handler_reserved n i s h :
  sampling i s h →
  run_handler 4 (HLook n) i =
    (put_state (gt_set_index (active s) (u32 (Z.of_nat (length h) + 1)) s) (idle_tick i),
     HFill (Sample n (idle_now i)) (active s) (Z.of_nat (length h))).
Proof.
  intros Hs. pose proof (smp_state _ _ _ Hs) as Hst. rewrite <- (smp_index _ _ _ Hs).
  cbn [run_handler handler_step]. rewrite (at_state_some _ _ s) by done.
  cbn [run_handler handler_step]. rewrite (at_state_some _ _ s) by done.
  cbn [run_handler handler_step]. by rewrite (at_state_some _ _ s) by done.
Qed.

(** For the timer the slot's old content is the sample. *)
Lemma reserved_sampling i s h y :
  sampling i s h → Z.of_nat (length h) + 1 < 2 ^ 32 →
  array_lookup sample_zero (idle_active s i) (Z.of_nat (length h)) = Some y →
  let s' := gt_set_index (active s) (u32 (Z.of_nat (length h) + 1)) s in
  sampling (put_state s' (idle_tick i)) s' (h ++ [y]).
Proof.
  intros [Hst H1 Hf Hs1 Hs2 Hix Hh] Hlen Hy s'.
  assert (Hact : active s' = active s) by (unfold s'; destruct (active s) eqn:E; exact E).
  assert (Hb : idle_active s' (put_state s' (idle_tick i)) = idle_active s i).
  { change (buff (active s') (put_state s' (idle_tick i)) = buff (active s) i). by rewrite Hact. }
  split; try done.
  - by eapply lookup_put_state.
  - unfold s'. simpl. by rewrite am_max_update.
  - unfold s'. by destruct (active s).
  - change (gt_index (active s') s' = Z.of_nat (length (h ++ [y]))). rewrite Hact, length_app.
    unfold s'. destruct (active s); simpl; rewrite u32_id; lia.
  - rewrite Hb. destruct Hh as [Hl Hh]. unfold fits in *.
    destruct (decide (am_max (idle_active s i) <= Z.of_nat (length h)));
      [by rewrite array_lookup_oob in Hy by lia|].
    rewrite take_ge in * by (rewrite ?length_app; simpl; lia). split; [rewrite length_app; simpl; lia|].
    intros j z Hj. apply lookup_snoc_Some in Hj as [[_ Hj]|[-> <-]]; [by apply Hh|].
    done.
Qed.

(** A zeroed sample among later ones hides nothing of their sums and adds the
    time since boot. *)
Lemma pair_sum_zero f h :
  (∀ a, a ∈ h → f a sample_zero = 0) → pair_sum f (h ++ [sample_zero]) = pair_sum f h.
Proof.
  intros Hf. destruct h as [|a h _] using rev_ind; [done|].
  rewrite <- app_assoc. simpl. rewrite pair_sum_snoc, Hf; [lia|]. set_solver.
Qed.

Lemma weighted_hole h e :
  Forall (λ x, 0 <= timestamp x) h → 0 <= timestamp e →
  weighted_sum (h ++ [sample_zero; e]) = weighted_sum h ∧
  weighted_time (h ++ [sample_zero; e]) = weighted_time h + timestamp e.
Proof.
  intros Hh He. rewrite Forall_forall in Hh.
  assert (∀ a, a ∈ h → held a sample_zero = 0) as Hz.
  { intros a Ha. specialize (Hh a Ha). unfold held. simpl. lia. }
  unfold weighted_sum, weighted_time. rewrite !pair_sum_snoc, !pair_sum_zero.
  - unfold area, held. simpl. lia.
  - done.
  - intros a Ha. unfold area. rewrite Hz by done. lia.
Qed.

(** The average of a period with a zeroed slot at its end. *)
Lemma hole_average c m val i s h :
  sampling i s (h ++ [sample_zero]) → Z.of_nat (length h) + 2 <= COLLECTX_MAX_ENTRIES →
  is_u32 (nb_cpus s) → 0 <= c → in_order h →
  Forall (λ x, 0 <= count x <= c ∧ 0 <= timestamp x <= idle_now i) h →
  0 < idle_now i < 2 ^ 63 → (∀ x, head h = Some x → c * (idle_now i - timestamp x) < idle_now i) →
  ∃ s', sampling (idle_avg_timer_cb m val i).2 s' [Sample m (idle_now i)] ∧
    global_runnx_avg s' = 0 ∧ last_idle_avg s' = nb_cpus s.
Proof.
  intros Hs Hroom Hnb Hc Ho Hr Ht Hspan. unfold COLLECTX_MAX_ENTRIES in Hroom.
  set (e := Sample m (idle_now i)).
  destruct (weighted_hole h e) as [Hsum Htime];
    [by eapply Forall_impl; [exact Hr|]; simpl; lia|simpl; lia|]. simpl in Htime.
  assert (Hclip : idle_clip ((h ++ [sample_zero]) ++ [e]) = h ++ [sample_zero; e]).
  { rewrite <- app_assoc. apply take_ge. rewrite length_app. unfold COLLECTX_MAX_ENTRIES. simpl. lia. }
  assert (Hbound : weighted_sum h < idle_now i ∧ 0 <= weighted_time h <= idle_now i).
  { assert (weighted_sum h <= c * weighted_time h)
      by (apply weighted_sum_le; [done|]; eapply Forall_impl; [exact Hr|]; simpl; lia).
    destruct h as [|x h']; [unfold weighted_sum, weighted_time in *; simpl in *; lia|].
    specialize (Hspan x eq_refl). pose proof (weighted_time_nonneg (x :: h')).
    assert (weighted_time (x :: h') <= idle_now i - timestamp x)
      by (apply weighted_time_span; [done|done|]; eapply Forall_impl; [exact Hr|]; simpl; lia).
    apply Forall_cons in Hr as [Hx _]. nia. }
  assert (Havg : weighted_avg (h ++ [sample_zero; e]) = 0).
  { unfold weighted_avg. rewrite Hsum, Htime. case_bool; [|done].
    apply Z.div_small. pose proof (weighted_sum_nonneg h). lia. }
  destruct (idle_timer_core m val i s (h ++ [sample_zero])) as (s' & Hs' & _ & _ & Ha & Hl).
  - done.
  - rewrite length_app. simpl. lia.
  - done.
  - rewrite !Forall_app, !Forall_singleton. split; [split; [|done]|simpl; lia].
    eapply Forall_impl; [exact Hr|]. simpl. lia.
  - fold e. rewrite Hclip, Hsum. lia.
  - fold e. rewrite Hclip, Htime. lia.
  - fold e in Ha, Hl. rewrite Hclip, Havg in Ha, Hl. exists s'. split; [done|]. split; [done|lia].
Qed.

Lemma handler_isteps j c0 p ps i q l :
  ps !! c0 = Some p →
  ∃ l', rtc istep (HConf ps i l, q)
    (HConf (<[c0 := (run_handler j p i).2]> ps) (run_handler j p i).1 l', q).
Proof.
  revert p ps i l. induction j as [|j IH]; intros p ps i l Hp; simpl.
  { exists l. rewrite insert_id by done. done. }
  destruct (handler_step p i) as [i' p'] eqn:E.
  destruct (IH p' (<[c0 := p']> ps) i' (l ++ settles p)) as [l' Hr]; [by rewrite lookup_insert_eq|].
  rewrite insert_insert_eq in Hr. exists l'. eapply rtc_l; [|exact Hr].
  pose proof (h_run c0 p ps i l Hp) as Hs. rewrite E in Hs. by apply i_cpu.
Qed.

Lemma period_isteps j ps i q l :
  rtc istep (HConf ps i l, q) (HConf ps (run_period j q i).1 l, (run_period j q i).2).
Proof.
  revert i q. induction j as [|j IH]; intros i q; simpl; [done|].
  eapply rtc_l; [apply i_timer|]. by destruct (period_step q i) as [i' q'].
Qed.

(** ** Properties *)

Module IdleConcurrentProps.

(** The accesses of the switch handler and of the timer callback, performed
    with nobody in between, are the sequential definitions: both end, after 5
    and 11 accesses, in the state those give. *)
Theorem tracker_alone_is_sequential n m val i :
  run_handler 5 (HLook n) i = (global_running_tracker_switch_handler n i, HOff) ∧
  run_period 11 (PLook m) i = ((idle_avg_timer_cb m val i).2, POff).
Proof. split; [apply handler_accesses|apply period_accesses]. Qed.

(** C14: however handlers of any number of CPUs and the timer interleave, the
    idle average that the host publishes lies between 0 and the number of
    CPUs. *)
Theorem concurrent_idle_bounded nb clk c q :
  is_u32 nb → rtc istep (HConf ∅ (loader_init nb None clk) [], POff) (c, q) →
  idle_bounded nb (maps c).
Proof.
  intros Hnb Hr.
  apply (isteps_bounded nb (HConf ∅ (loader_init nb None clk) [], POff) (c, q)); [done|done|].
  split; [|done]. do 3 (split; [done|]).
  exists (Tracker 0 0 0 0 (u32 nb) 0 0). split; [done|]. simpl. rewrite u32_id; lia.
Qed.

(** C13: switch handlers of many CPUs that interleave between two expirations
    of the timer do not disturb one another: when they have ended, the buffer
    stores the samples it stored before and theirs, in the order in which they
    reserved their slots, as far as its 3000 slots go (later samples are
    dropped), and the timer publishes the number of CPUs minus the time-weighted
    average of those, or 0 when the average is larger, although their times may
    be out of order. *)
Theorem concurrent_period_published c n val i s h ps i' l :
  sampling i s h → clock_ok (idle_clk i) → Forall (past i) h →
  rtc hstep (HConf ∅ i []) (HConf ps i' l) → all_off ps →
  Z.of_nat (length (h ++ l)) + 1 < 2 ^ 32 → is_u32 (nb_cpus s) →
  0 < c → 0 <= n <= c → Forall (λ x, 0 <= count x <= c) (h ++ l) →
  Forall (λ x, COLLECTX_MAX_ENTRIES * (c * (idle_now i' - timestamp x)) < 2 ^ 63) (h ++ l) →
  let e := Sample n (idle_now i') in
  let avg := weighted_avg (idle_clip (h ++ l ++ [e])) in
  (∃ s1, sampling i' s1 (h ++ l)) ∧
  ∃ s', sampling (idle_avg_timer_cb n val i').2 s' [e] ∧ nb_cpus s' = nb_cpus s ∧
    global_runnx_avg s' = avg ∧ last_idle_avg s' = Z.max 0 (nb_cpus s - avg).
Proof.
  intros Hs Hc Hh Hr Hoff Hlen Hnb Hc0 Hn Hcnt Hspan e avg.
  destruct (filling_steps h _ _ s Hr (sampling_filling _ _ _ Hs)) as (s1 & Hf & Hn1); [simpl; lia|].
  pose proof (filling_sampling _ _ _ _ _ Hf Hoff) as Hs1. split; [by exists s1|].
  assert (Ht0 : timed (HConf ∅ i [])) by by split.
  pose proof (timed_steps _ _ Hr Ht0) as [Hc' Hl' _]. simpl in Hc', Hl'.
  assert (Hpast : Forall (past i') (h ++ l)).
  { apply Forall_app. split; [|done]. eapply Forall_impl; [exact Hh|]. intros x.
    by apply (clock_steps _ _ x Hr). }
  pose proof (ktime_u64 _ Hc') as Hu. fold (idle_now i') in Hu.
  destruct (scattered_no_overflow c (idle_now i') COLLECTX_MAX_ENTRIES
    (idle_clip ((h ++ l) ++ [e]))) as [Hso Hto]; [done|done| |..].
  { unfold idle_clip. rewrite length_take. unfold COLLECTX_MAX_ENTRIES. lia. }
  { apply Forall_take. rewrite Forall_app, Forall_singleton. split; [|simpl; lia].
    rewrite Forall_forall in *. intros x Hx. specialize (Hpast x Hx).
    split; [by apply Hcnt|]. split; [apply Hpast|by apply Hspan]. }
  destruct (idle_timer_core n val i' s1 (h ++ l)) as (s' & Hs' & _ & Hr');
    [done|done|by rewrite Hn1| |done|done|].
  { rewrite Forall_app, Forall_singleton. split; [|done].
    eapply Forall_impl; [exact Hpast|]. unfold past. intros x Hx. lia. }
  exists s'. rewrite Hn1, <- app_assoc in Hr'. by split.
Qed.

(** C24: the average is not so lucky when a handler has reserved its slot and the
    timer expires before the slot is filled.  The timer then averages what the
    slot held before; in a slot that was never used that is a zeroed sample,
    which counts as no runnable thread since boot, and unless the period times
    the number of runnable threads reaches the uptime the host is published as
    fully idle, whatever runs on it. *)
Theorem unfilled_slot_publishes_full_idle c n m i s h :
  sampling i s h → idle_sound c i h → is_u32 (nb_cpus s) → 0 <= c →
  array_lookup sample_zero (idle_active s i) (Z.of_nat (length h)) = Some sample_zero →
  Z.of_nat (length h) + 2 <= COLLECTX_MAX_ENTRIES →
  let '(i1, p1) := run_handler 4 (HLook n) i in
  let i2 := (run_period 11 (PLook m) i1).1 in
  let i3 := (run_handler 1 p1 i2).1 in
  let t := idle_now i1 in
  0 < t < 2 ^ 63 → (∀ x, head h = Some x → c * (t - timestamp x) < t) →
  (∃ l, rtc istep (HConf ∅ i [], POff) (HConf {[0%nat := HOff]} i3 l, POff)) ∧
  ∃ s3, array_lookup tracker_zero (tracker_state i3) 0 = Some s3 ∧
    global_runnx_avg s3 = 0 ∧ last_idle_avg s3 = nb_cpus s.
Proof.
  intros Hs Hd Hnb Hc Hz Hroom. unfold COLLECTX_MAX_ENTRIES in Hroom.
  pose proof (handler_reserved n i s h Hs) as Hh.
  rewrite Hh. set (s1 := gt_set_index _ _ s) in *. set (i1 := put_state s1 (idle_tick i)) in *.
  set (p1 := HFill _ _ _) in *. intros i2 i3 t Ht Hspan. split.
  - destruct (handler_isteps 4 0 (HLook n) {[0%nat := HLook n]} i POff []) as [l1 Hr1];
      [apply lookup_singleton_eq|]. rewrite Hh, insert_singleton_eq in Hr1.
    pose proof (period_isteps 11 {[0%nat := p1]} i1 (PLook m) l1) as Hr2.
    assert (Hi2 : run_period 11 (PLook m) i1 = (i2, POff))
      by (unfold i2; by rewrite (period_accesses m ielem_zero)). rewrite Hi2 in Hr2.
    destruct (handler_isteps 1 0 p1 {[0%nat := p1]} i2 POff l1) as [l3 Hr3];
      [apply lookup_singleton_eq|]. rewrite insert_singleton_eq in Hr3. exists l3.
    eapply rtc_l; [apply i_cpu, (h_event 0 n); by rewrite lookup_empty|].
    rewrite insert_empty. etrans; [exact Hr1|]. eapply rtc_l; [apply (i_fire _ m)|].
    etrans; [exact Hr2|exact Hr3].
  - pose proof (reserved_sampling i s h sample_zero Hs ltac:(lia) Hz) as Hs1. cbv zeta in Hs1.
    fold s1 i1 in Hs1. destruct (hole_average c m ielem_zero i1 s1 h) as (s' & Hs' & Ha & Hl);
      try done.
    + unfold s1. by destruct (active s).
    + apply Hd.
    + eapply Forall_impl; [exact (is_range _ _ _ Hd)|]. intros x Hx.
      pose proof (ktime_mono _ (is_clock _ _ _ Hd)). unfold idle_now in *. simpl in *. lia.
    + exists s'. unfold i3, i2. rewrite (period_accesses m ielem_zero). unfold p1. simpl.
      rewrite tracker_update_buff. rewrite Hl. split; [apply Hs'|]. split; [done|].
      unfold s1. by destruct (active s).
Qed.

(** *** Witnesses: the tracker of [IdleAvgProps.i_idle], two CPUs. *)

Import IdleAvgProps.

Lemma concurrent_idle_bounded_witness :
  idle_bounded 8 (maps (foldl hexec (HConf ∅ (loader_init 8 None i_clk) [])
    [Event 0 3; Event 1 20; Run 0; Run 1; Run 0; Run 1; Run 1; Run 0])).
Proof.
  apply (concurrent_idle_bounded 8 i_clk _ POff); [lia|].
  eapply (rtc_congruence (λ c, (c, POff))); [|apply hexec_steps]. intros x y. apply i_cpu.
Defined.

(** CPU 0 samples first, CPU 1 reserves first. *)
Definition w_schedule : list hlabel :=
  [Event 0 4; Event 1 7; Run 0; Run 1; Run 0; Run 1; Run 1; Run 1; Run 0; Run 0; Run 0; Run 1].
Definition w_filled : hconf := foldl hexec (HConf ∅ i_idle []) w_schedule.

(** 3 for 3000 ns, 6 for 2000, 4 for 2000 average to 4 of 8. *)
Lemma concurrent_period_published_witness :
  reserved w_filled = [Sample 7 6000; Sample 4 5000] ∧
  ∃ s', array_lookup tracker_zero
    (tracker_state (idle_avg_timer_cb 2 ielem_zero (maps w_filled)).2) 0 = Some s' ∧
    global_runnx_avg s' = 4 ∧ last_idle_avg s' = 4.
Proof.
  assert (Hres : reserved w_filled = [Sample 7 6000; Sample 4 5000]) by reflexivity.
  assert (Hnow : idle_now (maps w_filled) = 7000) by reflexivity.
  split; [exact Hres|].
  destruct (concurrent_period_published 10 2 ielem_zero i_idle i_state i_hist
    (cpus w_filled) (maps w_filled) (reserved w_filled)) as (_ & s' & Hs & _ & Ha & Hl).
  - exact i_sampling.
  - exact i_clock_ok.
  - repeat (apply Forall_cons_2; [unfold past; change (idle_now i_idle) with 5000; simpl; lia|]).
    apply Forall_nil_2.
  - assert (HConf (cpus w_filled) (maps w_filled) (reserved w_filled) = w_filled) as ->
      by (by destruct w_filled).
    apply (hexec_steps w_schedule (HConf ∅ i_idle [])).
  - intros c p Hp. change (cpus w_filled) with ({[0%nat := HOff; 1%nat := HOff]} : gmap nat hpc) in Hp.
    apply lookup_insert_Some in Hp as [[_ <-]|[_ Hp]]; [done|].
    apply lookup_singleton_Some in Hp as [_ <-]. done.
  - rewrite Hres. simpl. lia.
  - simpl. lia.
  - lia.
  - lia.
  - rewrite Hres. repeat (apply Forall_cons_2; [simpl; lia|]). apply Forall_nil_2.
  - rewrite Hres, Hnow. unfold COLLECTX_MAX_ENTRIES.
    repeat (apply Forall_cons_2; [simpl; lia|]). apply Forall_nil_2.
  - exists s'. split; [apply Hs|]. rewrite Hres, Hnow in Ha, Hl.
    assert (Hc : idle_clip (i_hist ++ [Sample 7 6000; Sample 4 5000] ++ [Sample 2 7000]) =
      i_hist ++ [Sample 7 6000; Sample 4 5000] ++ [Sample 2 7000]) by (apply take_ge; vm_compute; lia).
    rewrite Ha, Hl, Hc. split; reflexivity.
Defined.

(** 16 threads run on the 8 CPUs all the time. *)
Definition w_busy : idle :=
  Idle (array_update (array_new 1) 0 (Tracker 0 1 0 1 8 0 0))
       (array_update (array_new COLLECTX_MAX_ENTRIES) 0 (Sample 16 499000))
       (array_new COLLECTX_MAX_ENTRIES)
       (Clock (λ n, Z.min (1000 * Z.of_nat n + 500000) (2 ^ 40)) 0).

Lemma w_busy_sampling : sampling w_busy (Tracker 0 1 0 1 8 0 0) [Sample 16 499000].
Proof.
  split; try done; [by right|]. unfold fits. rewrite take_ge by (vm_compute; lia).
  split; [by vm_compute|]. intros [|k] x [= <-]; reflexivity.
Qed.

Lemma unfilled_slot_publishes_full_idle_witness :
  ∃ i3 s3, array_lookup tracker_zero (tracker_state i3) 0 = Some s3 ∧
    global_runnx_avg s3 = 0 ∧ last_idle_avg s3 = 8.
Proof.
  pose proof (unfilled_slot_publishes_full_idle 16 16 16 w_busy _ _ w_busy_sampling) as Hrace.
  rewrite (handler_reserved 16 w_busy _ _ w_busy_sampling) in Hrace.
  destruct Hrace as (_ & s3 & Hs & Ha & Hl).
  - split; [split; simpl; intros; lia| |].
    + change (idle_now w_busy) with 500000. apply Forall_singleton. simpl. lia.
    + by intros [|k].
  - simpl. lia.
  - lia.
  - reflexivity.
  - simpl. unfold COLLECTX_MAX_ENTRIES. lia.
  - split; reflexivity.
  - intros x [= <-]. reflexivity.
  - eexists _, s3. split; [exact Hs|]. split; [exact Ha|exact Hl].
Defined.
End IdleConcurrentProps.
