(* ===== verification/H2gTimer.v ===== *)
(** The message timer: [h2g_msg_timer.bpf.c].

    A second publisher, independent of the phantom tracker: it starts on the
    first context switch and writes the time in microseconds to the next
    history slot every 4 ms.  The results of [bpf_timer_init] and
    [bpf_timer_set_callback] are arguments of the handler that starts it. *)

From S2P Require Import Prelude BpfMap Host PhantomTimer Memory HostIvshmem.

Record h2g_msg_timer := H2gMsgTimer {
  ht_timer : bpf_timer;
  ht_msg : Z;       (* hg_msg.msg *)
  ht_started : Z;   (* __u32 *)
  ht_index : Z      (* __u32 *)
}.

Definition h2g_zero : h2g_msg_timer := H2gMsgTimer (BpfTimer 0 false None) 0 0 0.

(** The timer's map, the clock and the kernel module's state. *)
Record h2g (S : Type) := H2g {
  h2g_msg_timer_map : array_map h2g_msg_timer;
  h2g_clk : clock;
  h2g_mod : S
}.
Arguments H2g {S} _ _ _.
Arguments h2g_msg_timer_map {S} h : rename.
Arguments h2g_clk {S} h : rename.
Arguments h2g_mod {S} h : rename.

(** [index++], then the two tests that keep it in the history region. *)
Definition next_index (index : Z) : Z :=
  let index := u32 (index + 1) in
  let index := if index >=? NR_HOST_IVSHMEM_MSGS then H2G_FIRST_HISTORY_SLOT else index in
  if index <? H2G_FIRST_HISTORY_SLOT then H2G_FIRST_HISTORY_SLOT else index.

Section h2g_timer.
Context {S : Type} `{HostKfuncs S}.
Implicit Types st : h2g S.

Definition h2g_msg_timer_callback (t : h2g_msg_timer) st : h2g S :=
  let index := next_index (ht_index t) in
  let msg := ktime (h2g_clk st) / 1000 in
  let s := (bpf_host_ivshmem_h2g_write (h2g_mod st) index msg).1 in
  let t := H2gMsgTimer (bpf_timer_start MSG_TIMER_PERIOD_NS (ht_timer t)) msg (ht_started t) index in
  H2g (array_update (h2g_msg_timer_map st) 0 t) (ktick (h2g_clk st)) s.

(** The timer fires: the callback gets the element of the map. *)
Definition h2g_fire st : h2g S :=
  match array_lookup h2g_zero (h2g_msg_timer_map st) 0 with
  | None => st
  | Some t => h2g_msg_timer_callback t st
  end.

(** [h2g_msg_timer_init], returning also what the kfunc answered if it was
    called. *)
Definition h2g_msg_timer_init (init_ret callback_ret : Z) st : h2g S * option (result unit) :=
  match array_lookup h2g_zero (h2g_msg_timer_map st) 0 with
  | None => (st, None)
  | Some t =>
      if negb (ht_started t =? 0) then (st, None)
      else
        let put t s := H2g (array_update (h2g_msg_timer_map st) 0 t) (h2g_clk st) s in
        let t := H2gMsgTimer (ht_timer t) 0 1 0 in
        if negb (init_ret =? 0) then (put t (h2g_mod st), None)
        else
          let bt := BpfTimer (1 + bt_inits (ht_timer t)) (bt_callback (ht_timer t))
                             (bt_armed (ht_timer t)) in
          let t := H2gMsgTimer bt (ht_msg t) (ht_started t) (ht_index t) in
          if negb (callback_ret =? 0) then (put t (h2g_mod st), None)
          else
            let '(s, r) := bpf_host_ivshmem_h2g_write (h2g_mod st) (ht_index t) (ht_msg t) in
            let bt := bpf_timer_start MSG_TIMER_PERIOD_NS (BpfTimer (bt_inits bt) true (bt_armed bt)) in
            (put (H2gMsgTimer bt (ht_msg t) (ht_started t) (ht_index t)) s, Some r)
  end.
End h2g_timer.

(** ** The slot of the k-th expiration *)

Definition h2g_slot (k : nat) : Z := 1 + Z.of_nat k mod 63.

Lemma next_index_slot k : next_index (h2g_slot k) = h2g_slot (S k).
Proof.
  unfold next_index, h2g_slot. change NR_HOST_IVSHMEM_MSGS with 64.
  change H2G_FIRST_HISTORY_SLOT with 1.
  pose proof (Z.mod_pos_bound (Z.of_nat k) 63 ltac:(lia)).
  rewrite u32_id by lia. replace (Z.of_nat (S k)) with (Z.of_nat k + 1) by lia.
  pose proof (Z.div_mod (Z.of_nat k) 63 ltac:(lia)) as Hd.
  destruct (Z.eq_dec (Z.of_nat k mod 63) 62) as [E|E].
  - rewrite E. simpl.
    rewrite <- (Z.mod_unique (Z.of_nat k + 1) 63 (Z.of_nat k / 63 + 1) 0); lia.
  - rewrite <- (Z.mod_unique (Z.of_nat k + 1) 63 (Z.of_nat k / 63) (Z.of_nat k mod 63 + 1)) by lia.
    case_bool; bool_hyps; [lia|]. case_bool; bool_hyps; lia.
Qed.

Lemma next_index_start : next_index 0 = h2g_slot 0.
Proof. reflexivity. Qed.

(** Whatever the stored index, the next one is a history slot. *)
Lemma next_index_range index :
  H2G_FIRST_HISTORY_SLOT <= next_index index < NR_HOST_IVSHMEM_MSGS.
Proof.
  unfold next_index. change NR_HOST_IVSHMEM_MSGS with 64. change H2G_FIRST_HISTORY_SLOT with 1.
  pose proof (u32_range (index + 1)).
  destruct (u32 (index + 1) >=? 64) eqn:E; bool_hyps; simpl; [lia|].
  case_bool; bool_hyps; lia.
Qed.

(** Slots less than 63 expirations apart differ. *)
Lemma h2g_slot_inj i j : (i <= j < i + 63)%nat → h2g_slot i = h2g_slot j → i = j.
Proof.
  unfold h2g_slot. intros Hij He.
  pose proof (Z.div_mod (Z.of_nat i) 63 ltac:(lia)). pose proof (Z.div_mod (Z.of_nat j) 63 ltac:(lia)).
  lia.
Qed.

(** ** Runs *)

Section runs.
Context {S : Type} `{HostKfuncsLaws S}.
Implicit Types st : h2g S.

(** The message of the k-th expiration after a start at [st]. *)
Definition h2g_message (c : clock) (k : nat) : Z := reading c (ticks c + k) / 1000.

(** After [n] expirations: the index, the clock, and the last 63 messages. *)
Lemma h2g_fires st t n :
  am_max (h2g_msg_timer_map st) = 1 → array_lookup h2g_zero (h2g_msg_timer_map st) 0 = Some t →
  ht_index t = 0 → clock_ok (h2g_clk st) → h2g_ready (h2g_mod st) →
  let st' := Nat.iter n h2g_fire st in
  am_max (h2g_msg_timer_map st') = 1 ∧ h2g_ready (h2g_mod st') ∧
  h2g_clk st' = Clock (reading (h2g_clk st)) (ticks (h2g_clk st) + n) ∧
  (∃ t', array_lookup h2g_zero (h2g_msg_timer_map st') 0 = Some t' ∧
     next_index (ht_index t') = h2g_slot n) ∧
  (∀ k, (k < n <= k + 63)%nat →
     h2g_view (h2g_mod st') (h2g_slot k) = Some (h2g_message (h2g_clk st) k)) ∧
  (∀ m, n = Datatypes.S m → h2g_view (h2g_mod st') H2G_LATEST_SLOT = Some (h2g_message (h2g_clk st) m)).
Proof.
  intros Hm Ht Hi Hc Hr. induction n as [|n IH]; simpl.
  - split_and!; try done.
    + destruct (h2g_clk st). simpl. by rewrite Nat.add_0_r.
    + exists t. split; [done|]. by rewrite Hi.
    + intros k Hk. lia.
  - destruct IH as (Hm' & Hr' & Hk' & (t' & Ht' & Hi') & Hv' & _).
    set (s := Nat.iter n h2g_fire st) in *. clearbody s.
    unfold h2g_fire at 1 2 3 4 5 6. rewrite Ht'. unfold h2g_msg_timer_callback. simpl.
    assert (Hmsg : ktime (h2g_clk s) / 1000 = h2g_message (h2g_clk st) n)
      by (unfold ktime, h2g_message; by rewrite Hk').
    assert (Hu : is_u64 (h2g_message (h2g_clk st) n)).
    { unfold h2g_message. destruct Hc as [Hc _]. specialize (Hc (ticks (h2g_clk st) + n)%nat).
      pose proof (Z.div_mod (reading (h2g_clk st) (ticks (h2g_clk st) + n)) 1000). 
      pose proof (Z.mod_pos_bound (reading (h2g_clk st) (ticks (h2g_clk st) + n)) 1000). lia. }
    destruct (h2g_write_history (h2g_mod s) (h2g_slot n) (h2g_message (h2g_clk st) n) Hr')
      as (s' & Hw & Hr'' & Hvi & Hvl & Hvo & _).
    { rewrite <- Hi'. apply next_index_range. }
    { exact Hu. }
    rewrite Hmsg, Hi', Hw. simpl. rewrite am_max_update, array_lookup_update_eq by lia.
    split_and!; try done.
    + rewrite Hk'. unfold ktick. simpl. f_equal. lia.
    + eexists. split; [done|]. simpl. apply next_index_slot.
    + intros k Hk. destruct (decide (k = n)) as [->|Hne]; [done|].
      rewrite Hvo.
      * apply Hv'. lia.
      * intros He. apply Hne. apply (h2g_slot_inj k n); [lia|done].
      * unfold h2g_slot. change H2G_LATEST_SLOT with 0.
        pose proof (Z.mod_pos_bound (Z.of_nat k) 63 ltac:(lia)). lia.
    + intros m [= <-]. done.
Qed.
End runs.

Module H2gTimerProps.
Section props.
Context {S : Type} `{HostKfuncsLaws S}.
Implicit Types st : h2g S.

(** The history region is a ring buffer of the last 63 messages: after any
    number of timer expirations from a fresh start, each of the last 63
    messages is in its slot and the latest slot has the newest one. *)
Theorem h2g_ring_history st t n :
  am_max (h2g_msg_timer_map st) = 1 → array_lookup h2g_zero (h2g_msg_timer_map st) 0 = Some t →
  ht_index t = 0 → clock_ok (h2g_clk st) → h2g_ready (h2g_mod st) →
  let st' := Nat.iter (Datatypes.S n) h2g_fire st in
  (∀ k, (k <= n < k + 63)%nat →
     h2g_view (h2g_mod st') (h2g_slot k) = Some (h2g_message (h2g_clk st) k)) ∧
  h2g_view (h2g_mod st') H2G_LATEST_SLOT = Some (h2g_message (h2g_clk st) n).
Proof.
  intros Hm Ht Hi Hc Hr st'.
  destruct (h2g_fires st t (Datatypes.S n) Hm Ht Hi Hc Hr) as (_ & _ & _ & _ & Hv & Hl).
  split; [intros k Hk; apply Hv; lia|by apply Hl].
Qed.

(** The write at initialisation never reaches the guest: it targets slot
    0, which the kernel module refuses, so starting the timer leaves the
    shared page untouched. *)
Theorem h2g_init_write_refused st t :
  am_max (h2g_msg_timer_map st) = 1 → array_lookup h2g_zero (h2g_msg_timer_map st) 0 = Some t →
  ht_started t = 0 → h2g_ready (h2g_mod st) →
  (h2g_msg_timer_init 0 0 st).2 = Some (Err EINVAL) ∧
  h2g_mod (h2g_msg_timer_init 0 0 st).1 = h2g_mod st.
Proof.
  intros Hm Ht Hs Hr. unfold h2g_msg_timer_init. rewrite Ht, Hs. simpl.
  pose proof (h2g_write_latest (h2g_mod st) 0 Hr) as Hw. unfold H2G_LATEST_SLOT in Hw.
  by rewrite Hw.
Qed.

(** Unlike the two tracker timers, this one is not retried: once
    [bpf_timer_init] or [bpf_timer_set_callback] has failed, no later context
    switch starts the timer. *)
Theorem h2g_failed_start_is_final st t r1 r2 rets :
  am_max (h2g_msg_timer_map st) = 1 → array_lookup h2g_zero (h2g_msg_timer_map st) 0 = Some t →
  ht_started t = 0 → bt_armed (ht_timer t) = None → r1 ≠ 0 ∨ r2 ≠ 0 →
  let st1 := (h2g_msg_timer_init r1 r2 st).1 in
  foldl (λ st r, (h2g_msg_timer_init r.1 r.2 st).1) st1 rets = st1 ∧
  ∃ t1, array_lookup h2g_zero (h2g_msg_timer_map st1) 0 = Some t1 ∧
    bt_armed (ht_timer t1) = None.
Proof.
  intros Hm Ht Hs Ha Hr st1.
  assert (Hst : ∃ t1, array_lookup h2g_zero (h2g_msg_timer_map st1) 0 = Some t1 ∧
    ht_started t1 = 1 ∧ bt_armed (ht_timer t1) = None).
  { unfold st1, h2g_msg_timer_init. rewrite Ht, Hs. simpl.
    destruct (Z.eqb_spec r1 0) as [->|]; simpl.
    - destruct (Z.eqb_spec r2 0) as [->|]; simpl; [by destruct Hr|].
      eexists. split; [apply array_lookup_update_eq; lia|done].
    - eexists. split; [apply array_lookup_update_eq; lia|done]. }
  clearbody st1. destruct Hst as (t1 & Ht1 & Hs1 & Ha1). split; [|eauto].
  induction rets as [|r rets IH]; simpl; [done|].
  assert ((h2g_msg_timer_init r.1 r.2 st1).1 = st1) as ->; [|done].
  unfold h2g_msg_timer_init. by rewrite Ht1, Hs1.
Qed.
End props.

Definition h_clk : clock := Clock (λ n, Z.min (4000000 * Z.of_nat n) (2 ^ 40)) 0.
Definition h_st : h2g hostmod := H2g (array_new 1) h_clk HostIvshmemProps.one_vm.

Lemma h_clock_ok : clock_ok h_clk.
Proof. split; simpl; intros; lia. Qed.

(** After 65 expirations slot 2 holds the message of the 65th. *)
Lemma h2g_ring_history_witness :
  h2g_view (h2g_mod (Nat.iter 65 h2g_fire h_st)) 2 = Some 256000.
Proof.
  refine (proj1 (h2g_ring_history h_st h2g_zero 64 _ _ _ _ _) 64%nat _).
  - reflexivity.
  - reflexivity.
  - reflexivity.
  - exact h_clock_ok.
  - exact HostIvshmemProps.one_vm_ready.
  - lia.
Defined.

Lemma h2g_init_write_refused_witness :
  (h2g_msg_timer_init 0 0 h_st).2 = Some (Err EINVAL).
Proof.
  refine (proj1 (h2g_init_write_refused h_st h2g_zero _ _ _ _)); try reflexivity.
  exact HostIvshmemProps.one_vm_ready.
Defined.

Lemma h2g_failed_start_is_final_witness :
  let st1 := (h2g_msg_timer_init (-16) 0 h_st).1 in
  foldl (λ st r, (h2g_msg_timer_init r.1 r.2 st).1) st1 [(0, 0)] = st1.
Proof.
  refine (proj1 (h2g_failed_start_is_final h_st h2g_zero (-16) 0 [(0, 0)] _ _ _ _ _));
    try reflexivity.
  left. lia.
Defined.
End H2gTimerProps.
