(* ===== verification/GuestIvshmem.v ===== *)
(** The guest kernel module: [pvsched-shmem/guest/guest_ivshmem.c].

    The state has the devices the driver allocated (a heap of
    [struct guest_ivshmem_device] with pointers as keys), the published pointer
    [guest_ivshmem], the PCI devices with their BAR2 contents and the resources
    the driver holds on them, and the character-device objects.  Using a
    pointer that is [NULL] or freed is a [Fault].  What the kernel answers to an
    allocation or a registration is an argument of the operation that asks.
    The mutex is counted (locks minus unlocks), so a double unlock shows. *)

From S2P Require Import Prelude Host Memory HostIvshmem.

Local Open Scope pv_scope.

Definition GUEST_IVSHMEM_METADATA_OFFSET : Z := 0.
Definition GUEST_IVSHMEM_METADATA_SIZE : Z := PAGE_SIZE.
Definition PAGE_SHIFT : Z := 12.

Record pci_dev := PciDev {
  bar : mem;               (* BAR2; its size is pci_resource_len() *)
  bar_start : Z;           (* pci_resource_start() *)
  bar_is_mem : bool;       (* IORESOURCE_MEM *)
  pci_enabled : Z;         (* enables minus disables *)
  region_held : Z;         (* request_region minus release_region *)
  iomaps : Z;              (* live mappings of the BAR *)
  drvdata : option Z;
  bound : bool             (* probe() returned 0 *)
}.

(** [g2h_page] is the offset and the length of the mapping of the BAR. *)
Record guest_ivshmem_device := Guest {
  g_pdev : Z;
  g2h_page : option (Z * Z);
  g_size : Z;
  h2g_phy_page : Z;
  g_h2g_page_size : Z;
  metadata_phy_page : Z
}.

Definition guest_zero : guest_ivshmem_device := Guest 0 None 0 0 0 0.

Record guestmod := GuestMod {
  g_heap : gmap Z guest_ivshmem_device;
  g_fresh : Z;                  (* the next address kzalloc returns *)
  guest_ivshmem : option Z;
  g_lock : Z;                   (* mutex_lock minus mutex_unlock *)
  pdevs : gmap Z pci_dev;
  g_class : bool;
  g_regions : Z;                (* alloc_chrdev_region minus unregister_chrdev_region *)
  g_cdevs : gset Z;             (* structs whose cdev is registered *)
  g_node : bool;                (* /dev/guest_ivshmem *)
  g_driver : bool;              (* the PCI driver is registered *)
  g_kfuncs : bool
}.

(** ** Field updates *)

Definition set_heap (h : gmap Z guest_ivshmem_device) (fresh : Z) (st : guestmod) : guestmod :=
  GuestMod h fresh (guest_ivshmem st) (g_lock st) (pdevs st) (g_class st) (g_regions st)
    (g_cdevs st) (g_node st) (g_driver st) (g_kfuncs st).
Definition set_guest (p : option Z) (st : guestmod) : guestmod :=
  GuestMod (g_heap st) (g_fresh st) p (g_lock st) (pdevs st) (g_class st) (g_regions st)
    (g_cdevs st) (g_node st) (g_driver st) (g_kfuncs st).
Definition set_lock (l : Z) (st : guestmod) : guestmod :=
  GuestMod (g_heap st) (g_fresh st) (guest_ivshmem st) l (pdevs st) (g_class st) (g_regions st)
    (g_cdevs st) (g_node st) (g_driver st) (g_kfuncs st).
Definition set_pdevs (d : gmap Z pci_dev) (st : guestmod) : guestmod :=
  GuestMod (g_heap st) (g_fresh st) (guest_ivshmem st) (g_lock st) d (g_class st) (g_regions st)
    (g_cdevs st) (g_node st) (g_driver st) (g_kfuncs st).
Definition set_chardev (cls : bool) (regions : Z) (c : gset Z) (node : bool) (st : guestmod)
  : guestmod :=
  GuestMod (g_heap st) (g_fresh st) (guest_ivshmem st) (g_lock st) (pdevs st) cls regions
    c node (g_driver st) (g_kfuncs st).
Definition set_driver (drv kf : bool) (st : guestmod) : guestmod :=
  GuestMod (g_heap st) (g_fresh st) (guest_ivshmem st) (g_lock st) (pdevs st) (g_class st)
    (g_regions st) (g_cdevs st) (g_node st) drv kf.

Definition add_resources (en rg mp : Z) (d : pci_dev) : pci_dev :=
  PciDev (bar d) (bar_start d) (bar_is_mem d) (pci_enabled d + en) (region_held d + rg)
    (iomaps d + mp) (drvdata d) (bound d).
Definition set_drvdata (p : option Z) (d : pci_dev) : pci_dev :=
  PciDev (bar d) (bar_start d) (bar_is_mem d) (pci_enabled d) (region_held d) (iomaps d) p (bound d).
Definition set_bound (b : bool) (d : pci_dev) : pci_dev :=
  PciDev (bar d) (bar_start d) (bar_is_mem d) (pci_enabled d) (region_held d) (iomaps d)
    (drvdata d) b.
Definition set_bar (m : mem) (d : pci_dev) : pci_dev :=
  PciDev m (bar_start d) (bar_is_mem d) (pci_enabled d) (region_held d) (iomaps d)
    (drvdata d) (bound d).

Definition on_pdev (id : Z) (f : pci_dev → pci_dev) (st : guestmod) : guestmod :=
  set_pdevs (alter f id (pdevs st)) st.

Definition mutex_lock (st : guestmod) : guestmod := set_lock (g_lock st + 1) st.
Definition mutex_unlock (st : guestmod) : guestmod := set_lock (g_lock st - 1) st.

(** States are equal when their fields are. *)
Lemma guestmod_ext a b :
  g_heap a = g_heap b → g_fresh a = g_fresh b → guest_ivshmem a = guest_ivshmem b →
  g_lock a = g_lock b → pdevs a = pdevs b → g_class a = g_class b →
  g_regions a = g_regions b → g_cdevs a = g_cdevs b → g_node a = g_node b →
  g_driver a = g_driver b → g_kfuncs a = g_kfuncs b → a = b.
Proof. destruct a, b. simpl. intros. by subst. Qed.

(** ** The kfunc *)

(** [guest_ivshmem_g2h_write_msg]; a store outside the mapping is a [Fault]. *)
Definition guest_ivshmem_g2h_write_msg (index msg : Z) (st : guestmod) : result guestmod :=
  if index >=? NR_GUEST_IVSHMEM_MSGS then Err EINVAL
  else match guest_ivshmem st with
  | None => Err ENODEV
  | Some g =>
      match g_heap st !! g with
      | None => Fault
      | Some guest =>
          match g2h_page guest, pdevs st !! g_pdev guest with
          | None, _ => Err EIO
          | Some _, None => Fault
          | Some (off, len), Some d =>
              let slot := index * MSG_SIZE in
              if slot + 8 <=? len then
                let! m := store 8 (bar d) (off + slot) msg in
                Ok (on_pdev (g_pdev guest) (set_bar m) st)
              else Fault
          end
      end
  end.

Definition bpf_guest_ivshmem_g2h_write (index msg : Z) (st : guestmod) : result guestmod :=
  guest_ivshmem_g2h_write_msg index msg st.

(** ** File operations *)

(** [file->private_data] after an open and after a release. *)
Definition guest_ivshmem_open (st : guestmod) : option Z := guest_ivshmem st.
Definition guest_ivshmem_release (file : option Z) : option Z := None.

(** [guest_ivshmem_mmap]: the range of the BAR's physical memory handed to
    [remap_pfn_range], as (first page frame, length in bytes). *)
Definition guest_ivshmem_mmap (file : option Z) (vm_pgoff nr_pages : Z) (st : guestmod)
  : result (Z * Z) :=
  match file with
  | None => Fault
  | Some g =>
      match g_heap st !! g with
      | None => Fault
      | Some guest =>
          let total_size := u64 (GUEST_IVSHMEM_METADATA_SIZE + g_h2g_page_size guest) in
          let offset := u64 (Z.shiftl vm_pgoff PAGE_SHIFT) in
          let len := u64 (nr_pages * PAGE_SIZE) in
          if (offset >=? total_size) || (len >? u64 (total_size - offset)) then Err EINVAL
          else Ok (Z.shiftr (u64 (metadata_phy_page guest + offset)) PAGE_SHIFT, len)
      end
  end.

(** ** Probe and remove *)

(** What the kernel answers to one [probe()]. *)
Record probe_env := ProbeEnv {
  p_kzalloc_ok : bool;
  p_enable_err : option errno;
  p_request_err : option errno;
  p_iomap_metadata_ok : bool;
  p_iomap_g2h_ok : bool
}.

Definition probe_ok : probe_env := ProbeEnv true None None true true.

(** [pci_iomap_range(pdev, bar, offset, maxlen)] on a BAR of [len] bytes: no
    mapping at or past the end of the BAR, and at most [maxlen] bytes (all of
    the rest when [maxlen] is 0). *)
Definition pci_iomap_range (ok : bool) (len offset maxlen : Z) : option (Z * Z) :=
  if negb ok || (len <=? offset) then None
  else Some (offset, if (maxlen =? 0) || (len - offset <=? maxlen) then len - offset else maxlen).

(** What the error labels of [guest_ivshmem_probe] undo. *)
Definition free_guest (guest : Z) (st : guestmod) : guestmod :=
  set_heap (delete guest (g_heap st)) (g_fresh st) st.
Definition disable_device (id : Z) (st : guestmod) : guestmod :=
  on_pdev id (add_resources (-1) 0 0) st.
Definition release_region (id : Z) (st : guestmod) : guestmod :=
  on_pdev id (add_resources 0 (-1) 0) st.

(** The end of a successful probe: the branch for a second device unlocks and
    sets an error that is not returned. *)
Definition guest_ivshmem_publish (id guest : Z) (st : guestmod) : guestmod :=
  let st := mutex_lock st in
  let st := match guest_ivshmem st with
            | Some _ => mutex_unlock st
            | None => st
            end in
  let st := on_pdev id (set_drvdata (Some guest)) st in
  let st := set_guest (Some guest) st in
  mutex_unlock st.

Definition guest_ivshmem_probe (env : probe_env) (id : Z) (st : guestmod) : guestmod * result unit :=
  match pdevs st !! id with
  | None => (st, Fault)
  | Some d =>
      if negb (p_kzalloc_ok env) then (st, Err ENOMEM)
      else
        let guest := g_fresh st in
        let st := set_heap (<[guest := guest_zero]> (g_heap st)) (g_fresh st + 1) st in
        let err_free_guest e st := (free_guest guest st, Err e) in
        match p_enable_err env with
        | Some e => err_free_guest e st
        | None =>
            let st := on_pdev id (add_resources 1 0 0) st in
            let err_disable_device e st :=
              err_free_guest e (disable_device id st) in
            if negb (bar_is_mem d) then err_disable_device ENODEV st
            else
              let size := m_size (bar d) in
              if size <? GUEST_IVSHMEM_METADATA_SIZE then err_disable_device EINVAL st
              else match p_request_err env with
              | Some e => err_disable_device e st
              | None =>
                  let st := on_pdev id (add_resources 0 1 0) st in
                  let err_release_region e st :=
                    err_disable_device e (release_region id st) in
                  match pci_iomap_range (p_iomap_metadata_ok env) size
                          GUEST_IVSHMEM_METADATA_OFFSET GUEST_IVSHMEM_METADATA_SIZE,
                        read_header (bar d) with
                  | None, _ => err_release_region ENOMEM st
                  | Some _, Ok hdr =>
                      if negb (magic hdr =? PVSCHED_MAGIC) || negb (version hdr =? PVSCHED_VERSION)
                      then err_release_region EINVAL st
                      else if negb (h2g_page_offset hdr =?
                                    GUEST_IVSHMEM_METADATA_OFFSET + GUEST_IVSHMEM_METADATA_SIZE)
                      then err_release_region EINVAL st
                      else if size <? u64 (g2h_page_offset hdr + g2h_page_size hdr)
                      then err_release_region EINVAL st
                      else match pci_iomap_range (p_iomap_g2h_ok env) size (g2h_page_offset hdr)
                                   (g2h_page_size hdr) with
                      | None => err_release_region ENOMEM st
                      | Some page =>
                          let st := on_pdev id (add_resources 0 0 1) st in
                          let st := set_heap (<[guest := Guest id (Some page) size
                            (u64 (bar_start d + h2g_page_offset hdr)) (h2g_page_size hdr)
                            (bar_start d + GUEST_IVSHMEM_METADATA_OFFSET)]> (g_heap st))
                            (g_fresh st) st in
                          (guest_ivshmem_publish id guest st, Ok tt)
                      end
                  | Some _, _ => (st, Fault)
                  end
              end
        end
  end.

Definition guest_ivshmem_remove (id : Z) (st : guestmod) : result guestmod :=
  match pdevs st !! id with
  | None => Fault
  | Some d =>
      match drvdata d with
      | None => Ok st
      | Some guest =>
          let st := on_pdev id (set_drvdata None) st in
          let st := mutex_lock st in
          let st := if decide (guest_ivshmem st = Some guest) then set_guest None st else st in
          let st := mutex_unlock st in
          match g_heap st !! guest with
          | None => Fault
          | Some _ =>
              let st := on_pdev id (add_resources (-1) (-1) (-1)) st in
              Ok (set_heap (delete guest (g_heap st)) (g_fresh st) st)
          end
      end
  end.

(** ** The character device *)

Record chardev_env := ChardevEnv {
  c_region_err : option errno;
  c_class_err : option errno;
  c_cdev_err : option errno;
  c_device_err : option errno
}.

Definition chardev_ok : chardev_env := ChardevEnv None None None None.

Definition guest_ivshmem_register_chardev (env : chardev_env) (st : guestmod)
  : guestmod * result unit :=
  match c_region_err env with
  | Some e => (st, Err e)
  | None =>
      let st := set_chardev (g_class st) (g_regions st + 1) (g_cdevs st) (g_node st) st in
      let err_unregister_chrdev e st :=
        (set_chardev (g_class st) (g_regions st - 1) (g_cdevs st) (g_node st) st, Err e) in
      match c_class_err env with
      | Some e =>
          err_unregister_chrdev e (set_chardev false (g_regions st) (g_cdevs st) (g_node st) st)
      | None =>
          let st := set_chardev true (g_regions st) (g_cdevs st) (g_node st) st in
          let err_destroy_class e st :=
            err_unregister_chrdev e (set_chardev false (g_regions st) (g_cdevs st) (g_node st) st) in
          match guest_ivshmem st with
          | None => (st, Fault)
          | Some guest =>
              match c_cdev_err env with
              | Some e => err_destroy_class e st
              | None =>
                  let st := set_chardev (g_class st) (g_regions st) (g_cdevs st ∪ {[guest]})
                              (g_node st) st in
                  match c_device_err env with
                  | Some e =>
                      err_destroy_class e (set_chardev (g_class st) (g_regions st)
                        (g_cdevs st ∖ {[guest]}) (g_node st) st)
                  | None =>
                      (set_chardev (g_class st) (g_regions st) (g_cdevs st) true st, Ok tt)
                  end
              end
          end
      end
  end.

Definition guest_ivshmem_unregister_chardev (st : guestmod) : result guestmod :=
  if negb (g_class st) then Ok st
  else
    let st := set_chardev (g_class st) (g_regions st) (g_cdevs st) false st in
    match guest_ivshmem st with
    | None => Fault
    | Some guest =>
        Ok (set_chardev false (g_regions st - 1) (g_cdevs st ∖ {[guest]}) (g_node st) st)
    end.

(** ** Loading and unloading *)

(** [pci_register_driver] probes the present devices, in the order [ids]; a
    device whose probe fails is left unbound. *)
Definition bind (env : Z → probe_env) (st : guestmod) (id : Z) : guestmod :=
  let '(st, r) := guest_ivshmem_probe (env id) id st in
  if is_ok r then on_pdev id (set_bound true) st else st.

Definition pci_register_driver (env : Z → probe_env) (ids : list Z) (st : guestmod) : guestmod :=
  foldl (bind env) (set_driver true (g_kfuncs st) st) ids.

(** [pci_unregister_driver] removes every bound device. *)
Definition unbind (id : Z) (st : guestmod) : result guestmod :=
  match pdevs st !! id with
  | Some d =>
      if bound d then
        let! st := guest_ivshmem_remove id st in Ok (on_pdev id (set_bound false) st)
      else Ok st
  | None => Ok st
  end.

Fixpoint unbind_all (ids : list Z) (st : guestmod) : result guestmod :=
  match ids with
  | [] => Ok st
  | id :: ids => let! st := unbind id st in unbind_all ids st
  end.

Definition pci_unregister_driver (ids : list Z) (st : guestmod) : result guestmod :=
  let! st := unbind_all ids st in Ok (set_driver false (g_kfuncs st) st).

Record load_env := LoadEnv {
  l_register_err : option errno;
  l_probe : Z → probe_env;
  l_kfuncs_err : option errno;
  l_chardev : chardev_env
}.

(** [guest_ivshmem_init]; the first test is on constants ([PAGE_SIZE] is a
    multiple of the message size). *)
Definition guest_ivshmem_init (env : load_env) (ids : list Z) (st : guestmod)
  : result (guestmod * result unit) :=
  if negb (PAGE_SIZE mod MSG_SIZE =? 0) then Ok (st, Err EINVAL)
  else match l_register_err env with
  | Some e => Ok (st, Err e)
  | None =>
      let st := pci_register_driver (l_probe env) ids st in
      let err_unregister_pci_driver e st :=
        let! st := pci_unregister_driver ids st in Ok (st, Err e) in
      match guest_ivshmem st with
      | None => err_unregister_pci_driver ENODEV st
      | Some _ =>
          match l_kfuncs_err env with
          | Some e => err_unregister_pci_driver e st
          | None =>
              let st := set_driver (g_driver st) true st in
              match guest_ivshmem_register_chardev (l_chardev env) st with
              | (st, Ok _) => Ok (st, Ok tt)
              | (st, Err e) => err_unregister_pci_driver e st
              | (_, Fault) => Fault
              end
          end
      end
  end.

Definition guest_ivshmem_exit (ids : list Z) (st : guestmod) : result guestmod :=
  let! st := guest_ivshmem_unregister_chardev st in pci_unregister_driver ids st.

(** ** Probing *)

Lemma alter_pdev_undo f g id (ds : gmap Z pci_dev) d :
  ds !! id = Some d → g (f d) = d → alter g id (alter f id ds) = ds.
Proof.
  intros Hd Hfg. apply map_eq. intros k. destruct (decide (k = id)) as [->|Hk].
  - rewrite !lookup_alter_eq, Hd. simpl. by rewrite Hfg.
  - by rewrite !lookup_alter_ne.
Qed.

Lemma add_resources_undo a b c d :
  add_resources (- a) (- b) (- c) (add_resources a b c d) = d.
Proof. destruct d; unfold add_resources; simpl. f_equal; lia. Qed.

(** Compares the PCI devices after a sequence of updates of one of them. *)
Ltac probe_pdevs :=
  let k := fresh "k" in
  apply map_eq; intros k;
  match goal with Hd : pdevs _ !! ?id = Some ?d |- _ =>
    destruct (decide (k = id)) as [->|?];
    [ rewrite ?lookup_insert_eq, !lookup_alter_eq, Hd; simpl; f_equal;
      destruct d; unfold add_resources, set_drvdata; simpl; f_equal; lia
    | by rewrite ?lookup_insert_ne, !lookup_alter_ne by done ]
  end.

Definition fresh_ok (st : guestmod) : Prop := ∀ k, is_Some (g_heap st !! k) → k < g_fresh st.

Lemma fresh_ok_None st : fresh_ok st → g_heap st !! g_fresh st = None.
Proof.
  intros Hf. destruct (g_heap st !! g_fresh st) eqn:E; [|done].
  specialize (Hf (g_fresh st)). rewrite E in Hf. pose proof (Hf ltac:(eauto)). lia.
Qed.

(** An error path of [probe] undoes what was done. *)
Ltac probe_error :=
  eexists; split; [done|]; right;
  apply guestmod_ext; simpl; try done;
  first [by rewrite delete_insert_id by (by apply fresh_ok_None) | probe_pdevs].

Lemma read_header_total m : HEADER_SIZE <= m_size m → ∃ hdr, read_header m = Ok hdr.
Proof.
  intros Hs. unfold read_header, load, HEADER_SIZE in *.
  assert (Hin : ∀ off n, 0 <= off → off + Z.of_nat n <= 48 → in_region m off n = true).
  { intros. apply in_region_true. lia. }
  rewrite !Hin by (simpl; lia). eauto.
Qed.

(** Every way a probe can end: an error leaves the state as it was, but for the
    address counter of the allocator; success publishes the device. *)
Definition probed_guest (id : Z) (d : pci_dev) (hdr : ivshmem_header) (page : Z * Z)
  : guest_ivshmem_device :=
  Guest id (Some page) (m_size (bar d)) (u64 (bar_start d + h2g_page_offset hdr))
    (h2g_page_size hdr) (bar_start d).

Definition header_accepted (d : pci_dev) (hdr : ivshmem_header) : Prop :=
  magic hdr = PVSCHED_MAGIC ∧ version hdr = PVSCHED_VERSION ∧
  h2g_page_offset hdr = PAGE_SIZE ∧ u64 (g2h_page_offset hdr + g2h_page_size hdr) <= m_size (bar d).

Lemma set_heap_pdevs st h f d : set_heap h f (set_pdevs d st) = set_pdevs d (set_heap h f st).
Proof. done. Qed.

Lemma probe_cases env id st d :
  pdevs st !! id = Some d → fresh_ok st →
  let r := guest_ivshmem_probe env id st in
  (∃ e, r.2 = Err e ∧
     (r.1 = st ∨ r.1 = set_heap (g_heap st) (g_fresh st + 1) st)) ∨
  (∃ hdr page, r.2 = Ok tt ∧ read_header (bar d) = Ok hdr ∧ header_accepted d hdr ∧
     pci_iomap_range true (m_size (bar d)) (g2h_page_offset hdr) (g2h_page_size hdr) = Some page ∧
     r.1 = GuestMod (<[g_fresh st := probed_guest id d hdr page]> (g_heap st)) (g_fresh st + 1)
             (Some (g_fresh st))
             (g_lock st - match guest_ivshmem st with Some _ => 1 | None => 0 end)
             (<[id := set_drvdata (Some (g_fresh st)) (add_resources 1 1 1 d)]> (pdevs st))
             (g_class st) (g_regions st) (g_cdevs st) (g_node st) (g_driver st) (g_kfuncs st)).
Proof.
  intros Hd Hfresh. unfold guest_ivshmem_probe, guest_ivshmem_publish, free_guest, disable_device,
    release_region. rewrite Hd.
  destruct (p_kzalloc_ok env); simpl; [|left; eauto].
  destruct (p_enable_err env) as [e|]; [left; probe_error|].
  destruct (bar_is_mem d); simpl; [|left; probe_error].
  destruct (Z.ltb_spec (m_size (bar d)) GUEST_IVSHMEM_METADATA_SIZE) as [|Hsize];
    [left; probe_error|].
  destruct (p_request_err env) as [e|]; [left; probe_error|].
  destruct (read_header_total (bar d)) as [hdr Hhdr];
    [unfold GUEST_IVSHMEM_METADATA_SIZE, HEADER_SIZE, PAGE_SIZE in *; lia|]. rewrite Hhdr.
  destruct (pci_iomap_range (p_iomap_metadata_ok env) _ _ _); [|left; probe_error].
  destruct (Z.eqb_spec (magic hdr) PVSCHED_MAGIC) as [Hm|]; simpl; [|left; probe_error].
  destruct (Z.eqb_spec (version hdr) PVSCHED_VERSION) as [Hv|]; simpl; [|left; probe_error].
  case_bool; bool_hyps; [left; probe_error|].
  destruct (Z.ltb_spec (m_size (bar d)) (u64 (g2h_page_offset hdr + g2h_page_size hdr)))
    as [|Hfits]; [left; probe_error|].
  destruct (pci_iomap_range (p_iomap_g2h_ok env) _ (g2h_page_offset hdr) _) as [page|] eqn:Hmap;
    [|left; probe_error].
  right. exists hdr, page.
  assert (pci_iomap_range true (m_size (bar d)) (g2h_page_offset hdr) (g2h_page_size hdr)
    = Some page).
  { revert Hmap. unfold pci_iomap_range. destruct (p_iomap_g2h_ok env); simpl; [done|done]. }
  split_and!; try done.
  unfold probed_guest, GUEST_IVSHMEM_METADATA_OFFSET. rewrite Z.add_0_r.
  destruct (guest_ivshmem st); apply guestmod_ext; simpl; try done;
    try (by rewrite insert_insert_eq); try lia; probe_pdevs.
Qed.

(** ** The interface the guest eBPF program uses *)

Class GuestKfuncs (G : Type) := {
  guest_g2h_write : G → Z → Z → G * result unit
}.

(** What it relies on: a write to the slot of a vCPU is accepted and sets that
    slot only; a slot past the page is refused. *)
Class GuestKfuncsLaws (G : Type) `{GuestKfuncs G} := {
  g2h_up : G → Prop;
  g2h_word : G → Z → Z;
  g2h_write_slot g i m :
    g2h_up g → 0 <= i < NR_GUEST_IVSHMEM_MSGS → is_u64 m →
    ∃ g', guest_g2h_write g i m = (g', Ok tt) ∧ g2h_up g' ∧ g2h_word g' i = m ∧
      ∀ j, 0 <= j < NR_GUEST_IVSHMEM_MSGS → j ≠ i → g2h_word g' j = g2h_word g j;
  g2h_write_past g i m :
    NR_GUEST_IVSHMEM_MSGS <= i → guest_g2h_write g i m = (g, Err EINVAL)
}.

#[global] Instance guestmod_kfuncs : GuestKfuncs guestmod := {
  guest_g2h_write g i m :=
    match bpf_guest_ivshmem_g2h_write i m g with
    | Ok g' => (g', Ok tt)
    | Err e => (g, Err e)
    | Fault => (g, Fault)
    end
}.

(** A published device with room for all messages in a mapping inside its BAR. *)
Definition published (g : guestmod) (id off : Z) (m : mem) : Prop :=
  ∃ p guest d len, guest_ivshmem g = Some p ∧ g_heap g !! p = Some guest ∧
    g_pdev guest = id ∧ g2h_page guest = Some (off, len) ∧ pdevs g !! id = Some d ∧ bar d = m ∧
    0 <= off ∧ PAGE_SIZE <= len ∧ off + len <= m_size m.

Lemma published_write g id off m i msg :
  published g id off m → 0 <= i < NR_GUEST_IVSHMEM_MSGS →
  ∃ g' m', bpf_guest_ivshmem_g2h_write i msg g = Ok g' ∧ published g' id off m' ∧
    g' = on_pdev id (set_bar m') g ∧
    store 8 m (off + i * MSG_SIZE) msg = Ok m' ∧ m_size m' = m_size m ∧
    load 8 m' (off + i * MSG_SIZE) = Ok (u64 msg) ∧
    ∀ n o, o + Z.of_nat n <= off + i * MSG_SIZE ∨ off + i * MSG_SIZE + 8 <= o →
      load n m' o = load n m o.
Proof.
  intros (p & guest & d & len & Hp & Hh & Hid & Hpg & Hd & Hb & Ho & Hl & Hin) Hi.
  unfold bpf_guest_ivshmem_g2h_write, guest_ivshmem_g2h_write_msg.
  unfold NR_GUEST_IVSHMEM_MSGS, PAGE_SIZE, MSG_SIZE in *. change (4096 / 64) with 64 in *.
  destruct (i >=? 64) eqn:E; bool_hyps; [lia|]. rewrite Hp, Hh, Hpg, Hid, Hd, Hb.
  destruct (Z.leb_spec (i * 64 + 8) len); [|lia].
  destruct (store_spec 8 m (off + i * 64) msg) as (m' & Hs & Hsz & Hld & Hf); [lia|simpl; lia|].
  rewrite Hs. exists (on_pdev id (set_bar m') g), m'. split; [done|]. split.
  - exists p, guest, (set_bar m' d), len. simpl. rewrite lookup_alter_eq, Hd.
    by split_and!; rewrite ?Hsz.
  - by split_and!.
Qed.

Definition guest_up (g : guestmod) : Prop := ∃ id off m, published g id off m.

(** The word of a slot, seen through the published device. *)
Definition guest_word (g : guestmod) (i : Z) : Z :=
  match guest_ivshmem g with
  | Some p =>
      match g_heap g !! p with
      | Some guest =>
          match g2h_page guest, pdevs g !! g_pdev guest with
          | Some (off, _), Some d =>
              match load 8 (bar d) (off + i * MSG_SIZE) with Ok v => v | _ => 0 end
          | _, _ => 0
          end
      | None => 0
      end
  | None => 0
  end.

Lemma guest_word_published g id off m i :
  published g id off m →
  guest_word g i = match load 8 m (off + i * MSG_SIZE) with Ok v => v | _ => 0 end.
Proof.
  intros (p & guest & d & len & Hp & Hh & Hid & Hpg & Hd & Hb & _).
  unfold guest_word. by rewrite Hp, Hh, Hpg, Hid, Hd, Hb.
Qed.

#[global] Program Instance guestmod_laws : GuestKfuncsLaws guestmod := {
  g2h_up := guest_up;
  g2h_word := guest_word
}.
Next Obligation.
  intros g i msg (id & off & m & Hpub) Hi Hm.
  destruct (published_write g id off m i msg Hpub Hi)
    as (g' & m' & Hw & Hpub' & _ & _ & _ & Hld & Hf).
  exists g'. simpl. rewrite Hw. split; [done|]. split; [by exists id, off, m'|].
  split; [by rewrite (guest_word_published g' id off m'), Hld, u64_id|].
  intros j Hj Hne. rewrite (guest_word_published g' id off m'), (guest_word_published g id off m)
    by done.
  rewrite Hf; [done|]. unfold MSG_SIZE. simpl. lia.
Qed.
Next Obligation.
  intros g i m Hi. simpl. unfold bpf_guest_ivshmem_g2h_write, guest_ivshmem_g2h_write_msg.
  destruct (i >=? NR_GUEST_IVSHMEM_MSGS) eqn:E; bool_hyps; [done|lia].
Qed.

(** ** One device plugged in *)

Definition plugged (start : Z) (m : mem) : pci_dev := PciDev m start true 0 0 0 None false.

(** The guest before the module is loaded, with the devices [ds]. *)
Definition guest0 (ds : gmap Z pci_dev) : guestmod :=
  GuestMod ∅ 0 None 0 ds false 0 ∅ false false false.

Definition load_ok : load_env := LoadEnv None (λ _, probe_ok) None chardev_ok.

Lemma iomap_inside ok len off maxlen o l :
  pci_iomap_range ok len off maxlen = Some (o, l) →
  o = off ∧ off < len ∧ o + l <= len ∧ (l = maxlen ∨ l = len - off).
Proof.
  unfold pci_iomap_range. case_bool; [done|]. intros [= <- <-].
  apply orb_false_iff in E as [_ E]. bool_hyps. split; [done|]. split; [done|].
  case_bool; [lia|]. apply orb_false_iff in E0 as [_ E0]. bool_hyps. lia.
Qed.

(** Probing a backend of the host module succeeds and maps all of its
    guest-to-host pages. *)
Lemma probe_backend id start b m st :
  backend_wf b → b_mem b = Some m → HOST_IVSHMEM_G2H_OFFSET + PAGE_SIZE <= b_size b →
  pdevs st !! id = Some (plugged start m) → fresh_ok st →
  let r := guest_ivshmem_probe probe_ok id st in
  r.2 = Ok tt ∧ guest_ivshmem r.1 = Some (g_fresh st) ∧
  published r.1 id HOST_IVSHMEM_G2H_OFFSET m ∧
  g_lock r.1 = g_lock st - match guest_ivshmem st with Some _ => 1 | None => 0 end ∧
  ∃ guest, g_heap r.1 = <[g_fresh st := guest]> (g_heap st) ∧ g_h2g_page_size guest = PAGE_SIZE ∧
    metadata_phy_page guest = start.
Proof.
  intros (m0 & Hm0 & Hms & Hsz & Hhdr) Hm Hbig Hd Hfresh. assert (m0 = m) as -> by congruence.
  destruct (probe_cases probe_ok id st _ Hd Hfresh) as [(e & He & _)|(hdr & page & Hr & Hh & _ & Hpg & Hst)].
  - exfalso. revert He. unfold guest_ivshmem_probe, guest_ivshmem_publish. rewrite Hd. simpl. rewrite Hms, Hhdr.
    unfold GUEST_IVSHMEM_METADATA_SIZE, GUEST_IVSHMEM_METADATA_OFFSET, HOST_IVSHMEM_G2H_OFFSET in *.
    destruct (Z.ltb_spec (b_size b) PAGE_SIZE); [unfold PAGE_SIZE in *; lia|].
    unfold pci_iomap_range at 1. simpl.
    destruct (Z.leb_spec (b_size b) 0); [unfold PAGE_SIZE in *; lia|]. simpl.
    rewrite (u64_id (b_size b - _)) by (unfold HOST_IVSHMEM_G2H_OFFSET, PAGE_SIZE in *; lia).
    rewrite u64_id by (unfold HOST_IVSHMEM_G2H_OFFSET, PAGE_SIZE in *; lia).
    destruct (Z.ltb_spec (b_size b) (HOST_IVSHMEM_G2H_OFFSET + (b_size b - HOST_IVSHMEM_G2H_OFFSET)));
      [lia|].
    unfold pci_iomap_range. destruct (Z.leb_spec (b_size b) HOST_IVSHMEM_G2H_OFFSET);
      [unfold HOST_IVSHMEM_G2H_OFFSET, PAGE_SIZE in *; lia|]. simpl. done.
  - simpl in Hh, Hpg. rewrite Hhdr in Hh. injection Hh as <-. simpl in Hpg.
    destruct page as [o l]. apply iomap_inside in Hpg as (-> & _ & Hin & Hl).
    cbv zeta. rewrite Hst. simpl. split_and!; try done.
    + exists (g_fresh st), (probed_guest id (plugged start m) (new_header (b_size b))
        (HOST_IVSHMEM_G2H_OFFSET, l)), (set_drvdata (Some (g_fresh st)) (add_resources 1 1 1
          (plugged start m))), l. simpl.
      rewrite !lookup_insert_eq. split_and!; try done.
      rewrite Hms in *. rewrite u64_id in Hl
        by (unfold HOST_IVSHMEM_G2H_OFFSET, PAGE_SIZE in *; lia). lia.
    + eexists. split; [done|]. done.
Qed.

(** ** Loading and unloading with one device *)

(** Nothing of the driver is left but the kfunc registration, which lives as
    long as the module. *)
Definition guest_clean (ds : gmap Z pci_dev) (st : guestmod) : Prop :=
  g_heap st = ∅ ∧ guest_ivshmem st = None ∧ g_lock st = 0 ∧ pdevs st = ds ∧
  g_class st = false ∧ g_regions st = 0 ∧ g_cdevs st = ∅ ∧ g_node st = false ∧
  g_driver st = false.

(** The state after a successful probe of device [id]: object 0 is allocated,
    published and bound; [cls] says whether the character device exists. *)
Record driven (id : Z) (d : pci_dev) (cls : bool) (st : guestmod) : Prop := {
  dr_heap : ∃ hdr page, read_header (bar d) = Ok hdr ∧ g_heap st = {[0 := probed_guest id d hdr page]};
  dr_ptr : guest_ivshmem st = Some 0;
  dr_lock : g_lock st = 0;
  dr_pdevs : pdevs st = {[id := set_bound true (set_drvdata (Some 0) (add_resources 1 1 1 d))]};
  dr_class : g_class st = cls;
  dr_regions : g_regions st = if cls then 1 else 0;
  dr_cdevs : g_cdevs st = if cls then {[0]} else ∅;
  dr_node : g_node st = cls
}.

Section one_device.
Context (id start : Z) (m : mem).

Let d : pci_dev := plugged start m.
Let ds : gmap Z pci_dev := {[id := d]}.

Lemma driver_register_cases penv :
  let st := pci_register_driver penv [id] (guest0 ds) in
  (∃ fresh, st = set_driver true false (set_heap ∅ fresh (guest0 ds))) ∨ driven id d false st.
Proof.
  cbv zeta. unfold pci_register_driver. simpl. unfold bind.
  set (st0 := set_driver true false (guest0 ds)).
  assert (Hd : pdevs st0 !! id = Some d) by apply lookup_singleton_eq.
  assert (Hf : fresh_ok st0) by (intros k [x Hx]; simpl in Hx; by rewrite lookup_empty in Hx).
  pose proof (probe_cases (penv id) id st0 d Hd Hf) as Hpc. cbv zeta in Hpc.
  destruct (guest_ivshmem_probe (penv id) id st0) as [st r]; simpl in Hpc.
  destruct Hpc as [(e & -> & [->| ->])|(hdr & page & -> & Hhdr & _ & _ & ->)]; simpl.
  - left. by exists 0.
  - left. by exists 1.
  - right. split; simpl; try done.
    + exists hdr, page. split; [done|]. apply insert_empty.
    + rewrite alter_insert_eq. unfold ds. by rewrite insert_singleton_eq.
Qed.

Lemma undriven_unregister fresh kf :
  ∃ st', pci_unregister_driver [id]
    (set_driver true kf (set_heap ∅ fresh (guest0 ds))) = Ok st' ∧ guest_clean ds st'.
Proof.
  unfold pci_unregister_driver. simpl. unfold unbind. simpl. unfold ds.
  rewrite lookup_singleton_eq. simpl. eexists. split; [done|]. by repeat split.
Qed.

Lemma driven_unregister st :
  driven id d false st → ∃ st', pci_unregister_driver [id] st = Ok st' ∧ guest_clean ds st'.
Proof.
  intros [(hdr & page & _ & Hh) Hp Hl Hd Hc Hr Hcd Hn]. unfold pci_unregister_driver. simpl. unfold unbind.
  rewrite Hd, lookup_singleton_eq. simpl. unfold guest_ivshmem_remove.
  rewrite Hd, lookup_singleton_eq. simpl. rewrite Hp, decide_True by done. simpl.
  rewrite Hh, lookup_singleton_eq. simpl. eexists. split; [done|].
  unfold guest_clean. simpl. rewrite ?Hh, ?Hl, ?Hd, ?Hc, ?Hr, ?Hcd, ?Hn. split_and!; try done.
  by rewrite !alter_singleton_eq.
Qed.

Lemma chardev_cases env st kf :
  driven id d false st →
  match guest_ivshmem_register_chardev env (set_driver (g_driver st) kf st) with
  | (st', Ok _) => driven id d true st'
  | (st', Err _) => driven id d false st'
  | (_, Fault) => False
  end.
Proof.
  intros [Hh Hp Hl Hd Hc Hr Hcd Hn]. unfold guest_ivshmem_register_chardev.
  destruct (c_region_err env); simpl; [by split|].
  destruct (c_class_err env); simpl; [split; simpl; try done; lia|].
  rewrite Hp. destruct (c_cdev_err env); simpl; [split; simpl; try done; lia|].
  destruct (c_device_err env); simpl; split; simpl; try done; try lia.
  - rewrite Hcd. set_solver.
  - rewrite Hcd. set_solver.
Qed.

Lemma driven_chardev_unregister st :
  driven id d true st →
  ∃ st', guest_ivshmem_unregister_chardev st = Ok st' ∧ driven id d false st'.
Proof.
  intros [Hh Hp Hl Hd Hc Hr Hcd Hn]. unfold guest_ivshmem_unregister_chardev.
  rewrite Hc. simpl. rewrite Hp. eexists. split; [done|]. split; simpl; try done.
  - lia.
  - rewrite Hcd. set_solver.
Qed.

Lemma init_cases env :
  ∃ st r, guest_ivshmem_init env [id] (guest0 ds) = Ok (st, r) ∧
    match r with Ok _ => driven id d true st | Err _ => guest_clean ds st | Fault => False end.
Proof.
  unfold guest_ivshmem_init. change (negb (PAGE_SIZE mod MSG_SIZE =? 0)) with false. cbv iota.
  destruct (l_register_err env) as [e|]; [eexists _, _; split; [done|]; by repeat split|].
  destruct (driver_register_cases (l_probe env)) as [[fresh Hst]|Hdr].
  - rewrite Hst. simpl. destruct (undriven_unregister fresh false) as (st' & -> & Hc).
    eexists _, _. split; [done|]. done.
  - rewrite (dr_ptr _ _ _ _ Hdr). destruct (l_kfuncs_err env) as [e|].
    + destruct (driven_unregister _ Hdr) as (st' & -> & Hc). eexists _, _. split; [done|]. done.
    + pose proof (chardev_cases (l_chardev env) _ true Hdr) as Hcc.
      destruct (guest_ivshmem_register_chardev _ _) as [st' [[]|e|]].
      * eexists _, _. split; [done|]. done.
      * destruct (driven_unregister _ Hcc) as (st'' & -> & Hc). eexists _, _. split; [done|]. done.
      * done.
Qed.
End one_device.

(** ** Host and guest on one shared memory *)

(** The host module's view after the guest changed the memory of minor 1. *)
Definition share (m : mem) (hm : hostmod) : hostmod :=
  set_devices (alter (λ b, Backend (Some m) (b_size b) (b_minor b) (b_dev b) (b_debugfs b)) 1
                 (devices hm)) hm.

(** The guest's BAR is the memory of the host's first backend. *)
Definition linked (id : Z) (g : guestmod) (hm : hostmod) : Prop :=
  ∃ b m, devices hm !! 1 = Some b ∧ b_mem b = Some m ∧ backend_wf b ∧
    published g id HOST_IVSHMEM_G2H_OFFSET m.

Lemma linked_write id g hm i msg :
  linked id g hm → 0 <= i < NR_GUEST_IVSHMEM_MSGS → is_u64 msg →
  ∃ g' m', bpf_guest_ivshmem_g2h_write i msg g = Ok g' ∧
    (bar <$> pdevs g' !! id) = Some m' ∧ linked id g' (share m' hm) ∧
    bpf_host_ivshmem_g2h_read (share m' hm) i = Ok msg ∧
    (∀ j, 0 <= j → j ≠ i → bpf_host_ivshmem_g2h_read (share m' hm) j = bpf_host_ivshmem_g2h_read hm j) ∧
    (∀ slot, h2g_view (share m' hm) slot = h2g_view hm slot).
Proof.
  intros (b & m & Hb & Hbm & Hwf & Hpub) Hi Hmsg.
  destruct (published_write g id HOST_IVSHMEM_G2H_OFFSET m i msg Hpub Hi)
    as (g' & m' & Hw & Hpub' & Hg' & _ & Hsz & Hld & Hf).
  assert (Hb' : devices (share m' hm) !! 1 =
    Some (Backend (Some m') (b_size b) (b_minor b) (b_dev b) (b_debugfs b))).
  { simpl. by rewrite lookup_alter_eq, Hb. }
  pose proof Hwf as (m0 & Hm0 & Hms & Hbs & Hhdr). assert (m0 = m) as -> by congruence.
  unfold NR_GUEST_IVSHMEM_MSGS, HOST_IVSHMEM_G2H_OFFSET, PAGE_SIZE, MSG_SIZE in *.
  change (4096 / 64) with 64 in *.
  exists g', m'. split; [done|]. split.
  { rewrite Hg'. simpl. rewrite lookup_alter_eq.
    destruct Hpub as (p & guest & d & len & _ & _ & _ & _ & Hd & _). by rewrite Hd. }
  split.
  { exists (Backend (Some m') (b_size b) (b_minor b) (b_dev b) (b_debugfs b)), m'.
    split; [done|]. split; [done|]. split; [|done].
    exists m'. split; [done|]. split; [simpl; congruence|]. split; [done|].
    simpl. rewrite <- Hhdr. apply read_header_frame. intros n off Ho. apply Hf.
    unfold HEADER_SIZE in Ho. lia. }
  unfold bpf_host_ivshmem_g2h_read, hostmod_kfuncs, kfunc_g2h_read, host_ivshmem_g2h_read.
  rewrite Hb', Hb, Hbm. cbn [b_mem].
  unfold NR_GUEST_IVSHMEM_MSGS, HOST_IVSHMEM_G2H_OFFSET, PAGE_SIZE, MSG_SIZE.
  change (4096 / 64) with 64. split; [|split].
  - destruct (i >=? 64) eqn:E; bool_hyps; [lia|]. rewrite Hld. by rewrite u64_id.
  - intros j Hj Hne. case_bool; [done|]. apply Hf. simpl. lia.
  - intros slot. change (mod_h2g_view (share m' hm) slot = mod_h2g_view hm slot).
    unfold mod_h2g_view. rewrite Hb', Hb. destruct b as [mm ? ? ? ?].
    simpl in Hbm. subst mm. unfold NR_HOST_IVSHMEM_MSGS, PAGE_SIZE, MSG_SIZE.
    change (4096 / 64) with 64.
    destruct (Z.leb_spec 0 slot), (Z.ltb_spec slot 64); try done. simpl.
    rewrite Hf; [done|]. left. unfold HOST_IVSHMEM_H2G_OFFSET, PAGE_SIZE. simpl. lia.
Qed.

Module GuestIvshmemProps.
(** C11: a guest message reaches the host: in a guest whose driver has mapped a
    backend of the host module, a message sent to slot [i] is what the host
    reads from slot [i]; the other slots, the host-to-guest page and the
    header are untouched, and the link persists. *)
Theorem guest_write_reaches_host id g hm i msg :
  linked id g hm → 0 <= i < NR_GUEST_IVSHMEM_MSGS → is_u64 msg →
  ∃ g' m', bpf_guest_ivshmem_g2h_write i msg g = Ok g' ∧
    (bar <$> pdevs g' !! id) = Some m' ∧ linked id g' (share m' hm) ∧
    bpf_host_ivshmem_g2h_read (share m' hm) i = Ok msg ∧
    (∀ j, 0 <= j → j ≠ i → bpf_host_ivshmem_g2h_read (share m' hm) j = bpf_host_ivshmem_g2h_read hm j) ∧
    (∀ slot, h2g_view (share m' hm) slot = h2g_view hm slot).
Proof. apply linked_write. Qed.

(** C28: the two modules agree on the layout: whenever the host registers a VM
    with at least one vCPU, a guest that finds the resulting memory in its BAR
    probes it successfully, with the mutex released and the guest-to-host pages
    of its own backend mapped; for the first VM that is where the kfuncs of the
    host read. *)
Theorem probe_accepts_host_backend env req hm hm' rsp id start :
  hm_wf hm → 1 <= nb_cpu req < 2 ^ 32 → host_register_vm env req hm = (hm', Ok rsp) →
  ∃ b m g, devices hm' !! (req_vm_id rsp + 1) = Some b ∧ b_mem b = Some m ∧
    guest_ivshmem_probe probe_ok id (guest0 {[id := plugged start m]}) = (g, Ok tt) ∧
    published g id HOST_IVSHMEM_G2H_OFFSET m ∧ g_lock g = 0 ∧
    (req_vm_id rsp = 0 → linked id g hm').
Proof.
  intros Hwf Hnb Hreg.
  destruct (register_cases env req hm Hwf ltac:(lia))
    as [[e He]|[(_ & _ & He)|(b & Hk & Hbwf & Hbs & Hbm & Hbd & He)]];
    rewrite Hreg in He; [done..|]. injection He as -> ->.
  pose proof Hbwf as (m & Hm & _).
  pose proof (backend_size_page (nb_cpu req) ltac:(lia) ltac:(lia)) as Hbig.
  rewrite <- Hbs in Hbig.
  destruct (probe_backend id start b m (guest0 {[id := plugged start m]}) Hbwf Hm Hbig)
    as (Hr & _ & Hpub & Hl & _).
  { apply lookup_singleton_eq. }
  { intros k [x Hx]. simpl in Hx. by rewrite lookup_empty in Hx. }
  exists b, m. destruct (guest_ivshmem_probe probe_ok id _) as [g r]. simpl in *. subst r.
  exists g. rewrite lookup_insert_eq. split_and!; try done. intros Hid.
  exists b, m. rewrite Hid. split_and!; try done. apply lookup_insert_eq.
Qed.

(** C35: loading and unloading the guest module with one device in the machine,
    whatever the device's memory contains and whichever kernel call fails: a
    failed load releases everything it had acquired, a successful one is
    undone completely by the unload, and neither uses a dead pointer. *)
Theorem guest_load_unload_clean env id start m :
  ∃ st r, guest_ivshmem_init env [id] (guest0 {[id := plugged start m]}) = Ok (st, r) ∧
    match r with
    | Ok _ => ∃ st', guest_ivshmem_exit [id] st = Ok st' ∧ guest_clean {[id := plugged start m]} st'
    | Err _ => guest_clean {[id := plugged start m]} st
    | Fault => False
    end.
Proof.
  destruct (init_cases id start m env) as (st & r & Hi & Hr). exists st, r. split; [done|].
  destruct r as [[]|e|]; [|done..].
  destruct (driven_chardev_unregister id start m st Hr) as (st1 & Hu & Hd1).
  destruct (driven_unregister id start m st1 Hd1) as (st2 & Hp & Hc).
  exists st2. unfold guest_ivshmem_exit. rewrite Hu, Hp. done.
Qed.

(** A probe that fails leaves no trace: the devices, the heap, the
    published pointer, the mutex and the character device are as before. *)
Theorem probe_error_restores env id st d :
  pdevs st !! id = Some d → fresh_ok st →
  (guest_ivshmem_probe env id st).2 ≠ Ok tt →
  ∃ e, guest_ivshmem_probe env id st = (set_heap (g_heap st) (g_fresh (guest_ivshmem_probe env id st).1) st, Err e).
Proof.
  intros Hd Hf Hne. pose proof (probe_cases env id st d Hd Hf) as Hpc. cbv zeta in Hpc.
  destruct (guest_ivshmem_probe env id st) as [st' r]. simpl in *.
  destruct Hpc as [(e & -> & [->| ->])|(hdr & page & -> & _)]; [| |done]; exists e.
  - by destruct st.
  - done.
Qed.

(** Only the metadata page and the host-to-guest page can be mapped by
    user space: every mapping the driver accepts for a device it probed from a
    host backend lies inside those two pages, for any page offset and length. *)
Theorem mmap_stays_in_h2g file vm_pgoff nr_pages st p guest start pfn len :
  file = Some p → g_heap st !! p = Some guest → g_h2g_page_size guest = PAGE_SIZE →
  metadata_phy_page guest = start → 0 <= start → start mod PAGE_SIZE = 0 →
  start + 2 * PAGE_SIZE < 2 ^ 64 → 0 <= vm_pgoff → 0 <= nr_pages →
  guest_ivshmem_mmap file vm_pgoff nr_pages st = Ok (pfn, len) →
  start <= pfn * PAGE_SIZE ∧ pfn * PAGE_SIZE + len <= start + HOST_IVSHMEM_G2H_OFFSET.
Proof.
  intros -> Hg Hh Hm Hs Hal Hs2 Hp Hn. unfold guest_ivshmem_mmap. rewrite Hg, Hh, Hm.
  unfold GUEST_IVSHMEM_METADATA_SIZE, HOST_IVSHMEM_G2H_OFFSET, PAGE_SHIFT, PAGE_SIZE in *.
  rewrite (u64_id (4096 + 4096)) by lia.
  assert (Hoff : ∃ k, u64 (Z.shiftl vm_pgoff 12) = k * 4096).
  { rewrite Z.shiftl_mul_pow2 by lia. unfold u64. exists (vm_pgoff mod 2 ^ 52).
    change (2 ^ 64) with (2 ^ 52 * 2 ^ 12). change (2 ^ 12) with 4096.
    apply Zmult_mod_distr_r. }
  destruct Hoff as [k Hk]. pose proof (u64_range (Z.shiftl vm_pgoff 12)) as Hr. rewrite Hk in *.
  case_bool; [done|]. apply orb_false_iff in E as [E1 E2]. bool_hyps. intros [= <- <-].
  rewrite (u64_id (4096 + 4096 - _)) in E2 by lia. rewrite u64_id by lia.
  apply Z.mod_divide in Hal; [|lia]. destruct Hal as [q ->].
  rewrite Z.shiftr_div_pow2 by lia. replace (q * 4096 + k * 4096) with ((q + k) * 2 ^ 12) by lia.
  rewrite Z.div_mul by lia. lia.
Qed.

(** The rejection of a second device does not reject it: with a device
    published, probing another acceptable one returns success, replaces the
    published pointer and releases the mutex twice. *)
Theorem second_device_unlocks_twice env id st d p :
  pdevs st !! id = Some d → fresh_ok st → guest_ivshmem st = Some p → g_lock st = 0 →
  (guest_ivshmem_probe env id st).2 = Ok tt →
  guest_ivshmem (guest_ivshmem_probe env id st).1 = Some (g_fresh st) ∧
  g_lock (guest_ivshmem_probe env id st).1 = -1.
Proof.
  intros Hd Hf Hp Hl Hok. pose proof (probe_cases env id st d Hd Hf) as Hpc. cbv zeta in Hpc.
  destruct Hpc as [(e & He & _)|(hdr & page & _ & _ & _ & _ & Hst)]; [congruence|].
  rewrite Hst, Hp. simpl. split; [done|lia].
Qed.

(** Unplugging the device while the module is loaded frees the structure
    that holds the registered character device; the unload that follows
    dereferences the cleared pointer. *)
Theorem hot_unplug_leaves_cdev env id start m st :
  guest_ivshmem_init env [id] (guest0 {[id := plugged start m]}) = Ok (st, Ok tt) →
  ∃ st', guest_ivshmem_remove id st = Ok st' ∧ g_cdevs st' = {[0]} ∧ g_heap st' !! 0 = None ∧
    guest_ivshmem_exit [id] st' = Fault.
Proof.
  intros Hi. destruct (init_cases id start m env) as (st0 & r & Hi' & Hr).
  rewrite Hi in Hi'. simplify_eq. destruct Hr as [(hdr & page & _ & Hh) Hp Hl Hd Hc Hr Hcd Hn].
  unfold guest_ivshmem_remove. rewrite Hd, lookup_singleton_eq. simpl.
  rewrite Hp, decide_True by done. simpl. rewrite Hh, lookup_singleton_eq.
  eexists. split; [done|]. simpl. split; [done|]. split; [apply lookup_delete_eq|].
  unfold guest_ivshmem_exit, guest_ivshmem_unregister_chardev. simpl. by rewrite Hc.
Qed.

(** *** Witnesses: the guest of the VM registered in
    [HostIvshmemProps.one_vm], its BAR at [2 ^ 32]. *)

Definition w_mem : mem :=
  match devices HostIvshmemProps.one_vm !! 1 with
  | Some (Backend (Some m) _ _ _ _) => m
  | _ => mem_new 0
  end.

Definition w_ds : gmap Z pci_dev := {[5 := plugged (2 ^ 32) w_mem]}.

Definition w_guest : guestmod := (guest_ivshmem_probe probe_ok 5 (guest0 w_ds)).1.

Lemma w_linked : linked 5 w_guest HostIvshmemProps.one_vm.
Proof.
  destruct HostIvshmemProps.one_vm_ready as (b & Hb & Hwf). pose proof Hwf as (m & Hm & _).
  assert (Hwm : w_mem = m) by (unfold w_mem; rewrite Hb; destruct b; simpl in Hm; by subst).
  assert (Hbig : HOST_IVSHMEM_G2H_OFFSET + PAGE_SIZE <= b_size b).
  { assert (Hs : b_size <$> (devices HostIvshmemProps.one_vm !! 1) = Some 16384)
      by (vm_compute; reflexivity).
    rewrite Hb in Hs. injection Hs as ->. by vm_compute. }
  exists b, m. split_and!; try done. unfold w_guest, w_ds. rewrite Hwm.
  apply (probe_backend 5 (2 ^ 32) b m (guest0 {[5 := plugged (2 ^ 32) m]}) Hwf Hm Hbig).
  - apply lookup_singleton_eq.
  - intros k [x Hx]. simpl in Hx. by rewrite lookup_empty in Hx.
Qed.

Lemma guest_write_reaches_host_witness :
  ∃ m', bpf_host_ivshmem_g2h_read (share m' HostIvshmemProps.one_vm) 3 = Ok 1.
Proof.
  destruct (guest_write_reaches_host 5 w_guest HostIvshmemProps.one_vm 3 1)
    as (g' & m' & _ & _ & _ & H & _).
  - exact w_linked.
  - by vm_compute.
  - lia.
  - exists m'. exact H.
Defined.

Lemma probe_accepts_host_backend_witness :
  ∃ m g, guest_ivshmem_probe probe_ok 5 (guest0 {[5 := plugged 0 m]}) = (g, Ok tt) ∧
    linked 5 g HostIvshmemProps.one_vm.
Proof.
  destruct (probe_accepts_host_backend kenv_ok HostIvshmemProps.req4
    (loaded HostIvshmemProps.init_ok) HostIvshmemProps.one_vm (VmRegReq 4 0 16384) 5 0)
    as (b & m & g & _ & _ & H1 & _ & _ & H2).
  - apply loaded_state, HostIvshmemProps.loads_init_ok.
  - simpl. lia.
  - vm_compute. reflexivity.
  - exists m, g. split; [exact H1|]. apply H2. reflexivity.
Defined.

Lemma probe_error_restores_witness :
  ∃ e, (guest_ivshmem_probe probe_ok 5 (guest0 {[5 := plugged 0 (mem_new 8192)]})).2 = Err e ∧
    pdevs (guest_ivshmem_probe probe_ok 5 (guest0 {[5 := plugged 0 (mem_new 8192)]})).1 =
      {[5 := plugged 0 (mem_new 8192)]}.
Proof.
  destruct (probe_error_restores probe_ok 5 (guest0 {[5 := plugged 0 (mem_new 8192)]})
    (plugged 0 (mem_new 8192))) as [e He].
  - reflexivity.
  - intros k [x Hx]. simpl in Hx. by rewrite lookup_empty in Hx.
  - vm_compute. discriminate.
  - exists e. rewrite He. split; reflexivity.
Defined.

(** Mapping the host-to-guest page alone is accepted; the frame is its own. *)
Lemma mmap_stays_in_h2g_witness :
  2 ^ 32 <= 1048577 * PAGE_SIZE ∧ 1048577 * PAGE_SIZE + 4096 <= 2 ^ 32 + HOST_IVSHMEM_G2H_OFFSET.
Proof.
  apply (mmap_stays_in_h2g (Some 0) 1 1
    (set_heap {[0 := Guest 5 (Some (8192, 8192)) 16384 0 4096 (2 ^ 32)]} 1 (guest0 ∅)) 0
    (Guest 5 (Some (8192, 8192)) 16384 0 4096 (2 ^ 32)) (2 ^ 32) 1048577 4096).
  - reflexivity.
  - reflexivity.
  - reflexivity.
  - reflexivity.
  - lia.
  - reflexivity.
  - by vm_compute.
  - lia.
  - lia.
  - vm_compute. reflexivity.
Defined.

(** The second device is a copy of the first. *)
Lemma second_device_unlocks_twice_witness :
  let st := on_pdev 5 (set_drvdata None) w_guest in
  g_lock (guest_ivshmem_probe probe_ok 5 st).1 = -1.
Proof.
  intros st.
  assert (Hd : ∃ d, pdevs st !! 5 = Some d) by (eexists; vm_compute; reflexivity).
  destruct Hd as [d Hd].
  refine (proj2 (second_device_unlocks_twice probe_ok 5 st d 0 Hd _ _ _ _)).
  - intros k [x Hx]. assert (Hh : dom (g_heap st) = {[0]}) by (vm_compute; reflexivity).
    assert (Hk : k ∈ dom (g_heap st)) by (apply elem_of_dom; eauto).
    rewrite Hh in Hk. apply elem_of_singleton in Hk as ->. by vm_compute.
  - vm_compute. reflexivity.
  - vm_compute. reflexivity.
  - vm_compute. reflexivity.
Defined.

Lemma hot_unplug_leaves_cdev_witness :
  ∃ st st', guest_ivshmem_init load_ok [5] (guest0 w_ds) = Ok (st, Ok tt) ∧
    guest_ivshmem_remove 5 st = Ok st' ∧ guest_ivshmem_exit [5] st' = Fault.
Proof.
  assert (Hi : ∃ st, guest_ivshmem_init load_ok [5] (guest0 w_ds) = Ok (st, Ok tt))
    by (eexists; vm_compute; reflexivity).
  destruct Hi as [st Hi]. exists st.
  destruct (hot_unplug_leaves_cdev load_ok 5 (2 ^ 32) w_mem st) as (st' & H1 & _ & _ & H2).
  - exact Hi.
  - exists st'. split; [exact Hi|]. split; [exact H1|exact H2].
Defined.
End GuestIvshmemProps.
