(* ===== verification/OmpThreadReg.v ===== *)
(** OpenMP thread tracking in the guest: [omp_thread_reg.bpf.c].

    Probes on libgomp record the threads that run OpenMP code, exit and exec
    forget them, and every context switch of the guest tells the host, in the
    slot of the CPU, whether the thread that now runs there is one of them.
    The handlers get the thread and CPU numbers the helpers would return; the
    guest module is reached through the class [GuestKfuncs].  [running], the
    thread current on each CPU, is the guest scheduler's state. *)

From S2P Require Import Prelude BpfMap Host Memory HostIvshmem GuestIvshmem.

Definition OMP_THREADS_MAX_ENTRIES : Z := 1000000.

Record omp (G : Type) := Omp {
  omp_threads_map : gmap Z Z;
  omp_mod : G;
  running : Z → Z
}.
Arguments Omp {G} _ _ _.
Arguments omp_threads_map {G} o : rename.
Arguments omp_mod {G} o : rename.
Arguments running {G} o _ : rename.

Section omp.
Context {G : Type} `{GuestKfuncs G}.
Implicit Types st : omp G.

Definition set_threads (m : gmap Z Z) st : omp G := Omp m (omp_mod st) (running st).
Definition set_mod (g : G) st : omp G := Omp (omp_threads_map st) g (running st).

(** [bpf_map_update_elem(&omp_threads_map, &tid, &cpu, BPF_ANY)], its result
    ignored. *)
Definition record_thread (tid cpu : Z) st : omp G :=
  match hash_update OMP_THREADS_MAX_ENTRIES tid cpu (omp_threads_map st) with
  | Ok m => set_threads m st
  | _ => st
  end.

Definition capture_omp_master_thread (tid cpu : Z) st : omp G := record_thread tid cpu st.
Definition capture_omp_worker_threads (tid cpu : Z) st : omp G := record_thread tid cpu st.

(** [gh_msg.msg = v; bpf_guest_ivshmem_g2h_write(cpu, &gh_msg)], its result
    ignored. *)
Definition send (cpu v : Z) st : omp G := set_mod (guest_g2h_write (omp_mod st) cpu v).1 st.

Definition remove_current_tid (tid cpu : Z) st : omp G :=
  let st := match omp_threads_map st !! tid with
            | Some _ => send cpu 0 st
            | None => st
            end in
  set_threads (delete tid (omp_threads_map st)) st.

Definition remove_exited_omp_thread (tid cpu : Z) st : omp G := remove_current_tid tid cpu st.
Definition remove_execed_omp_thread (tid cpu : Z) st : omp G := remove_current_tid tid cpu st.

Definition handle_switch (prev_tid next_tid current_cpu : Z) st : omp G :=
  let st := match omp_threads_map st !! prev_tid with
            | Some _ => send current_cpu 0 st
            | None => st
            end in
  match omp_threads_map st !! next_tid with
  | Some _ => send current_cpu 1 st
  | None => st
  end.

(** ** Runs of the guest *)

Definition set_running (cpu tid : Z) st : omp G :=
  Omp (omp_threads_map st) (omp_mod st) (λ c, if decide (c = cpu) then tid else running st c).

(** What can happen on a CPU: its current thread enters a parallel region,
    starts as a worker, exits or execs (thread 0, the idle thread, does none of
    these), or the scheduler switches to a thread that runs nowhere else. *)
Inductive omp_step : omp G → omp G → Prop :=
  | step_master cpu st : 0 <= cpu → running st cpu ≠ 0 →
      omp_step st (capture_omp_master_thread (running st cpu) cpu st)
  | step_worker cpu st : 0 <= cpu → running st cpu ≠ 0 →
      omp_step st (capture_omp_worker_threads (running st cpu) cpu st)
  | step_exit cpu st : 0 <= cpu → running st cpu ≠ 0 →
      omp_step st (remove_exited_omp_thread (running st cpu) cpu st)
  | step_exec cpu st : 0 <= cpu → running st cpu ≠ 0 →
      omp_step st (remove_execed_omp_thread (running st cpu) cpu st)
  | step_switch cpu next st : 0 <= cpu →
      next = 0 ∨ (∀ c, c ≠ cpu → running st c ≠ next) →
      omp_step st (set_running cpu next (handle_switch (running st cpu) next cpu st)).
End omp.

(** ** The invariant *)

(** CPUs that have a slot in the page. *)
Abbreviation has_slot cpu := (0 <= cpu < NR_GUEST_IVSHMEM_MSGS).

Section invariant.
Context {G : Type} `{GuestKfuncsLaws G}.
Implicit Types st : omp G.

Definition tracked st (tid : Z) : Prop := is_Some (omp_threads_map st !! tid).

#[global] Instance tracked_dec st tid : Decision (tracked st tid).
Proof. unfold tracked. apply _. Defined.

(** Every CPU with a slot says 0 or 1, and says 1 only while it runs a tracked
    thread; a thread other than the idle one runs on one CPU at a time, and
    the idle thread is never tracked. *)
Record omp_inv st : Prop := {
  inv_up : g2h_up (omp_mod st);
  inv_word cpu : has_slot cpu → g2h_word (omp_mod st) cpu = 0 ∨ g2h_word (omp_mod st) cpu = 1;
  inv_tracked cpu : has_slot cpu → g2h_word (omp_mod st) cpu = 1 → tracked st (running st cpu);
  inv_once c c' : running st c = running st c' → running st c ≠ 0 → c = c';
  inv_idle : ¬ tracked st 0
}.

Lemma running_switch prev next cpu st : running (handle_switch prev next cpu st) = running st.
Proof. unfold handle_switch. by repeat case_match. Qed.

Lemma running_record tid cpu st : running (record_thread tid cpu st) = running st.
Proof. unfold record_thread. by case_match. Qed.

(** The effect of a message on the words. *)
Lemma send_spec cpu v st :
  g2h_up (omp_mod st) → 0 <= cpu → v = 0 ∨ v = 1 →
  let st' := send cpu v st in
  g2h_up (omp_mod st') ∧ omp_threads_map st' = omp_threads_map st ∧ running st' = running st ∧
  ∀ c, has_slot c →
    g2h_word (omp_mod st') c = if decide (c = cpu) then v else g2h_word (omp_mod st) c.
Proof.
  intros Hup Hcpu Hv. unfold send. simpl.
  destruct (decide (cpu < NR_GUEST_IVSHMEM_MSGS)) as [Hlt|Hge].
  - destruct (g2h_write_slot (omp_mod st) cpu v) as (g' & Hw & Hup' & Hset & Hoth);
      [done|lia|lia|]. rewrite Hw. simpl. split_and!; try done.
    intros c Hc. case_decide; [by subst|]. by apply Hoth.
  - rewrite g2h_write_past by lia. simpl. split_and!; try done.
    intros c Hc. case_decide; [lia|done].
Qed.

Lemma record_thread_inv tid cpu st : tid ≠ 0 → omp_inv st → omp_inv (record_thread tid cpu st).
Proof.
  intros Htid Hi. unfold record_thread.
  destruct (hash_update OMP_THREADS_MAX_ENTRIES tid cpu (omp_threads_map st)) as [m| |] eqn:E;
    [|done..].
  assert (Hm : m = <[tid := cpu]> (omp_threads_map st)).
  { unfold hash_update in E. repeat case_match; by simplify_eq. }
  destruct Hi as [Hup Hw Ht Ho Hid]. subst m. split; simpl; try done.
  - intros c Hc Hone. unfold tracked in *. simpl. rewrite lookup_insert.
    case_decide; [done|]. by apply Ht.
  - unfold tracked in *. simpl. by rewrite lookup_insert_ne.
Qed.

(** The message both handlers send first: if the current thread is tracked, the
    slot of its CPU is cleared; if it is not, it already was. *)
Lemma clear_spec cpu st :
  0 <= cpu → omp_inv st →
  let st1 := match omp_threads_map st !! running st cpu with
             | Some _ => send cpu 0 st
             | None => st
             end in
  g2h_up (omp_mod st1) ∧ omp_threads_map st1 = omp_threads_map st ∧ running st1 = running st ∧
  ∀ c, has_slot c → g2h_word (omp_mod st1) c = if decide (c = cpu) then 0 else g2h_word (omp_mod st) c.
Proof.
  intros Hcpu Hi. destruct (omp_threads_map st !! running st cpu) eqn:E.
  - apply send_spec; [apply Hi|done|by left].
  - split_and!; try done; [apply Hi|]. intros c Hc. case_decide as Hd; [subst c|done].
    destruct (inv_word _ Hi cpu Hc) as [|Hone]; [done|].
    apply (inv_tracked _ Hi) in Hone; [|done]. destruct Hone as [x Hx]. congruence.
Qed.

Lemma remove_inv cpu st :
  0 <= cpu → running st cpu ≠ 0 → omp_inv st →
  let st' := remove_current_tid (running st cpu) cpu st in
  omp_inv st' ∧ ¬ tracked st' (running st cpu) ∧
  (has_slot cpu → g2h_word (omp_mod st') cpu = 0).
Proof.
  intros Hcpu Hrun Hi. unfold remove_current_tid.
  set (st1 := match omp_threads_map st !! running st cpu with Some _ => _ | None => st end).
  pose proof (clear_spec cpu st Hcpu Hi) as H1. cbv zeta in H1. fold st1 in H1.
  clearbody st1. destruct H1 as (Hup & Hm & Hr & Hw).
  destruct Hi as [_ Hw0 Ht0 Ho0 Hid0]. split; [|split].
  - split; simpl; rewrite ?Hr.
    + done.
    + intros c Hc. rewrite Hw by done. case_decide; [by left|by apply Hw0].
    + intros c Hc. rewrite Hw by done. case_decide as Hd; [done|]. intros Hone.
      unfold tracked. simpl. rewrite Hm, lookup_delete_ne; [by apply Ht0|].
      intros He. apply Hd. apply (Ho0 c cpu); congruence.
    + apply Ho0.
    + unfold tracked in *. simpl. rewrite Hm, lookup_delete_ne; done.
  - unfold tracked. simpl. rewrite lookup_delete_eq. by intros [x Hx].
  - intros Hc. simpl. rewrite Hw by done. by rewrite decide_True.
Qed.

(** After a context switch the slot of the CPU is exact. *)
Lemma switch_exact cpu next st :
  0 <= cpu → omp_inv st →
  let st' := handle_switch (running st cpu) next cpu st in
  g2h_up (omp_mod st') ∧ omp_threads_map st' = omp_threads_map st ∧ running st' = running st ∧
  ∀ c, has_slot c →
    g2h_word (omp_mod st') c =
      if decide (c = cpu) then (if decide (tracked st next) then 1 else 0)
      else g2h_word (omp_mod st) c.
Proof.
  intros Hcpu Hi. unfold handle_switch.
  set (st1 := match omp_threads_map st !! running st cpu with Some _ => _ | None => st end).
  pose proof (clear_spec cpu st Hcpu Hi) as H1. cbv zeta in H1. fold st1 in H1.
  clearbody st1. destruct H1 as (Hup & Hm & Hr & Hw). rewrite Hm.
  destruct (decide (tracked st next)) as [[x E]|E].
  - rewrite E. destruct (send_spec cpu 1 st1) as (Hup2 & Hm2 & Hr2 & Hw2); [done|done|by right|].
    split_and!; try done; [congruence..|]. intros c Hc. rewrite Hw2 by done.
    case_decide; [done|]. rewrite Hw by done. by rewrite decide_False.
  - apply eq_None_not_Some in E. rewrite E. split_and!; try done.
Qed.

Lemma switch_inv cpu next st :
  0 <= cpu → next = 0 ∨ (∀ c, c ≠ cpu → running st c ≠ next) → omp_inv st →
  omp_inv (set_running cpu next (handle_switch (running st cpu) next cpu st)).
Proof.
  intros Hcpu Hnext Hi. destruct (switch_exact cpu next st Hcpu Hi) as (Hup & Hm & Hr & Hw).
  set (st' := handle_switch (running st cpu) next cpu st) in *. clearbody st'.
  destruct Hi as [_ Hw0 Ht0 Ho0 Hid0]. split; simpl.
  - done.
  - intros c Hc. rewrite Hw by done. repeat case_decide; auto.
  - intros c Hc. rewrite Hw by done. unfold tracked. simpl. rewrite Hm, Hr.
    destruct (decide (c = cpu)) as [->|Hne]; [|by apply Ht0].
    by destruct (decide _).
  - intros c c'. rewrite Hr. destruct (decide (c = cpu)), (decide (c' = cpu)); subst; try done.
    + intros He Hz. destruct Hnext as [->|Hnext]; [done|]. exfalso. by apply (Hnext c').
    + intros He Hz. destruct Hnext as [->|Hnext]; [congruence|]. exfalso. by apply (Hnext c).
    + apply Ho0.
  - unfold tracked. simpl. rewrite Hm. exact Hid0.
Qed.

Lemma step_inv st st' : omp_step st st' → omp_inv st → omp_inv st'.
Proof.
  intros [cpu st0 Hc Hr|cpu st0 Hc Hr|cpu st0 Hc Hr|cpu st0 Hc Hr|cpu next st0 Hc Hn] Hi.
  - by apply record_thread_inv.
  - by apply record_thread_inv.
  - by apply remove_inv.
  - by apply remove_inv.
  - by apply switch_inv.
Qed.

Lemma steps_inv st st' : rtc omp_step st st' → omp_inv st → omp_inv st'.
Proof. induction 1; [done|]. intros Hi. eauto using step_inv. Qed.

(** The guest when the program is loaded: no thread tracked, all CPUs idle, the
    slots zero. *)
Definition omp_start (g : G) : omp G := Omp ∅ g (λ _, 0).

Lemma start_inv g :
  g2h_up g → (∀ c, has_slot c → g2h_word g c = 0) → omp_inv (omp_start g).
Proof.
  intros Hup Hz. split; simpl; try done; auto.
  - intros c Hc Hone. rewrite Hz in Hone by done. lia.
  - unfold tracked. simpl. by intros [x Hx].
Qed.
End invariant.

Module OmpThreadRegProps.
Section props.
Context {G : Type} `{GuestKfuncsLaws G}.
Implicit Types st : omp G.

(** C29: the guest never claims an OpenMP thread that is not there: in every
    state reachable through probes, exits, execs and context switches on any
    CPUs, each slot is 0 or 1 and is 1 only while the CPU runs a tracked
    thread. *)
Theorem omp_slots_sound g st cpu :
  g2h_up g → (∀ c, has_slot c → g2h_word g c = 0) → rtc omp_step (omp_start g) st →
  has_slot cpu →
  (g2h_word (omp_mod st) cpu = 0 ∨ g2h_word (omp_mod st) cpu = 1) ∧
  (g2h_word (omp_mod st) cpu = 1 → tracked st (running st cpu)).
Proof.
  intros Hup Hz Hst Hc. pose proof (steps_inv _ _ Hst (start_inv g Hup Hz)) as Hi.
  split; [by apply Hi|by apply (inv_tracked _ Hi)].
Qed.

(** A context switch makes the slot exact: afterwards the slot of the CPU
    is 1 exactly when the incoming thread is tracked, and no other slot has
    changed. *)
Theorem switch_slot_exact st cpu next :
  omp_inv st → has_slot cpu →
  let st' := handle_switch (running st cpu) next cpu st in
  (g2h_word (omp_mod st') cpu = 1 ↔ tracked st next) ∧
  (g2h_word (omp_mod st') cpu = 0 ↔ ¬ tracked st next) ∧
  ∀ c, has_slot c → c ≠ cpu → g2h_word (omp_mod st') c = g2h_word (omp_mod st) c.
Proof.
  intros Hi Hc st'. destruct (switch_exact cpu next st ltac:(lia) Hi) as (_ & _ & _ & Hw).
  fold st' in Hw. rewrite (Hw cpu Hc), decide_True by done.
  split_and!.
  - destruct (decide (tracked st next)); split; done.
  - destruct (decide (tracked st next)); split; done.
  - intros c Hc' Hne. rewrite Hw by done. by rewrite decide_False.
Qed.

(** A thread that exits or execs on a CPU is forgotten and the CPU's slot
    is cleared at once, before its last context switch. *)
Theorem exit_clears_slot st cpu :
  omp_inv st → has_slot cpu → running st cpu ≠ 0 →
  let st' := remove_exited_omp_thread (running st cpu) cpu st in
  omp_inv st' ∧ ¬ tracked st' (running st cpu) ∧ g2h_word (omp_mod st') cpu = 0.
Proof.
  intros Hi Hc Hr. destruct (remove_inv cpu st ltac:(lia) Hr Hi) as (H1 & H2 & H3).
  split; [exact H1|]. split; [exact H2|by apply H3].
Qed.

(** A CPU beyond the 64 slots of the page is never reported: its context
    switches leave every slot as it was, whatever threads run there. *)
Theorem cpu_past_page_not_reported st cpu prev next c :
  g2h_up (omp_mod st) → NR_GUEST_IVSHMEM_MSGS <= cpu → has_slot c →
  g2h_word (omp_mod (handle_switch prev next cpu st)) c = g2h_word (omp_mod st) c.
Proof.
  intros Hup Hcpu Hc. unfold handle_switch.
  assert (Hs : ∀ v s, omp_mod (send cpu v s) = omp_mod s).
  { intros v s. unfold send. simpl. by rewrite g2h_write_past. }
  assert (Hm : ∀ v s, omp_threads_map (send cpu v s) = omp_threads_map s) by done.
  repeat case_match; rewrite ?Hs; done.
Qed.
End props.

(** *** Witnesses: the guest of [GuestIvshmemProps.w_guest]. *)

Definition o_start : omp guestmod := omp_start GuestIvshmemProps.w_guest.

(** Thread 7 runs on CPU 2, enters a parallel region, leaves and returns. *)
Definition o_st1 : omp guestmod := set_running 2 7 (handle_switch (running o_start 2) 7 2 o_start).
Definition o_st2 : omp guestmod := capture_omp_master_thread (running o_st1 2) 2 o_st1.
Definition o_st3 : omp guestmod := set_running 2 0 (handle_switch (running o_st2 2) 0 2 o_st2).
Definition o_st4 : omp guestmod := set_running 2 7 (handle_switch (running o_st3 2) 7 2 o_st3).

Lemma o_up : g2h_up GuestIvshmemProps.w_guest.
Proof. destruct GuestIvshmemProps.w_linked as (b & m & _ & _ & _ & Hp). by exists 5, HOST_IVSHMEM_G2H_OFFSET, m. Qed.

Lemma o_zero c : has_slot c → g2h_word GuestIvshmemProps.w_guest c = 0.
Proof.
  assert (Hall : Forall (λ c, g2h_word GuestIvshmemProps.w_guest c = 0) (Z.of_nat <$> seq 0 64)).
  { apply Forall_forall. intros x Hx. apply list_elem_of_fmap in Hx as (k & -> & Hk).
    apply elem_of_seq in Hk.
    assert (Hb : forallb (λ k, guest_word GuestIvshmemProps.w_guest (Z.of_nat k) =? 0) (seq 0 64) = true)
      by (vm_compute; reflexivity).
    rewrite forallb_forall in Hb. apply Z.eqb_eq. apply Hb. apply in_seq. lia. }
  rewrite Forall_forall in Hall. intros Hc. apply Hall. apply list_elem_of_fmap.
  exists (Z.to_nat c). change NR_GUEST_IVSHMEM_MSGS with 64 in Hc. split; [lia|].
  apply elem_of_seq. lia.
Qed.

Lemma o_reached : rtc omp_step o_start o_st4.
Proof.
  apply rtc_l with o_st1.
  { apply (step_switch 2 7 o_start); [lia|]. right. intros c _. simpl. lia. }
  apply rtc_l with o_st2.
  { apply (step_master 2 o_st1); [lia|]. simpl. lia. }
  apply rtc_l with o_st3.
  { unfold o_st3. generalize o_st2. intros s. apply step_switch; [lia|]. by left. }
  apply rtc_once. unfold o_st4. apply step_switch; [lia|].
  right. intros c Hc. unfold o_st3, o_st2, capture_omp_master_thread. cbn [running set_running].
  rewrite decide_False, running_switch, running_record by done.
  unfold o_st1. cbn [running set_running]. rewrite decide_False, running_switch by done.
  simpl. lia.
Qed.

Lemma o_inv : omp_inv o_st4.
Proof. eapply steps_inv; [exact o_reached|]. apply start_inv; [exact o_up|exact o_zero]. Qed.

Lemma o_slot : has_slot 2.
Proof. by vm_compute. Qed.

Lemma omp_slots_sound_witness :
  g2h_word (omp_mod o_st4) 2 = 1 ∧ tracked o_st4 (running o_st4 2).
Proof.
  assert (Hone : guest_word (omp_mod o_st4) 2 = 1) by (vm_compute; reflexivity).
  split; [exact Hone|].
  refine (proj2 (omp_slots_sound GuestIvshmemProps.w_guest o_st4 2 o_up o_zero o_reached o_slot) Hone).
Defined.

Lemma switch_slot_exact_witness :
  g2h_word (omp_mod (handle_switch (running o_st4 2) 9 2 o_st4)) 2 = 0.
Proof.
  refine (proj2 (proj1 (proj2 (switch_slot_exact o_st4 2 9 o_inv o_slot))) _).
  intros [x Hx]. revert Hx. vm_compute. discriminate.
Defined.

Lemma exit_clears_slot_witness :
  g2h_word (omp_mod (remove_exited_omp_thread (running o_st4 2) 2 o_st4)) 2 = 0.
Proof.
  refine (proj2 (proj2 (exit_clears_slot o_st4 2 o_inv o_slot _))).
  vm_compute. discriminate.
Defined.

Lemma cpu_past_page_not_reported_witness :
  g2h_word (omp_mod (handle_switch 0 7 70 o_st4)) 2 = g2h_word (omp_mod o_st4) 2.
Proof.
  apply cpu_past_page_not_reported.
  - exact (inv_up _ o_inv).
  - by vm_compute.
  - exact o_slot.
Defined.
End OmpThreadRegProps.
