(* ===== verification/GuestProbes.v ===== *)
(** The experiments' probes in the guest: [barrier_sync.bpf.c] and
    [dop_decision.bpf.c].

    The programs only observe: each handler is a function of the thread map, of
    the arguments of its probe and of the memory of the probed process, and
    returns the lines it writes with [bpf_printk].  The switch probe runs beside
    the handler of [OmpThreadReg] on the same map, so its lines can be compared
    with what the guest tells the host.  [bpf_probe_read_user] copies bytes that
    are all mapped or fails; [bpf_usdt_arg] fails on an argument the probe does
    not carry. *)

From S2P Require Import Prelude BpfMap Host Memory HostIvshmem GuestIvshmem OmpThreadReg.

Definition FUTEX_WAIT : Z := 0.

(** The lines of the two programs, one constructor per format string. *)
Inductive trace_line :=
  | Preempted (core tid : Z)
  | FutexWait (core tid : Z)
  | DoWait (core tid : Z)
  | PhantomAverage (core tid avg : Z)
  | DopDecision (dop phant_avg idle_avg : Z)
  | DynMaxThreads (dop : Z).

#[global] Instance trace_line_eq_dec : EqDecision trace_line.
Proof. solve_decision. Defined.

(** ** [barrier_sync.bpf.c] *)

(** [res != NULL] guards every line that needs a registered thread. *)
Definition when_registered (threads : gmap Z Z) (tid : Z) (l : list trace_line) : list trace_line :=
  match threads !! tid with Some _ => l | None => [] end.

Definition gomp_switch_handler (threads : gmap Z Z) (core prev_pid : Z) : list trace_line :=
  let omp_tid := u32 prev_pid in
  when_registered threads omp_tid [Preempted core omp_tid].

(** [pid_tgid] is what [bpf_get_current_pid_tgid()] returns, [args] the arguments
    of the system call. *)
Definition gomp_futex_enter (threads : gmap Z Z) (core pid_tgid : Z) (args : list Z) : list trace_line :=
  let omp_tid := u32 pid_tgid in
  when_registered threads omp_tid
    (if bool_decide (args !! 1%nat = Some FUTEX_WAIT) then [FutexWait core omp_tid] else []).

Definition gomp_do_wait_handler (threads : gmap Z Z) (core pid_tgid : Z) : list trace_line :=
  let omp_tid := u32 pid_tgid in
  when_registered threads omp_tid [DoWait core omp_tid].

(** [bpf_usdt_arg(ctx, n, &res)]: a [long], or an error. *)
Definition bpf_usdt_arg (args : list Z) (n : nat) : option Z := s64 <$> args !! n.

Definition gomp_phantom_average_handler (core pid_tgid : Z) (args : list Z) : list trace_line :=
  match bpf_usdt_arg args 0 with
  | None => []
  | Some phantom_avg => [PhantomAverage core (u32 pid_tgid) phantom_avg]
  end.

(** ** [dop_decision.bpf.c] *)

Record juunansei_decision := Decision_ {
  host_watermark : Z;   (* __u64 *)
  timestamp : Z;        (* __u64 *)
  d_phantom_average : Z; (* __s32 *)
  decision_nr : Z;      (* __s32 *)
  curr_dop : Z;         (* __s32 *)
  prev_dop : Z;         (* __s32 *)
  active_dop : Z        (* __s32 *)
}.

Record juunansei_context := Context_ {
  c_phantom_average : Z; (* __s32 *)
  idle_average : Z;      (* __s32 *)
  min_idle_average : Z   (* __s32 *)
}.

(** Both structures fill a line of 64 bytes. *)
Definition JUUNANSEI_SIZE : nat := 64.

(** [bpf_probe_read_user(dst, n, addr)]: the bytes, if all are mapped. *)
Fixpoint bpf_probe_read_user (n : nat) (addr : Z) (user : gmap Z Z) : option (list Z) :=
  match n with
  | O => Some []
  | S n' => b ← user !! addr; l ← bpf_probe_read_user n' (addr + 1) user; Some (b :: l)
  end.

(** A little-endian field of [n] bytes at [off] of a copied structure. *)
Definition field (off n : nat) (l : list Z) : Z :=
  foldr (λ b x, b + 256 * x) 0 (take n (drop off l)).

Definition get_decision (l : list Z) : juunansei_decision :=
  Decision_ (field 0 8 l) (field 8 8 l) (s32 (field 16 4 l)) (s32 (field 20 4 l))
    (s32 (field 24 4 l)) (s32 (field 28 4 l)) (s32 (field 32 4 l)).

Definition get_context (l : list Z) : juunansei_context :=
  Context_ (s32 (field 0 4 l)) (s32 (field 4 4 l)) (s32 (field 8 4 l)).

Definition gomp_dop_decision_handler (args : list Z) (user : gmap Z Z) : list trace_line :=
  match bpf_usdt_arg args 0 with
  | None => []
  | Some decision_addr =>
  match bpf_usdt_arg args 2 with
  | None => []
  | Some context_addr =>
  match bpf_probe_read_user JUUNANSEI_SIZE (u64 decision_addr) user with
  | None => []
  | Some decision =>
  match bpf_probe_read_user JUUNANSEI_SIZE (u64 context_addr) user with
  | None => []
  | Some context =>
      let decision := get_decision decision in
      [DopDecision (curr_dop decision) (d_phantom_average decision)
         (idle_average (get_context context))]
  end end end end.

Definition gomp_dyn_max_threads_handler (args : list Z) : list trace_line :=
  match bpf_usdt_arg args 0 with
  | None => []
  | Some dop => [DynMaxThreads (s32 (u64 dop))]
  end.

(** ** Reading structures of the probed process *)

Definition mapped (user : gmap Z Z) (addr : Z) (n : nat) : Prop :=
  ∀ i, addr <= i < addr + Z.of_nat n → is_Some (user !! i).

(** An address passed as a [long] is the address. *)
Lemma usdt_addr args n a : args !! n = Some a → is_u64 a → u64 <$> bpf_usdt_arg args n = Some a.
Proof.
  intros Hn Ha. unfold bpf_usdt_arg. rewrite Hn. cbn. f_equal. unfold u64, s64.
  rewrite Zminus_mod_idemp_l. replace (a + 2 ^ 63 - 2 ^ 63) with a by lia. by apply Z.mod_small.
Qed.

(** The handler on addresses. *)
Lemma dop_handler_at user a status b :
  is_u64 a → is_u64 b →
  gomp_dop_decision_handler [a; status; b] user =
    match bpf_probe_read_user JUUNANSEI_SIZE a user, bpf_probe_read_user JUUNANSEI_SIZE b user with
    | Some x, Some y => [DopDecision (curr_dop (get_decision x)) (d_phantom_average (get_decision x))
                           (idle_average (get_context y))]
    | _, _ => []
    end.
Proof.
  intros Ha Hb. pose proof (usdt_addr [a; status; b] 0 a eq_refl Ha) as H0.
  pose proof (usdt_addr [a; status; b] 2 b eq_refl Hb) as H2.
  apply fmap_Some in H0 as (xa & E0 & H0), H2 as (xb & E2 & H2).
  unfold gomp_dop_decision_handler. rewrite E0, E2, <-H0, <-H2.
  by destruct (bpf_probe_read_user JUUNANSEI_SIZE a user), (bpf_probe_read_user JUUNANSEI_SIZE b user).
Qed.

Lemma probe_read_mapped n addr user :
  mapped user addr n → is_Some (bpf_probe_read_user n addr user).
Proof.
  revert addr. induction n as [|n IH]; intros addr Hm; simpl; [done|].
  destruct (Hm addr) as [b ->]; [lia|]. simpl.
  destruct (IH (addr + 1)) as [l ->]; [intros i Hi; apply Hm; lia|]. done.
Qed.

Lemma probe_read_unmapped n addr user i :
  addr <= i < addr + Z.of_nat n → user !! i = None → bpf_probe_read_user n addr user = None.
Proof.
  revert addr. induction n as [|n IH]; intros addr Hi Hu; simpl; [lia|].
  destruct (decide (i = addr)) as [->|Hne]; [by rewrite Hu|].
  destruct (user !! addr); simpl; [|done]. rewrite IH; [done|lia|done].
Qed.

(** A field of the copy is the word of the memory it was copied from. *)
Lemma field_head n addr user m l :
  bpf_probe_read_user m addr user = Some l → (n <= m)%nat → field 0 n l = load_le n addr user.
Proof.
  unfold field. rewrite drop_0. revert addr m l. induction n as [|n IH]; intros addr m l Hl Hn.
  { by rewrite take_0. }
  destruct m as [|m]; [lia|]. simpl in Hl. apply bind_Some in Hl as (b & Hb & Hl).
  apply bind_Some in Hl as (l' & Hl & [= <-]). simpl. unfold byte_at. rewrite Hb. simpl.
  rewrite (IH (addr + 1) m l'); [done|done|lia].
Qed.

Lemma field_load off n addr user m l :
  bpf_probe_read_user m addr user = Some l → (off + n <= m)%nat →
  field off n l = load_le n (addr + Z.of_nat off) user.
Proof.
  revert addr m l. induction off as [|off IH]; intros addr m l Hl Hn.
  { rewrite Z.add_0_r. by eapply field_head. }
  destruct m as [|m]; [lia|]. simpl in Hl. apply bind_Some in Hl as (b & Hb & Hl).
  apply bind_Some in Hl as (l' & Hl & [= <-]).
  change (field (S off) n (b :: l')) with (field off n l').
  rewrite (IH (addr + 1) m l') by (done || lia). f_equal. lia.
Qed.

(** A member of type [__s32], stored at its address. *)
Definition put_s32 (addr v : Z) (user : gmap Z Z) : gmap Z Z := store_le 4 addr v user.

(** The structures in the memory of the process. *)
Definition put_decision (a : Z) (d : juunansei_decision) (user : gmap Z Z) : gmap Z Z :=
  store_le 8 a (host_watermark d) $ store_le 8 (a + 8) (timestamp d) $
  put_s32 (a + 16) (d_phantom_average d) $ put_s32 (a + 20) (decision_nr d) $
  put_s32 (a + 24) (curr_dop d) $ put_s32 (a + 28) (prev_dop d) $
  put_s32 (a + 32) (active_dop d) user.

Definition put_context (a : Z) (c : juunansei_context) (user : gmap Z Z) : gmap Z Z :=
  put_s32 a (c_phantom_average c) $ put_s32 (a + 4) (idle_average c) $
  put_s32 (a + 8) (min_idle_average c) user.

Record decision_ok (d : juunansei_decision) : Prop := {
  ok_watermark : is_u64 (host_watermark d);
  ok_timestamp : is_u64 (timestamp d);
  ok_d_phantom : is_s32 (d_phantom_average d);
  ok_nr : is_s32 (decision_nr d);
  ok_curr : is_s32 (curr_dop d);
  ok_prev : is_s32 (prev_dop d);
  ok_active : is_s32 (active_dop d)
}.

Record context_ok (c : juunansei_context) : Prop := {
  ok_c_phantom : is_s32 (c_phantom_average c);
  ok_idle : is_s32 (idle_average c);
  ok_min_idle : is_s32 (min_idle_average c)
}.

Lemma store_le_mapped n off v user i : is_Some (user !! i) → is_Some (store_le n off v user !! i).
Proof.
  revert off v user. induction n as [|n IH]; intros off v user Hi; simpl; [done|].
  apply IH. destruct (decide (i = off)) as [->|Hne].
  - rewrite lookup_insert_eq. eauto.
  - by rewrite lookup_insert_ne.
Qed.

Lemma s32_load_put addr v user : is_s32 v → s32 (load_le 4 addr (put_s32 addr v user)) = v.
Proof.
  intros Hv. unfold put_s32. rewrite load_le_store. unfold s32.
  change (256 ^ Z.of_nat 4) with (2 ^ 32). rewrite Zplus_mod_idemp_l.
  rewrite Z.mod_small; lia.
Qed.

Lemma put_decision_mapped a d user i : is_Some (user !! i) → is_Some (put_decision a d user !! i).
Proof. intros Hi. unfold put_decision, put_s32. by repeat apply store_le_mapped. Qed.

Lemma put_context_mapped a c user i : is_Some (user !! i) → is_Some (put_context a c user !! i).
Proof. intros Hi. unfold put_context, put_s32. by repeat apply store_le_mapped. Qed.

(** The memory holds the structure at the address. *)
Record holds_decision (user : gmap Z Z) (a : Z) (d : juunansei_decision) : Prop := {
  hd_watermark : load_le 8 (a + 0) user = host_watermark d;
  hd_timestamp : load_le 8 (a + 8) user = timestamp d;
  hd_phantom : s32 (load_le 4 (a + 16) user) = d_phantom_average d;
  hd_nr : s32 (load_le 4 (a + 20) user) = decision_nr d;
  hd_curr : s32 (load_le 4 (a + 24) user) = curr_dop d;
  hd_prev : s32 (load_le 4 (a + 28) user) = prev_dop d;
  hd_active : s32 (load_le 4 (a + 32) user) = active_dop d
}.

Record holds_context (user : gmap Z Z) (a : Z) (c : juunansei_context) : Prop := {
  hc_phantom : s32 (load_le 4 (a + 0) user) = c_phantom_average c;
  hc_idle : s32 (load_le 4 (a + 4) user) = idle_average c;
  hc_min : s32 (load_le 4 (a + 8) user) = min_idle_average c
}.

Lemma u64_load_put addr v user : is_u64 v → load_le 8 addr (store_le 8 addr v user) = v.
Proof. intros Hv. rewrite load_le_store. by apply Z.mod_small. Qed.

Lemma put_holds_decision a d user : decision_ok d → holds_decision (put_decision a d user) a d.
Proof.
  intros []. unfold put_decision, put_s32. rewrite <-(Z.add_0_r a) at 1.
  split; rewrite ?load_le_store_out by lia; by first [apply u64_load_put|apply s32_load_put].
Qed.

Lemma put_holds_context a c user : context_ok c → holds_context (put_context a c user) a c.
Proof.
  intros []. unfold put_context, put_s32. rewrite <-(Z.add_0_r a) at 1.
  split; rewrite ?load_le_store_out by lia; by apply s32_load_put.
Qed.

(** Storing a context elsewhere keeps the decision. *)
Lemma holds_decision_put user a d b c :
  a + 64 <= b ∨ b + 64 <= a → holds_decision user a d → holds_decision (put_context b c user) a d.
Proof.
  intros Hd []. unfold put_context, put_s32. split; by rewrite !load_le_store_out by lia.
Qed.

Lemma get_decision_holds user a d l :
  bpf_probe_read_user JUUNANSEI_SIZE a user = Some l → holds_decision user a d → get_decision l = d.
Proof.
  intros Hl []. destruct d. unfold get_decision.
  rewrite !(field_load _ _ _ _ _ _ Hl) by (unfold JUUNANSEI_SIZE; lia). by f_equal.
Qed.

Lemma get_context_holds user a c l :
  bpf_probe_read_user JUUNANSEI_SIZE a user = Some l → holds_context user a c → get_context l = c.
Proof.
  intros Hl []. destruct c. unfold get_context.
  rewrite !(field_load _ _ _ _ _ _ Hl) by (unfold JUUNANSEI_SIZE; lia). by f_equal.
Qed.

(** ** A guest watched by the probes *)

Section probed.
Context {G : Type} `{GuestKfuncsLaws G}.
Implicit Types st : omp G.

(** The guest, the lines written so far, the threads that were ever recorded, and
    the withdrawals: the context switches away from a CPU whose slot said 1. *)
Record probed := Probed {
  pr_omp : omp G;
  pr_log : list trace_line;
  pr_seen : gset Z;
  pr_withdrawn : list (Z * Z)
}.

(** [bpf_get_current_pid_tgid()] of a thread: its group above, itself below. *)
Definition pid_tgid (tgid tid : Z) : Z := Z.lor (Z.shiftl tgid 32) tid.

Definition withdrawal st (cpu : Z) : list (Z * Z) :=
  if bool_decide (has_slot cpu ∧ g2h_word (omp_mod st) cpu = 1) then [(cpu, running st cpu)] else [].

Inductive probed_step : probed → probed → Prop :=
  | pr_master cpu st l s w : 0 <= cpu → running st cpu ≠ 0 →
      probed_step (Probed st l s w)
        (Probed (capture_omp_master_thread (running st cpu) cpu st) l ({[running st cpu]} ∪ s) w)
  | pr_worker cpu st l s w : 0 <= cpu → running st cpu ≠ 0 →
      probed_step (Probed st l s w)
        (Probed (capture_omp_worker_threads (running st cpu) cpu st) l ({[running st cpu]} ∪ s) w)
  | pr_exit cpu st l s w : 0 <= cpu → running st cpu ≠ 0 →
      probed_step (Probed st l s w) (Probed (remove_exited_omp_thread (running st cpu) cpu st) l s w)
  | pr_exec cpu st l s w : 0 <= cpu → running st cpu ≠ 0 →
      probed_step (Probed st l s w) (Probed (remove_execed_omp_thread (running st cpu) cpu st) l s w)
  | pr_switch cpu next st l s w : 0 <= cpu → is_s32 next → 0 <= next →
      next = 0 ∨ (∀ c, c ≠ cpu → running st c ≠ next) →
      probed_step (Probed st l s w)
        (Probed (set_running cpu next (handle_switch (running st cpu) next cpu st))
           (l ++ gomp_switch_handler (omp_threads_map st) cpu (running st cpu)) s
           (w ++ withdrawal st cpu))
  | pr_futex cpu tgid args st l s w : 0 <= cpu → is_u32 tgid →
      probed_step (Probed st l s w)
        (Probed st (l ++ gomp_futex_enter (omp_threads_map st) cpu
                           (pid_tgid tgid (running st cpu)) args) s w)
  | pr_do_wait cpu tgid st l s w : 0 <= cpu → is_u32 tgid →
      probed_step (Probed st l s w)
        (Probed st (l ++ gomp_do_wait_handler (omp_threads_map st) cpu
                           (pid_tgid tgid (running st cpu))) s w)
  | pr_average cpu tgid args st l s w : 0 <= cpu → is_u32 tgid →
      probed_step (Probed st l s w)
        (Probed st (l ++ gomp_phantom_average_handler cpu (pid_tgid tgid (running st cpu)) args) s w).

Definition probed_start (g : G) : probed := Probed (omp_start g) [] ∅ [].

(** The switches the log reports. *)
Definition preemptions (l : list trace_line) : list (Z * Z) :=
  omap (λ x, match x with Preempted c t => Some (c, t) | _ => None end) l.

(** The thread a line of [barrier_sync] reports as registered. *)
Definition line_thread (x : trace_line) : option Z :=
  match x with
  | Preempted _ t | FutexWait _ t | DoWait _ t => Some t
  | _ => None
  end.

Record probed_inv (p : probed) : Prop := {
  pi_omp : omp_inv (pr_omp p);
  pi_tids : ∀ c, 0 <= running (pr_omp p) c < 2 ^ 31;
  pi_threads : ∀ t, tracked (pr_omp p) t → t ∈ pr_seen p;
  pi_lines : ∀ x t, x ∈ pr_log p → line_thread x = Some t → t ∈ pr_seen p;
  pi_withdrawn : pr_withdrawn p `sublist_of` preemptions (pr_log p)
}.

Lemma pid_tgid_tid tgid tid : 0 <= tid < 2 ^ 31 → u32 (pid_tgid tgid tid) = tid.
Proof.
  intros Ht. unfold u32, pid_tgid. rewrite lor_shiftl_add by lia.
  rewrite Z.add_comm, Z.mod_add by lia. apply Z.mod_small. lia.
Qed.

Lemma preemptions_app l l' : preemptions (l ++ l') = preemptions l ++ preemptions l'.
Proof. apply omap_app. Qed.

(** A handler that writes about a registered thread. *)
Lemma when_registered_elem threads tid l x :
  x ∈ when_registered threads tid l → is_Some (threads !! tid) ∧ x ∈ l.
Proof. unfold when_registered. case_match; [eauto|]. by intros ?%elem_of_nil. Qed.

(** Appending lines about threads that are recorded keeps the log right. *)
Lemma log_inv st l l' s w :
  (∀ x t, x ∈ l' → line_thread x = Some t → tracked st t) →
  probed_inv (Probed st l s w) → probed_inv (Probed st (l ++ l') s w).
Proof.
  intros Hl []. split; simpl in *; try done.
  - intros x t [Hx|Hx]%elem_of_app Ht; eauto.
  - rewrite preemptions_app. by apply sublist_inserts_r.
Qed.

Lemma tracked_record tid cpu st t :
  tracked (record_thread tid cpu st) t → tracked st t ∨ t = tid.
Proof.
  unfold record_thread, hash_update, tracked. repeat case_match; simplify_eq/=; auto.
  all: rewrite lookup_insert_is_Some; intros [?|[_ ?]]; auto.
Qed.

Lemma record_probed cpu st l s w :
  running st cpu ≠ 0 → probed_inv (Probed st l s w) →
  probed_inv (Probed (record_thread (running st cpu) cpu st) l ({[running st cpu]} ∪ s) w).
Proof.
  intros Hr []. simpl in *. split; simpl; rewrite ?running_record.
  - by apply record_thread_inv.
  - done.
  - intros t [Ht| ->]%tracked_record; [|set_solver]. apply pi_threads0 in Ht. set_solver.
  - intros x t Hx Ht. apply elem_of_union_r. eauto.
  - done.
Qed.

Lemma remove_probed cpu st l s w :
  0 <= cpu → running st cpu ≠ 0 → probed_inv (Probed st l s w) →
  probed_inv (Probed (remove_current_tid (running st cpu) cpu st) l s w).
Proof.
  intros Hc Hr []. simpl in *. destruct (remove_inv cpu st Hc Hr pi_omp0) as (Hi & _ & _).
  assert (running (remove_current_tid (running st cpu) cpu st) = running st) as Hrun
    by (unfold remove_current_tid; by case_match).
  split; cbn [pr_omp pr_log pr_seen pr_withdrawn]; rewrite ?Hrun; [exact Hi|done| |done|done].
  intros t Ht. apply pi_threads0. revert Ht. unfold tracked, remove_current_tid. cbn [omp_threads_map set_threads].
  rewrite lookup_delete_is_Some. intros [_ Ht]. revert Ht. by case_match.
Qed.

(** A slot that says 1 has its switch in the log. *)
Lemma withdrawal_logged cpu st l s w :
  probed_inv (Probed st l s w) →
  withdrawal st cpu `sublist_of` preemptions (gomp_switch_handler (omp_threads_map st) cpu (running st cpu)).
Proof.
  intros []. simpl in *. unfold withdrawal. case_bool_decide as Hw; [|apply sublist_nil_l].
  destruct Hw as [Hc Hw]. pose proof (inv_tracked _ pi_omp0 cpu Hc Hw) as [x Hx].
  unfold gomp_switch_handler, when_registered.
  rewrite u32_id by (specialize (pi_tids0 cpu); lia). by rewrite Hx.
Qed.

Lemma switch_probed cpu next st l s w :
  0 <= cpu → is_s32 next → 0 <= next → next = 0 ∨ (∀ c, c ≠ cpu → running st c ≠ next) →
  probed_inv (Probed st l s w) →
  probed_inv (Probed (set_running cpu next (handle_switch (running st cpu) next cpu st))
    (l ++ gomp_switch_handler (omp_threads_map st) cpu (running st cpu)) s (w ++ withdrawal st cpu)).
Proof.
  intros Hc Hn Hpos Hnext Hp. pose proof (withdrawal_logged cpu st l s w Hp) as Hw. destruct Hp. simpl in *.
  destruct (switch_exact cpu next st Hc pi_omp0) as (_ & Hm & Hr & _). split; simpl.
  - by apply switch_inv.
  - intros c. case_decide; [lia|]. rewrite Hr. apply pi_tids0.
  - intros t. unfold tracked. simpl. rewrite Hm. apply pi_threads0.
  - intros x t [Hx|Hx]%elem_of_app Ht; [eauto|].
    apply when_registered_elem in Hx as [Hs ->%list_elem_of_singleton]. simplify_eq/=. by apply pi_threads0.
  - rewrite preemptions_app. by apply sublist_app.
Qed.

Lemma probed_step_inv p p' : probed_step p p' → probed_inv p → probed_inv p'.
Proof.
  destruct 1; intros Hp.
  - by apply record_probed.
  - by apply record_probed.
  - by apply remove_probed.
  - by apply remove_probed.
  - by apply switch_probed.
  - apply log_inv; [|done]. intros x t [Hs Hx]%when_registered_elem Ht.
    case_bool_decide; [|by apply elem_of_nil in Hx].
    apply list_elem_of_singleton in Hx as ->. simplify_eq/=. done.
  - apply log_inv; [|done]. intros x t [Hs ->%list_elem_of_singleton]%when_registered_elem Ht.
    simplify_eq/=. done.
  - apply log_inv; [|done]. intros x t Hx Ht. unfold gomp_phantom_average_handler in Hx.
    case_match; [|by apply elem_of_nil in Hx]. apply list_elem_of_singleton in Hx as ->. done.
Qed.

Lemma probed_start_inv g :
  g2h_up g → (∀ c, has_slot c → g2h_word g c = 0) → probed_inv (probed_start g).
Proof.
  intros Hup Hz. split; simpl; try done.
  - by apply start_inv.
  - unfold tracked. simpl. intros t [x Hx]. done.
  - by intros x t ?%elem_of_nil.
Qed.

Lemma probed_steps_inv p p' : rtc probed_step p p' → probed_inv p → probed_inv p'.
Proof. induction 1; eauto using probed_step_inv. Qed.
End probed.

(** ** Properties of the probes *)

Module GuestProbesProps.
Section props.
Context {G : Type} `{GuestKfuncsLaws G}.

(** C30: the log of the barrier experiment agrees with what the guest tells the host:
    in every run of the guest with both programs attached, each context switch
    away from a CPU announced as running OpenMP is in the log, in order, and
    every thread the log reports as registered had entered a parallel region or
    started as a worker. *)
Theorem switch_log_covers_slots (g : G) (p : probed) :
  g2h_up g → (∀ c, has_slot c → g2h_word g c = 0) → rtc probed_step (probed_start g) p →
  pr_withdrawn p `sublist_of` preemptions (pr_log p) ∧
  ∀ x t, x ∈ pr_log p → line_thread x = Some t → t ∈ pr_seen p.
Proof.
  intros Hup Hz Hp. destruct (probed_steps_inv _ _ Hp (probed_start_inv g Hup Hz)).
  by split.
Qed.
End props.

(** C38: the line of the degree-of-parallelism experiment carries the members of the two
    structures that the probed process stored, whatever else is in its memory:
    the negative values as such, all of them from one copy of each structure. *)
Theorem dop_decision_roundtrip (user : gmap Z Z) (a status b : Z) (d : juunansei_decision)
    (c : juunansei_context) :
  is_u64 a → is_u64 b → a + 64 <= b ∨ b + 64 <= a → decision_ok d → context_ok c →
  mapped user a JUUNANSEI_SIZE → mapped user b JUUNANSEI_SIZE →
  gomp_dop_decision_handler [a; status; b] (put_context b c (put_decision a d user)) =
    [DopDecision (curr_dop d) (d_phantom_average d) (idle_average c)].
Proof.
  intros Ha Hb Hd Hdo Hco Hma Hmb. set (user' := put_context b c (put_decision a d user)).
  assert (∀ x n, mapped user x n → mapped user' x n) as Hmap.
  { intros x n Hx i Hi. by apply put_context_mapped, put_decision_mapped, Hx. }
  destruct (probe_read_mapped _ _ _ (Hmap a _ Hma)) as [la Hla].
  destruct (probe_read_mapped _ _ _ (Hmap b _ Hmb)) as [lb Hlb].
  rewrite dop_handler_at, Hla, Hlb by done.
  rewrite (get_decision_holds _ _ d _ Hla); [|by apply holds_decision_put, put_holds_decision].
  by rewrite (get_context_holds _ _ c _ Hlb) by by apply put_holds_context.
Qed.

(** A pointer to memory that is not mapped gives no line. *)
Theorem dop_decision_unreadable (user : gmap Z Z) (a status b i : Z) :
  is_u64 a → is_u64 b → user !! i = None →
  a <= i < a + Z.of_nat JUUNANSEI_SIZE ∨ b <= i < b + Z.of_nat JUUNANSEI_SIZE →
  gomp_dop_decision_handler [a; status; b] user = [].
Proof.
  intros Ha Hb Hu Hi. rewrite dop_handler_at by done.
  destruct Hi as [Hi|Hi]; rewrite (probe_read_unmapped _ _ _ i Hi Hu); by repeat case_match.
Qed.

(** *** Witnesses *)

Import OmpThreadRegProps.

(** Thread 7 is switched in on CPU 2, enters a parallel region, leaves the CPU
    before it was announced, returns, waits and leaves again. *)
Definition p_st5 : omp guestmod := set_running 2 0 (handle_switch (running o_st4 2) 0 2 o_st4).

Definition p_end : probed :=
  Probed p_st5 [Preempted 2 7; FutexWait 2 7; Preempted 2 7] {[7]} [(2, 7)].

(** A switch whose lines and withdrawal are known. *)
Lemma p_switch cpu next (st : omp guestmod) l s w dl dw :
  0 <= cpu → is_s32 next → 0 <= next → next = 0 ∨ (∀ c, c ≠ cpu → running st c ≠ next) →
  gomp_switch_handler (omp_threads_map st) cpu (running st cpu) = dl → withdrawal st cpu = dw →
  probed_step (Probed st l s w)
    (Probed (set_running cpu next (handle_switch (running st cpu) next cpu st)) (l ++ dl) s (w ++ dw)).
Proof. intros Hc Hn Hp Hx <- <-. by apply pr_switch. Qed.

Lemma p_futex cpu tgid args (st : omp guestmod) l s w dl :
  0 <= cpu → is_u32 tgid →
  gomp_futex_enter (omp_threads_map st) cpu (pid_tgid tgid (running st cpu)) args = dl →
  probed_step (Probed st l s w) (Probed st (l ++ dl) s w).
Proof. intros Hc Ht <-. by apply pr_futex. Qed.

Lemma p_alone c : c ≠ 2 → running o_st3 c ≠ 7.
Proof.
  intros Hc. unfold o_st3, o_st2, capture_omp_master_thread. cbn [running set_running].
  rewrite decide_False, running_switch, running_record by done.
  unfold o_st1. cbn [running set_running]. rewrite decide_False, running_switch by done.
  by vm_compute.
Qed.

Lemma p_reached : rtc probed_step (probed_start GuestIvshmemProps.w_guest) p_end.
Proof.
  eapply rtc_l.
  { apply (p_switch 2 7 o_start [] ∅ [] [] []); [done..| |vm_compute; reflexivity|vm_compute; reflexivity].
    right. by vm_compute. }
  eapply rtc_l.
  { apply (pr_master 2 o_st1); [done|by vm_compute]. }
  eapply rtc_l.
  { apply (p_switch 2 0 o_st2 _ _ _ [Preempted 2 7] []); [done..|by left|vm_compute; reflexivity|vm_compute; reflexivity]. }
  eapply rtc_l.
  { apply (p_switch 2 7 o_st3 _ _ _ [] []); [done..| |vm_compute; reflexivity|vm_compute; reflexivity].
    right. exact p_alone. }
  eapply rtc_l.
  { apply (p_futex 2 7 [0; FUTEX_WAIT; 1] o_st4 _ _ _ [FutexWait 2 7]); [done..|vm_compute; reflexivity]. }
  eapply rtc_l.
  { apply (p_switch 2 0 o_st4 _ _ _ [Preempted 2 7] [(2, 7)]); [done..|by left|vm_compute; reflexivity|vm_compute; reflexivity]. }
  assert (({[running o_st1 2]} ∪ ∅ : gset Z) = {[7]}) as -> by (vm_compute; reflexivity).
  apply rtc_refl.
Qed.

Lemma switch_log_covers_slots_witness :
  [(2, 7)] `sublist_of` preemptions [Preempted 2 7; FutexWait 2 7; Preempted 2 7].
Proof.
  exact (proj1 (switch_log_covers_slots GuestIvshmemProps.w_guest p_end o_up o_zero p_reached)).
Defined.

(** A process with a page mapped at 4096. *)
Definition p_user : gmap Z Z := gset_to_gmap 0 (list_to_set (seqZ 4096 256)).

Definition p_decision : juunansei_decision := Decision_ (2 ^ 63) 17 (-1) 5 3 4 3.
Definition p_context : juunansei_context := Context_ (-1) 812 700.

Lemma p_mapped a : 4096 <= a → a + 64 <= 4352 → mapped p_user a JUUNANSEI_SIZE.
Proof.
  unfold JUUNANSEI_SIZE. intros Ha Hb i Hi. exists 0. apply lookup_gset_to_gmap_Some. split; [|done].
  apply elem_of_list_to_set, elem_of_seqZ. lia.
Qed.

Lemma dop_decision_roundtrip_witness :
  gomp_dop_decision_handler [4096; 0; 4160] (put_context 4160 p_context (put_decision 4096 p_decision p_user)) =
    [DopDecision 3 (-1) 812].
Proof.
  apply (dop_decision_roundtrip p_user 4096 0 4160 p_decision p_context).
  - lia.
  - lia.
  - by left.
  - by split; simpl; lia.
  - by split; simpl; lia.
  - apply p_mapped; lia.
  - apply p_mapped; lia.
Defined.

Lemma dop_decision_unreadable_witness :
  gomp_dop_decision_handler [4096; 0; 4336] (put_context 4160 p_context (put_decision 4096 p_decision p_user)) = [].
Proof.
  apply (dop_decision_unreadable _ 4096 0 4336 4352).
  - lia.
  - lia.
  - vm_compute. reflexivity.
  - right. unfold JUUNANSEI_SIZE. lia.
Defined.
End GuestProbesProps.
