(* ===== verification/LinkedList.v ===== *)
(** The linked list of the registration tool: [linkedlist.c].

    Nodes live in a heap of cells with integer addresses.  Walking the list
    needs fuel; the theorems show that the length of the list is enough.  An
    access through a dangling pointer gives [None].  Whether [malloc] succeeds
    is an argument. *)

From S2P Require Import Prelude.

Section linked_list.
Context {D : Type}.

(** [struct Node]. *)
Record Node := MkNode { data : option D; next : option Z }.

Record heap := Heap { cells : gmap Z Node; brk : Z }.

Definition create_node (malloc_ok : bool) (d : option D) (h : heap) : option Z * heap :=
  if malloc_ok
  then (Some (brk h), Heap (<[brk h := MkNode d None]> (cells h)) (brk h + 1))
  else (None, h).

(** [while (temp->next != NULL) temp = temp->next;] *)
Fixpoint find_last (fuel : nat) (h : heap) (temp : Z) : option Z :=
  match fuel with
  | O => None
  | S fuel' =>
      match cells h !! temp with
      | None => None
      | Some n =>
          match next n with
          | None => Some temp
          | Some t => find_last fuel' h t
          end
      end
  end.

(** [push_back(&head, data)]: the new head and heap. *)
Definition push_back (fuel : nat) (malloc_ok : bool) (head : option Z) (d : option D) (h : heap)
  : option (option Z * heap) :=
  let '(node, h) := create_node malloc_ok d h in
  match head with
  | None => Some (node, h)
  | Some p =>
      match find_last fuel h p with
      | None => None
      | Some temp =>
          match cells h !! temp with
          | None => None
          | Some n => Some (head, Heap (<[temp := MkNode (data n) node]> (cells h)) (brk h))
          end
      end
  end.

(** The data passed to [print_node], in order. *)
Fixpoint print_nodes (fuel : nat) (h : heap) (head : option Z) : option (list (option D)) :=
  match head with
  | None => Some []
  | Some p =>
      match fuel with
      | O => None
      | S fuel' =>
          match cells h !! p with
          | None => None
          | Some n => match print_nodes fuel' h (next n) with
                      | Some l => Some (data n :: l)
                      | None => None
                      end
          end
      end
  end.

(** ** Representation *)

(** From [p] on, the nodes at the addresses [ads] hold the data [l]. *)
Fixpoint list_at (h : heap) (p : option Z) (ads : list Z) (l : list (option D)) : Prop :=
  match ads, l with
  | [], [] => p = None
  | a :: ads', d :: l' =>
      p = Some a ∧ a < brk h ∧ ∃ n, cells h !! a = Some (MkNode d n) ∧ list_at h n ads' l'
  | _, _ => False
  end.

Lemma list_at_length h p ads l : list_at h p ads l → length ads = length l.
Proof.
  revert p l. induction ads as [|a ads IH]; intros p [|d l]; simpl; try done.
  intros (_ & _ & n & _ & Hl). f_equal. by eapply IH.
Qed.

(** Cells outside the list do not matter. *)
Lemma list_at_frame h h' p ads l :
  brk h <= brk h' → (∀ a, a ∈ ads → cells h' !! a = cells h !! a) →
  list_at h p ads l → list_at h' p ads l.
Proof.
  intros Hb. revert p l. induction ads as [|a ads IH]; intros p [|d l] Hc; simpl; try done.
  intros (-> & Ha & n & Hn & Hl). split; [done|]. split; [lia|].
  exists n. split; [by rewrite Hc by left|]. apply IH; [|done]. intros b Hb'. apply Hc. by right.
Qed.

Lemma list_at_below h p ads l a : list_at h p ads l → a ∈ ads → a < brk h.
Proof.
  revert p l. induction ads as [|b ads IH]; intros p [|d l]; simpl; try done.
  - intros _ Hin. by apply not_elem_of_nil in Hin.
  - intros (_ & Hb & n & _ & Hl) Hin. apply elem_of_cons in Hin as [->|Hin]; [done|]. by eapply IH.
Qed.

(** Appending a node after the last one. *)
Lemma find_last_append h p ads l a d :
  list_at h (Some p) ads l → NoDup ads → a ∉ ads → a < brk h →
  cells h !! a = Some (MkNode d None) →
  ∀ fuel, (length l <= fuel)%nat →
  ∃ t n, find_last fuel h p = Some t ∧ cells h !! t = Some n ∧
    list_at (Heap (<[t := MkNode (data n) (Some a)]> (cells h)) (brk h)) (Some p)
      (ads ++ [a]) (l ++ [d]) ∧ t ∈ ads.
Proof.
  revert p l. induction ads as [|b ads IH]; intros p [|x l] Hl Hnd Ha Hbr Hcell fuel Hf;
    simpl in Hl; try done. destruct Hl as ([= <-] & Hb & n & Hn & Hl).
  apply NoDup_cons in Hnd as [Hnot Hnd]. apply not_elem_of_cons in Ha as [Hab Ha].
  destruct fuel as [|fuel]; simpl in Hf; [lia|]. simpl. rewrite Hn. simpl.
  destruct n as [q|].
  - destruct (IH q l Hl Hnd Ha Hbr Hcell fuel ltac:(lia)) as (t & nt & Hfl & Ht & Hlt & Hin).
    exists t, nt. split; [done|]. split; [done|]. split; [|by right].
    split; [done|]. split; [done|]. exists (Some q). split; [|done].
    rewrite lookup_insert_ne; [done|]. intros ->. done.
  - exists p, (MkNode x None). split; [done|]. split; [done|]. split; [|by left].
    destruct ads as [|a' ads], l as [|x' l]; simpl in Hl; try done; [|by destruct Hl].
    simpl. split; [done|]. split; [done|]. exists (Some a).
    split; [apply lookup_insert_eq|]. split; [done|]. split; [done|].
    exists None. split; [|done]. by rewrite lookup_insert_ne.
Qed.

Lemma push_back_spec h head ads l d fuel :
  list_at h head ads l → NoDup ads → (length l <= fuel)%nat →
  ∃ head' h', push_back fuel true head d h = Some (head', h') ∧
    list_at h' head' (ads ++ [brk h]) (l ++ [d]) ∧ NoDup (ads ++ [brk h]) ∧ brk h' = brk h + 1.
Proof.
  intros Hl Hnd Hf.
  assert (Hnew : brk h ∉ ads).
  { intros Hin. pose proof (list_at_below _ _ _ _ _ Hl Hin). lia. }
  assert (Hnd' : NoDup (ads ++ [brk h])).
  { apply NoDup_app. split; [done|]. split; [|apply NoDup_singleton].
    intros x Hx Hx'. apply list_elem_of_singleton in Hx' as ->. done. }
  unfold push_back, create_node. simpl.
  set (h1 := Heap (<[brk h := MkNode d None]> (cells h)) (brk h + 1)).
  assert (Hl1 : list_at h1 head ads l).
  { apply (list_at_frame h); [simpl; lia| |done]. intros a Ha. simpl.
    rewrite lookup_insert_ne; [done|]. intros He. by subst a. }
  destruct head as [p|].
  - destruct (find_last_append h1 p ads l (brk h) d Hl1 Hnd Hnew) with (fuel := fuel)
      as (t & n & Hfl & Ht & Hlt & _); [simpl; lia|apply lookup_insert_eq|done|].
    rewrite Hfl. unfold h1 in Ht. simpl in Ht. rewrite Ht. eexists _, _. split; [done|]. split; [exact Hlt|]. done.
  - destruct ads, l; simpl in Hl; try done; [|by destruct Hl].
    eexists _, _. split; [done|]. split; [|done]. simpl. split; [done|]. split; [lia|].
    exists None. split; [apply lookup_insert_eq|done].
Qed.

Lemma print_nodes_spec h head ads l fuel :
  list_at h head ads l → (length l <= fuel)%nat → print_nodes fuel h head = Some l.
Proof.
  revert head l fuel. induction ads as [|a ads IH]; intros head [|d l] fuel Hl Hf;
    simpl in Hl; try done.
  - subst head. by destruct fuel.
  - destruct Hl as (-> & _ & n & Hn & Hl). destruct fuel as [|fuel]; simpl in Hf; [lia|].
    simpl. rewrite Hn. simpl. rewrite (IH n l fuel Hl ltac:(lia)). done.
Qed.
End linked_list.

#[global] Arguments Node D : clear implicits.
#[global] Arguments heap D : clear implicits.

Module LinkedListProps.
(** The list behaves as a list: pushing the elements of [ds] one after the
    other onto an empty list and printing it gives [ds] in order, every walk
    terminating within the length of the list. *)
Theorem push_all_then_print {D} (ds : list (option D)) :
  ∃ head h,
    foldl (λ s d, match s with
                  | Some (hd, hp) => push_back (length ds) true hd d hp
                  | None => None
                  end) (Some (None, Heap ∅ 0)) ds = Some (head, h) ∧
    print_nodes (length ds) h head = Some ds.
Proof.
  set (push := λ s d, match s with
    | Some (hd, hp) => push_back (length ds) true hd d hp
    | None => None
    end).
  assert (Hgen : ∀ rest done_ head h ads, done_ ++ rest = ds →
    list_at h head ads done_ → NoDup ads →
    ∃ head' h', foldl push (Some (head, h)) rest = Some (head', h') ∧
      ∃ ads', list_at h' head' ads' ds).
  { intros rest. induction rest as [|d rest IH]; intros dn head h ads Hds Hl Hnd; simpl.
    - rewrite app_nil_r in Hds. subst dn. eauto 10.
    - assert (Hlen : (length dn <= length ds)%nat) by (rewrite <- Hds, length_app; lia).
      destruct (push_back_spec h head ads dn d (length ds) Hl Hnd Hlen)
        as (hd1 & h1 & Hp & Hl1 & Hnd1 & _).
      rewrite Hp. apply (IH (dn ++ [d]) hd1 h1 (ads ++ [brk h])); [|done|done].
      by rewrite <- app_assoc. }
  destruct (Hgen ds [] None (Heap ∅ 0) []) as (head & h & Hf & ads & Hl);
    [done|done|apply NoDup_nil_2|].
  exists head, h. split; [exact Hf|]. by apply (print_nodes_spec h head ads).
Qed.
End LinkedListProps.
