(* ===== verification/Qmp.v ===== *)
(** Talking QMP: the reading and parsing half of [register_vm.c].

    The tool reads newline-terminated answers from QEMU's monitor socket into a
    buffer of [nb_vcpus * 4096] bytes and picks the thread id and CPU index of
    every vCPU out of the answer to [query-cpus-fast] with [strstr] and
    [sscanf].  Characters are integers as in [CString]; the socket is the list
    of results its [read] calls return, end of file after the last; a store
    outside the buffer is a [Fault].  The file ends with the theorem that the
    parser recovers the vCPUs from every answer of the expected shape. *)

From S2P Require Import Prelude CString.
From Stdlib Require Ascii String.

Local Open Scope pv_scope.

(** A string with apostrophes standing for double quotes. *)
Definition qstr (s : String.string) : list Z := (λ c, if c =? 39 then 34 else c) <$> str s.

Module QmpText.
Import String.
Local Open Scope string_scope.
Definition entry_text : string := "{'thread-id': ".
Definition cpu_text : string := "'cpu-index': ".
End QmpText.

Definition entry_key : list Z := qstr QmpText.entry_text.
Definition cpu_key : list Z := qstr QmpText.cpu_text.

Definition QMP_VCPU_SIZE : Z := 4096.

(** ** The C library functions *)

Fixpoint starts_with (k s : list Z) : bool :=
  match k, s with
  | [], _ => true
  | c :: k', d :: s' => (c =? d) && starts_with k' s'
  | _, [] => false
  end.

(** [strstr]: the suffix from the first occurrence on. *)
Fixpoint strstr (s k : list Z) : option (list Z) :=
  if starts_with k s then Some s
  else match s with
  | [] => None
  | _ :: s' => strstr s' k
  end.

Definition is_digit (c : Z) : bool := (48 <=? c) && (c <=? 57).
Definition is_space (c : Z) : bool := (c =? 32) || ((9 <=? c) && (c <=? 13)).

Fixpoint digits_val (acc : Z) (s : list Z) : Z :=
  match s with
  | c :: s' => if is_digit c then digits_val (10 * acc + (c - 48)) s' else acc
  | [] => acc
  end.

Fixpoint skip_space (s : list Z) : list Z :=
  match s with
  | c :: s' => if is_space c then skip_space s' else s
  | [] => []
  end.

(** [sscanf(s, "%d", &x)]: the value stored, or [None] when nothing matches. *)
Definition sscanf_d (s : list Z) : option Z :=
  let s := skip_space s in
  let '(sign, s) := match s with
    | c :: s' => if c =? 45 then (-1, s') else if c =? 43 then (1, s') else (1, s)
    | [] => (1, s)
    end in
  match s with
  | c :: _ => if is_digit c then Some (s32 (sign * digits_val 0 s)) else None
  | [] => None
  end.

(** ** Extracting the vCPUs *)

(** [struct qmp_vpcu]. *)
Record qmp_vpcu := QmpVcpu { cpuIndex : Z; threadId : Z }.

#[global] Instance qmp_vpcu_eq_dec : EqDecision qmp_vpcu.
Proof. solve_decision. Defined.

(** Allocation failures, per iteration: of the [struct qmp_vpcu], and of the
    list node inside [push_back] (which then drops the element). *)
Record alloc_env := AllocEnv { vcpu_alloc_ok : nat → bool; node_alloc_ok : nat → bool }.

Definition alloc_ok : alloc_env := AllocEnv (λ _, true) (λ _, true).

(** The loop, [n] being the number of iterations done and [acc] the list after
    the dummy head. *)
Fixpoint extract_loop (fuel : nat) (env : alloc_env) (n : nat) (s : list Z)
    (acc : list qmp_vpcu) : list qmp_vpcu :=
  match fuel with
  | O => acc
  | S fuel' =>
      match strstr s entry_key with
      | None => acc
      | Some s =>
          let s := drop (length entry_key) s in
          let thread_id := default (-1) (sscanf_d s) in
          let cpu_index :=
            match strstr s cpu_key with
            | Some cpu_ptr => default (-1) (sscanf_d (drop (length cpu_key) cpu_ptr))
            | None => -1
            end in
          if negb (vcpu_alloc_ok env n) then acc
          else
            let acc := if node_alloc_ok env n then acc ++ [QmpVcpu cpu_index thread_id] else acc in
            extract_loop fuel' env (S n) s acc
      end
  end.

(** [None] when even the dummy head cannot be allocated. *)
Definition extract_vcpu_info (head_ok : bool) (env : alloc_env) (query_result : list Z)
  : option (list qmp_vpcu) :=
  if head_ok then Some (extract_loop (S (length query_result)) env 0 query_result []) else None.

(** ** Reading a line *)

Inductive rd := RByte (c : Z) | RErr.

(** [qmp_read_line]: the characters stored before the final NUL and what is
    left in the socket. *)
Fixpoint read_loop (bufsz : Z) (sock : list rd) (buf : list Z) : result (list Z * list rd) :=
  let total := Z.of_nat (length buf) in
  let finish sock := if total <? bufsz then Ok (buf, sock) else Fault in
  if total <? u64 (bufsz - 1) then
    match sock with
    | [] => finish []
    | RErr :: _ => Err EIO
    | RByte c :: sock' =>
        if total <? bufsz then
          if c =? 10 then
            if total + 1 <? bufsz then Ok (buf ++ [c], sock') else Fault
          else read_loop bufsz sock' (buf ++ [c])
        else Fault
    end
  else finish sock.

Definition qmp_read_line (bufsz : Z) (sock : list rd) : result (list Z * list rd) :=
  read_loop bufsz sock [].

(** [qmp_send_recv]: the answer as a C string. *)
Definition qmp_send_recv (write_ok : bool) (bufsz : Z) (sock : list rd)
  : result (list Z * list rd) :=
  if negb write_ok then Err EIO
  else let! (line, sock) := qmp_read_line bufsz sock in Ok (cstr_of line, sock).

(** ** Searching *)

Lemma starts_with_app k s : starts_with k (k ++ s) = true.
Proof. induction k as [|c k IH]; simpl; [done|]. by rewrite Z.eqb_refl, IH. Qed.

Lemma starts_with_length k s : starts_with k s = true → (length k <= length s)%nat.
Proof.
  revert s. induction k as [|c k IH]; intros [|d s]; simpl; try done; [lia|].
  intros Hs. apply andb_true_iff in Hs as [_ Hs]. apply IH in Hs. lia.
Qed.

(** Only the first [length k] characters matter. *)
Lemma starts_with_extend k s r :
  (length k <= length s)%nat → starts_with k (s ++ r) = starts_with k s.
Proof.
  revert s. induction k as [|c k IH]; intros [|d s]; simpl; try done; [lia|].
  intros Hl. rewrite IH; [done|lia].
Qed.

Lemma strstr_cons c s k :
  strstr (c :: s) k = if starts_with k (c :: s) then Some (c :: s) else strstr s k.
Proof. done. Qed.

(** No occurrence of [k] begins inside [g] when [k] follows. *)
Definition clear_of (k g : list Z) : Prop := strstr (g ++ k) k = Some k.

#[global] Instance clear_of_dec k g : Decision (clear_of k g).
Proof. unfold clear_of. apply _. Defined.

Lemma clear_of_cons k c g :
  k ≠ [] → clear_of k (c :: g) → starts_with k (c :: g ++ k) = false ∧ clear_of k g.
Proof.
  unfold clear_of. simpl. intros Hk. destruct k as [|x k]; [done|].
  case_bool; [|done]. intros Hc. exfalso.
  apply (f_equal (from_option length O)) in Hc. simpl in Hc. rewrite length_app in Hc.
  simpl in Hc. lia.
Qed.

Lemma strstr_clear k g r : k ≠ [] → clear_of k g → strstr (g ++ k ++ r) k = Some (k ++ r).
Proof.
  intros Hk. induction g as [|c g IH]; intros Hc.
  - destruct k as [|x k]; [done|]. simpl. by rewrite Z.eqb_refl, starts_with_app.
  - apply clear_of_cons in Hc as [Hs Hc]; [|done].
    assert (Hsr : starts_with k (c :: g ++ k ++ r) = false).
    { rewrite <- Hs. rewrite app_assoc. apply (starts_with_extend k (c :: g ++ k)).
      simpl. rewrite length_app. lia. }
    change ((c :: g) ++ k ++ r) with (c :: (g ++ k ++ r)).
    rewrite strstr_cons, Hsr. by apply IH.
Qed.

Lemma strstr_clear_None k g : k ≠ [] → clear_of k g → strstr g k = None.
Proof.
  intros Hk. induction g as [|c g IH]; intros Hc; [by destruct k|].
  apply clear_of_cons in Hc as [Hs Hc]; [|done].
  assert (Hsr : starts_with k (c :: g) = false).
  { destruct (starts_with k (c :: g)) eqn:E; [|done]. rewrite <- E, <- Hs. symmetry.
    apply (starts_with_extend k (c :: g)). by apply starts_with_length. }
  rewrite strstr_cons, Hsr. by apply IH.
Qed.

Lemma drop_key (k r : list Z) : drop (length k) (k ++ r) = r.
Proof. apply drop_app_length. Qed.

(** ** Decimal numbers *)

Fixpoint dec_aux (fuel : nat) (n : Z) : list Z :=
  match fuel with
  | O => []
  | S fuel' => if n <? 10 then [48 + n] else dec_aux fuel' (n / 10) ++ [48 + n mod 10]
  end.

(** The decimal digits of a non-negative [int]. *)
Definition dec (n : Z) : list Z := dec_aux 10 n.

Lemma dec_aux_digits fuel n : 0 <= n → Forall (λ c, is_digit c = true) (dec_aux fuel n).
Proof.
  revert n. induction fuel as [|fuel IH]; intros n Hn; simpl; [constructor|].
  assert (Hd : ∀ k, 0 <= k < 10 → is_digit (48 + k) = true).
  { intros k Hk. unfold is_digit. apply andb_true_iff. rewrite !Z.leb_le. lia. }
  destruct (Z.ltb_spec n 10).
  - apply Forall_singleton. apply Hd. lia.
  - apply Forall_app. split; [apply IH; apply Z.div_pos; lia|].
    apply Forall_singleton. apply Hd. apply Z.mod_pos_bound. lia.
Qed.

Lemma digits_val_app acc l c r :
  Forall (λ c, is_digit c = true) l →
  digits_val acc (l ++ r) = digits_val (digits_val acc l) r ∧
  (is_digit c = false → digits_val acc (l ++ c :: r) = digits_val acc l).
Proof.
  intros Hl. revert acc. induction Hl as [|d l Hd Hl IH]; intros acc; simpl.
  - split; [done|]. intros ->. done.
  - rewrite Hd. apply IH.
Qed.

Lemma dec_aux_val fuel n : 0 <= n < 10 ^ Z.of_nat fuel → digits_val 0 (dec_aux fuel n) = n.
Proof.
  revert n. induction fuel as [|fuel IH]; intros n Hn; [simpl in *; lia|].
  cbn [dec_aux]. destruct (Z.ltb_spec n 10).
  - simpl. assert (is_digit (48 + n) = true) as ->; [|lia].
    unfold is_digit. apply andb_true_iff. rewrite !Z.leb_le. lia.
  - assert (Hq : 0 <= n / 10 < 10 ^ Z.of_nat fuel).
    { split; [apply Z.div_pos; lia|]. apply Z.div_lt_upper_bound; [lia|].
      rewrite Nat2Z.inj_succ, Z.pow_succ_r in Hn by lia. lia. }
    destruct (digits_val_app 0 (dec_aux fuel (n / 10)) 0 [48 + n mod 10]) as [-> _].
    { apply dec_aux_digits. lia. }
    rewrite IH by done. simpl. pose proof (Z.mod_pos_bound n 10 ltac:(lia)).
    assert (is_digit (48 + n mod 10) = true) as ->.
    { unfold is_digit. apply andb_true_iff. rewrite !Z.leb_le. lia. }
    pose proof (Z.div_mod n 10). lia.
Qed.

Lemma dec_head n : 0 <= n → ∃ c l, dec n = c :: l ∧ is_digit c = true.
Proof.
  intros Hn. pose proof (dec_aux_digits 10 n Hn) as Hd. unfold dec in *.
  destruct (dec_aux 10 n) as [|c l] eqn:E; [|apply Forall_cons in Hd as [? _]; eauto].
  exfalso. change (dec_aux 10 n) with
    (if n <? 10 then [48 + n] else dec_aux 9 (n / 10) ++ [48 + n mod 10]) in E.
  destruct (Z.ltb_spec n 10); [done|]. by apply app_nil in E as [_ ?].
Qed.

(** Scanning a printed number gives it back. *)
Lemma sscanf_dec n c r :
  0 <= n < 2 ^ 31 → is_digit c = false → sscanf_d (dec n ++ c :: r) = Some n.
Proof.
  intros Hn Hc. destruct (dec_head n ltac:(lia)) as (d & l & Hd & Hdig).
  assert (Hval : digits_val 0 (dec n ++ c :: r) = n).
  { rewrite (proj2 (digits_val_app 0 (dec n) c r ltac:(apply dec_aux_digits; lia)) Hc).
    apply dec_aux_val. simpl. lia. }
  unfold sscanf_d. rewrite Hd in *. cbn [app skip_space] in *.
  assert (Hsp : is_space d = false ∧ (d =? 45) = false ∧ (d =? 43) = false).
  { unfold is_digit in Hdig. apply andb_true_iff in Hdig as [H1 H2]. bool_hyps.
    rewrite !Z.eqb_neq. split; [|lia]. unfold is_space. apply orb_false_iff.
    split; [apply Z.eqb_neq; lia|]. apply andb_false_iff. right. apply Z.leb_gt. lia. }
  destruct Hsp as (-> & -> & ->). cbv beta iota. rewrite Hdig, Hval. f_equal.
  rewrite s32_id; lia.
Qed.

(** ** Answers of the expected shape *)

(** One vCPU of the answer: its thread id, the text up to the CPU index, the
    index, and the text up to the next entry. *)
Record entry := Entry { e_tid : Z; e_mid : list Z; e_cpu : Z; e_tail : list Z }.

Definition entry_body (e : entry) : list Z :=
  dec (e_tid e) ++ e_mid e ++ cpu_key ++ dec (e_cpu e) ++ e_tail e.
Definition render_entry (e : entry) : list Z := entry_key ++ entry_body e.
Definition render (pre : list Z) (es : list entry) : list Z := pre ++ concat (map render_entry es).

Definition ends_number (l : list Z) : bool :=
  match l with c :: _ => negb (is_digit c) | [] => false end.

(** The texts between the numbers do not contain the searched keys, and do not
    continue the numbers. *)
Definition entry_ok (e : entry) : Prop :=
  0 <= e_tid e < 2 ^ 31 ∧ 0 <= e_cpu e < 2 ^ 31 ∧
  ends_number (e_mid e) = true ∧ ends_number (e_tail e) = true ∧
  clear_of cpu_key (dec (e_tid e) ++ e_mid e) ∧ clear_of entry_key (entry_body e).

#[global] Instance entry_ok_dec e : Decision (entry_ok e).
Proof. unfold entry_ok. apply _. Defined.

Lemma sscanf_then n l r :
  0 <= n < 2 ^ 31 → ends_number l = true → sscanf_d (dec n ++ l ++ r) = Some n.
Proof.
  intros Hn Hl. destruct l as [|c l]; [done|]. simpl in Hl. apply negb_true_iff in Hl.
  simpl. by apply sscanf_dec.
Qed.

Lemma extract_step e rest :
  entry_ok e →
  sscanf_d (entry_body e ++ rest) = Some (e_tid e) ∧
  ∃ p, strstr (entry_body e ++ rest) cpu_key = Some p ∧
    sscanf_d (drop (length cpu_key) p) = Some (e_cpu e).
Proof.
  intros (Ht & Hc & Hm & Htl & Hcl & _). unfold entry_body. split.
  - rewrite <- app_assoc. rewrite <- (app_assoc (e_mid e)). by apply sscanf_then.
  - exists (cpu_key ++ dec (e_cpu e) ++ e_tail e ++ rest). split.
    + rewrite <- !app_assoc. rewrite (app_assoc (dec (e_tid e))).
      apply strstr_clear; [done|exact Hcl].
    + rewrite drop_key. by apply sscanf_then.
Qed.

Definition vcpu_of (e : entry) : qmp_vpcu := QmpVcpu (e_cpu e) (e_tid e).

Lemma extract_loop_render es : ∀ g fuel n acc,
  clear_of entry_key g → Forall entry_ok es → (length es < fuel)%nat →
  extract_loop fuel alloc_ok n (render g es) acc = acc ++ map vcpu_of es.
Proof.
  induction es as [|e es IH]; intros g fuel n acc Hg Hes Hf; destruct fuel as [|fuel]; try lia.
  - unfold render. simpl. rewrite app_nil_r.
    by rewrite strstr_clear_None, app_nil_r.
  - apply Forall_cons in Hes as [He Hes]. simpl in Hf.
    unfold render. cbn [map concat extract_loop]. unfold render_entry at 1.
    rewrite <- (app_assoc entry_key). rewrite strstr_clear by done.
    cbv beta iota zeta. rewrite drop_key.
    destruct (extract_step e (concat (map render_entry es)) He) as (Ht & p & Hp & Hc).
    rewrite Ht, Hp, Hc. cbn [default from_option].
    change (negb (vcpu_alloc_ok alloc_ok n)) with false. cbv iota.
    change (node_alloc_ok alloc_ok n) with true. cbv iota.
    change (entry_body e ++ concat (map render_entry es)) with (render (entry_body e) es).
    destruct He as (_ & _ & _ & _ & _ & Hce).
    rewrite IH by (done || lia). by rewrite <- app_assoc.
Qed.

(** ** Reading *)

(** Reading a line that fits gives the line. *)
Lemma read_loop_line bufsz line sock buf :
  1 <= bufsz < 2 ^ 63 → Forall (λ c, c ≠ 10) line →
  Z.of_nat (length buf) + Z.of_nat (length line) + 1 < bufsz →
  read_loop bufsz ((RByte <$> line ++ [10]) ++ sock) buf = Ok (buf ++ line ++ [10], sock).
Proof.
  intros Hb Hl. revert buf. induction Hl as [|c line Hc Hl IH]; intros buf Hlen; simpl in *.
  - rewrite u64_id by lia.
    destruct (Z.ltb_spec (Z.of_nat (length buf)) (bufsz - 1)); [|lia].
    destruct (Z.ltb_spec (Z.of_nat (length buf)) bufsz); [|lia].
    destruct (Z.ltb_spec (Z.of_nat (length buf) + 1) bufsz); [done|lia].
  - rewrite u64_id by lia.
    destruct (Z.ltb_spec (Z.of_nat (length buf)) (bufsz - 1)); [|lia].
    destruct (Z.ltb_spec (Z.of_nat (length buf)) bufsz); [|lia].
    destruct (Z.eqb_spec c 10); [done|].
    rewrite IH; [by rewrite <- app_assoc|]. rewrite length_app. simpl. lia.
Qed.

(** With room for at least the terminator, no store misses the buffer. *)
Lemma read_loop_safe bufsz sock buf :
  1 <= bufsz < 2 ^ 63 → Z.of_nat (length buf) < bufsz →
  match read_loop bufsz sock buf with
  | Ok (line, _) => Z.of_nat (length line) < bufsz
  | Err _ => True
  | Fault => False
  end.
Proof.
  intros Hb. revert buf. induction sock as [|[c|] sock IH]; intros buf Hbuf; simpl;
    rewrite u64_id by lia;
    destruct (Z.ltb_spec (Z.of_nat (length buf)) bufsz); try lia;
    destruct (Z.ltb_spec (Z.of_nat (length buf)) (bufsz - 1)); try lia; try done.
  destruct (Z.eqb_spec c 10).
  - destruct (Z.ltb_spec (Z.of_nat (length buf) + 1) bufsz); [|lia].
    rewrite length_app. simpl. lia.
  - apply IH. rewrite length_app. simpl. lia.
Qed.

Lemma extract_render pre es :
  clear_of entry_key pre → Forall entry_ok es →
  extract_vcpu_info true alloc_ok (render pre es) = Some (map vcpu_of es).
Proof.
  intros Hp Hes. unfold extract_vcpu_info. rewrite extract_loop_render; try done.
  unfold render. rewrite length_app.
  assert (Hlen : (length es <= length (concat (map render_entry es)))%nat).
  { clear. induction es as [|e es IH]; simpl; [lia|]. rewrite length_app.
    assert (1 <= length (render_entry e))%nat.
    { unfold render_entry. rewrite length_app. assert (length entry_key = 14%nat) as -> by done. lia. }
    lia. }
  lia.
Qed.

Module QmpProps.
(** C37: the parser recovers the vCPUs: from every answer made of entries whose
    surrounding text does not contain the searched keys, it extracts exactly
    the (CPU index, thread id) pairs, in order, for any number of vCPUs. *)
Theorem extract_parses_answer pre es :
  clear_of entry_key pre → Forall entry_ok es →
  extract_vcpu_info true alloc_ok (render pre es) = Some (map vcpu_of es).
Proof. apply extract_render. Qed.

(** Reading an answer never stores outside the buffer, provided the buffer
    has at least one byte, whatever the peer sends; with the empty buffer of a
    VM registered with 0 vCPUs the first byte received is stored outside it. *)
Theorem read_line_in_bounds bufsz sock :
  0 <= bufsz < 2 ^ 63 →
  (1 <= bufsz → qmp_read_line bufsz sock ≠ Fault) ∧
  (∀ c sock', sock = RByte c :: sock' → bufsz = 0 → qmp_read_line bufsz sock = Fault).
Proof.
  intros Hb. split.
  - intros H1 Hf. pose proof (read_loop_safe bufsz sock [] ltac:(lia) ltac:(simpl; lia)) as Hs.
    unfold qmp_read_line in Hf. by rewrite Hf in Hs.
  - intros c sock' -> ->. done.
Qed.

(** An answer of two vCPUs as QEMU prints it. *)
Module Text.
Import String.
Local Open Scope string_scope.
Definition t_pre : string := "{'return': [".
Definition t_mid : string := ", 'props': {'core-id': 0, 'thread-id': 0, 'socket-id': 0}, 'qom-path': '/machine/unattached/device[0]', ".
Definition t_tail : string := ", 'target': 'x86_64'}, ".
End Text.

Definition two_vcpus : list entry :=
  [ Entry 25627 (qstr Text.t_mid) 0 (qstr Text.t_tail);
    Entry 25628 (qstr Text.t_mid) 1 (qstr Text.t_tail) ].

Lemma extract_parses_answer_witness :
  extract_vcpu_info true alloc_ok (render (qstr Text.t_pre) two_vcpus) =
    Some [QmpVcpu 0 25627; QmpVcpu 1 25628].
Proof.
  apply (extract_parses_answer (qstr Text.t_pre) two_vcpus); decide_now.
Defined.

Lemma read_line_in_bounds_witness :
  qmp_read_line 4096 [RByte 123; RErr] ≠ Fault ∧ qmp_read_line 0 [RByte 123] = Fault.
Proof.
  split.
  - apply (read_line_in_bounds 4096 [RByte 123; RErr]); lia.
  - apply (proj2 (read_line_in_bounds 0 [RByte 123] ltac:(lia)) 123 []); reflexivity.
Defined.
End QmpProps.
