(* ===== verification/RegisterVm.v ===== *)
(** Registering and removing a VM: [register_vm.h], the main program of
    [register_vm.c], and [cleanup.c].

    The tools run in user space on the pinned maps, that is on the [host] state
    of [Host], and on the bpffs directory tree [fs].  Names are C strings; map
    keys are 64-byte buffers.  What the C library and the kernel answer (an
    allocation, a file descriptor, the id of a new map) is an argument.
    [bpf_map_get_next_key] enumerates the keys of a map in an order the kernel
    chooses, the argument [order].  Maps that lose their last reference stay in
    [inner_maps] under an id nothing refers to. *)

From S2P Require Import Prelude CString BpfMap Atomics Sampling Host Memory HostIvshmem.
From S2P Require Import PhantomSwitch PhantomTimer Buffers Qmp.

Local Open Scope pv_scope.

(** ** Stale vCPUs *)

Record stale_env := StaleEnv { keys_malloc_ok : bool; keys_realloc_ok : Z → bool }.

Definition stale_ok : stale_env := StaleEnv true (λ _, true).

(** The first loop: the matching keys, or [None] when the array cannot grow. *)
Fixpoint collect_stale (env : stale_env) (name : list Z) (vs : gmap Z vcpu_t) (order : list Z)
    (keys : list Z) (capacity : Z) : option (list Z) :=
  match order with
  | [] => Some keys
  | key :: order' =>
      match vs !! key with
      | Some vcpu =>
          if strcmp_eq (vm_name vcpu) name then
            if Z.of_nat (length keys) >=? capacity then
              if keys_realloc_ok env (capacity * 2)
              then collect_stale env name vs order' (keys ++ [key]) (capacity * 2)
              else None
            else collect_stale env name vs order' (keys ++ [key]) capacity
          else collect_stale env name vs order' keys capacity
      | None => collect_stale env name vs order' keys capacity
      end
  end.

Definition cleanup_stale_vcpus (env : stale_env) (order : list Z) (name : list Z)
    (vs : gmap Z vcpu_t) : gmap Z vcpu_t :=
  if negb (keys_malloc_ok env) then vs
  else match collect_stale env name vs order [] 1024 with
  | None => vs
  | Some keys => foldl (λ m k, delete k m) vs keys
  end.

(** ** [register_vm] *)

Record reg_env := RegEnv {
  r_malloc_ok : bool;
  r_vms_fd_ok : bool;
  r_vcpus_fd_ok : bool;
  r_stale : stale_env;
  r_order : list Z;
  r_vcpu_malloc_ok : nat → bool
}.

Section register.
Context {S : Type}.
Implicit Types st : host S.

Definition set_vms (v : gmap (list Z) vm_t) st : host S :=
  Host v (vcpus st) (map_registry st) (inner_maps st) (global_tracker_state st) (clk st) (shmem st).
Definition set_vcpus (v : gmap Z vcpu_t) st : host S :=
  Host (vms st) v (map_registry st) (inner_maps st) (global_tracker_state st) (clk st) (shmem st).
Definition set_maps (r : gmap (list Z) Z) (m : gmap Z (array_map sample)) st : host S :=
  Host (vms st) (vcpus st) r m (global_tracker_state st) (clk st) (shmem st).

(** The zeroed [struct vm_t] with the socket path and the size filled in. *)
Definition new_vm (socket : list Z) (nb : Z) : vm_t :=
  VM (strncpy_zeroed 128 socket) 0 0 0 0 (u32 nb) 0.

Definition new_vcpu (name : list Z) (q : qmp_vpcu) : vcpu_t :=
  VCPU (u32 (cpuIndex q)) (strncpy_zeroed VM_NAME_LEN name) 0.

(** The loop over the list, with the number of vCPUs already done. *)
Fixpoint register_vcpus (env : reg_env) (n : nat) (name : list Z) (l : list qmp_vpcu) st
  : host S * bool :=
  match l with
  | [] => (st, true)
  | q :: l' =>
      if negb (r_vcpu_malloc_ok env n) then (st, false)
      else match hash_update VCPUS_MAX_ENTRIES (u32 (threadId q)) (new_vcpu name q) (vcpus st) with
      | Ok vs => register_vcpus env (Datatypes.S n) name l' (set_vcpus vs st)
      | _ => (st, false)
      end
  end.

(** [true] is the return value 0. *)
Definition register_vm (env : reg_env) (l : list qmp_vpcu) (name socket : list Z) (nb : Z) st
  : host S * bool :=
  if negb (r_malloc_ok env) then (st, false)
  else if negb (r_vms_fd_ok env) then (st, false)
  else if negb (r_vcpus_fd_ok env) then (st, false)
  else
    let st := set_vcpus (cleanup_stale_vcpus (r_stale env) (r_order env) name (vcpus st)) st in
    let vm_key := strncpy_zeroed VM_NAME_LEN name in
    match hash_update VMS_MAX_ENTRIES vm_key (new_vm socket nb) (vms st) with
    | Ok v => register_vcpus env 0 name l (set_vms v st)
    | _ => (st, false)
    end.

(** ** [setup_vm_maps] *)

(** The bpffs tree: directories, and pinned maps by path. *)
Record fs := Fs { fs_dirs : gset (list Z); fs_pins : gmap (list Z) Z }.

Definition slash : list Z := [47].
Definition pin_base : list Z := [47; 115; 121; 115; 47; 102; 115; 47; 98; 112; 102]. (* /sys/fs/bpf *)
Definition buff_name (digit : Z) : list Z := (* collection_buff_<digit> *)
  [99; 111; 108; 108; 101; 99; 116; 105; 111; 110; 95; 98; 117; 102; 102; 95; digit].

(** [snprintf(buf, size, PIN_BASE "/%s", vm_name)]. *)
Definition dir_path (size : nat) (name : list Z) : list Z :=
  take (size - 1) (pin_base ++ slash ++ name).
Definition pin_path (name : list Z) (digit : Z) : list Z :=
  take 127 (pin_base ++ slash ++ name ++ slash ++ buff_name digit).

Record setup_env := SetupEnv {
  s_registry_fd_ok : bool;
  s_mkdir_ok : bool;             (* mkdir() succeeds if the directory is new *)
  s_create_1 : option Z;         (* the new map's id *)
  s_pin_1_ok : bool;
  s_create_2 : option Z;
  s_pin_2_ok : bool
}.

Definition setup_vm_maps (env : setup_env) (name : list Z) (st : host S) (f : fs)
  : host S * fs * bool :=
  if negb (s_registry_fd_ok env) then (st, f, false)
  else
    let dir := dir_path 128 name in
    if negb (bool_decide (dir ∈ fs_dirs f)) && negb (s_mkdir_ok env) then (st, f, false)
    else
      let f := Fs (fs_dirs f ∪ {[dir]}) (fs_pins f) in
      match s_create_1 env with
      | None => (st, f, false)
      | Some collection =>
          let st := set_maps (map_registry st)
                      (<[collection := array_new VM_MAP_MAX_ENTRIES]> (inner_maps st)) st in
          let f := Fs (fs_dirs f) (delete (pin_path name 49) (fs_pins f)) in
          if negb (s_pin_1_ok env) then (st, f, false)
          else
            let f := Fs (fs_dirs f) (<[pin_path name 49 := collection]> (fs_pins f)) in
            match s_create_2 env with
            | None => (st, f, false)
            | Some processing =>
                let st := set_maps (map_registry st)
                            (<[processing := array_new VM_MAP_MAX_ENTRIES]> (inner_maps st)) st in
                let f := Fs (fs_dirs f) (delete (pin_path name 50) (fs_pins f)) in
                if negb (s_pin_2_ok env) then (st, f, false)
                else
                  let f := Fs (fs_dirs f) (<[pin_path name 50 := processing]> (fs_pins f)) in
                  match hash_update MAP_REGISTRY_MAX_ENTRIES (registry_key name suffix_1)
                          collection (map_registry st) with
                  | Ok r =>
                      let st := set_maps r (inner_maps st) st in
                      match hash_update MAP_REGISTRY_MAX_ENTRIES (registry_key name suffix_2)
                              processing (map_registry st) with
                      | Ok r => (set_maps r (inner_maps st) st, f, true)
                      | _ => (st, f, false)
                      end
                  | _ => (st, f, false)
                  end
            end
      end.

(** ** The main program of [register_vm.c] *)

(** [atoi]. *)
Definition atoi (s : list Z) : Z := default 0 (sscanf_d s).

Record main_env := MainEnv {
  m_buff_malloc_ok : bool;
  m_socket_ok : bool;
  m_sock : list rd;             (* what the monitor sends *)
  m_write_1_ok : bool;
  m_write_2_ok : bool;
  m_head_ok : bool;
  m_alloc : alloc_env;
  m_reg : reg_env;
  m_setup : setup_env
}.

(** [sizeof(addr.sun_path)]. *)
Definition SUN_PATH_LEN : nat := 108.

(** Whether [qmp_connect] returns a descriptor.  [connect] is retried until it
    succeeds; the model is of the runs in which it eventually does. *)
Definition qmp_connect (socket_ok : bool) (path : list Z) : bool :=
  if negb socket_ok then false
  else if (SUN_PATH_LEN <=? length path)%nat then false
  else true.

(** The exit status and the state. *)
Definition register_main (env : main_env) (argv : list (list Z)) (st : host S) (f : fs)
  : result (Z * host S * fs) :=
  match argv with
  | _ :: unix_socket :: name :: nb :: _ =>
      let nb_vcpus := atoi nb in
      let bufsz := u64 (nb_vcpus * QMP_VCPU_SIZE) in
      if negb (m_buff_malloc_ok env) then Ok (1, st, f)
      else if negb (qmp_connect (m_socket_ok env) unix_socket) then Ok (1, st, f)
      else match qmp_read_line bufsz (m_sock env) with
      | Fault => Fault
      | Err _ => Ok (1, st, f)
      | Ok (_, sock) =>
          match qmp_send_recv (m_write_1_ok env) bufsz sock with
          | Fault => Fault
          | Err _ => Ok (1, st, f)
          | Ok (_, sock) =>
              match qmp_send_recv (m_write_2_ok env) bufsz sock with
              | Fault => Fault
              | Err _ => Ok (1, st, f)
              | Ok (buff, _) =>
                  match extract_vcpu_info (m_head_ok env) (m_alloc env) buff with
                  | None => Ok (1, st, f)
                  | Some l =>
                      match register_vm (m_reg env) l name unix_socket nb_vcpus st with
                      | (st, false) => Ok (1, st, f)
                      | (st, true) =>
                          match setup_vm_maps (m_setup env) name st f with
                          | (st, f, false) => Ok (1, st, f)
                          | (st, f, true) => Ok (0, st, f)
                          end
                      end
                  end
              end
          end
      end
  | _ => Ok (1, st, f)
  end.

(** ** [cleanup.c] *)

Record cleanup_env := CleanupEnv {
  k_opendir_ok : bool;               (* an existing directory opens *)
  k_unlink_ok : list Z → bool;
  k_registry_fd : result unit;       (* Err ENOENT when the map is not pinned *)
  k_vms_fd : result unit;
  k_vcpus_fd : result unit;
  k_stale : stale_env;
  k_order : list Z
}.

Definition under (dir p : list Z) : bool := starts_with (dir ++ slash) p.

(** [unlink_dir_contents]: [false] is -1. *)
Definition unlink_dir_contents (env : cleanup_env) (dir : list Z) (f : fs) : fs * bool :=
  if bool_decide (dir ∉ fs_dirs f) then (f, true)
  else if negb (k_opendir_ok env) then (f, false)
  else
    let keep := filter (λ p, under dir p.1 = false ∨ k_unlink_ok env p.1 = false) (fs_pins f) in
    (Fs (fs_dirs f) keep, bool_decide (filter (λ p, under dir p.1 = true) keep = ∅)).

(** [rmdir]: of an empty directory, or with [ENOENT]. *)
Definition rmdir (dir : list Z) (f : fs) : fs * result unit :=
  if bool_decide (dir ∉ fs_dirs f) then (f, Err ENOENT)
  else if bool_decide (filter (λ p, under dir p.1 = true) (fs_pins f) = ∅)
  then (Fs (fs_dirs f ∖ {[dir]}) (fs_pins f), Ok tt)
  else (f, Err (EOTHER 39)).

(** Whether an error of [bpf_obj_get] makes the tool fail. *)
Definition fd_failed (r : result unit) : bool :=
  match r with Ok _ => false | Err e => negb (bool_decide (e = ENOENT)) | Fault => true end.

(** Deleting a key that is not there sets [ENOENT], which is not an error
    here: the three deletions cannot fail otherwise. *)
Definition cleanup_vm (env : cleanup_env) (name : list Z) (st : host S) (f : fs)
  : host S * fs * Z :=
  let path := dir_path 256 name in
  let '(f, ok1) := unlink_dir_contents env path f in
  let '(f, r2) := rmdir path f in
  let ok2 := match r2 with Ok _ => true | Err e => bool_decide (e = ENOENT) | Fault => false end in
  let st := if is_ok (k_registry_fd env)
            then set_maps (delete (registry_key name suffix_2)
                            (delete (registry_key name suffix_1) (map_registry st)))
                          (inner_maps st) st
            else st in
  let st := if is_ok (k_vms_fd env)
            then set_vms (delete (strncpy_zeroed VM_NAME_LEN name) (vms st)) st else st in
  let st := if is_ok (k_vcpus_fd env)
            then set_vcpus (cleanup_stale_vcpus (k_stale env) (k_order env) name (vcpus st)) st
            else st in
  (st, f, if ok1 && ok2 && negb (fd_failed (k_registry_fd env)) && negb (fd_failed (k_vms_fd env))
             && negb (fd_failed (k_vcpus_fd env)) then 0 else 1).

(** The main program: one argument, the name. *)
Definition cleanup_main (env : cleanup_env) (argv : list (list Z)) (st : host S) (f : fs)
  : host S * fs * Z :=
  match argv with
  | _ :: name :: _ => cleanup_vm env name st f
  | _ => (st, f, 1)
  end.
End register.

(** ** Stale vCPUs: what is removed *)

Definition matches (name : list Z) (v : vcpu_t) : bool := strcmp_eq (vm_name v) name.

(** No allocation fails, and the enumeration visits every key. *)
Definition stale_env_ok (env : stale_env) : Prop :=
  keys_malloc_ok env = true ∧ ∀ n, keys_realloc_ok env n = true.
Definition covers (order : list Z) (vs : gmap Z vcpu_t) : Prop :=
  ∀ k, is_Some (vs !! k) → k ∈ order.

Definition stale_key (name : list Z) (vs : gmap Z vcpu_t) (k : Z) : Prop :=
  ∃ v, vs !! k = Some v ∧ matches name v = true.

#[global] Instance stale_key_dec name vs k : Decision (stale_key name vs k).
Proof.
  refine (match vs !! k as o return vs !! k = o → _ with
          | Some v => λ E, if decide (matches name v = true) then left _ else right _
          | None => λ E, right _
          end eq_refl).
  - by exists v.
  - intros (w & Hw & Hm). congruence.
  - intros (w & Hw & Hm). congruence.
Defined.

Lemma collect_stale_spec env name vs order keys cap :
  stale_env_ok env →
  collect_stale env name vs order keys cap = Some (keys ++ filter (stale_key name vs) order).
Proof.
  intros [_ Hr]. revert keys cap. induction order as [|k order IH]; intros keys cap; simpl.
  { by rewrite filter_nil, app_nil_r. }
  rewrite filter_cons. destruct (vs !! k) as [v|] eqn:E.
  - destruct (strcmp_eq (vm_name v) name) eqn:Em.
    + rewrite decide_True by (by exists v). rewrite Hr.
      case_bool; by rewrite IH, <- app_assoc.
    + rewrite decide_False by (intros (w & Hw & Hm); unfold matches in Hm; congruence).
      apply IH.
  - rewrite decide_False by (intros (w & Hw & _); congruence). apply IH.
Qed.

Lemma delete_all_lookup (keys : list Z) (vs : gmap Z vcpu_t) k :
  foldl (λ m k, delete k m) vs keys !! k = if decide (k ∈ keys) then None else vs !! k.
Proof.
  revert vs. induction keys as [|x keys IH]; intros vs.
  { case_decide as Hk; [by apply not_elem_of_nil in Hk|done]. }
  cbn [foldl]. rewrite IH. destruct (decide (k ∈ keys)) as [Hi|Hi].
  - case_decide as Hk; [done|]. destruct Hk. by right.
  - destruct (decide (k = x)) as [->|Hne].
    + rewrite lookup_delete_eq. case_decide as Hk; [done|]. destruct Hk. left.
    + rewrite lookup_delete_ne by done. case_decide as Hk; [|done].
      apply elem_of_cons in Hk. naive_solver.
Qed.

(** Exactly the entries of this name go. *)
Lemma stale_spec env order name vs :
  stale_env_ok env → covers order vs →
  cleanup_stale_vcpus env order name vs = filter (λ kv, matches name kv.2 = false) vs.
Proof.
  intros He Hc. unfold cleanup_stale_vcpus.
  rewrite (proj1 He), collect_stale_spec by done. simpl. apply map_eq. intros k.
  rewrite delete_all_lookup. symmetry. case_decide as Hk.
  - apply list_elem_of_filter in Hk as [(v & Hv & Hm) _]. apply map_lookup_filter_None. right.
    intros w Hw. simpl. congruence.
  - destruct (vs !! k) as [v|] eqn:Hv.
    + apply map_lookup_filter_Some. split; [done|]. simpl.
      destruct (matches name v) eqn:Hm; [|done]. exfalso. apply Hk.
      apply list_elem_of_filter. split; [by exists v|]. apply Hc. by eexists.
    + apply map_lookup_filter_None. by left.
Qed.

(** ** Names and keys *)

(** The key of a VM, and the invariant the tools keep: VMs are stored under
    the keys of names short enough for both sides to agree on the buffer names,
    vCPUs carry zero-padded names, and every registered map exists. *)
Definition key_of (s : list Z) : list Z := strncpy_zeroed VM_NAME_LEN s.

Definition good_name (s : list Z) : Prop := is_cstr s ∧ (length s <= 61)%nat.

Record named {S} (st : host S) : Prop := {
  named_vms n : is_Some (vms st !! n) → ∃ s, n = key_of s ∧ good_name s;
  named_vcpus t v : vcpus st !! t = Some v → vm_name v = pad VM_NAME_LEN (cstr_of (vm_name v));
  named_maps k m : map_registry st !! k = Some m → is_Some (inner_maps st !! m)
}.

Lemma key_of_pad s : good_name s → key_of s = pad VM_NAME_LEN s.
Proof. intros [_ Hl]. apply strncpy_short. unfold VM_NAME_LEN. lia. Qed.

Lemma cstr_of_key s : good_name s → cstr_of (key_of s) = s.
Proof. intros Hg. rewrite key_of_pad by done. apply cstr_of_pad, Hg. Qed.

Lemma key_of_inj s s' : good_name s → good_name s' → key_of s = key_of s' → s = s'.
Proof. intros H H' He. rewrite <- (cstr_of_key s), <- (cstr_of_key s') by done. by rewrite He. Qed.

Lemma cstr_of_id s : is_cstr s → cstr_of s = s.
Proof.
  intros Hs. induction Hs as [|c s Hc _ IH]; simpl; [done|].
  apply Z.eqb_neq in Hc. by rewrite Hc, IH.
Qed.

(** [strcmp] with the name tells the VM's own entries apart. *)
Lemma matches_key s v :
  good_name s → vm_name v = pad VM_NAME_LEN (cstr_of (vm_name v)) →
  matches s v = of_vm (key_of s) v.
Proof.
  intros Hg Hv. unfold matches, strcmp_eq, of_vm. apply bool_decide_ext.
  rewrite (cstr_of_id s) by apply Hg. rewrite key_of_pad by done. split.
  - intros He. by rewrite Hv, He.
  - intros ->. by apply cstr_of_pad, Hg.
Qed.

(** ** The vCPUs a registration stores *)

Definition insert_all (name : list Z) (l : list qmp_vpcu) (vs : gmap Z vcpu_t) : gmap Z vcpu_t :=
  foldl (λ m q, <[u32 (threadId q) := new_vcpu name q]> m) vs l.

(** The threads of the list are not registered for another VM. *)
Definition tids_free (s : list Z) (l : list qmp_vpcu) (vs : gmap Z vcpu_t) : Prop :=
  ∀ q v, q ∈ l → vs !! u32 (threadId q) = Some v → vm_name v = key_of s.

Lemma tids_free_cons s q l vs :
  tids_free s (q :: l) vs → tids_free s l (<[u32 (threadId q) := new_vcpu s q]> vs).
Proof.
  intros Hf q' v Hq'. rewrite lookup_insert. case_decide; [by intros [= <-]|].
  apply (Hf q'). by right.
Qed.

Section counting.
Context (s : list Z) (P : vcpu_t → bool).

(** A test that rejects this VM's vCPUs does not notice the registration. *)
Lemma insert_all_other l vs :
  (∀ v, vm_name v = key_of s → P v = false) → tids_free s l vs →
  map_count P (insert_all s l vs) = map_count P vs.
Proof using All.
  intros HP. revert vs. induction l as [|q l IH]; intros vs Hf; [done|]. simpl.
  rewrite IH by by apply tids_free_cons. rewrite map_count_insert.
  rewrite (HP (new_vcpu s q)) by done. unfold count_at.
  destruct (vs !! u32 (threadId q)) as [v|] eqn:E; simpl; [|lia].
  rewrite (HP v); [simpl; lia|]. apply (Hf q); [by left|done].
Qed.

(** At most one vCPU is added for each element of the list. *)
Lemma insert_all_le l vs :
  map_count P (insert_all s l vs) <= map_count P vs + Z.of_nat (length l).
Proof using All.
  revert vs. induction l as [|q l IH]; intros vs; simpl; [lia|].
  pose proof (IH (<[u32 (threadId q) := new_vcpu s q]> vs)) as H.
  rewrite map_count_insert in H. pose proof (count_at_nonneg P vs (u32 (threadId q))).
  destruct (P (new_vcpu s q)); simpl in *; lia.
Qed.

(** A test the new vCPUs fail does not count more of them. *)
Lemma insert_all_rejected l vs :
  (∀ q, P (new_vcpu s q) = false) → map_count P (insert_all s l vs) <= map_count P vs.
Proof using All.
  intros HP. revert vs. induction l as [|q l IH]; intros vs; simpl; [lia|].
  etrans; [apply IH|]. rewrite map_count_insert, HP. simpl.
  pose proof (count_at_nonneg P vs (u32 (threadId q))). lia.
Qed.
End counting.

Lemma insert_all_forall (Q : vcpu_t → Prop) s l vs :
  (∀ q, Q (new_vcpu s q)) → map_Forall (λ _ v, Q v) vs →
  map_Forall (λ _ v, Q v) (insert_all s l vs).
Proof.
  intros HQ. revert vs. induction l as [|q l IH]; intros vs Hv; simpl; [done|].
  apply IH. by apply map_Forall_insert_2.
Qed.

Section loop.
Context {S : Type}.
Implicit Types st : host S.

(** The loop stores a prefix of the list, the whole list if it succeeds. *)
Lemma register_vcpus_prefix env n name l st :
  ∃ k, (register_vcpus env n name l st).1 = set_vcpus (insert_all name (take k l) (vcpus st)) st ∧
    ((register_vcpus env n name l st).2 = true → take k l = l).
Proof.
  revert n st. induction l as [|q l IH]; intros n st; simpl.
  { exists 0%nat. by destruct st. }
  destruct (r_vcpu_malloc_ok env n); simpl; [|exists 0%nat; by destruct st].
  unfold hash_update. destruct (vcpus st !! u32 (threadId q)) eqn:E; [|case_bool].
  3: exists 0%nat; by destruct st.
  all: edestruct IH as (k & Hk & Ht); exists (Datatypes.S k); rewrite Hk; split;
    [done|intros H; simpl; by rewrite Ht].
Qed.

(** It fails only for lack of memory or room. *)
Lemma register_vcpus_ok env n name l st :
  (∀ i, r_vcpu_malloc_ok env i = true) →
  Z.of_nat (size (vcpus st)) + Z.of_nat (length l) <= VCPUS_MAX_ENTRIES →
  (register_vcpus env n name l st).2 = true.
Proof.
  intros Hm. revert n st. induction l as [|q l IH]; intros n st Hs; simpl; [done|].
  rewrite Hm. simpl in *. unfold hash_update.
  destruct (vcpus st !! u32 (threadId q)) as [v|] eqn:E.
  - apply IH. simpl. rewrite map_size_insert_Some by done. lia.
  - destruct (Z.ltb_spec (Z.of_nat (size (vcpus st))) VCPUS_MAX_ENTRIES); [|lia].
    apply IH. simpl. rewrite map_size_insert_None by done. lia.
Qed.
End loop.

(** ** What [register_vm] does *)

Section registration.
Context {S : Type}.
Implicit Types st : host S.

Definition not_of (name : list Z) (vs : gmap Z vcpu_t) : gmap Z vcpu_t :=
  filter (λ kv, matches name kv.2 = false) vs.

Definition enrolled (name socket : list Z) (nb : Z) (l : list qmp_vpcu) st : host S :=
  set_vcpus (insert_all name l (not_of name (vcpus st)))
    (set_vms (<[key_of name := new_vm socket nb]> (vms st)) st).

(** Nothing happens, or the stale vCPUs of a VM that is not registered go, or
    the VM is stored with the first vCPUs of the list. *)
Lemma register_vm_cases env l name socket nb st :
  stale_env_ok (r_stale env) → covers (r_order env) (vcpus st) →
  let r := register_vm env l name socket nb st in
  r = (st, false) ∨
  (vms st !! key_of name = None ∧ r = (set_vcpus (not_of name (vcpus st)) st, false)) ∨
  (∃ k, r.1 = enrolled name socket nb (take k l) st ∧ (r.2 = true → take k l = l)).
Proof.
  intros He Hc r. unfold r, register_vm.
  destruct (r_malloc_ok env); simpl; [|by left].
  destruct (r_vms_fd_ok env); simpl; [|by left].
  destruct (r_vcpus_fd_ok env); simpl; [|by left].
  rewrite stale_spec by done. fold (not_of name (vcpus st)). fold (key_of name).
  unfold hash_update. simpl. right.
  destruct (vms st !! key_of name) eqn:E; [|case_bool].
  3: by left.
  all: right; destruct (register_vcpus_prefix env 0 name l
      (set_vms (<[key_of name:=new_vm socket nb]> (vms st))
        (set_vcpus (not_of name (vcpus st)) st))) as (k & Hk & Ht);
    exists k; split; [rewrite Hk; done|done].
Qed.

Lemma not_of_free s l vs : tids_free s l vs → tids_free s l (not_of s vs).
Proof. intros Hf q v Hq Hv. apply map_lookup_filter_Some in Hv as [Hv _]. by apply (Hf q). Qed.

Lemma not_of_subset s vs t v : not_of s vs !! t = Some v → vs !! t = Some v.
Proof. intros Hv. by apply map_lookup_filter_Some in Hv as [Hv _]. Qed.

Section counts.
Context (s : list Z) (st : host S) (Hg : good_name s) (Hn : named st).

Lemma vcpu_matches t v : vcpus st !! t = Some v → matches s v = of_vm (key_of s) v.
Proof using All. intros Hv. apply matches_key; [done|]. by apply (named_vcpus st Hn t). Qed.

(** Other VMs keep all their vCPUs. *)
Lemma not_of_other P : (∀ v, vm_name v = key_of s → P v = false) →
  map_count P (not_of s (vcpus st)) = map_count P (vcpus st).
Proof using All.
  intros HP. apply map_count_filter. intros t v Hv HPv. simpl.
  rewrite (vcpu_matches t v Hv). unfold of_vm. apply bool_decide_false.
  intros He. rewrite HP in HPv; done.
Qed.

(** This VM loses all of them. *)
Lemma not_of_own P : (∀ v, vm_name v ≠ key_of s → P v = false) →
  map_count P (not_of s (vcpus st)) = 0.
Proof using All.
  intros HP. apply map_count_none. intros t v Hv.
  apply map_lookup_filter_Some in Hv as [Hv Hm]. simpl in Hm.
  rewrite (vcpu_matches t v Hv) in Hm. apply HP. by apply bool_decide_eq_false in Hm.
Qed.

Lemma of_vm_other n v : n ≠ key_of s → vm_name v = key_of s → of_vm n v = false.
Proof using All. intros Hne He. apply bool_decide_false. congruence. Qed.

Lemma phantom_of_other n v : n ≠ key_of s → vm_name v = key_of s → phantom_of n v = false.
Proof using All. intros Hne He. unfold phantom_of. by rewrite of_vm_other. Qed.

Lemma of_vm_own v : vm_name v ≠ key_of s → of_vm (key_of s) v = false.
Proof using All. intros Hne. by apply bool_decide_false. Qed.

Lemma phantom_of_own v : vm_name v ≠ key_of s → phantom_of (key_of s) v = false.
Proof using All. intros Hne. unfold phantom_of. by rewrite of_vm_own. Qed.

Lemma not_of_flags : flags_ok st → map_Forall (λ _ v, is_phantom v = 0 ∨ is_phantom v = 1)
  (not_of s (vcpus st)).
Proof using All. intros Hf t v Hv. apply (Hf t). by apply not_of_subset in Hv. Qed.

(** Removing the vCPUs of a VM that is not registered keeps the counters right. *)
Lemma drop_inv v : phantom_inv st → v = delete (key_of s) (vms st) →
  phantom_inv (set_vcpus (not_of s (vcpus st)) (set_vms v st)).
Proof using All.
  intros [Hf Hi] ->. split.
  { intros t w Hw. by apply (not_of_flags Hf t). }
  intros n c nb Hc. unfold counts in Hc. simpl in Hc. rewrite fmap_delete in Hc.
  apply lookup_delete_Some in Hc as [Hne Hc]. destruct (Hi n c nb Hc) as (-> & ? & ?).
  unfold phantoms, registered. simpl. rewrite !not_of_other; [done|..].
  - intros; by apply of_vm_other.
  - intros; by apply phantom_of_other.
Qed.

(** A registration, complete or not, keeps them right. *)
Lemma enrolled_inv socket nb l :
  phantom_inv st → Z.of_nat (length l) <= nb < 2 ^ 32 → tids_free s l (vcpus st) →
  phantom_inv (enrolled s socket nb l st).
Proof using All.
  intros [Hf Hi] Hl Ht. pose proof (not_of_free s l _ Ht) as Ht'. split.
  { intros t w Hw. revert t w Hw. apply insert_all_forall; [by left|by apply not_of_flags]. }
  intros n c nb' Hc. unfold counts in Hc. simpl in Hc. rewrite fmap_insert in Hc.
  unfold phantoms, registered. simpl. rewrite lookup_insert in Hc. case_decide as Hk.
  - subst n. injection Hc as <- <-. rewrite u32_id by lia.
    pose proof (insert_all_le s (of_vm (key_of s)) l (not_of s (vcpus st))) as Hr.
    pose proof (insert_all_rejected s (phantom_of (key_of s)) l (not_of s (vcpus st))) as Hp.
    rewrite not_of_own in Hr by (intros; by apply of_vm_own).
    rewrite not_of_own in Hp by (intros; by apply phantom_of_own).
    specialize (Hp ltac:(intros q; unfold phantom_of; by rewrite andb_false_r)).
    pose proof (map_count_nonneg (phantom_of (key_of s)) (insert_all s l (not_of s (vcpus st)))).
    split_and!; lia.
  - destruct (Hi n c nb' Hc) as (-> & ? & ?).
    assert (of_vm_other' : ∀ v, vm_name v = key_of s → of_vm n v = false)
      by (intros; by apply of_vm_other).
    assert (∀ v, vm_name v = key_of s → phantom_of n v = false)
      by (intros; by apply phantom_of_other).
    rewrite !insert_all_other, !not_of_other by done. done.
Qed.
End counts.
End registration.

(** ** What [setup_vm_maps] does *)

Section setup.
Context {S : Type}.
Implicit Types st : host S.

Definition equipped (name : list Z) (c1 c2 : Z) st : host S :=
  set_maps
    (<[registry_key name suffix_2 := c2]> (<[registry_key name suffix_1 := c1]> (map_registry st)))
    (<[c2 := array_new VM_MAP_MAX_ENTRIES]>
      (<[c1 := array_new VM_MAP_MAX_ENTRIES]> (inner_maps st))) st.

Definition pinned (name : list Z) (c1 c2 : Z) (f : fs) : fs :=
  Fs (fs_dirs f ∪ {[dir_path 128 name]})
     (<[pin_path name 50 := c2]> (<[pin_path name 49 := c1]> (fs_pins f))).

Lemma pin_paths_delete (name : list Z) (c1 c2 : Z) (p : gmap (list Z) Z) :
  <[pin_path name 50 := c2]> (delete (pin_path name 50)
    (<[pin_path name 49 := c1]> (delete (pin_path name 49) p))) =
  <[pin_path name 50 := c2]> (<[pin_path name 49 := c1]> p).
Proof. by rewrite insert_delete_eq, insert_delete_eq. Qed.

Lemma setup_vm_maps_done env name st f st' f' :
  setup_vm_maps env name st f = (st', f', true) →
  ∃ c1 c2, s_create_1 env = Some c1 ∧ s_create_2 env = Some c2 ∧
    st' = equipped name c1 c2 st ∧ f' = pinned name c1 c2 f.
Proof.
  unfold setup_vm_maps. destruct (s_registry_fd_ok env); simpl; [|by intros].
  destruct (_ && _); [by intros|]. destruct (s_create_1 env) as [c1|]; simpl; [|by intros].
  destruct (s_pin_1_ok env); simpl; [|by intros].
  destruct (s_create_2 env) as [c2|]; simpl; [|by intros].
  destruct (s_pin_2_ok env); simpl; [|by intros].
  destruct (hash_update _ _ c1 _) as [r1| |] eqn:E1; simpl; [|by intros..].
  destruct (hash_update _ _ c2 _) as [r2| |] eqn:E2; simpl; [|by intros..].
  intros [= <- <-]. exists c1, c2. split_and!; [done..| |].
  - apply hash_update_ok in E1, E2. subst. done.
  - unfold pinned. simpl. by rewrite pin_paths_delete.
Qed.

(** It fails only when a system call does, or when the registry is full. *)
Lemma setup_vm_maps_ok env name st f c1 c2 :
  s_registry_fd_ok env = true → s_mkdir_ok env = true → s_create_1 env = Some c1 →
  s_pin_1_ok env = true → s_create_2 env = Some c2 → s_pin_2_ok env = true →
  Z.of_nat (size (map_registry st)) + 2 <= MAP_REGISTRY_MAX_ENTRIES →
  setup_vm_maps env name st f = (equipped name c1 c2 st, pinned name c1 c2 f, true).
Proof.
  intros H1 H2 H3 H4 H5 H6 Hs. unfold setup_vm_maps. rewrite H1, H2, H3, H4, H5, H6. simpl.
  rewrite andb_false_r. rewrite hash_update_room by lia. simpl.
  rewrite hash_update_room.
  - simpl. unfold pinned. by rewrite pin_paths_delete.
  - pose proof (map_size_insert_le (registry_key name suffix_1) c1 (map_registry st)). lia.
Qed.

(** The keys of two names meet only when the names are equal. *)
Lemma collection_keys_of s : good_name s →
  collection_keys (key_of s) = (registry_key s suffix_1, registry_key s suffix_2).
Proof. intros [Hc Hl]. by apply VmKeys.keys_agree_short. Qed.

Lemma registry_keys_apart s s' : good_name s → good_name s' → s ≠ s' →
  ∀ x x', x ∈ [suffix_1; suffix_2] → x' ∈ [suffix_1; suffix_2] →
    registry_key s x ≠ registry_key s' x'.
Proof.
  intros [Hc Hl] [Hc' Hl'] Hne x x' Hx Hx' He.
  destruct (decide (x = x')) as [<-|Hd].
  { by apply Hne, (VmKeys.registry_key_inj s s' x). }
  apply list_elem_of_In in Hx as [<-|[<-|[]]]; apply list_elem_of_In in Hx' as [<-|[<-|[]]].
  - done.
  - by apply VmKeys.registry_key_suffix_ne in He.
  - symmetry in He. by apply VmKeys.registry_key_suffix_ne in He.
  - done.
Qed.
End setup.

(** ** Registration and removal keep the sampling invariant *)

Section preservation.
Context {S : Type}.
Implicit Types st : host S.

(** Registered maps of a VM are maps that exist. *)
Lemma owns_alive st n m : named st → owns st n m → is_Some (inner_maps st !! m).
Proof.
  intros Hn (m1 & m2 & Hb & Hm). unfold buf_maps in Hb.
  destruct (map_registry st !! (collection_keys n).1) as [x|] eqn:E1; [|done].
  destruct (map_registry st !! (collection_keys n).2) as [y|] eqn:E2; [|done].
  injection Hb as -> ->. destruct Hm as [->| ->]; by eapply (named_maps st Hn).
Qed.

(** A change of the registry that leaves the two keys of a VM alone. *)
Lemma collecting_move st st' n vm h :
  buf_maps st' n = buf_maps st n →
  (∀ m, owns st n m → inner_maps st' !! m = inner_maps st !! m) →
  collecting st n vm h → collecting st' n vm h.
Proof.
  intros Hb Hi (Hf & m1 & m2 & a & b & Hm & Hne & Ha & Hfa & Hb' & Hfb & Hidx & Hh).
  split; [done|]. exists m1, m2, a, b. rewrite Hb.
  assert (Ho : ∀ m, m = m1 ∨ m = m2 → owns st n m) by (unfold owns; eauto).
  unfold active, spare in *.
  rewrite !Hi by (apply Ho; destruct (is_collectx_in_buff_1 vm =? 1); auto).
  done.
Qed.

Section register.
Context (s : list Z) (st st' : host S) (c1 c2 : Z).
Context (Hg : good_name s) (Hn : named st).
Context (Hc1 : inner_maps st !! c1 = None) (Hc2 : inner_maps st !! c2 = None) (Hc : c1 ≠ c2).
Context (Hreg : map_registry st' = map_registry (equipped s c1 c2 st)).
Context (Hin : inner_maps st' = inner_maps (equipped s c1 c2 st)).

Lemma equipped_other s' : good_name s' → s' ≠ s → buf_maps st' (key_of s') = buf_maps st (key_of s').
Proof using All.
  intros Hg' Hne. unfold buf_maps. rewrite Hreg, collection_keys_of by done. simpl.
  rewrite !lookup_insert_ne by (apply registry_keys_apart; set_solver). done.
Qed.

Lemma equipped_own : buf_maps st' (key_of s) = Some (c1, c2).
Proof using All.
  unfold buf_maps. rewrite Hreg, collection_keys_of by done. simpl.
  rewrite lookup_insert_eq, lookup_insert_ne, lookup_insert_eq; [done|].
  apply not_eq_sym. apply VmKeys.registry_key_suffix_ne; apply Hg.
Qed.

Lemma equipped_maps m : is_Some (inner_maps st !! m) → inner_maps st' !! m = inner_maps st !! m.
Proof using All.
  intros [a Ha]. rewrite Hin. simpl. rewrite !lookup_insert_ne; congruence.
Qed.

Lemma equipped_fresh m : m = c1 ∨ m = c2 →
  inner_maps st' !! m = Some (array_new VM_MAP_MAX_ENTRIES).
Proof using All.
  intros Hm. rewrite Hin. simpl. destruct Hm as [->| ->].
  - rewrite lookup_insert_ne, lookup_insert_eq; done.
  - by rewrite lookup_insert_eq.
Qed.

(** A VM with zeroed counters collects into the first of the new buffers. *)
Lemma equipped_collecting socket nb : collecting st' (key_of s) (new_vm socket nb) [].
Proof using All.
  split; [by left|]. exists c1, c2, (array_new VM_MAP_MAX_ENTRIES), (array_new VM_MAP_MAX_ENTRIES).
  rewrite equipped_own. unfold active, spare. simpl. rewrite !equipped_fresh by auto.
  do 7 (split; [done|]). by apply holds_nil.
Qed.

Lemma registered_tracks (H : history) socket nb :
  tracks st H → vms st' = <[key_of s := new_vm socket nb]> (vms st) → clk st' = clk st →
  0 <= nb < 2 ^ 32 → tracks st' (set_history (key_of s) [] H).
Proof using All.
  intros [Hk Hd Ht] Hv Hclk Hnb.
  assert (Hother : ∀ n, n ≠ key_of s → is_Some (vms st' !! n) →
            is_Some (vms st !! n) ∧ ∃ s', n = key_of s' ∧ good_name s' ∧ s' ≠ s).
  { intros n Hne. rewrite Hv, lookup_insert_ne by done. intros Hs. split; [done|].
    destruct (named_vms st Hn n Hs) as (s' & -> & Hs'). exists s'. naive_solver. }
  assert (Hown : ∀ n m, n ≠ key_of s → is_Some (vms st' !! n) → owns st' n m → owns st n m).
  { intros n m Hne Hs (m1 & m2 & Hb & Hm). destruct (Hother n Hne Hs) as (_ & s' & -> & ? & ?).
    rewrite equipped_other in Hb by done. by exists m1, m2. }
  assert (Hapart : ∀ n m, n ≠ key_of s → is_Some (vms st' !! n) →
            owns st' n m → owns st' (key_of s) m → False).
  { intros n m Hne Hs Ho (m1 & m2 & Hb & Hm). rewrite equipped_own in Hb. injection Hb as <- <-.
    apply (Hown n m Hne Hs) in Ho. apply owns_alive in Ho as [a Ha]; [|done].
    destruct Hm as [-> | ->]; congruence. }
  split; [by rewrite Hclk| |].
  - intros n n' m Hs Hs' Ho Ho'.
    destruct (decide (n = key_of s)) as [->|Hne], (decide (n' = key_of s)) as [->|Hne']; try done.
    + by destruct (Hapart n' m).
    + by destruct (Hapart n m).
    + apply (Hd n n' m); auto; by apply Hother.
  - intros n vm. rewrite Hv, lookup_insert. case_decide as Hne.
    + intros [= <-]. subst n. rewrite set_history_eq. split_and!.
      * apply equipped_collecting.
      * split; [constructor| |done]. intros i a b Ha. done.
      * done.
      * simpl. rewrite u32_id by lia. lia.
      * simpl. apply u32_range.
      * simpl. apply u32_range.
    + intros Hvm. rewrite set_history_ne by done.
      destruct (Ht n vm Hvm) as (Hcol & Hsound & Hrest). split_and!; try apply Hrest.
      * destruct (Hother n) as (Hs & s' & -> & Hg' & Hss); [done|rewrite Hv, lookup_insert_ne; eauto|].
        apply (collecting_move st); [by apply equipped_other| |done].
        intros m Hm. apply equipped_maps. by eapply owns_alive.
      * apply (sound_frame st _ vm vm); [unfold now; rewrite Hclk; lia|done|done].
Qed.
End register.
End preservation.

Section removal.
Context {S : Type}.
Implicit Types st : host S.

(** The cleanup reaches the three maps and no allocation fails. *)
Record cleanup_ok (env : cleanup_env) st : Prop := {
  ck_registry : k_registry_fd env = Ok tt;
  ck_vms : k_vms_fd env = Ok tt;
  ck_vcpus : k_vcpus_fd env = Ok tt;
  ck_stale : stale_env_ok (k_stale env);
  ck_order : covers (k_order env) (vcpus st)
}.

Definition removed (s : list Z) st : host S :=
  set_vcpus (not_of s (vcpus st)) (set_vms (delete (key_of s) (vms st))
    (set_maps (delete (registry_key s suffix_2) (delete (registry_key s suffix_1) (map_registry st)))
       (inner_maps st) st)).

Lemma cleanup_vm_host env s st f :
  cleanup_ok env st → (cleanup_vm env s st f).1.1 = removed s st.
Proof.
  intros [H1 H2 H3 H4 H5]. unfold cleanup_vm. rewrite H1, H2, H3.
  destruct (unlink_dir_contents _ _ _) as [f1 ok1]. destruct (rmdir _ f1) as [f2 r2]. simpl.
  by rewrite stale_spec.
Qed.

Lemma removed_vms s st n vm :
  vms (removed s st) !! n = Some vm ↔ n ≠ key_of s ∧ vms st !! n = Some vm.
Proof. simpl. rewrite lookup_delete_Some. naive_solver. Qed.

Lemma removed_inv s st : good_name s → named st → phantom_inv st → phantom_inv (removed s st).
Proof.
  intros Hg Hn Hi. eapply same_counts_inv; [|by apply (drop_inv s st Hg Hn)]. by split.
Qed.

(** Removing a VM leaves the buffers of the others where they are. *)
Lemma removed_tracks s st (H : history) :
  good_name s → named st → tracks st H → tracks (removed s st) H.
Proof.
  intros Hg Hn [Hk Hd Ht].
  assert (Hb : ∀ n, is_Some (vms (removed s st) !! n) →
            is_Some (vms st !! n) ∧ buf_maps (removed s st) n = buf_maps st n).
  { intros n [vm Hvm]. apply removed_vms in Hvm as [Hne Hvm]. split; [by eexists|].
    destruct (named_vms st Hn n) as (s' & -> & Hg'); [by eexists|].
    assert (s' ≠ s) by naive_solver. unfold buf_maps. rewrite collection_keys_of by done. simpl.
    rewrite !lookup_delete_ne by (apply registry_keys_apart; set_solver). done. }
  split; [done| |].
  - intros n n' m Hs Hs' (m1 & m2 & Ho & Hm) (m1' & m2' & Ho' & Hm').
    destruct (Hb n Hs) as [? Hbn], (Hb n' Hs') as [? Hbn']. rewrite Hbn in Ho. rewrite Hbn' in Ho'.
    apply (Hd n n' m); [done..|by exists m1, m2|by exists m1', m2'].
  - intros n vm Hvm. destruct (Hb n) as [_ Hbn]; [by eexists|].
    apply removed_vms in Hvm as [_ Hvm]. destruct (Ht n vm Hvm) as (Hc & Hs & Hr).
    split_and!; try apply Hr; [by apply (collecting_move st)|by apply (sound_frame st _ vm vm)].
Qed.

Lemma removed_named s st : named st → named (removed s st).
Proof.
  intros [H1 H2 H3]. split.
  - intros n [vm Hvm]. apply removed_vms in Hvm as [_ Hvm]. apply H1. by eexists.
  - intros t v Hv. apply (H2 t). by apply not_of_subset in Hv.
  - intros k m. simpl. rewrite !lookup_delete_Some. intros (_ & _ & Hm). by apply (H3 k).
Qed.

Lemma enrolled_named s socket nb l st :
  good_name s → named st → named (enrolled s socket nb l st).
Proof.
  intros Hg [H1 H2 H3]. split; [| |done].
  - intros n. simpl. rewrite lookup_insert_is_Some. intros [<-|[_ Hn]]; [by exists s|by apply H1].
  - intros t v Hv. revert t v Hv. apply insert_all_forall.
    + intros q. simpl. change (strncpy_zeroed VM_NAME_LEN s) with (key_of s).
      by rewrite cstr_of_key, key_of_pad.
    + intros t v Hv. apply (H2 t). by apply not_of_subset in Hv.
Qed.

Lemma equipped_named s c1 c2 st : named st → named (equipped s c1 c2 st).
Proof.
  intros [H1 H2 H3]. split; [done..|]. intros k m. simpl.
  assert (Hin : ∀ m, is_Some (inner_maps st !! m) ∨ m = c1 ∨ m = c2 →
    is_Some (<[c2:=array_new VM_MAP_MAX_ENTRIES]>
      (<[c1:=array_new VM_MAP_MAX_ENTRIES]> (inner_maps st)) !! m)).
  { intros m' Hm. rewrite !lookup_insert_is_Some'. naive_solver. }
  rewrite !lookup_insert_Some. intros [[_ <-]|[_ [[_ <-]|[_ Hm]]]]; apply Hin; auto.
  left. by apply (H3 k).
Qed.
End removal.

(** ** The whole program *)

Section main.
Context {S : Type}.
Implicit Types st : host S.

(** No allocation or map operation fails, and the maps have room. *)
Record reg_ok (env : reg_env) (name : list Z) (l : list qmp_vpcu) st : Prop := {
  ro_malloc : r_malloc_ok env = true;
  ro_vms_fd : r_vms_fd_ok env = true;
  ro_vcpus_fd : r_vcpus_fd_ok env = true;
  ro_stale : stale_env_ok (r_stale env);
  ro_order : covers (r_order env) (vcpus st);
  ro_vcpu_malloc i : r_vcpu_malloc_ok env i = true;
  ro_vms_room : Z.of_nat (size (vms st)) < VMS_MAX_ENTRIES;
  ro_vcpus_room : Z.of_nat (size (vcpus st)) + Z.of_nat (length l) <= VCPUS_MAX_ENTRIES
}.

Lemma size_not_of s vs : (size (not_of s vs) <= size vs)%nat.
Proof. apply map_subseteq_size, map_filter_subseteq. Qed.

Lemma register_vm_ok env l name socket nb st :
  reg_ok env name l st → register_vm env l name socket nb st = (enrolled name socket nb l st, true).
Proof.
  intros [H1 H2 H3 H4 H5 H6 H7 H8]. unfold register_vm. rewrite H1, H2, H3. simpl.
  rewrite stale_spec by done. fold (not_of name (vcpus st)). rewrite hash_update_room by done.
  match goal with |- register_vcpus _ _ _ _ ?x = _ => set (y := x) end.
  pose proof (size_not_of name (vcpus st)).
  assert (Hb : (register_vcpus env 0 name l y).2 = true).
  { apply register_vcpus_ok; [done|]. simpl. lia. }
  destruct (register_vcpus_prefix env 0 name l y) as (k & Hk & Ht). specialize (Ht Hb).
  rewrite (surjective_pairing (register_vcpus _ _ _ _ _)), Hb, Hk, Ht. done.
Qed.

Record setup_ok (env : setup_env) (c1 c2 : Z) st : Prop := {
  so_registry : s_registry_fd_ok env = true;
  so_mkdir : s_mkdir_ok env = true;
  so_create_1 : s_create_1 env = Some c1;
  so_pin_1 : s_pin_1_ok env = true;
  so_create_2 : s_create_2 env = Some c2;
  so_pin_2 : s_pin_2_ok env = true;
  so_room : Z.of_nat (size (map_registry st)) + 2 <= MAP_REGISTRY_MAX_ENTRIES;
  so_fresh_1 : inner_maps st !! c1 = None;
  so_fresh_2 : inner_maps st !! c2 = None;
  so_distinct : c1 ≠ c2
}.

Definition line_bytes (l : list Z) : list rd := RByte <$> l ++ [10].

(** The monitor answers three lines, the third listing [es], and every line
    fits the buffer. *)
Record main_ok (env : main_env) (nb : Z) (pre : list Z) (es : list entry) : Prop := {
  mo_malloc : m_buff_malloc_ok env = true;
  mo_socket : m_socket_ok env = true;
  mo_write_1 : m_write_1_ok env = true;
  mo_write_2 : m_write_2_ok env = true;
  mo_head : m_head_ok env = true;
  mo_alloc : m_alloc env = alloc_ok;
  mo_lines : ∃ greeting caps answer rest,
    m_sock env = line_bytes greeting ++ line_bytes caps ++ line_bytes answer ++ rest ∧
    answer ++ [10] = render pre es ∧ is_cstr answer ∧
    Forall (λ l, Forall (λ c, c ≠ 10) l ∧ Z.of_nat (length l) + 1 < nb * QMP_VCPU_SIZE)
      [greeting; caps; answer];
  mo_pre : clear_of entry_key pre;
  mo_entries : Forall entry_ok es
}.

Lemma qmp_read_line_ok bufsz line sock :
  1 <= bufsz < 2 ^ 63 → Forall (λ c, c ≠ 10) line → Z.of_nat (length line) + 1 < bufsz →
  qmp_read_line bufsz (line_bytes line ++ sock) = Ok (line ++ [10], sock).
Proof. intros Hb Hl Hlen. exact (read_loop_line bufsz line sock [] Hb Hl Hlen). Qed.

Definition registered_state (s socket : list Z) (nb : Z) (l : list qmp_vpcu) (c1 c2 : Z) st : host S :=
  equipped s c1 c2 (enrolled s socket nb l st).

Lemma register_main_ok env prog socket s nbs nb pre es c1 c2 st f :
  atoi nbs = nb → 1 <= nb < 2 ^ 31 → (length socket < SUN_PATH_LEN)%nat →
  main_ok env nb pre es → reg_ok (m_reg env) s (map vcpu_of es) st → setup_ok (m_setup env) c1 c2 st →
  register_main env [prog; socket; s; nbs] st f =
    Ok (0, registered_state s socket nb (map vcpu_of es) c1 c2 st, pinned s c1 c2 f).
Proof.
  intros Hat Hnb Hlen [H1 H2 H3 H4 H5 H6 H7 H8 H9] Hreg [G1 G2 G3 G4 G5 G6 G7 G8 G9 G10].
  destruct H7 as (g & ca & an & rest & Hsock & Han & Hcstr & Hall).
  rewrite !Forall_cons in Hall. destruct Hall as ((? & ?) & (? & ?) & (? & ?) & _).
  assert (Hsz : u64 (nb * QMP_VCPU_SIZE) = nb * QMP_VCPU_SIZE)
    by (apply u64_id; unfold QMP_VCPU_SIZE; lia).
  assert (1 <= nb * QMP_VCPU_SIZE < 2 ^ 63) by (unfold QMP_VCPU_SIZE; lia).
  unfold register_main, qmp_connect. rewrite Hat, Hsz, H1, H2, H3, H4, H5, H6, Hsock. cbn [negb].
  destruct (Nat.leb_spec SUN_PATH_LEN (length socket)); [lia|]. cbn [negb].
  rewrite qmp_read_line_ok by done. unfold qmp_send_recv. cbn [negb].
  rewrite qmp_read_line_ok by done. cbv beta iota. rewrite qmp_read_line_ok by done. cbv beta iota.
  rewrite cstr_of_id, Han, extract_render; [|done..|].
  - rewrite register_vm_ok by done.
    erewrite setup_vm_maps_ok by done. done.
  - apply Forall_app_2; [done|]. repeat constructor; lia.
Qed.
End main.

(** The state a registration leaves. *)
Section registered.
Context {S : Type} (s socket : list Z) (nb : Z) (l : list qmp_vpcu) (c1 c2 : Z) (st : host S).
Context (Hg : good_name s) (Hn : named st) (Hnb : Z.of_nat (length l) <= nb < 2 ^ 31).
Context (Hf : tids_free s l (vcpus st)).
Context (Hc1 : inner_maps st !! c1 = None) (Hc2 : inner_maps st !! c2 = None) (Hc : c1 ≠ c2).

Lemma registered_inv : phantom_inv st → phantom_inv (registered_state s socket nb l c1 c2 st).
Proof using All.
  intros Hi. eapply (same_counts_inv (enrolled s socket nb l st)); [done|].
  apply enrolled_inv; try done. lia.
Qed.

Lemma registered_state_tracks (H : history) : tracks st H →
  tracks (registered_state s socket nb l c1 c2 st) (set_history (key_of s) [] H).
Proof using All.
  intros Ht.
  apply (registered_tracks s st (registered_state s socket nb l c1 c2 st)
           c1 c2 Hg Hn Hc1 Hc2 Hc eq_refl eq_refl H socket nb); try done. lia.
Qed.

Lemma registered_named : named (registered_state s socket nb l c1 c2 st).
Proof using All. by apply equipped_named, enrolled_named. Qed.
End registered.

(** ** Undoing a registration *)

Section round_trip.
Context {S : Type}.
Implicit Types st : host S.

Lemma insert_all_lookup s l vs t :
  (∃ q, q ∈ l ∧ t = u32 (threadId q) ∧ insert_all s l vs !! t = Some (new_vcpu s q)) ∨
  ((∀ q, q ∈ l → t ≠ u32 (threadId q)) ∧ insert_all s l vs !! t = vs !! t).
Proof.
  revert vs. induction l as [|q l IH]; intros vs.
  { right. split; [|done]. intros q Hq. by apply not_elem_of_nil in Hq. }
  cbn [insert_all foldl]. destruct (IH (<[u32 (threadId q):=new_vcpu s q]> vs))
    as [(q' & Hq' & Ht & He)|[Hne He]].
  - left. exists q'. split_and!; [by right|done|done].
  - destruct (decide (t = u32 (threadId q))) as [->|Hd].
    + left. exists q. split_and!; [by left|done|]. etrans; [exact He|]. apply lookup_insert_eq.
    + right. split.
      * intros q' [->|Hq']%elem_of_cons; auto.
      * etrans; [exact He|]. by apply lookup_insert_ne.
Qed.

(** A VM that is not known: no vCPU, no thread of it registered. *)
Record unknown (s : list Z) (l : list qmp_vpcu) st : Prop := {
  un_vm : vms st !! key_of s = None;
  un_vcpus t v : vcpus st !! t = Some v → vm_name v ≠ key_of s;
  un_tids q : q ∈ l → vcpus st !! u32 (threadId q) = None;
  un_reg_1 : map_registry st !! registry_key s suffix_1 = None;
  un_reg_2 : map_registry st !! registry_key s suffix_2 = None
}.

Lemma not_of_unknown s l st : good_name s → named st → unknown s l st →
  not_of s (vcpus st) = vcpus st.
Proof.
  intros Hg Hn Hu. apply map_filter_id. intros t v Hv. simpl.
  rewrite (vcpu_matches s st Hg Hn t v Hv). apply bool_decide_false. by apply (un_vcpus s l st Hu t).
Qed.

Lemma new_vcpu_matches s q : good_name s → matches s (new_vcpu s q) = true.
Proof.
  intros Hg. unfold matches, strcmp_eq. apply bool_decide_true. simpl.
  change (strncpy_zeroed VM_NAME_LEN s) with (key_of s).
  rewrite cstr_of_key by done. symmetry. apply cstr_of_id, Hg.
Qed.

Lemma not_of_insert_all s l st : good_name s → named st → unknown s l st →
  not_of s (insert_all s l (vcpus st)) = vcpus st.
Proof.
  intros Hg Hn Hu. apply map_eq. intros t.
  pose proof (not_of_unknown s l st Hg Hn Hu) as Hid.
  destruct (insert_all_lookup s l (vcpus st) t) as [(q & Hq & -> & He)|[Hne He]].
  - rewrite (un_tids s l st Hu q Hq). apply map_lookup_filter_None. right. simpl.
    intros v Hv. rewrite He in Hv. injection Hv as <-. by rewrite new_vcpu_matches.
  - rewrite <- Hid at 2. unfold not_of. rewrite !map_lookup_filter, He. done.
Qed.

Lemma removed_registered s socket nb l c1 c2 st : good_name s → named st → unknown s l st →
  let st' := removed s (registered_state s socket nb l c1 c2 st) in
  vms st' = vms st ∧ vcpus st' = vcpus st ∧ map_registry st' = map_registry st.
Proof.
  intros Hg Hn Hu st'. unfold st', removed, registered_state. simpl.
  rewrite (not_of_unknown s l st) by done. split_and!.
  - by apply delete_insert_id, (un_vm s l st).
  - by apply not_of_insert_all.
  - rewrite (delete_insert_ne _ (registry_key s suffix_1)), (delete_insert_id (map_registry st)).
    + by apply delete_insert_id, (un_reg_2 s l st).
    + by apply (un_reg_1 s l st).
    + apply VmKeys.registry_key_suffix_ne; apply Hg.
Qed.

(** *** The bpffs tree *)

Definition vm_dir (s : list Z) : list Z := pin_base ++ slash ++ s.

Lemma dir_path_short size s : good_name s → (74 <= size)%nat → dir_path size s = vm_dir s.
Proof.
  intros [_ Hl] Hs. unfold dir_path, vm_dir. apply take_ge. rewrite !length_app.
  change (length pin_base) with 11%nat. change (length slash) with 1%nat. lia.
Qed.

Lemma pin_path_short s d : good_name s → pin_path s d = vm_dir s ++ slash ++ buff_name d.
Proof.
  intros [_ Hl]. unfold pin_path, vm_dir. rewrite take_ge; [by rewrite <- !app_assoc|].
  rewrite !length_app. change (length pin_base) with 11%nat. change (length slash) with 1%nat.
  change (length (buff_name d)) with 17%nat. lia.
Qed.

Lemma pin_path_under s d : good_name s → under (vm_dir s) (pin_path s d) = true.
Proof.
  intros Hg. rewrite pin_path_short by done. unfold under. rewrite app_assoc. apply starts_with_app.
Qed.

(** The directory of the VM does not exist yet. *)
Definition no_dir (s : list Z) (f : fs) : Prop :=
  (vm_dir s ∉ fs_dirs f) ∧ map_Forall (λ p _, under (vm_dir s) p = false) (fs_pins f).

Lemma keep_pinned s c1 c2 f env : good_name s → no_dir s f → (∀ p, k_unlink_ok env p = true) →
  filter (λ p, under (vm_dir s) p.1 = false ∨ k_unlink_ok env p.1 = false)
    (fs_pins (pinned s c1 c2 f)) = fs_pins f.
Proof.
  intros Hg [_ Hp] Hu. apply map_eq. intros p. apply option_eq. intros v.
  rewrite map_lookup_filter_Some. simpl. rewrite !lookup_insert_Some, Hu. split.
  - intros [[[<- _]|[_ [[<- _]|[_ Hv]]]] [Hf|Hf]]; try done;
      by rewrite pin_path_under in Hf.
  - intros Hv. pose proof (Hp p v Hv) as Hf. simpl in Hf.
    assert (Hd : ∀ d, pin_path s d ≠ p) by (intros d <-; by rewrite pin_path_under in Hf).
    split; [|by left]. right. split; [apply Hd|]. right. split; [apply Hd|done].
Qed.

Lemma cleanup_pinned s c1 c2 f env st : good_name s → no_dir s f →
  k_opendir_ok env = true → (∀ p, k_unlink_ok env p = true) → cleanup_ok env st →
  cleanup_vm env s st (pinned s c1 c2 f) = (removed s st, f, 0).
Proof.
  intros Hg Hd Ho Hu Hc. pose proof (cleanup_vm_host env s st (pinned s c1 c2 f) Hc) as Hh.
  destruct (cleanup_vm env s st (pinned s c1 c2 f)) as [[st' f'] r] eqn:E. simpl in Hh. subst st'.
  destruct Hc as [H1 H2 H3 _ _].
  unfold cleanup_vm, unlink_dir_contents in E. rewrite H1, H2, H3, Ho in E.
  rewrite dir_path_short in E by (done || lia). rewrite keep_pinned in E by done.
  assert (Hno : filter (λ p : list Z * Z, under (vm_dir s) p.1 = true) (fs_pins f) = ∅).
  { apply map_empty_filter_2. intros p v Hv Hf. simpl in Hf.
    pose proof (proj2 Hd p v Hv) as Hf'. simpl in Hf'. congruence. }
  rewrite (bool_decide_false (vm_dir s ∉ fs_dirs (pinned s c1 c2 f))) in E.
  2: { simpl. rewrite dir_path_short by (done || lia). set_solver. }
  cbn [negb] in E. unfold rmdir in E. cbn [fs_dirs fs_pins] in E.
  rewrite (bool_decide_false (vm_dir s ∉ fs_dirs (pinned s c1 c2 f))) in E.
  2: { simpl. rewrite dir_path_short by (done || lia). set_solver. }
  rewrite Hno in E. rewrite bool_decide_true in E by done. injection E as _ <- <-.
  do 2 f_equal. destruct f as [ds ps]. f_equal. simpl.
  rewrite dir_path_short by (done || lia). destruct Hd as [Hd _]. simpl in Hd. set_solver.
Qed.
End round_trip.

Module RegisterVmProps.
Section props.
Context {S : Type}.
Implicit Types st : host S.

(** Whatever fails in between, [register_vm] leaves every VM's phantom
    counter equal to the number of its phantom vCPUs and below its ceiling: for
    the VM it registers, also when it was registered before, and for all
    others, provided its threads are not registered for another VM. *)
Theorem register_vm_keeps_counters env l s socket nb st :
  good_name s → named st → phantom_inv st →
  stale_env_ok (r_stale env) → covers (r_order env) (vcpus st) →
  Z.of_nat (length l) <= nb < 2 ^ 31 → tids_free s l (vcpus st) →
  phantom_inv (register_vm env l s socket nb st).1 ∧ named (register_vm env l s socket nb st).1.
Proof.
  intros Hg Hn Hi He Hc Hl Ht.
  destruct (register_vm_cases env l s socket nb st He Hc) as [-> |[[Hv ->]|(k & -> & _)]]; [done| |].
  - split.
    + assert (Hs : phantom_inv (set_vcpus (not_of s (vcpus st)) (set_vms (delete (key_of s) (vms st)) st)))
        by (by apply drop_inv). rewrite delete_id in Hs by done. by destruct st.
    + destruct Hn as [H1 H2 H3]. split; [done| |done].
      intros t v Hw. apply (H2 t). by apply not_of_subset in Hw.
  - split; [|by apply enrolled_named]. apply enrolled_inv; try done.
    + rewrite length_take. lia.
    + intros q v Hq. apply Ht. by eapply subseteq_take.
Qed.

(** C9: the registration program, given the VM's socket, name and size and a
    monitor that lists its vCPUs, exits with 0 and establishes everything the
    tracker relies on: the VM is stored with zeroed counters under the key of
    its name, its two buffers exist, are registered under the names the eBPF
    programs compute and hold the empty history, the counter invariant holds,
    and the other VMs keep their vCPUs, counters and histories. *)
Theorem register_main_establishes env prog socket s nbs nb pre es c1 c2 st f (H : history) :
  good_name s → named st → phantom_inv st → tracks st H →
  atoi nbs = nb → 1 <= nb < 2 ^ 31 → Z.of_nat (length es) <= nb →
  (length socket < SUN_PATH_LEN)%nat → tids_free s (map vcpu_of es) (vcpus st) →
  main_ok env nb pre es → reg_ok (m_reg env) s (map vcpu_of es) st → setup_ok (m_setup env) c1 c2 st →
  ∃ st' f', register_main env [prog; socket; s; nbs] st f = Ok (0, st', f') ∧
    vms st' = <[key_of s := new_vm socket nb]> (vms st) ∧
    (∀ q, q ∈ map vcpu_of es → ∃ q', q' ∈ map vcpu_of es ∧ u32 (threadId q') = u32 (threadId q) ∧
       vcpus st' !! u32 (threadId q) = Some (new_vcpu s q')) ∧
    buf_maps st' (key_of s) = Some (c1, c2) ∧
    phantom_inv st' ∧ tracks st' (set_history (key_of s) [] H) ∧ named st'.
Proof.
  intros Hg Hn Hi Ht Hat Hnb Hl Hlen Hfree Hm Hr Hs.
  eexists _, _. split; [by eapply register_main_ok|].
  destruct Hs as [_ _ _ _ _ _ _ G8 G9 G10]. split_and!.
  - done.
  - intros q Hq. simpl.
    destruct (insert_all_lookup s (map vcpu_of es) (not_of s (vcpus st)) (u32 (threadId q)))
      as [(q' & Hq' & He & ->)|[Hne _]]; [|by destruct (Hne q)].
    by exists q'.
  - by apply (equipped_own s st _ c1 c2).
  - apply registered_inv; try done. rewrite length_map. lia.
  - apply registered_state_tracks; try done. rewrite length_map. lia.
  - by apply equipped_named, enrolled_named.
Qed.

(** C34: the cleanup program removes the entry of the VM, its vCPUs and its two
    registry entries from the three maps and nothing else from them, leaves the
    buffers of all VMs as they are, and keeps what the tracker relies on for
    the VMs that remain. *)
Theorem cleanup_removes_vm env prog s st f (H : history) :
  good_name s → named st → phantom_inv st → tracks st H → cleanup_ok env st →
  let st' := (cleanup_main env [prog; s] st f).1.1 in
  vms st' = delete (key_of s) (vms st) ∧
  (∀ t v, vcpus st' !! t = Some v ↔ vcpus st !! t = Some v ∧ vm_name v ≠ key_of s) ∧
  (∀ k m, map_registry st' !! k = Some m ↔
     map_registry st !! k = Some m ∧ k ≠ registry_key s suffix_1 ∧ k ≠ registry_key s suffix_2) ∧
  inner_maps st' = inner_maps st ∧ buf_maps st' (key_of s) = None ∧
  phantom_inv st' ∧ tracks st' H ∧ named st'.
Proof.
  intros Hg Hn Hi Ht Hc st'. unfold st', cleanup_main. rewrite cleanup_vm_host by done. split_and!.
  - done.
  - intros t v. simpl. unfold not_of. rewrite map_lookup_filter_Some. simpl. split; intros [Hv Hm]; (split; [done|]).
    + rewrite (vcpu_matches s st Hg Hn t v Hv) in Hm. by apply bool_decide_eq_false in Hm.
    + rewrite (vcpu_matches s st Hg Hn t v Hv). by apply bool_decide_false.
  - intros k m. simpl. rewrite !lookup_delete_Some. naive_solver.
  - done.
  - unfold buf_maps. rewrite collection_keys_of by done. simpl.
    rewrite lookup_delete_ne, lookup_delete_eq; [done|].
    apply not_eq_sym. apply VmKeys.registry_key_suffix_ne; apply Hg.
  - by apply removed_inv.
  - by apply removed_tracks.
  - by apply removed_named.
Qed.

(** C33: cleaning up undoes a registration: registering a VM that was not
    known and removing it again leaves the maps [vms], [vcpus] and
    [map_registry] and the bpffs tree as they were, both programs exiting with
    0. *)
Theorem register_cleanup_roundtrip env cenv prog prog' socket s nbs nb pre es c1 c2 st f :
  good_name s → named st → unknown s (map vcpu_of es) st → no_dir s f →
  atoi nbs = nb → 1 <= nb < 2 ^ 31 → (length socket < SUN_PATH_LEN)%nat →
  main_ok env nb pre es → reg_ok (m_reg env) s (map vcpu_of es) st → setup_ok (m_setup env) c1 c2 st →
  k_opendir_ok cenv = true → (∀ p, k_unlink_ok cenv p = true) →
  cleanup_ok cenv (registered_state s socket nb (map vcpu_of es) c1 c2 st) →
  ∃ st1 f1 st2, register_main env [prog; socket; s; nbs] st f = Ok (0, st1, f1) ∧
    cleanup_main cenv [prog'; s] st1 f1 = (st2, f, 0) ∧
    vms st2 = vms st ∧ vcpus st2 = vcpus st ∧ map_registry st2 = map_registry st.
Proof.
  intros Hg Hn Hu Hd Hat Hnb Hlen Hm Hr Hs Ho Hul Hc. eexists _, _, _. split_and!.
  - by eapply register_main_ok.
  - by apply cleanup_pinned.
  - by apply removed_registered.
  - by apply removed_registered.
  - by apply removed_registered.
Qed.
End props.

(** *** Concrete registrations *)

Module Text.
Import String.
Local Open Scope string_scope.
Definition greeting : string := "{'QMP': {'capabilities': []}}".
Definition caps : string := "{'return': {}}".
Definition pre : string := "{'return': [".
Definition mid : string := ", 'qom-path': '/machine/unattached/device[0]', ".
Definition tail : string := ", 'target': 'x86_64'}, ".
Definition last : string := ", 'target': 'x86_64'}]}".
End Text.

Definition w_name : list Z := [118; 109].
Definition w_socket : list Z := [47; 113].
Definition w_entries : list entry :=
  [ Entry 101 (qstr Text.mid) 0 (qstr Text.tail);
    Entry 102 (qstr Text.mid) 1 (qstr Text.last ++ [13; 10]) ].
Definition w_answer : list Z :=
  qstr Text.pre ++ render_entry (Entry 101 (qstr Text.mid) 0 (qstr Text.tail)) ++
  render_entry (Entry 102 (qstr Text.mid) 1 (qstr Text.last ++ [13])).

(** The monitor, and a kernel that refuses nothing; [order] are the threads
    registered before. *)
Definition w_reg (order : list Z) : reg_env := RegEnv true true true stale_ok order (λ _, true).
Definition w_setup : setup_env := SetupEnv true true (Some 7) true (Some 8) true.
Definition w_main (order : list Z) : main_env :=
  MainEnv true true
    (line_bytes (qstr Text.greeting) ++ line_bytes (qstr Text.caps) ++ line_bytes w_answer ++ [])
    true true true alloc_ok (w_reg order) w_setup.
Definition w_cleanup (order : list Z) : cleanup_env :=
  CleanupEnv true (λ _, true) (Ok tt) (Ok tt) (Ok tt) stale_ok order.

(** A host without VMs, and one where the VM is still registered from an
    earlier run, with a vCPU that was phantom when it ended. *)
Definition w_empty {S} (s : S) : host S :=
  Host ∅ ∅ ∅ ∅ (array_new 1) (Clock (λ n, Z.min (Z.of_nat n) 1000) 0) s.
Definition w_rerun : host unit :=
  Host {[key_of w_name := VM [] 1 0 0 0 4 0]} {[100 := VCPU 0 (key_of w_name) 1]}
       ∅ ∅ (array_new 1) (Clock (λ n, Z.min (Z.of_nat n) 1000) 0) tt.

Lemma w_main_ok order : main_ok (w_main order) 2 (qstr Text.pre) w_entries.
Proof.
  refine (Build_main_ok (w_main order) 2 (qstr Text.pre) w_entries eq_refl eq_refl eq_refl eq_refl eq_refl eq_refl _ _ _);
    [|decide_now|decide_now].
  exists (qstr Text.greeting), (qstr Text.caps), w_answer, []. split; [done|].
  split; [by vm_compute|]. split; decide_now.
Qed.

Lemma w_good : good_name w_name.
Proof. split; [decide_now|simpl; lia]. Qed.

Lemma w_stale_ok : stale_env_ok stale_ok.
Proof. done. Qed.

Lemma w_rerun_named : named w_rerun.
Proof.
  split.
  - intros n [vm Hvm]. simpl in Hvm. apply lookup_singleton_Some in Hvm as [<- _]. exists w_name.
    split; [done|apply w_good].
  - intros t v Hv. simpl in Hv. apply lookup_singleton_Some in Hv as [_ <-]. by vm_compute.
  - intros k m Hm. simpl in Hm. by rewrite lookup_empty in Hm.
Qed.

Lemma register_vm_keeps_counters_witness :
  phantom_inv (register_vm (w_reg [100]) (map vcpu_of w_entries) w_name w_socket 2 w_rerun).1.
Proof.
  refine (proj1 (register_vm_keeps_counters (w_reg [100]) (map vcpu_of w_entries) w_name w_socket 2
                   w_rerun w_good w_rerun_named _ w_stale_ok _ _ _)).
  - decide_now.
  - intros k [v Hk]. simpl in Hk. apply lookup_singleton_Some in Hk as [<- _]. set_solver.
  - simpl. lia.
  - intros q v Hq Hv. simpl in Hv. apply lookup_singleton_Some in Hv as [_ <-]. done.
Defined.

Lemma w_clock_ok {S} (s : S) : clock_ok (clk (w_empty s)).
Proof. split; intros; simpl; lia. Qed.

Lemma w_empty_named {S} (s : S) : named (w_empty s).
Proof.
  split; simpl.
  - intros n [vm Hvm]. by rewrite lookup_empty in Hvm.
  - intros t v Hv. by rewrite lookup_empty in Hv.
  - intros k m Hm. by rewrite lookup_empty in Hm.
Qed.

Lemma w_empty_tracks {S} (s : S) : tracks (w_empty s) (λ _, []).
Proof.
  split; [apply w_clock_ok| |].
  - intros n n' m [vm Hvm]. simpl in Hvm. by rewrite lookup_empty in Hvm.
  - intros n vm Hvm. simpl in Hvm. by rewrite lookup_empty in Hvm.
Qed.

Lemma w_reg_ok {S} (s : S) : reg_ok (w_reg []) w_name (map vcpu_of w_entries) (w_empty s).
Proof.
  split; try done. simpl. intros k [v Hv]. by rewrite lookup_empty in Hv.
Qed.

Lemma w_setup_ok {S} (s : S) : setup_ok w_setup 7 8 (w_empty s).
Proof. by split. Qed.

Lemma register_main_establishes_witness :
  ∃ st' f', register_main (w_main []) [[]; w_socket; w_name; [50]] (w_empty tt) (Fs ∅ ∅) = Ok (0, st', f') ∧
    buf_maps st' (key_of w_name) = Some (7, 8) ∧
    phantom_inv st' ∧ tracks st' (set_history (key_of w_name) [] (λ _, [])).
Proof.
  destruct (register_main_establishes (w_main []) [] w_socket w_name [50] 2 (qstr Text.pre) w_entries
              7 8 (w_empty tt) (Fs ∅ ∅) (λ _, []) w_good (w_empty_named tt)) as (st' & f' & Hm & _ & _ & Hb & Hi & Ht & _);
    [..|exact (ex_intro _ st' (ex_intro _ f' (conj Hm (conj Hb (conj Hi Ht)))))].
  - decide_now.
  - apply w_empty_tracks.
  - reflexivity.
  - lia.
  - simpl. lia.
  - unfold SUN_PATH_LEN. simpl. lia.
  - intros q v _ Hv. simpl in Hv. by rewrite lookup_empty in Hv.
  - apply w_main_ok.
  - apply w_reg_ok.
  - apply w_setup_ok.
Defined.

(** The state and tree the first registration leaves. *)
Definition w_registered {S} (s : S) : host S :=
  registered_state w_name w_socket 2 (map vcpu_of w_entries) 7 8 (w_empty s).

Lemma w_cleanup_ok : cleanup_ok (w_cleanup [102; 101]) (w_registered tt).
Proof.
  split; try done. intros k Hk.
  assert (Hd : vcpus (w_registered tt) = {[101 := new_vcpu w_name (QmpVcpu 0 101);
                                      102 := new_vcpu w_name (QmpVcpu 1 102)]}) by by vm_compute.
  simpl. rewrite Hd in Hk. rewrite lookup_insert_is_Some in Hk.
  destruct Hk as [<-|[_ [v Hk]]]; [set_solver|].
  apply lookup_singleton_Some in Hk as [<- _]. set_solver.
Qed.

Lemma w_registered_tracks {S} (s : S) : tracks (w_registered s) (set_history (key_of w_name) [] (λ _, [])).
Proof.
  refine (registered_tracks w_name (w_empty s) (w_registered s) 7 8 w_good (w_empty_named s) eq_refl eq_refl _
            eq_refl eq_refl (λ _, []) w_socket 2 (w_empty_tracks s) eq_refl eq_refl _); lia.
Qed.

Lemma cleanup_removes_vm_witness :
  vms (cleanup_main (w_cleanup [102; 101]) [[]; w_name] (w_registered tt) (Fs ∅ ∅)).1.1
    = delete (key_of w_name) (vms (w_registered tt)).
Proof.
  apply (cleanup_removes_vm (w_cleanup [102; 101]) [] w_name (w_registered tt) (Fs ∅ ∅)
           (set_history (key_of w_name) [] (λ _, []))).
  - apply w_good.
  - apply equipped_named, enrolled_named; [apply w_good|apply w_empty_named].
  - decide_now.
  - apply w_registered_tracks.
  - apply w_cleanup_ok.
Defined.

Lemma register_cleanup_roundtrip_witness :
  ∃ st1 f1 st2,
    register_main (w_main []) [[]; w_socket; w_name; [50]] (w_empty tt) (Fs ∅ ∅) = Ok (0, st1, f1) ∧
    cleanup_main (w_cleanup [102; 101]) [[]; w_name] st1 f1 = (st2, Fs ∅ ∅, 0) ∧
    vms st2 = ∅ ∧ vcpus st2 = ∅ ∧ map_registry st2 = ∅.
Proof.
  apply (register_cleanup_roundtrip (w_main []) (w_cleanup [102; 101]) [] [] w_socket w_name [50] 2
           (qstr Text.pre) w_entries 7 8 (w_empty tt) (Fs ∅ ∅) w_good (w_empty_named tt)).
  - by split.
  - split; [set_solver|]. intros p v Hv. simpl in Hv. by rewrite lookup_empty in Hv.
  - reflexivity.
  - lia.
  - unfold SUN_PATH_LEN. simpl. lia.
  - apply w_main_ok.
  - apply w_reg_ok.
  - apply w_setup_ok.
  - reflexivity.
  - reflexivity.
  - apply w_cleanup_ok.
Defined.
End RegisterVmProps.
