(* ===== verification/System.v ===== *)
(** The host as a whole: the programs of the other files as steps of one
    system.

    A state is the pinned maps, the clock, the shared memory and the bpffs tree.
    The steps are a context switch seen by [phantom_switch_handler], a period of
    the averaging timer, a successful run of [register_vm] and of [cleanup], and
    an activity that touches neither the VMs nor their buffers (a guest writing
    its page, the idle tracker, time passing).  The file shows that what the
    single programs need from each other holds in every state they can reach,
    and reads off what a guest sees. *)

From S2P Require Import Prelude CString BpfMap Atomics Sampling Host Memory HostIvshmem.
From S2P Require Import PhantomSwitch PhantomTimer Buffers Qmp RegisterVm.

Local Open Scope pv_scope.

(** ** What the eBPF programs never change *)

Section keeps.
Context {S : Type} `{HostKfuncs S}.
Implicit Types st : host S.

(** The set of VMs, the names of the vCPUs, the registry; maps stay alive. *)
Record keeps st st' : Prop := {
  kp_vms n : is_Some (vms st' !! n) ↔ is_Some (vms st !! n);
  kp_vcpus t v : vcpus st' !! t = Some v → ∃ w, vcpus st !! t = Some w ∧ vm_name v = vm_name w;
  kp_registry : map_registry st' = map_registry st;
  kp_maps m : is_Some (inner_maps st !! m) → is_Some (inner_maps st' !! m)
}.

#[global] Instance keeps_preorder : PreOrder keeps.
Proof.
  split.
  - intros st. split; try done. eauto.
  - intros x y z [A1 A2 A3 A4] [B1 B2 B3 B4]. split.
    + intros n. by rewrite B1, A1.
    + intros t v Hv. destruct (B2 t v Hv) as (w & Hw & He).
      destruct (A2 t w Hw) as (u & Hu & He'). exists u. split; [done|congruence].
    + congruence.
    + auto.
Qed.

Lemma keeps_named st st' : keeps st st' → named st → named st'.
Proof.
  intros [K1 K2 K3 K4] [N1 N2 N3]. split.
  - intros n Hn. by apply N1, K1.
  - intros t v Hv. destruct (K2 t v Hv) as (w & Hw & ->). by apply (N2 t).
  - intros k m. rewrite K3. intros Hm. by apply K4, (N3 k).
Qed.

Lemma keeps_put_vm st n vm : is_Some (vms st !! n) → keeps st (put_vm n vm st).
Proof.
  intros Hn. split; try done; [|simpl; eauto].
  intros k. simpl. rewrite lookup_insert. case_decide; subst; [|done]. naive_solver.
Qed.

Lemma keeps_flip st t v p :
  vcpus st !! t = Some v → keeps st (put_vcpu t (set_is_phantom p v) st).
Proof.
  intros Ht. split; try done. intros t' v'. simpl. rewrite lookup_insert.
  case_decide; [intros [= <-]; subst; eauto|eauto].
Qed.

Lemma keeps_put_sample st m i x : keeps st (put_sample m i x st).
Proof.
  unfold put_sample. destruct (inner_maps st !! m) as [a|] eqn:E; [|done].
  split; try done; [simpl; eauto|]. intros k Hk. simpl. rewrite lookup_insert.
  case_decide; [by eexists|done].
Qed.

Lemma keeps_tick st : keeps st (tick st).
Proof. split; simpl; eauto. Qed.

Lemma keeps_set_shmem st s : keeps st (set_shmem s st).
Proof. split; simpl; eauto. Qed.

Lemma put_vm_some st n vm : is_Some (vms (put_vm n vm st) !! n).
Proof. simpl. rewrite lookup_insert_eq. by eexists. Qed.

Lemma keeps_store st n vm m i x :
  is_Some (vms st !! n) → keeps st (put_sample m i x (tick (put_vm n vm st))).
Proof.
  intros Hn. etrans; [by apply (keeps_put_vm st n vm)|].
  etrans; [apply keeps_tick|apply keeps_put_sample].
Qed.

Lemma record_sample_keeps n vm c st : is_Some (vms st !! n) → keeps st (record_sample n vm c st).
Proof.
  intros Hn. unfold record_sample. destruct (collection_keys n) as [k1 k2].
  repeat case_match; try done; by apply keeps_store.
Qed.

Lemma switch_in_keeps ctx st : keeps st (switch_in ctx st).2.
Proof.
  unfold switch_in. destruct (vcpus st !! _) as [v|] eqn:Hv; [|done]. case_bool; [|done].
  destruct (vms (put_vcpu _ _ st) !! vm_name v) as [vm|] eqn:Hn; cbn [snd].
  - etrans; [by apply keeps_flip|]. etrans; [apply keeps_put_vm; by eexists|]. apply record_sample_keeps, put_vm_some.
  - by apply keeps_flip.
Qed.

Lemma switch_out_keeps s ctx st : keeps st (switch_out s ctx st).
Proof.
  unfold switch_out. destruct (vcpus st !! _) as [v|] eqn:Hv; [|done]. case_bool; [|done].
  destruct (vms (put_vcpu _ _ st) !! vm_name v) as [vm|] eqn:Hn.
  - etrans; [by apply keeps_flip|]. etrans; [apply keeps_put_vm; by eexists|]. apply record_sample_keeps, put_vm_some.
  - by apply keeps_flip.
Qed.

Lemma handler_keeps ctx st : keeps st (phantom_switch_handler ctx st).
Proof.
  unfold phantom_switch_handler. pose proof (switch_in_keeps ctx st) as Hin.
  destruct (switch_in ctx st) as [s st']. etrans; [exact Hin|apply switch_out_keeps].
Qed.

Lemma swap_buffers_keeps n vm m1 m2 a b st :
  is_Some (vms st !! n) → keeps st (swap_buffers n vm m1 m2 a b st).2 ∧
  is_Some (vms (swap_buffers n vm m1 m2 a b st).2 !! n).
Proof.
  intros Hn. assert (K : keeps st (swap_buffers n vm m1 m2 a b st).2).
  { unfold swap_buffers. case_bool; cbn [snd].
    all: etrans; [apply keeps_put_sample|]; etrans; [apply keeps_put_vm|apply keeps_put_sample].
    all: by apply keeps_put_sample. }
  split; [done|]. by apply K.
Qed.

Lemma callback_keeps n vm st : vms st !! n = Some vm → keeps st (callback_fn n vm st).
Proof.
  intros Hn. unfold callback_fn. destruct (collection_keys n) as [k1 k2].
  repeat (case_match; [|done]).
  match goal with |- context [swap_buffers n vm ?m1 ?m2 ?a ?b ?s] =>
    destruct (swap_buffers_keeps n vm m1 m2 a b s) as [K Hs]; [by eexists|];
    destruct (swap_buffers n vm m1 m2 a b s) as [[[m nb] vm'] st'] end.
  simpl in *. etrans; [apply keeps_tick|]. etrans; [apply keeps_tick|]. etrans; [exact K|]. etrans; [apply keeps_tick|].
  etrans; [by apply keeps_put_vm|apply keeps_set_shmem].
Qed.

Lemma for_each_keeps order st : keeps st (for_each_vm order st).
Proof.
  revert st. induction order as [|n order IH]; intros st; simpl; [done|].
  etrans; [|apply IH]. unfold visit_vm. case_match; [by apply callback_keeps|done].
Qed.
End keeps.

(** ** The steps *)

Section system.
Context {S : Type} `{HK : HostKfuncs S}.
Implicit Types st : host S.

(** The 32-bit indices of the active buffers are [k] samples away from
    wrapping around. *)
Definition index_room (k : Z) st : Prop :=
  ∀ n vm, vms st !! n = Some vm → buffer_index vm + k < 2 ^ 32.

(** The 64-bit sums of the averages cannot overflow up to the clock reading
    number [e]: the uptime in nanoseconds times the VM's size stays below
    [2 ^ 63] (4 years for 64 vCPUs). *)
Definition uptime_ok (e : nat) st : Prop :=
  ∀ n vm, vms st !! n = Some vm → nb_vcpus vm * reading (clk st) e < 2 ^ 63.

Inductive step : host S * fs → host S * fs → Prop :=
  | step_switch ctx st f :
      index_room 2 st →
      step (st, f) (phantom_switch_handler ctx st, f)
  | step_timer order val st f :
      NoDup order → index_room 1 st → uptime_ok (ticks (clk st) + 3 * length order) st →
      step (st, f) ((timer_cb order val st).2, f)
  | step_register env prog socket s nbs pre es c1 c2 st f st' f' :
      good_name s → 1 <= atoi nbs < 2 ^ 31 → Z.of_nat (length es) <= atoi nbs →
      (length socket < SUN_PATH_LEN)%nat → tids_free s (map vcpu_of es) (vcpus st) →
      main_ok env (atoi nbs) pre es → reg_ok (m_reg env) s (map vcpu_of es) st →
      setup_ok (m_setup env) c1 c2 st →
      register_main env [prog; socket; s; nbs] st f = Ok (0, st', f') →
      step (st, f) (st', f')
  | step_cleanup env prog s st f st' f' r :
      good_name s → cleanup_ok env st →
      cleanup_main env [prog; s] st f = (st', f', r) →
      step (st, f) (st', f')
  | step_other st st' f :
      vms st' = vms st → vcpus st' = vcpus st → map_registry st' = map_registry st →
      inner_maps st' = inner_maps st → reading (clk st') = reading (clk st) →
      (ticks (clk st) <= ticks (clk st'))%nat →
      step (st, f) (st', f).

(** The host after the loaders have run: no VM is known. *)
Definition initial st : Prop :=
  vms st = ∅ ∧ vcpus st = ∅ ∧ map_registry st = ∅ ∧ clock_ok (clk st).

Inductive reachable : host S * fs → Prop :=
  | reach_init st f : initial st → reachable (st, f)
  | reach_step x y : reachable x → step x y → reachable y.

(** What the programs rely on. *)
Definition consistent st : Prop := phantom_inv st ∧ named st ∧ ∃ H, tracks st H.

(** A history of the known VMs only. *)
Definition restrict st (H : history) : history :=
  λ n, match vms st !! n with Some _ => H n | None => [] end.

Lemma restrict_tracks st (H : history) : tracks st H → tracks st (restrict st H).
Proof.
  intros [Hc Hd Ht]. split; [done..|]. intros n vm Hn. unfold restrict. rewrite Hn. by apply Ht.
Qed.

Lemma restrict_room k st (H : history) :
  tracks st H → k < 2 ^ 32 → index_room k st → room k (restrict st H).
Proof.
  intros Ht Hk Hr n. unfold restrict. destruct (vms st !! n) as [vm|] eqn:Hn; [|simpl; lia].
  destruct (tracks_vm _ _ Ht n vm Hn) as ((_ & m1 & m2 & a & b & _ & _ & _ & _ & _ & _ & Hi & _) & _).
  specialize (Hr n vm Hn). lia.
Qed.

Lemma uptime_period e st (H : history) n vm :
  tracks st H → uptime_ok e st → vms st !! n = Some vm → period_ok_until e st vm (H n).
Proof.
  intros Ht Hu Hn x Hx. specialize (Hu n vm Hn).
  destruct (tracks_vm _ _ Ht n vm Hn) as (_ & [Hr _ _] & _ & Hnb).
  destruct (H n) as [|y h]; [done|]. injection Hx as ->.
  apply Forall_cons in Hr as [Hx _]. eapply Z.le_lt_trans; [|exact Hu].
  apply Z.mul_le_mono_nonneg_l; lia.
Qed.

Lemma initial_consistent st : initial st → consistent st.
Proof.
  intros (Hv & Hc & Hr & Hk). split_and!.
  - split; [intros t v Ht; by rewrite Hc in Ht|]. intros n c nb Hn. unfold counts in Hn.
    by rewrite Hv, fmap_empty in Hn.
  - split; [rewrite Hv|rewrite Hc|rewrite Hr].
    + intros n [vm Hn]. by rewrite lookup_empty in Hn.
    + intros t v Ht. by rewrite lookup_empty in Ht.
    + intros k m Hm. by rewrite lookup_empty in Hm.
  - exists (λ _, []). split; [done| |]; rewrite ?Hv.
    + intros n n' m [vm Hn]. by rewrite Hv, lookup_empty in Hn.
    + intros n vm Hn. by rewrite lookup_empty in Hn.
Qed.

(** ** Every step keeps the system consistent *)

Lemma switch_consistent ctx st :
  index_room 2 st → consistent st → consistent (phantom_switch_handler ctx st).
Proof.
  intros Hr (Hi & Hn & H0 & Ht). split_and!.
  - by apply handler_inv.
  - eapply keeps_named; [apply handler_keeps|done].
  - eexists. apply handler_tracks; [by apply restrict_tracks|]. by apply restrict_room.
Qed.

Lemma timer_consistent order st :
  NoDup order → index_room 1 st → uptime_ok (ticks (clk st) + 3 * length order) st →
  consistent st → consistent (for_each_vm order st).
Proof.
  intros Hnd Hr Hu (Hi & Hn & H0 & Ht). split_and!.
  - eapply same_counts_inv; [apply for_each_counts|done].
  - eapply keeps_named; [apply for_each_keeps|done].
  - pose proof (restrict_tracks st H0 Ht) as Ht'.
    destruct (for_each_tracks order st (restrict st H0) _ Hnd Ht'
                (restrict_room 1 st H0 Ht ltac:(lia) Hr) (Nat.le_refl _)) as (H' & Ht'' & _).
    + intros n vm _ Hvm. by apply uptime_period.
    + by exists H'.
Qed.

Lemma register_consistent env prog socket s nbs pre es c1 c2 st f st' f' :
  good_name s → 1 <= atoi nbs < 2 ^ 31 → Z.of_nat (length es) <= atoi nbs →
  (length socket < SUN_PATH_LEN)%nat → tids_free s (map vcpu_of es) (vcpus st) →
  main_ok env (atoi nbs) pre es → reg_ok (m_reg env) s (map vcpu_of es) st →
  setup_ok (m_setup env) c1 c2 st →
  register_main env [prog; socket; s; nbs] st f = Ok (0, st', f') →
  consistent st → consistent st'.
Proof.
  intros Hg Hnb Hl Hlen Hf Hm Hr Hs Heq (Hi & Hn & H0 & Ht).
  rewrite (register_main_ok env prog socket s nbs _ pre es c1 c2 st f eq_refl) in Heq by done.
  injection Heq as <- <-. destruct Hs as [_ _ _ _ _ _ _ G8 G9 G10].
  assert (Z.of_nat (length (map vcpu_of es)) <= atoi nbs < 2 ^ 31) by (rewrite length_map; lia).
  split_and!; [by apply registered_inv|by apply registered_named|].
  eexists. by apply registered_state_tracks.
Qed.

Lemma cleanup_consistent s st : good_name s → consistent st → consistent (removed s st).
Proof.
  intros Hg (Hi & Hn & H0 & Ht). split_and!.
  - by apply removed_inv.
  - by apply removed_named.
  - exists H0. by apply removed_tracks.
Qed.

Lemma other_consistent st st' :
  vms st' = vms st → vcpus st' = vcpus st → map_registry st' = map_registry st →
  inner_maps st' = inner_maps st → reading (clk st') = reading (clk st) →
  (ticks (clk st) <= ticks (clk st'))%nat → consistent st → consistent st'.
Proof.
  intros Hv Hc Hr Hm Hrd Htk (Hi & Hn & H0 & Ht). split_and!.
  - eapply same_counts_inv; [|done]. split; [done|]. unfold counts. by rewrite Hv.
  - destruct Hn as [N1 N2 N3]. split; [by rewrite Hv|by rewrite Hc|by rewrite Hr, Hm].
  - exists H0. pose proof (tracks_clock _ _ Ht) as [Hu Hmono].
    assert (Hnow : now st <= now st') by (unfold now, ktime; rewrite Hrd; by apply Hmono).
    destruct Ht as [_ Hd Ht]. split.
    + split; by rewrite Hrd.
    + intros n n' m. rewrite Hv, !(owns_registry st st') by done. apply Hd.
    + intros n vm. rewrite Hv. intros Hvm. destruct (Ht n vm Hvm) as (Hcol & Hs & Hp).
      split_and!; try apply Hp; [|by apply (sound_frame st st' vm vm)].
      apply (collecting_frame st); [done| |done]. intros m _. by rewrite Hm.
Qed.

Lemma step_consistent x y : step x y → consistent x.1 → consistent y.1.
Proof.
  destruct 1; simpl; intros Hc.
  - by apply switch_consistent.
  - by apply timer_consistent.
  - by eapply register_consistent.
  - match goal with E : cleanup_main _ _ _ _ = _ |- _ => rename E into Hm end.
    unfold cleanup_main in Hm. pose proof (cleanup_vm_host env s st f ltac:(done)) as Hh.
    rewrite Hm in Hh. simpl in Hh. subst. by apply cleanup_consistent.
  - by apply (other_consistent st).
Qed.

Lemma reachable_consistent_state x : reachable x → consistent x.1.
Proof.
  induction 1 as [st f Hi|x y _ IH Hs]; [by apply initial_consistent|by apply (step_consistent x)].
Qed.

(** A visit of the timer in a reachable state. *)
Lemma reachable_publishes `{!HostKfuncsLaws S} st f n vm :
  reachable (st, f) → vms st !! n = Some vm → index_room 1 st →
  uptime_ok (ticks (clk st)) st → nb_vcpus vm < 2 ^ 16 → h2g_ready (shmem st) →
  phantom_count vm = phantoms n st ∧
  ∃ h w, collecting st n vm h ∧ sound st vm h ∧
    h2g_view (shmem (callback_fn n vm st)) H2G_LATEST_SLOT = Some w ∧
    wm_phantom w = weighted_avg (closed st vm h) ∧ 0 <= wm_phantom w <= nb_vcpus vm.
Proof.
  intros Hreach Hn Hr Hu Hnb Hready.
  destruct (reachable_consistent_state _ Hreach) as ([_ Hi] & _ & H & Ht). simpl in *.
  split; [by eapply (Hi n), counts_lookup|].
  destruct (tracks_vm _ _ Ht n vm Hn) as (Hcol & Hs & _ & Hb).
  destruct (callback_publishes st H n vm Ht Hn) as (w & Hl & _ & Hp & Hrange & _); [| |done..|].
  - pose proof (restrict_room 1 st H Ht ltac:(lia) Hr n) as Hrn. unfold restrict in Hrn.
    by rewrite Hn in Hrn.
  - apply (period_ok_now (ticks (clk st))); [apply (tracks_clock _ _ Ht)|lia|done|].
    by apply uptime_period.
  - by exists (H n), w.
Qed.
End system.

(** ** Properties *)

Module SystemProps.
Section props.
Context {S : Type} `{HK : HostKfuncs S}.
Implicit Types st : host S.

(** C6: however registrations, removals, context switches, timer periods and
    other activity follow one another, every VM's phantom counter is the number
    of its vCPUs flagged phantom and at most its size, every VM owns two live
    buffers nobody else owns, and the active one stores a time-ordered history
    of the counter ending with its current value. *)
Theorem reachable_consistent st f :
  reachable (st, f) → phantom_inv st ∧ named st ∧ ∃ H, tracks st H.
Proof. apply (reachable_consistent_state (st, f)). Qed.

(** C1: what a guest reads is right in every reachable state: when the timer
    visits a VM, the watermark it leaves in the latest slot carries the
    time-weighted average of the history the VM's active buffer stores, closed
    with the current counter, which is the number of phantom vCPUs; the average
    lies between 0 and the VM's number of vCPUs. *)
Theorem reachable_publishes_average `{!HostKfuncsLaws S} st f n vm :
  reachable (st, f) → vms st !! n = Some vm → index_room 1 st →
  uptime_ok (ticks (clk st)) st → nb_vcpus vm < 2 ^ 16 → h2g_ready (shmem st) →
  phantom_count vm = phantoms n st ∧
  ∃ h w, collecting st n vm h ∧ sound st vm h ∧
    h2g_view (shmem (callback_fn n vm st)) H2G_LATEST_SLOT = Some w ∧
    wm_phantom w = weighted_avg (closed st vm h) ∧ 0 <= wm_phantom w <= nb_vcpus vm.
Proof. apply reachable_publishes. Qed.
End props.

(** *** A run: a VM of two vCPUs registers on an empty host, and its first
    vCPU, running an OpenMP thread, is preempted. *)

Import RegisterVmProps.

Definition w_start : host hostmod := w_empty PhantomSwitchProps.w_mod.
Definition w_vm_up : host hostmod := w_registered PhantomSwitchProps.w_mod.
Definition w_fs : fs := pinned w_name 7 8 (Fs ∅ ∅).

Lemma w_register_step : step (w_start, Fs ∅ ∅) (w_vm_up, w_fs).
Proof.
  apply (step_register (w_main []) [] w_socket w_name [50] (qstr Text.pre) w_entries 7 8).
  - apply w_good.
  - change (atoi [50]) with 2. lia.
  - change (atoi [50]) with 2. simpl. lia.
  - unfold SUN_PATH_LEN. simpl. lia.
  - intros q v _ Hv. simpl in Hv. by rewrite lookup_empty in Hv.
  - apply w_main_ok.
  - apply w_reg_ok.
  - apply w_setup_ok.
  - apply (register_main_ok _ _ _ _ _ 2 (qstr Text.pre) w_entries).
    + done.
    + lia.
    + unfold SUN_PATH_LEN. simpl. lia.
    + apply w_main_ok.
    + apply w_reg_ok.
    + apply w_setup_ok.
Qed.

Lemma w_vm_up_only n vm : vms w_vm_up !! n = Some vm → n = key_of w_name ∧ vm = new_vm w_socket 2.
Proof.
  change (vms w_vm_up) with (<[key_of w_name := new_vm w_socket 2]> (∅ : gmap (list Z) vm_t)).
  rewrite lookup_insert_Some, lookup_empty. naive_solver.
Qed.

Definition w_preempted : host hostmod := phantom_switch_handler (SchedSwitch 101 0 0) w_vm_up.

Lemma w_run : reachable (w_preempted, w_fs).
Proof.
  apply (reach_step (w_vm_up, w_fs)).
  - apply (reach_step (w_start, Fs ∅ ∅)); [|apply w_register_step].
    apply reach_init. split; [done|]. split; [done|]. split; [done|]. apply w_clock_ok.
  - apply step_switch. intros n vm Hn. apply w_vm_up_only in Hn as [_ ->].
    change (buffer_index (new_vm w_socket 2)) with 0. lia.
Qed.

Lemma reachable_consistent_witness :
  phantom_inv w_preempted ∧ phantoms (key_of w_name) w_preempted = 1.
Proof.
  split; [|by vm_compute]. exact (proj1 (reachable_consistent w_preempted w_fs w_run)).
Defined.

(** The record of the VM after the preemption: one phantom, one sample. *)
Definition w_vm : vm_t := VM (strncpy_zeroed 128 w_socket) 1 0 1 0 2 0.

Lemma w_preempted_vms : vms w_preempted = {[key_of w_name := w_vm]}.
Proof. vm_compute. reflexivity. Qed.

Lemma w_preempted_only n vm : vms w_preempted !! n = Some vm → vm = w_vm.
Proof. rewrite w_preempted_vms. intros Hn. by apply lookup_singleton_Some in Hn as [_ <-]. Qed.

Lemma w_preempted_uptime : uptime_ok (ticks (clk w_preempted)) w_preempted.
Proof.
  assert (Ht : reading (clk w_preempted) (ticks (clk w_preempted)) = 1) by by vm_compute.
  intros n vm Hn. rewrite Ht. apply w_preempted_only in Hn as ->.
  change (nb_vcpus w_vm) with 2. lia.
Qed.

Lemma w_preempted_shmem : shmem w_preempted = PhantomSwitchProps.w_mod.
Proof. vm_compute. reflexivity. Qed.

Lemma reachable_publishes_average_witness :
  ∃ h w, collecting w_preempted (key_of w_name) w_vm h ∧ sound w_preempted w_vm h ∧
    h2g_view (shmem (callback_fn (key_of w_name) w_vm w_preempted)) H2G_LATEST_SLOT = Some w ∧
    wm_phantom w = weighted_avg (closed w_preempted w_vm h) ∧
    0 <= wm_phantom w <= nb_vcpus w_vm.
Proof.
  refine (proj2 (reachable_publishes_average w_preempted w_fs (key_of w_name) w_vm w_run _ _ _ _ _)).
  - rewrite w_preempted_vms. apply lookup_singleton_eq.
  - intros n vm Hn. apply w_preempted_only in Hn as ->. change (buffer_index w_vm) with 1. lia.
  - apply w_preempted_uptime.
  - change (nb_vcpus w_vm) with 2. lia.
  - rewrite w_preempted_shmem. exact BuffersProps.b_ready.
Defined.
End SystemProps.
