(* ===== verification/Concurrent.v ===== *)
(** Context switches on several CPUs at once: [phantom_switch_handler] and the
    loops of [create_maps.bpf.c] as sequences of atomic accesses.

    [PhantomSwitch] runs a handler in one go.  Here a handler is a program
    counter [pc], one constructor per access to memory that other CPUs share,
    and [cpu_step] performs that access; between two of its steps other CPUs may
    perform theirs.  A pointer returned by a map lookup is the key it was looked
    up with: nothing is registered or removed while handlers run, so entries
    stay where they are.  The scheduler never switches a thread in or out on two
    CPUs at once (a thread is on the run queue of one CPU until its switch is
    complete), which is the guard of the step that starts a handler. *)

From S2P Require Import Prelude CString BpfMap Atomics Host Memory HostIvshmem PhantomSwitch.
From S2P Require Import PhantomTimer Buffers System.

(** ** One handler *)

Inductive half := InHalf | OutHalf.

(** The locals that outlive an access: which half of the handler runs, the
    event, and the local [prev_state]. *)
Record frame := Frame { f_half : half; f_ctx : sched_switch; f_state : Z }.

Inductive pc :=
  | Idle
  | LookIn (ctx : sched_switch)
  | MsgIn (ctx : sched_switch) (i : Z)
  | FlagIn (ctx : sched_switch)
  | LookOut (ctx : sched_switch) (s : Z)
  | MsgOut (ctx : sched_switch) (s i : Z)
  | FlagOut (ctx : sched_switch) (s : Z)
  | LookVm (fr : frame) (n : list Z)
  | ReadCount (fr : frame) (n : list Z) (attempts : nat)
  | CasCount (fr : frame) (n : list Z) (attempts : nat) (old : Z)
  | ReadFlag (fr : frame) (n : list Z) (c : Z)
  | LookMap (fr : frame) (n : list Z) (c : Z) (first : bool)
  | Reserve (fr : frame) (n : list Z) (c : Z) (first : bool) (m : Z)
  | Stamp (fr : frame) (n : list Z) (c m idx : Z)
  | Store (fr : frame) (n : list Z) (m idx : Z) (x : sample).

(** After the first half comes the second, after the second nothing. *)
Definition resume (fr : frame) : pc :=
  match f_half fr with
  | InHalf => LookOut (f_ctx fr) (f_state fr)
  | OutHalf => Idle
  end.

(** The bound test and the new value of the two compare-and-swap loops. *)
Definition at_bound (h : half) (vm : vm_t) (old : Z) : bool :=
  match h with InHalf => old <=? 0 | OutHalf => old >=? nb_vcpus vm end.
Definition moved (h : half) (old : Z) : Z :=
  match h with InHalf => s64 (old - 1) | OutHalf => s64 (old + 1) end.

Section handler.
Context {S : Type} `{HostKfuncs S}.
Implicit Types st : host S.

(** The word read from the guest's slot, 0 when the read fails. *)
Definition read_msg st (i : Z) : Z :=
  match bpf_host_ivshmem_g2h_read (shmem st) i with Ok m => m | _ => 0 end.

(** The index of the chosen buffer. *)
Definition buff_index (first : bool) (vm : vm_t) : Z :=
  if first then collection_buff_1_index vm else collection_buff_2_index vm.
Definition set_buff_index (first : bool) (i : Z) (vm : vm_t) : vm_t :=
  if first then set_buff_1_index i vm else set_buff_2_index i vm.
Definition buff_key (first : bool) (n : list Z) : list Z :=
  if first then (collection_keys n).1 else (collection_keys n).2.

(** An access through the pointer to a VM's entry. *)
Definition on_vm (n : list Z) st (k : vm_t → host S * pc) : host S * pc :=
  match vms st !! n with Some vm => k vm | None => (st, Idle) end.

Definition cpu_step (p : pc) st : host S * pc :=
  match p with
  | Idle => (st, Idle)
  | LookIn ctx =>
      match vcpus st !! u32 (next_pid ctx) with
      | None => (st, LookOut ctx 0)
      | Some v => (st, MsgIn ctx (vcpu_index v))
      end
  | MsgIn ctx i =>
      (st, if read_msg st i =? 1 then FlagIn ctx else LookOut ctx (u64 (prev_state ctx)))
  | FlagIn ctx =>
      match vcpus st !! u32 (next_pid ctx) with
      | None => (st, Idle)
      | Some v =>
          if is_phantom v =? 1
          then (put_vcpu (u32 (next_pid ctx)) (set_is_phantom 0 v) st,
                LookVm (Frame InHalf ctx (u64 (prev_state ctx))) (vm_name v))
          else (st, LookOut ctx (u64 (prev_state ctx)))
      end
  | LookOut ctx s =>
      match vcpus st !! u32 (prev_pid ctx) with
      | None => (st, Idle)
      | Some v => (st, MsgOut ctx s (vcpu_index v))
      end
  | MsgOut ctx s i =>
      (st, if (read_msg st i =? 1) && ((s =? TASK_RUNNING) || (s =? TASK_WAKING))
           then FlagOut ctx s else Idle)
  | FlagOut ctx s =>
      match vcpus st !! u32 (prev_pid ctx) with
      | None => (st, Idle)
      | Some v =>
          if is_phantom v =? 0
          then (put_vcpu (u32 (prev_pid ctx)) (set_is_phantom 1 v) st,
                LookVm (Frame OutHalf ctx s) (vm_name v))
          else (st, Idle)
      end
  | LookVm fr n =>
      (st, match vms st !! n with Some _ => ReadCount fr n CAS_ATTEMPTS | None => resume fr end)
  | ReadCount fr n attempts =>
      on_vm n st (λ vm,
        let old := phantom_count vm in
        match attempts with
        | O => (st, ReadFlag fr n old)
        | Datatypes.S attempts' =>
            if at_bound (f_half fr) vm old then (st, ReadFlag fr n old)
            else (st, CasCount fr n attempts' old)
        end)
  | CasCount fr n attempts old =>
      on_vm n st (λ vm,
        let new := moved (f_half fr) old in
        if phantom_count vm =? old
        then (put_vm n (set_phantom_count new vm) st, ReadFlag fr n new)
        else (st, ReadCount fr n attempts))
  | ReadFlag fr n c => on_vm n st (λ vm, (st, LookMap fr n c (is_collectx_in_buff_1 vm =? 1)))
  | LookMap fr n c first =>
      (st, match map_registry st !! buff_key first n with
           | Some m => Reserve fr n c first m
           | None => resume fr
           end)
  | Reserve fr n c first m =>
      on_vm n st (λ vm,
        let idx := buff_index first vm in
        (put_vm n (set_buff_index first (u32 (idx + 1)) vm) st, Stamp fr n c m idx))
  | Stamp fr n c m idx => (tick st, Store fr n m idx (Sample c (now st)))
  | Store fr n m idx x => (put_sample m idx x st, resume fr)
  end.

(** [k] steps of one CPU with nobody else running. *)
Fixpoint run_alone (k : nat) (p : pc) st : host S * pc :=
  match k with
  | O => (st, p)
  | Datatypes.S k' => let '(st', p') := cpu_step p st in run_alone k' p' st'
  end.
End handler.

(** ** Every handler ends *)

(** The number of steps a handler can still make, whatever the others do. *)
Definition tail_rank (h : half) : nat :=
  match h with InHalf => 3 + (6 + 2 * CAS_ATTEMPTS) + 1 | OutHalf => 0 end.

Definition rank (p : pc) : nat :=
  match p with
  | Idle => 0
  | LookIn _ => 3 + (6 + 2 * CAS_ATTEMPTS) + 1 + tail_rank InHalf
  | MsgIn _ _ => 2 + (6 + 2 * CAS_ATTEMPTS) + 1 + tail_rank InHalf
  | FlagIn _ => 1 + (6 + 2 * CAS_ATTEMPTS) + 1 + tail_rank InHalf
  | LookOut _ _ => tail_rank InHalf
  | MsgOut _ _ _ => 2 + (6 + 2 * CAS_ATTEMPTS) + 1
  | FlagOut _ _ => 1 + (6 + 2 * CAS_ATTEMPTS) + 1
  | LookVm fr _ => 1 + (6 + 2 * CAS_ATTEMPTS) + tail_rank (f_half fr)
  | ReadCount fr _ a => 6 + 2 * a + tail_rank (f_half fr)
  | CasCount fr _ a _ => 7 + 2 * a + tail_rank (f_half fr)
  | ReadFlag fr _ _ => 5 + tail_rank (f_half fr)
  | LookMap fr _ _ _ => 4 + tail_rank (f_half fr)
  | Reserve fr _ _ _ _ => 3 + tail_rank (f_half fr)
  | Stamp fr _ _ _ _ => 2 + tail_rank (f_half fr)
  | Store fr _ _ _ _ => 1 + tail_rank (f_half fr)
  end.

Lemma rank_resume fr : rank (resume fr) = tail_rank (f_half fr).
Proof. unfold resume. by destruct (f_half fr). Qed.

Section rank.
Context {S : Type} `{HostKfuncs S}.
Implicit Types st : host S.

Lemma rank_step p st : p ≠ Idle → (rank (cpu_step p st).2 < rank p)%nat.
Proof.
  intros Hp. destruct p; try done; simpl; unfold on_vm, CAS_ATTEMPTS;
    repeat case_match; simpl; rewrite ?rank_resume; unfold tail_rank, CAS_ATTEMPTS;
    repeat case_match; simpl; lia.
Qed.
End rank.

(** ** A handler that runs alone *)

Section alone.
Context {S : Type} `{HostKfuncs S}.
Implicit Types st : host S.

(** The handler at [p] takes the state to [st'] when nobody interferes. *)
Inductive finishes : pc → host S → host S → Prop :=
  | fin_idle st : finishes Idle st st
  | fin_step p st st' p' st'' :
      p ≠ Idle → cpu_step p st = (st', p') → finishes p' st' st'' → finishes p st st''.

Lemma run_idle k st : run_alone k Idle st = (st, Idle).
Proof. by induction k. Qed.

Lemma finishes_run p st st' k :
  finishes p st st' → (rank p <= k)%nat → run_alone k p st = (st', Idle).
Proof.
  intros Hf. revert k. induction Hf as [st|p st st' p' st'' Hp Hs _ IH]; intros k Hk.
  { apply run_idle. }
  pose proof (rank_step p st Hp) as Hr. rewrite Hs in Hr. simpl in Hr.
  destruct k as [|k]; [lia|]. simpl. rewrite Hs. apply IH. lia.
Qed.

Lemma fin_next p st st' : p ≠ Idle → finishes (cpu_step p st).2 (cpu_step p st).1 st' → finishes p st st'.
Proof. intros Hp Hf. eapply fin_step; [done|apply surjective_pairing|done]. Qed.

(** Recording a sample. *)
Lemma record_finishes fr n c vm st st' :
  vms st !! n = Some vm → finishes (resume fr) (record_sample n vm c st) st' →
  finishes (ReadFlag fr n c) st st'.
Proof.
  intros Hn Hf. apply fin_next; [done|]. simpl. unfold on_vm. rewrite Hn. simpl.
  apply fin_next; [done|]. simpl. unfold record_sample, buff_key in *.
  destruct (collection_keys n) as [k1 k2]. simpl in *.
  destruct (is_collectx_in_buff_1 vm =? 1); simpl.
  - destruct (map_registry st !! k1) as [m|]; [|exact Hf].
    do 3 (apply fin_next; [done|]; simpl; unfold on_vm; rewrite ?Hn; simpl). exact Hf.
  - destruct (map_registry st !! k2) as [m|]; [|exact Hf].
    do 3 (apply fin_next; [done|]; simpl; unfold on_vm; rewrite ?Hn; simpl). exact Hf.
Qed.

Lemma set_phantom_count_id vm : set_phantom_count (phantom_count vm) vm = vm.
Proof. by destruct vm. Qed.

Lemma put_vm_id n vm st : vms st !! n = Some vm → put_vm n vm st = st.
Proof. intros Hn. unfold put_vm. rewrite insert_id by done. by destruct st. Qed.

(** The loop, undisturbed, succeeds at its first attempt or is at its bound. *)
Definition quiet_loop (h : half) (vm : vm_t) : cas_result :=
  match h with
  | InHalf => atomic_dec_if_pos quiet (phantom_count vm)
  | OutHalf => atomic_inc_if_lt_ceil quiet (phantom_count vm) (nb_vcpus vm)
  end.

Lemma quiet_loop_cases h vm :
  quiet_loop h vm =
    if at_bound h vm (phantom_count vm)
    then CasResult (phantom_count vm) (phantom_count vm) AtBound
    else CasResult (moved h (phantom_count vm)) (moved h (phantom_count vm)) Swapped.
Proof.
  destruct h; simpl; unfold atomic_dec_if_pos, atomic_inc_if_lt_ceil, CAS_ATTEMPTS, quiet; simpl;
    by rewrite Z.eqb_refl.
Qed.

Lemma count_finishes fr n vm st st' :
  vms st !! n = Some vm →
  let r := quiet_loop (f_half fr) vm in
  let vm' := set_phantom_count (cas_mem r) vm in
  finishes (resume fr) (record_sample n vm' (cas_ret r) (put_vm n vm' st)) st' →
  finishes (LookVm fr n) st st'.
Proof.
  intros Hn r vm' Hf. apply fin_next; [done|]. simpl. rewrite Hn.
  apply fin_next; [done|]. simpl. unfold on_vm. rewrite Hn.
  unfold vm', r in Hf. rewrite quiet_loop_cases in Hf.
  destruct (at_bound (f_half fr) vm (phantom_count vm)); simpl in Hf |- *.
  - rewrite set_phantom_count_id, put_vm_id in Hf by done. by apply (record_finishes _ _ _ vm).
  - apply fin_next; [done|]. simpl. unfold on_vm. rewrite Hn, Z.eqb_refl. simpl.
    eapply record_finishes; [|exact Hf]. apply lookup_insert_eq.
Qed.

Lemma switch_out_finishes ctx s st : finishes (LookOut ctx s) st (switch_out s ctx st).
Proof.
  apply fin_next; [done|]. unfold switch_out. simpl.
  destruct (vcpus st !! u32 (prev_pid ctx)) as [v|] eqn:Hv; [|constructor].
  apply fin_next; [done|]. simpl. fold (read_msg st (vcpu_index v)).
  change (openmp_msg st v) with (read_msg st (vcpu_index v)).
  destruct ((read_msg st (vcpu_index v) =? 1) && _); simpl; [|constructor].
  apply fin_next; [done|]. simpl. rewrite Hv.
  destruct (is_phantom v =? 0); [|constructor]. simpl.
  destruct (vms st !! vm_name v) as [vm|] eqn:Hn.
  - apply (count_finishes (Frame OutHalf ctx s) (vm_name v) vm); [done|]. constructor.
  - apply fin_next; [done|]. simpl. rewrite Hn. constructor.
Qed.

Lemma handler_finishes ctx st : finishes (LookIn ctx) st (phantom_switch_handler ctx st).
Proof.
  apply fin_next; [done|]. unfold phantom_switch_handler, switch_in. simpl.
  destruct (vcpus st !! u32 (next_pid ctx)) as [v|] eqn:Hv; [|apply switch_out_finishes].
  apply fin_next; [done|]. simpl. change (openmp_msg st v) with (read_msg st (vcpu_index v)).
  destruct (read_msg st (vcpu_index v) =? 1); [|apply switch_out_finishes].
  apply fin_next; [done|]. simpl. rewrite Hv.
  destruct (is_phantom v =? 1); [|apply switch_out_finishes]. simpl.
  destruct (vms st !! vm_name v) as [vm|] eqn:Hn.
  - apply (count_finishes (Frame InHalf ctx (u64 (prev_state ctx))) (vm_name v) vm); [done|].
    apply switch_out_finishes.
  - apply fin_next; [done|]. simpl. rewrite Hn. apply switch_out_finishes.
Qed.
End alone.

(** ** Many CPUs *)

#[global] Instance half_eq_dec : EqDecision half.
Proof. solve_decision. Defined.

(** The event a handler is about, and the two threads it names. *)
Definition ctx_of (p : pc) : option sched_switch :=
  match p with
  | Idle => None
  | LookIn ctx | MsgIn ctx _ | FlagIn ctx | LookOut ctx _ | MsgOut ctx _ _ | FlagOut ctx _ => Some ctx
  | LookVm fr _ | ReadCount fr _ _ | CasCount fr _ _ _ | ReadFlag fr _ _ | LookMap fr _ _ _
  | Reserve fr _ _ _ _ | Stamp fr _ _ _ _ | Store fr _ _ _ _ => Some (f_ctx fr)
  end.

Definition names_thread (t : Z) (ctx : sched_switch) : Prop :=
  t = u32 (next_pid ctx) ∨ t = u32 (prev_pid ctx).

Definition in_flight (t : Z) (p : pc) : Prop := ∃ ctx, ctx_of p = Some ctx ∧ names_thread t ctx.

(** A handler that has flipped a flag and not yet moved the counter. *)
Definition pend_frame (p : pc) : option (frame * list Z) :=
  match p with
  | LookVm fr n | ReadCount fr n _ | CasCount fr n _ _ => Some (fr, n)
  | _ => None
  end.

Definition pends (h : half) (n : list Z) (p : pc) : bool :=
  match pend_frame p with
  | Some (fr, m) => bool_decide (f_half fr = h ∧ m = n)
  | None => false
  end.

(** The thread whose flag was flipped, and the flag. *)
Definition owner (fr : frame) : Z :=
  match f_half fr with InHalf => u32 (next_pid (f_ctx fr)) | OutHalf => u32 (prev_pid (f_ctx fr)) end.
Definition new_flag (h : half) : Z := match h with InHalf => 0 | OutHalf => 1 end.

(** The last read of a loop that used up its attempts. *)
Definition gives_up (p : pc) : nat := match p with ReadCount _ _ O => 1 | _ => 0 end.

Section many.
Context {S : Type} `{HostKfuncs S}.
Implicit Types st : host S.

(** The handlers by CPU, what they share, and how many counter updates were
    given up. *)
Record conf := Conf { pcs : gmap nat pc; shared : host S; lost : nat }.

(** Who moves: a context switch begins on a CPU, a CPU performs its next
    access, or something else happens that touches no flag and no counter (the
    timer, a guest, the idle tracker). *)
Inductive label := LEvent (i : nat) (ctx : sched_switch) | LRun (i : nat) | LEnv.

(** No other CPU is switching one of the event's vCPU threads. *)
Definition apart_from (i : nat) (ctx : sched_switch) (ps : gmap nat pc) st : Prop :=
  ∀ j q t, j ≠ i → ps !! j = Some q → names_thread t ctx → in_flight t q → vcpus st !! t = None.

Inductive lstep : label → conf → conf → Prop :=
  | c_event i ctx ps st k :
      default Idle (ps !! i) = Idle → apart_from i ctx ps st →
      lstep (LEvent i ctx) (Conf ps st k) (Conf (<[i := LookIn ctx]> ps) st k)
  | c_run i p p' ps st st' k :
      ps !! i = Some p → p ≠ Idle → cpu_step p st = (st', p') →
      lstep (LRun i) (Conf ps st k) (Conf (<[i := p']> ps) st' (k + gives_up p))
  | c_env ps st st' k :
      same_counts st st' → lstep LEnv (Conf ps st k) (Conf ps st' k).

Definition cstep (c c' : conf) : Prop := ∃ l, lstep l c c'.

Definition start (st : host S) : conf := Conf ∅ st 0.
Definition all_idle (c : conf) : Prop := ∀ i p, pcs c !! i = Some p → p = Idle.

(** ** What one step does to flags, counters and obligations *)

Inductive effect (p p' : pc) st st' : Prop :=
  | e_none : same_counts st st' → pend_frame p' = pend_frame p → effect p p' st st'
  | e_flip fr n v :
      pend_frame p = None → pend_frame p' = Some (fr, n) →
      vcpus st !! owner fr = Some v → vm_name v = n → is_phantom v = 1 - new_flag (f_half fr) →
      vcpus st' = <[owner fr := set_is_phantom (new_flag (f_half fr)) v]> (vcpus st) →
      counts st' = counts st → effect p p' st st'
  | e_move fr n c nb :
      pend_frame p = Some (fr, n) → pend_frame p' = None → vcpus st' = vcpus st →
      counts st !! n = Some (c, nb) → counts st' = <[n := (moved (f_half fr) c, nb)]> (counts st) →
      effect p p' st st'
  | e_drop fr n :
      pend_frame p = Some (fr, n) → pend_frame p' = None → st' = st →
      (∀ vm, vms st !! n = Some vm →
         gives_up p = 1%nat ∨ at_bound (f_half fr) vm (phantom_count vm) = true) →
      effect p p' st st'.

Lemma resume_frame fr : pend_frame (resume fr) = None.
Proof. unfold resume. by destruct (f_half fr). Qed.

Lemma resume_ctx fr : ctx_of (resume fr) = None ∨ ctx_of (resume fr) = Some (f_ctx fr).
Proof. unfold resume. destruct (f_half fr); auto. Qed.

(** A handler keeps to the threads of its event. *)
Lemma step_ctx p st : ctx_of (cpu_step p st).2 = None ∨ ctx_of (cpu_step p st).2 = ctx_of p.
Proof.
  destruct p; simpl; unfold on_vm; repeat case_match; simpl; auto; apply resume_ctx.
Qed.

Lemma step_effect p st : effect p (cpu_step p st).2 st (cpu_step p st).1.
Proof.
  destruct p as [|ctx|ctx i|ctx|ctx s|ctx s i|ctx s|fr n|fr n a|fr n a old|fr n c|fr n c b|fr n c b m
    |fr n c m idx|fr n m idx x]; simpl.
  - by apply e_none.
  - case_match; by apply e_none.
  - case_match; by apply e_none.
  - destruct (vcpus st !! u32 (next_pid ctx)) as [v|] eqn:Hv; [|by apply e_none].
    destruct (Z.eqb_spec (is_phantom v) 1); [|by apply e_none]. by eapply e_flip.
  - case_match; by apply e_none.
  - case_match; by apply e_none.
  - destruct (vcpus st !! u32 (prev_pid ctx)) as [v|] eqn:Hv; [|by apply e_none].
    destruct (Z.eqb_spec (is_phantom v) 0); [|by apply e_none]. by eapply e_flip.
  - destruct (vms st !! n) as [vm|] eqn:Hn; [by apply e_none|].
    apply (e_drop _ _ _ _ fr n); [done|apply resume_frame|done|]. intros vm Hvm. congruence.
  - unfold on_vm. destruct (vms st !! n) as [vm|] eqn:Hn; simpl.
    + destruct a as [|a]; simpl.
      * apply (e_drop _ _ _ _ fr n); auto.
      * destruct (at_bound (f_half fr) vm (phantom_count vm)) eqn:Hb; simpl; [|by apply e_none].
        apply (e_drop _ _ _ _ fr n); try done. intros vm' Hvm'. right. congruence.
    + apply (e_drop _ _ _ _ fr n); try done. intros vm Hvm. congruence.
  - unfold on_vm. destruct (vms st !! n) as [vm|] eqn:Hn; simpl.
    + destruct (Z.eqb_spec (phantom_count vm) old) as [<-|]; simpl; [|by apply e_none].
      eapply (e_move _ _ _ _ fr n (phantom_count vm) (nb_vcpus vm)); try done.
      * by apply counts_lookup.
      * by rewrite counts_put_vm.
    + apply (e_drop _ _ _ _ fr n); try done. intros vm Hvm. congruence.
  - unfold on_vm. case_match; by apply e_none.
  - case_match; apply e_none; try done. apply resume_frame.
  - unfold on_vm. destruct (vms st !! n) as [vm|] eqn:Hn; [|by apply e_none].
    apply e_none; [|done]. apply (same_counts_put_vm _ _ vm); [done|]. by destruct b.
  - apply e_none; [apply same_counts_tick|done].
  - apply e_none; [apply same_counts_put_sample|apply resume_frame].
Qed.

(** ** The invariant *)

Definition pending (h : half) (n : list Z) (ps : gmap nat pc) : Z := map_count (pends h n) ps.

Record counted (c : conf) : Prop := {
  ct_flags : flags_ok (shared c);
  ct_owned i p fr n : pcs c !! i = Some p → pend_frame p = Some (fr, n) →
    ∃ v, vcpus (shared c) !! owner fr = Some v ∧ vm_name v = n ∧ is_phantom v = new_flag (f_half fr);
  ct_apart i j p q t : i ≠ j → pcs c !! i = Some p → pcs c !! j = Some q →
    in_flight t p → in_flight t q → vcpus (shared c) !! t = None;
  ct_room n a nb : counts (shared c) !! n = Some (a, nb) → registered n (shared c) <= nb ∧ is_u32 nb;
  ct_count : lost c = 0%nat → ∀ n a nb, counts (shared c) !! n = Some (a, nb) →
    a = phantoms n (shared c) - pending OutHalf n (pcs c) + pending InHalf n (pcs c)
}.

Lemma owner_in_flight p fr n : pend_frame p = Some (fr, n) → in_flight (owner fr) p.
Proof.
  intros Hp. exists (f_ctx fr). split.
  - by destruct p; simpl in Hp |- *; simplify_eq.
  - unfold owner, names_thread. destruct (f_half fr); auto.
Qed.

Lemma pends_frame h n p : pends h n p = true → ∃ fr, pend_frame p = Some (fr, n) ∧ f_half fr = h.
Proof.
  unfold pends. destruct (pend_frame p) as [[fr m]|]; [|done].
  intros Hb. apply bool_decide_eq_true in Hb as [? ->]. eauto.
Qed.

Lemma pends_of h n p fr : pend_frame p = Some (fr, n) → f_half fr = h → pends h n p = true.
Proof. intros Hp Hh. unfold pends. rewrite Hp. by apply bool_decide_true. Qed.

Lemma pends_none h n p : pend_frame p = None → pends h n p = false.
Proof. intros Hp. unfold pends. by rewrite Hp. Qed.

Definition owner_of (p : pc) : Z := from_option (λ x, owner x.1) 0 (pend_frame p).

(** Pending flips are flips of distinct vCPUs of the VM. *)
Lemma pending_le c h n (Q : vcpu_t → bool) :
  counted c →
  (∀ v, vm_name v = n → is_phantom v = new_flag h → Q v = true) →
  pending h n (pcs c) <= map_count Q (vcpus (shared c)).
Proof.
  intros Hc HQ. apply (map_count_inj _ _ owner_of).
  - intros i p Hi Hp. apply pends_frame in Hp as (fr & Hp & Hh).
    destruct (ct_owned c Hc i p fr n Hi Hp) as (v & Hv & Hn & Hf).
    exists v. unfold owner_of. rewrite Hp. simpl. split; [done|]. apply HQ; congruence.
  - intros i j p q Hi Hj Hp Hq He. destruct (decide (i = j)) as [|Hne]; [done|exfalso].
    apply pends_frame in Hp as (fr & Hp & _). apply pends_frame in Hq as (fr' & Hq & _).
    unfold owner_of in He. rewrite Hp, Hq in He. simpl in He.
    destruct (ct_owned c Hc i p fr n Hi Hp) as (v & Hv & _).
    pose proof (owner_in_flight _ _ _ Hq) as Hfl. rewrite <- He in Hfl.
    pose proof (ct_apart c Hc i j p q (owner fr) Hne Hi Hj (owner_in_flight _ _ _ Hp) Hfl).
    congruence.
Qed.

Lemma pending_out_le c n : counted c → pending OutHalf n (pcs c) <= phantoms n (shared c).
Proof.
  intros Hc. apply pending_le; [done|]. intros v Hn Hf. unfold phantom_of, of_vm.
  by rewrite Hf, bool_decide_true.
Qed.

Lemma pending_in_le c n :
  counted c → pending InHalf n (pcs c) + phantoms n (shared c) <= registered n (shared c).
Proof.
  intros Hc. unfold registered, phantoms.
  rewrite (map_count_split (of_vm n) (λ v, of_vm n v && (is_phantom v =? 0)) (phantom_of n)).
  - apply Z.add_le_mono_r, pending_le; [done|]. intros v Hn Hf. simpl in Hf. unfold of_vm.
    by rewrite Hf, bool_decide_true.
  - intros t v Hv. unfold phantom_of. destruct (ct_flags c Hc t v Hv) as [-> | ->];
      destruct (of_vm n v); done.
Qed.

Lemma pending_pos h n ps i p :
  ps !! i = Some p → pends h n p = true → 1 <= pending h n ps.
Proof. apply map_count_pos. Qed.

Lemma pending_nonneg h n ps : 0 <= pending h n ps.
Proof. apply map_count_nonneg. Qed.

(** While nothing was given up, counters stay within their bounds. *)
Lemma counted_bounds c n a nb :
  counted c → lost c = 0%nat → counts (shared c) !! n = Some (a, nb) → 0 <= a <= nb ∧ is_u32 nb.
Proof.
  intros Hc Hl Hn. pose proof (ct_count c Hc Hl n a nb Hn). pose proof (ct_room c Hc n a nb Hn).
  pose proof (pending_out_le c n Hc). pose proof (pending_in_le c n Hc).
  pose proof (pending_nonneg OutHalf n (pcs c)). pose proof (pending_nonneg InHalf n (pcs c)). lia.
Qed.

(** With an obligation pending the bound test of its loop fails. *)
Lemma never_at_bound c i p fr n vm :
  counted c → lost c = 0%nat → pcs c !! i = Some p → pend_frame p = Some (fr, n) →
  vms (shared c) !! n = Some vm → at_bound (f_half fr) vm (phantom_count vm) = false.
Proof.
  intros Hc Hl Hi Hp Hn. pose proof (counts_lookup _ _ _ Hn) as Hcn.
  pose proof (ct_count c Hc Hl n _ _ Hcn). pose proof (ct_room c Hc n _ _ Hcn).
  pose proof (pending_out_le c n Hc). pose proof (pending_in_le c n Hc).
  pose proof (pending_pos (f_half fr) n (pcs c) i p Hi (pends_of _ _ _ _ Hp eq_refl)).
  pose proof (pending_nonneg OutHalf n (pcs c)). pose proof (pending_nonneg InHalf n (pcs c)).
  destruct (f_half fr); simpl.
  - apply Z.leb_gt. lia.
  - rewrite Z.geb_leb. apply Z.leb_gt. lia.
Qed.

(** ** Every step keeps it *)

Lemma pending_insert h n ps i p p' :
  ps !! i = Some p →
  pending h n (<[i := p']> ps) = pending h n ps - Z.b2z (pends h n p) + Z.b2z (pends h n p').
Proof. intros Hi. unfold pending. rewrite map_count_insert. unfold count_at. by rewrite Hi. Qed.

Lemma apart_run c i p p' st' :
  counted c → pcs c !! i = Some p → ctx_of p' = None ∨ ctx_of p' = ctx_of p →
  (∀ t, vcpus (shared c) !! t = None → vcpus st' !! t = None) →
  ∀ j j' q q' t, j ≠ j' → <[i := p']> (pcs c) !! j = Some q → <[i := p']> (pcs c) !! j' = Some q' →
    in_flight t q → in_flight t q' → vcpus st' !! t = None.
Proof.
  intros Hc Hi Hctx Hdom j j' q q' t Hne Hj Hj' Ht Ht'.
  assert (Hsub : in_flight t p' → in_flight t p).
  { intros (ctx & Hp & Hn). exists ctx. destruct Hctx as [E|E]; rewrite E in Hp; done. }
  apply Hdom. rewrite lookup_insert in Hj, Hj'.
  destruct (decide (i = j)) as [<-|], (decide (i = j')) as [<-|]; try done; simplify_eq.
  - by apply (ct_apart c Hc i j' p q'); auto.
  - by apply (ct_apart c Hc j i q p); auto.
  - by apply (ct_apart c Hc j j' q q').
Qed.

(** A step that leaves the vCPUs alone and takes on no obligation. *)
Lemma owned_run c i p p' st' :
  counted c → pcs c !! i = Some p → vcpus st' = vcpus (shared c) →
  pend_frame p' = pend_frame p ∨ pend_frame p' = None →
  ∀ j q fr n, <[i := p']> (pcs c) !! j = Some q → pend_frame q = Some (fr, n) →
    ∃ v, vcpus st' !! owner fr = Some v ∧ vm_name v = n ∧ is_phantom v = new_flag (f_half fr).
Proof.
  intros Hc Hi Hv Hp j q fr n Hj Hq. rewrite Hv. rewrite lookup_insert in Hj. case_decide as Hd.
  - injection Hj as <-. destruct Hp as [Hp|Hp]; [|congruence].
    apply (ct_owned c Hc i p); congruence.
  - by apply (ct_owned c Hc j q).
Qed.

Lemma same_counts_vm st st' : same_counts st st' →
  (∀ n, registered n st' = registered n st) ∧ (∀ n, phantoms n st' = phantoms n st) ∧
  (flags_ok st → flags_ok st').
Proof.
  intros [Hv _]. unfold registered, phantoms, flags_ok. by rewrite Hv.
Qed.

Lemma run_none c i p p' st' g :
  counted c → pcs c !! i = Some p → same_counts (shared c) st' → pend_frame p' = pend_frame p →
  ctx_of p' = None ∨ ctx_of p' = ctx_of p →
  counted (Conf (<[i := p']> (pcs c)) st' (lost c + g)).
Proof.
  intros Hc Hi Hs Hp Hctx. pose proof Hs as [Hv Hcn]. destruct (same_counts_vm _ _ Hs) as (Hr & Hph & Hf).
  split; simpl.
  - apply Hf, Hc.
  - apply (owned_run c i p); auto.
  - apply (apart_run c i p); auto. by rewrite Hv.
  - intros n a nb. rewrite Hcn, Hr. apply Hc.
  - intros Hl n a nb. rewrite Hcn, Hph. intros Hn.
    rewrite !(pending_insert _ _ _ i p p') by done.
    assert (Hpe : ∀ h, pends h n p' = pends h n p) by (intros h; unfold pends; by rewrite Hp).
    rewrite !Hpe, (ct_count c Hc ltac:(lia) n a nb Hn). lia.
Qed.

Lemma run_flip c i p p' st' fr n v :
  counted c → pcs c !! i = Some p → pend_frame p = None → pend_frame p' = Some (fr, n) →
  ctx_of p' = None ∨ ctx_of p' = ctx_of p →
  vcpus (shared c) !! owner fr = Some v → vm_name v = n → is_phantom v = 1 - new_flag (f_half fr) →
  vcpus st' = <[owner fr := set_is_phantom (new_flag (f_half fr)) v]> (vcpus (shared c)) →
  counts st' = counts (shared c) →
  counted (Conf (<[i := p']> (pcs c)) st' (lost c + gives_up p)).
Proof.
  intros Hc Hi Hp Hp' Hctx Hv Hn Hfl Hv' Hcn.
  assert (Hown : in_flight (owner fr) p).
  { pose proof (owner_in_flight _ _ _ Hp') as (ctx & Hx & Hy). exists ctx.
    destruct Hctx as [E|E]; rewrite E in Hx; done. }
  split; simpl.
  - apply (flags_flip (new_flag (f_half fr)) (owner fr) v (shared c)); [|done|apply Hc].
    destruct (f_half fr); auto.
  - intros j q fr' n' Hj Hq. rewrite lookup_insert in Hj. case_decide as Hd.
    + injection Hj as <-. rewrite Hq in Hp'. injection Hp' as -> ->. rewrite Hv', lookup_insert_eq.
      by eexists.
    + destruct (ct_owned c Hc j q fr' n' Hj Hq) as (w & Hw & Hw').
      exists w. rewrite Hv', lookup_insert_ne; [done|]. intros He.
      pose proof (owner_in_flight _ _ _ Hq) as Hfq. rewrite <- He in Hfq.
      pose proof (ct_apart c Hc i j p q (owner fr) Hd Hi Hj Hown Hfq). congruence.
  - apply (apart_run c i p); auto. intros t Ht. rewrite Hv', lookup_insert_ne; congruence.
  - intros m a nb. rewrite Hcn, (registered_flip _ _ _ m _ _ Hv Hv'). apply Hc.
  - intros Hl m a nb. rewrite Hcn. intros Hm.
    rewrite !(pending_insert _ _ _ i p p'), (phantoms_flip _ _ _ m _ _ Hv Hv') by done.
    rewrite (ct_count c Hc ltac:(lia) m a nb Hm), !(pends_none _ _ p) by done.
    unfold pends. rewrite Hp'. unfold phantom_of, of_vm. rewrite Hfl, Hn.
    destruct (decide (n = m)) as [->|Hne].
    + rewrite (bool_decide_true (m = m)) by done.
      destruct (f_half fr); rewrite !bool_decide_decide; repeat case_decide; simpl in *;
        try naive_solver; lia.
    + rewrite (bool_decide_false (n = m)), !bool_decide_false by naive_solver. simpl. lia.
Qed.

Lemma pends_other h n m p fr : pend_frame p = Some (fr, n) → n ≠ m → pends h m p = false.
Proof. intros Hp Hne. unfold pends. rewrite Hp. apply bool_decide_false. naive_solver. Qed.

Lemma pends_half h n p fr : pend_frame p = Some (fr, n) → f_half fr ≠ h → pends h n p = false.
Proof. intros Hp Hne. unfold pends. rewrite Hp. apply bool_decide_false. naive_solver. Qed.

Lemma run_move c i p p' st' fr n a nb :
  counted c → pcs c !! i = Some p → pend_frame p = Some (fr, n) → pend_frame p' = None →
  ctx_of p' = None ∨ ctx_of p' = ctx_of p → vcpus st' = vcpus (shared c) →
  counts (shared c) !! n = Some (a, nb) →
  counts st' = <[n := (moved (f_half fr) a, nb)]> (counts (shared c)) →
  counted (Conf (<[i := p']> (pcs c)) st' (lost c + gives_up p)).
Proof.
  intros Hc Hi Hp Hp' Hctx Hv Hn Hcn.
  assert (Hr : ∀ m, registered m st' = registered m (shared c)) by (intros; unfold registered; by rewrite Hv).
  split; simpl.
  - intros t v. rewrite Hv. apply Hc.
  - apply (owned_run c i p); auto.
  - apply (apart_run c i p); auto. by rewrite Hv.
  - intros m b nb'. rewrite Hcn, Hr, lookup_insert. case_decide as Hd; [|apply Hc].
    intros [= _ <-]. subst m. by apply (ct_room c Hc n a).
  - intros Hl m b nb'. assert (Hl0 : lost c = 0%nat) by lia.
    unfold phantoms. rewrite Hcn, Hv. fold (phantoms m (shared c)).
    rewrite !(pending_insert _ _ _ i p p'), !(pends_none _ _ p') by done.
    rewrite lookup_insert. case_decide as Hd.
    + intros [= <- <-]. subst m.
      pose proof (ct_count c Hc Hl0 n a nb Hn). pose proof (counted_bounds c n a nb Hc Hl0 Hn).
      destruct (f_half fr) eqn:Eh; simpl.
      * rewrite (pends_of _ _ _ _ Hp Eh), (pends_half OutHalf _ _ _ Hp) by (rewrite Eh; done).
        rewrite s64_id by lia. simpl. lia.
      * rewrite (pends_of _ _ _ _ Hp Eh), (pends_half InHalf _ _ _ Hp) by (rewrite Eh; done).
        rewrite s64_id by lia. simpl. lia.
    + intros Hm. rewrite !(pends_other _ _ _ _ _ Hp Hd). simpl.
      rewrite (ct_count c Hc Hl0 m b nb' Hm). lia.
Qed.

Lemma run_drop c i p p' fr n :
  counted c → pcs c !! i = Some p → pend_frame p = Some (fr, n) → pend_frame p' = None →
  ctx_of p' = None ∨ ctx_of p' = ctx_of p →
  (∀ vm, vms (shared c) !! n = Some vm →
     gives_up p = 1%nat ∨ at_bound (f_half fr) vm (phantom_count vm) = true) →
  counted (Conf (<[i := p']> (pcs c)) (shared c) (lost c + gives_up p)).
Proof.
  intros Hc Hi Hp Hp' Hctx Hd. split; simpl.
  - apply Hc.
  - apply (owned_run c i p); auto.
  - by apply (apart_run c i p).
  - apply Hc.
  - intros Hl m a nb Hm. assert (Hl0 : lost c = 0%nat) by lia.
    rewrite !(pending_insert _ _ _ i p p'), !(pends_none _ _ p') by done.
    destruct (decide (n = m)) as [->|Hne].
    + exfalso. unfold counts in Hm. rewrite lookup_fmap in Hm.
      destruct (vms (shared c) !! m) as [vm|] eqn:Hvm; [|done].
      destruct (Hd vm eq_refl) as [|Hb]; [lia|].
      rewrite (never_at_bound c i p fr m vm Hc Hl0 Hi Hp Hvm) in Hb. done.
    + rewrite !(pends_other _ _ _ _ _ Hp Hne). simpl.
      rewrite (ct_count c Hc Hl0 m a nb Hm). lia.
Qed.

Lemma run_counted c i p :
  counted c → pcs c !! i = Some p →
  counted (Conf (<[i := (cpu_step p (shared c)).2]> (pcs c)) (cpu_step p (shared c)).1
             (lost c + gives_up p)).
Proof.
  intros Hc Hi. pose proof (step_ctx p (shared c)) as Hctx.
  destruct (step_effect p (shared c)) as [Hs Hp|fr n v Hp Hp' Hv Hn Hf Hv' Hcn
    |fr n a nb Hp Hp' Hv Hn Hcn|fr n Hp Hp' Hst Hd].
  - by apply (run_none c i p).
  - by apply (run_flip c i p _ _ fr n v).
  - by apply (run_move c i p _ _ fr n a nb).
  - rewrite Hst in *. by apply (run_drop c i p _ fr n).
Qed.

Lemma event_counted c i ctx :
  counted c → default Idle (pcs c !! i) = Idle →
  apart_from i ctx (pcs c) (shared c) →
  counted (Conf (<[i := LookIn ctx]> (pcs c)) (shared c) (lost c)).
Proof.
  intros Hc Hi Hg.
  assert (Hpend : ∀ h n, pending h n (<[i := LookIn ctx]> (pcs c)) = pending h n (pcs c)).
  { intros h n. unfold pending. rewrite map_count_insert. unfold count_at.
    destruct (pcs c !! i) as [p|]; simpl in Hi |- *; [subst p; simpl|]; lia. }
  assert (Hfl : ∀ t, in_flight t (LookIn ctx) → names_thread t ctx) by (intros t (x & [= <-] & ?); done).
  split; simpl; [apply Hc| | |apply Hc|].
  - intros j q fr n. rewrite lookup_insert. case_decide; [by intros [= <-]|apply (ct_owned c Hc)].
  - intros j j' q q' t Hne. rewrite !lookup_insert. do 2 case_decide; subst; try done.
    + intros [= <-] Hj' Ht. by apply (Hg j' q'); auto.
    + intros Hj [= <-] Ht Ht'. by apply (Hg j q); auto.
    + apply (ct_apart c Hc); done.
  - intros Hl n a nb Hn. rewrite !Hpend. by apply (ct_count c Hc Hl n a nb).
Qed.

Lemma cstep_counted c c' : cstep c c' → counted c → counted c'.
Proof.
  intros [l Hl]. destruct Hl as [i ctx ps st k Hi Hg|i p p' ps st st' k Hi Hp Hs|ps st st' k Hs]; intros Hc.
  - by apply (event_counted (Conf ps st k)).
  - pose proof (run_counted (Conf ps st k) i p Hc Hi) as Hr. simpl in Hr. by rewrite Hs in Hr.
  - destruct (same_counts_vm _ _ Hs) as (Hr & Hph & Hf). destruct Hs as [Hv Hcn].
    destruct Hc as [C1 C2 C3 C4 C5]. split; simpl in *.
    + by apply Hf.
    + by rewrite Hv.
    + by rewrite Hv.
    + intros n a nb. rewrite Hcn, Hr. apply C4.
    + intros Hl n a nb. rewrite Hcn, Hph. by apply C5.
Qed.

Lemma start_counted st : phantom_inv st → counted (start st).
Proof.
  intros [Hf Hi]. split; simpl; try done.
  - intros n a nb Hn. by apply (Hi n a nb).
  - intros _ n a nb Hn. unfold pending. rewrite !map_count_empty.
    destruct (Hi n a nb Hn) as (-> & _). lia.
Qed.

Lemma rtc_counted c c' : rtc cstep c c' → counted c → counted c'.
Proof. induction 1 as [|c c1 c' Hs _ IH]; intros Hc; [done|]. apply IH. by apply (cstep_counted c). Qed.

(** With all CPUs idle no obligation is pending. *)
Lemma idle_inv c : counted c → lost c = 0%nat → all_idle c → phantom_inv (shared c).
Proof.
  intros Hc Hl Hi. split; [apply Hc|]. intros n a nb Hn.
  assert (Hp : ∀ h, pending h n (pcs c) = 0).
  { intros h. apply map_count_none. intros i p Hip. by rewrite (Hi i p Hip). }
  pose proof (ct_count c Hc Hl n a nb Hn) as Ha. rewrite !Hp in Ha.
  pose proof (ct_room c Hc n a nb Hn). lia.
Qed.
End many.

(** ** Runs *)

(** The store an access performs: the buffer, the slot and the sample. *)
Definition store_of (p : pc) : list (Z * Z * sample) :=
  match p with Store _ _ m idx x => [(m, idx, x)] | _ => [] end.

(** The stores of a log into one buffer. *)
Definition to_buffer (m : Z) (log : list (Z * Z * sample)) : list (Z * sample) :=
  omap (λ e, if decide (e.1.1 = m) then Some (e.1.2, e.2) else None) log.


Section runs.
Context {S : Type} `{HostKfuncs S}.
Implicit Types c : conf (S := S).

Definition pc_at (i : nat) c : pc := default Idle (pcs c !! i).

Definition written (l : label) c : list (Z * Z * sample) :=
  match l with LRun i => store_of (pc_at i c) | _ => [] end.

(** A finite run: its labels, and the samples stored on the way. *)
Inductive lrun : list label → list (Z * Z * sample) → conf → conf → Prop :=
  | lrun_nil c : lrun [] [] c c
  | lrun_cons l ls log c1 c2 c3 :
      lstep l c1 c2 → lrun ls log c2 c3 → lrun (l :: ls) (written l c1 ++ log) c1 c3.

(** A step of somebody else, or an event on this CPU while it is idle, never
    increases the work left on it except from nothing. *)
Lemma lstep_rank i l c c' :
  lstep l c c' → pc_at i c ≠ Idle →
  (l = LRun i ∧ (rank (pc_at i c') < rank (pc_at i c))%nat) ∨ (l ≠ LRun i ∧ pc_at i c' = pc_at i c).
Proof.
  unfold pc_at. destruct 1 as [j ctx ps st k Hj _|j p p' ps st st' k Hj Hp Hs|ps st st' k Hs]; simpl; intros Hi.
  - right. split; [done|]. rewrite lookup_insert. case_decide; subst; done.
  - destruct (decide (j = i)) as [->|Hne].
    + left. split; [done|]. rewrite lookup_insert_eq, Hj. simpl.
      pose proof (rank_step p st Hp) as Hr. by rewrite Hs in Hr.
    + right. split; [congruence|]. by rewrite lookup_insert_ne.
  - by right.
Qed.




End runs.

(** ** Fair runs *)

Section fair.
Context {S : Type} `{HostKfuncs S}.

(** An infinite run, and a CPU that is scheduled again and again while its
    handler is not done. *)
Definition run (σ : nat → conf (S := S)) (ls : nat → label) : Prop :=
  ∀ m, lstep (ls m) (σ m) (σ (Datatypes.S m)).
Definition fair_to (i : nat) (σ : nat → conf (S := S)) (ls : nat → label) : Prop :=
  ∀ m, pc_at i (σ m) ≠ Idle → ∃ m', (m <= m')%nat ∧ (ls m' = LRun i ∨ pc_at i (σ m') = Idle).

(** A busy CPU that is scheduled [d] steps from now has made progress then. *)
Lemma scheduled i σ ls d m :
  run σ ls → pc_at i (σ m) ≠ Idle → ls (m + d)%nat = LRun i →
  ∃ m', (m < m')%nat ∧ (rank (pc_at i (σ m')) < rank (pc_at i (σ m)))%nat.
Proof.
  intros Hrun. revert m. induction d as [|d IH]; intros m Hp Hl.
  - rewrite Nat.add_0_r in Hl. exists (Datatypes.S m). split; [lia|].
    by destruct (lstep_rank i _ _ _ (Hrun m) Hp) as [[_ ?]|[? _]].
  - destruct (lstep_rank i _ _ _ (Hrun m) Hp) as [[_ Hr]|[_ He]].
    + exists (Datatypes.S m). split; [lia|done].
    + destruct (IH (Datatypes.S m)) as (m' & Hm & Hr).
      * by rewrite He.
      * by replace (Datatypes.S m + d)%nat with (m + Datatypes.S d)%nat by lia.
      * exists m'. rewrite He in Hr. split; [lia|done].
Qed.

Lemma fair_finishes i σ ls : run σ ls → fair_to i σ ls →
  ∀ m, ∃ m', (m <= m')%nat ∧ pc_at i (σ m') = Idle.
Proof.
  intros Hrun Hfair m. remember (rank (pc_at i (σ m))) as r eqn:Er. revert m Er.
  induction r as [r IH] using (well_founded_induction lt_wf). intros m ->.
  destruct (decide (rank (pc_at i (σ m)) = 0%nat)) as [H0|H0].
  { exists m. split; [lia|]. destruct (pc_at i (σ m)); simpl in H0; try done; lia. }
  assert (Hp : pc_at i (σ m) ≠ Idle) by (intros E; by rewrite E in H0).
  destruct (Hfair m Hp) as (m1 & Hm1 & [Hl|Hd]); [|by exists m1].
  replace m1 with (m + (m1 - m))%nat in Hl by lia.
  destruct (scheduled i σ ls (m1 - m) m Hrun Hp Hl) as (m2 & Hm2 & Hr).
  destruct (IH _ Hr m2 eq_refl) as (m3 & Hm3 & Hd). exists m3. split; [lia|done].
Qed.
End fair.

(** ** Executing a schedule *)

Section exec.
Context {S : Type} `{HostKfuncs S}.
Implicit Types c : conf (S := S).

Definition is_idle (p : pc) : bool := match p with Idle => true | _ => false end.


Definition threads (p : pc) : list Z :=
  match ctx_of p with Some ctx => [u32 (next_pid ctx); u32 (prev_pid ctx)] | None => [] end.

Definition apart_fromb (i : nat) (ctx : sched_switch) (ps : gmap nat pc) (st : host S) : bool :=
  bool_decide (map_Forall (λ j q, j = i ∨
    Forall (λ t, t ∉ [u32 (next_pid ctx); u32 (prev_pid ctx)] ∨ vcpus st !! t = None) (threads q)) ps).

(** What a label does, or nothing when the step is not enabled. *)
Definition exec c (l : label) : conf :=
  match l with
  | LEvent i ctx =>
      if is_idle (default Idle (pcs c !! i)) && apart_fromb i ctx (pcs c) (shared c)
      then Conf (<[i := LookIn ctx]> (pcs c)) (shared c) (lost c) else c
  | LRun i =>
      match pcs c !! i with
      | Some p =>
          if is_idle p then c
          else let '(st', p') := cpu_step p (shared c) in
               Conf (<[i := p']> (pcs c)) st' (lost c + gives_up p)
      | None => c
      end
  | LEnv => c
  end.

Lemma apart_fromb_sound i ctx ps st : apart_fromb i ctx ps st = true → apart_from i ctx ps st.
Proof.
  intros Hb. apply bool_decide_eq_true in Hb. intros j q t Hne Hj Ht (x & Hx & Htx).
  destruct (Hb j q Hj) as [|Hf]; [done|]. rewrite Forall_forall in Hf.
  destruct (Hf t) as [Hn|]; [|exfalso; apply Hn|done].
  - unfold threads. rewrite Hx. destruct Htx as [-> | ->]; set_solver.
  - destruct Ht as [-> | ->]; set_solver.
Qed.

Lemma exec_lstep c l : exec c l = c ∨ lstep l c (exec c l).
Proof.
  destruct c as [ps st k], l as [i ctx|i|]; simpl; [| |by left].
  - destruct (is_idle _) eqn:Hi; simpl; [|by left].
    destruct (apart_fromb i ctx ps st) eqn:Ha; [right|by left].
    apply c_event; [|by apply apart_fromb_sound]. by destruct (default Idle (ps !! i)).
  - destruct (ps !! i) as [p|] eqn:Hp; [|by left]. destruct (is_idle p) eqn:Hi; [by left|right].
    destruct (cpu_step p st) as [st' p'] eqn:Hs. apply (c_run i p); [done| |done]. by intros ->.
Qed.

Lemma exec_all_sound ls c : rtc cstep c (foldl exec c ls).
Proof.
  revert c. induction ls as [|l ls IH]; intros c; simpl; [done|].
  etrans; [|apply IH]. destruct (exec_lstep c l) as [-> |Hl]; [done|]. apply rtc_once. by exists l.
Qed.

(** A schedule all of whose steps are enabled, and the samples it stores. *)
Fixpoint enabled (ls : list label) c : bool :=
  match ls with
  | [] => true
  | l :: ls =>
      match l with
      | LEvent i ctx => is_idle (pc_at i c) && apart_fromb i ctx (pcs c) (shared c)
      | LRun i => negb (is_idle (pc_at i c))
      | LEnv => true
      end && enabled ls (exec c l)
  end.

Fixpoint stored (ls : list label) c : list (Z * Z * sample) :=
  match ls with [] => [] | l :: ls => written l c ++ stored ls (exec c l) end.

Lemma enabled_lrun ls c : enabled ls c = true → lrun ls (stored ls c) c (foldl exec c ls).
Proof.
  revert c. induction ls as [|l ls IH]; intros c; cbn [enabled stored foldl]; [constructor|].
  intros [Hl Hls]%andb_true_iff. econstructor; [|by apply IH]. clear IH Hls.
  destruct c as [ps st k], l as [i ctx|i|]; unfold pc_at in Hl; simpl in *; [| |by apply c_env].
  - apply andb_true_iff in Hl as [Hi Ha]. rewrite Hi, Ha. simpl.
    apply c_event; [by destruct (default Idle (ps !! i))|by apply apart_fromb_sound].
  - destruct (ps !! i) as [p|] eqn:Hp; simpl in Hl; [|done].
    destruct (is_idle p) eqn:Hi; [done|]. destruct (cpu_step p st) as [st' p'] eqn:Hs.
    apply (c_run i p); [done| |done]. by intros ->.
Qed.


(** A CPU that runs one handler and then stays idle. *)
Definition solo_label (ctx : sched_switch) (m : nat) c : label :=
  match m with
  | O => LEvent 0 ctx
  | _ => if is_idle (pc_at 0 c) then LEnv else LRun 0
  end.

Fixpoint solo (ctx : sched_switch) (st : host S) (m : nat) : conf :=
  match m with
  | O => start st
  | Datatypes.S m' => exec (solo ctx st m') (solo_label ctx m' (solo ctx st m'))
  end.

Lemma solo_run ctx st : run (solo ctx st) (λ m, solo_label ctx m (solo ctx st m)).
Proof.
  intros [|m].
  { apply c_event; [done|]. intros j q t _ Hj. simpl in Hj. by rewrite lookup_empty in Hj. }
  change (solo ctx st (Datatypes.S (Datatypes.S m)))
    with (exec (solo ctx st (Datatypes.S m)) (solo_label ctx (Datatypes.S m) (solo ctx st (Datatypes.S m)))).
  generalize (solo ctx st (Datatypes.S m)) as c. intros [ps s k]. unfold solo_label, pc_at.
  cbn [pcs]. destruct (ps !! 0%nat) as [p|] eqn:Hp; simpl; [|by apply c_env].
  destruct (is_idle p) eqn:Hi; simpl; [by apply c_env|]. rewrite Hp, Hi.
  destruct (cpu_step p s) as [s' p'] eqn:Hs. apply (c_run 0 p); [done| |done]. by intros ->.
Qed.

Lemma solo_fair ctx st : fair_to 0 (solo ctx st) (λ m, solo_label ctx m (solo ctx st m)).
Proof.
  intros [|m] Hm; [done|]. exists (Datatypes.S m). split; [lia|left]. unfold solo_label.
  by destruct (pc_at 0 (solo ctx st (Datatypes.S m))).
Qed.
End exec.

(** ** Samples recorded at the same time *)

(** The buffer bookkeeping of a VM. *)
Definition books (vm : vm_t) : Z * Z * Z :=
  (collection_buff_1_index vm, collection_buff_2_index vm, is_collectx_in_buff_1 vm).

(** The slot a handler has reserved and not yet filled. *)
Definition slot_of (p : pc) : option (Z * Z) :=
  match p with
  | Stamp _ _ _ m idx => Some (m, idx)
  | Store _ _ m idx _ => Some (m, idx)
  | _ => None
  end.

Section samples.
Context {S : Type} `{HostKfuncs S}.
Implicit Types (st : host S) (c : conf (S := S)).

Inductive mark (p p' : pc) st st' : Prop :=
  | m_none :
      (∀ n, books <$> vms st' !! n = books <$> vms st !! n) → inner_maps st' = inner_maps st →
      slot_of p' = slot_of p → store_of p = [] → mark p p' st st'
  | m_reserve fr n a b m vm :
      p = Reserve fr n a b m → vms st !! n = Some vm →
      vms st' = <[n := set_buff_index b (u32 (buff_index b vm + 1)) vm]> (vms st) →
      inner_maps st' = inner_maps st → slot_of p' = Some (m, buff_index b vm) → mark p p' st st'
  | m_store m idx x :
      slot_of p = Some (m, idx) → store_of p = [(m, idx, x)] → slot_of p' = None → vms st' = vms st →
      inner_maps st' = inner_maps (put_sample m idx x st) → mark p p' st st'.

Lemma resume_slot fr : slot_of (resume fr) = None.
Proof. unfold resume. by destruct (f_half fr). Qed.

Lemma step_mark p st : mark p (cpu_step p st).2 st (cpu_step p st).1.
Proof.
  destruct p as [|ctx|ctx i|ctx|ctx s|ctx s i|ctx s|fr n|fr n a|fr n a old|fr n a|fr n a b|fr n a b m
    |fr n a m idx|fr n m idx x]; simpl; unfold on_vm.
  1-9,11: repeat case_match; apply m_none; simpl; rewrite ?resume_slot; done.
  - destruct (vms st !! n) as [vm|] eqn:Hn; [|by apply m_none].
    destruct (phantom_count vm =? old); [|by apply m_none]. apply m_none; [|done|done|done].
    intros k. simpl. rewrite lookup_insert. case_decide; [subst|done]. by rewrite Hn.
  - case_match; apply m_none; simpl; rewrite ?resume_slot; done.
  - destruct (vms st !! n) as [vm|] eqn:Hn; [|by apply m_none]. by eapply m_reserve.
  - by apply m_none.
  - eapply (m_store _ _ _ _ m idx x); try done; [apply resume_slot|].
    simpl. unfold put_sample. by case_match.
Qed.

(** The registry and the buffer the code chose for a VM do not change. *)
Lemma step_registry p st : map_registry (cpu_step p st).1 = map_registry st.
Proof.
  destruct p; simpl; unfold on_vm, put_sample; repeat case_match; done.
Qed.

(** One buffer: the active one of VM [n], in map [m], with the content [a0] and
    the index [k0] when the run began; [N] steps have been made, and [W] lists
    the slots of it that were filled since, with their samples. *)
Context (n : list Z) (b : bool) (m k0 : Z) (a0 : array_map sample).

Definition owned_map st : Prop :=
  map_registry st !! buff_key b n = Some m ∧
  ∀ n' b', map_registry st !! buff_key b' n' = Some m → is_Some (vms st !! n') → n' = n ∧ b' = b.

(** Where the handlers that are about to reserve a slot stand. *)
Definition aimed c : Prop :=
  (∀ i fr a b', pcs c !! i = Some (LookMap fr n a b') → b' = b) ∧
  (∀ i fr n' a b' m', pcs c !! i = Some (Reserve fr n' a b' m') →
     map_registry (shared c) !! buff_key b' n' = Some m' ∧ (n' = n → b' = b)).

Record slots (N : nat) (W : list (Z * sample)) c (vm : vm_t) (a : array_map sample) : Prop := {
  sl_vm : vms (shared c) !! n = Some vm;
  sl_flag : (is_collectx_in_buff_1 vm =? 1) = b;
  sl_map : inner_maps (shared c) !! m = Some a;
  sl_index : 0 <= k0 <= buff_index b vm ∧ buff_index b vm <= k0 + Z.of_nat N;
  sl_full idx : k0 <= idx < buff_index b vm →
    idx ∈ W.*1 ∨ ∃ i p, pcs c !! i = Some p ∧ slot_of p = Some (m, idx);
  sl_held i p idx : pcs c !! i = Some p → slot_of p = Some (m, idx) →
    k0 <= idx < buff_index b vm ∧ idx ∉ W.*1;
  sl_once i j p q idx : pcs c !! i = Some p → pcs c !! j = Some q →
    slot_of p = Some (m, idx) → slot_of q = Some (m, idx) → i = j;
  sl_log : NoDup W.*1 ∧ ∀ k, k ∈ W.*1 → k0 <= k < buff_index b vm;
  sl_new k x : (k, x) ∈ W → k < am_max a0 → am_vals a !! k = Some x;
  sl_old k : k ∉ W.*1 → am_vals a !! k = am_vals a0 !! k;
  sl_max : am_max a = am_max a0;
  sl_owned : owned_map (shared c);
  sl_aimed : aimed c
}.

Lemma books_index first vm vm' : books vm' = books vm → buff_index first vm' = buff_index first vm.
Proof. intros [= H1 H2 H3]. unfold buff_index. by rewrite H1, H2. Qed.

Lemma books_flag vm vm' : books vm' = books vm → is_collectx_in_buff_1 vm' = is_collectx_in_buff_1 vm.
Proof. by intros [= H1 H2 H3]. Qed.

Lemma aimed_run c vm i p :
  aimed c → vms (shared c) !! n = Some vm → (is_collectx_in_buff_1 vm =? 1) = b →
  pcs c !! i = Some p →
  aimed (Conf (<[i := (cpu_step p (shared c)).2]> (pcs c)) (cpu_step p (shared c)).1
           (lost c + gives_up p)).
Proof.
  intros [A1 A2] Hn Hb Hi. split; simpl.
  - intros j fr a b'. rewrite lookup_insert. case_decide; [|apply A1].
    intros [= He]. destruct p; simpl in He; unfold on_vm in He; repeat case_match; try done;
      try (unfold resume in He; by case_match).
    all: cbn [snd] in He; simplify_eq; done.
  - intros j fr n' a b' m'. rewrite step_registry, lookup_insert. case_decide; [|apply A2].
    intros [= He]. destruct p; simpl in He; unfold on_vm in He; repeat case_match; try done;
      try (unfold resume in He; by case_match).
    all: cbn [snd] in He; simplify_eq; split; [done|]; intros ->; by eapply A1.
Qed.

Lemma owned_map_keep st st' :
  owned_map st → map_registry st' = map_registry st →
  (∀ k, is_Some (vms st' !! k) → is_Some (vms st !! k)) → owned_map st'.
Proof. intros [O1 O2] Hr Hk. split; rewrite Hr; [done|]. intros n' b' Hm Hs. apply (O2 n' b'); auto. Qed.

(** Replacing the program counter of one CPU by one with the same slot. *)
Lemma slot_insert (ps : gmap nat pc) i p p' j q idx :
  ps !! i = Some p → slot_of p' = slot_of p → <[i := p']> ps !! j = Some q →
  slot_of q = Some (m, idx) → ∃ q', ps !! j = Some q' ∧ slot_of q' = Some (m, idx).
Proof.
  intros Hi Hs. rewrite lookup_insert. case_decide as Hd; [intros [= <-]; subst j|eauto].
  rewrite Hs. eauto.
Qed.

Section one_step.
Context (N : nat) (W : list (Z * sample)) (c : conf (S := S)) (vm : vm_t) (a : array_map sample).
Context (i : nat) (p : pc).
Context (Hs : slots N W c vm a) (Hi : pcs c !! i = Some p) (Hwrap : k0 + Z.of_nat N + 1 < 2 ^ 32).

Let st' : host S := (cpu_step p (shared c)).1.
Let p' : pc := (cpu_step p (shared c)).2.
Let c' : conf := Conf (<[i := p']> (pcs c)) st' (lost c + gives_up p).

Lemma slots_none :
  (∀ n', books <$> vms st' !! n' = books <$> vms (shared c) !! n') →
  inner_maps st' = inner_maps (shared c) → slot_of p' = slot_of p →
  ∃ vm', slots (Datatypes.S N) W c' vm' a.
Proof using Hs Hi.
  intros Hb Hm Hsl. pose proof (Hb n) as Hbn. rewrite (sl_vm _ _ _ _ _ Hs) in Hbn.
  destruct (vms st' !! n) as [vm'|] eqn:Hn; [|done]. simpl in Hbn. apply (inj Some) in Hbn.
  pose proof (books_index b _ _ Hbn) as Hidx.
  exists vm'. split; simpl; rewrite ?Hidx.
  - done.
  - rewrite (books_flag _ _ Hbn). apply Hs.
  - rewrite Hm. apply Hs.
  - pose proof (sl_index _ _ _ _ _ Hs). lia.
  - intros idx Hx. destruct (sl_full _ _ _ _ _ Hs idx Hx) as [|(j & q & Hj & Hq)]; [by left|].
    right. destruct (decide (j = i)) as [->|Hne].
    + exists i, p'. rewrite lookup_insert_eq. split; [done|]. rewrite Hsl. congruence.
    + exists j, q. by rewrite lookup_insert_ne.
  - intros j q idx Hj Hq. destruct (slot_insert _ _ _ _ _ _ _ Hi Hsl Hj Hq) as (q' & ? & ?).
    by apply (sl_held _ _ _ _ _ Hs j q').
  - intros j1 j2 q1 q2 idx H1 H2 Hq1 Hq2.
    destruct (slot_insert _ _ _ _ _ _ _ Hi Hsl H1 Hq1) as (r1 & ? & ?).
    destruct (slot_insert _ _ _ _ _ _ _ Hi Hsl H2 Hq2) as (r2 & ? & ?).
    by apply (sl_once _ _ _ _ _ Hs j1 j2 r1 r2 idx).
  - apply Hs.
  - apply Hs.
  - apply Hs.
  - apply Hs.
  - apply (owned_map_keep (shared c)); [apply Hs|apply step_registry|].
    intros k Hk. specialize (Hb k). destruct (vms st' !! k), (vms (shared c) !! k); done.
  - by apply (aimed_run c vm); [apply Hs..|].
Qed.

(** Reserving a slot of another buffer. *)
Lemma slots_reserve_other n' b' m' vmn :
  n' ≠ n → m' ≠ m → vms (shared c) !! n' = Some vmn →
  vms st' = <[n' := set_buff_index b' (u32 (buff_index b' vmn + 1)) vmn]> (vms (shared c)) →
  inner_maps st' = inner_maps (shared c) → slot_of p = None → slot_of p' = Some (m', buff_index b' vmn) →
  slots (Datatypes.S N) W c' vm a.
Proof using Hs Hi.
  intros Hne Hnm Hvn Hv Hm Hsl Hsl'.
  assert (Hsame : ∀ j q idx, <[i := p']> (pcs c) !! j = Some q → slot_of q = Some (m, idx) →
            pcs c !! j = Some q ∧ j ≠ i).
  { intros j q idx. rewrite lookup_insert. case_decide as Hd; [|auto].
    intros [= <-] Hq. congruence. }
  split; simpl; try apply Hs.
  - rewrite Hv, lookup_insert_ne by done. apply Hs.
  - rewrite Hm. apply Hs.
  - pose proof (sl_index _ _ _ _ _ Hs). lia.
  - intros idx Hx. destruct (sl_full _ _ _ _ _ Hs idx Hx) as [|(j & q & Hj & Hq)]; [by left|].
    right. exists j, q. rewrite lookup_insert_ne; [done|]. congruence.
  - intros j q idx Hj Hq. destruct (Hsame j q idx Hj Hq). by apply (sl_held _ _ _ _ _ Hs j q).
  - intros j1 j2 q1 q2 idx H1 H2 Hq1 Hq2. destruct (Hsame j1 q1 idx H1 Hq1), (Hsame j2 q2 idx H2 Hq2).
    by apply (sl_once _ _ _ _ _ Hs j1 j2 q1 q2 idx).
  - apply (owned_map_keep (shared c)); [apply Hs|apply step_registry|].
    intros k. rewrite Hv, lookup_insert. case_decide; subst; [by eexists|done].
  - by apply (aimed_run c vm); [apply Hs..|].
Qed.

Lemma set_buff_index_eq first k vm0 : buff_index first (set_buff_index first k vm0) = k.
Proof. by destruct first. Qed.

Lemma set_buff_index_flag first k vm0 :
  is_collectx_in_buff_1 (set_buff_index first k vm0) = is_collectx_in_buff_1 vm0.
Proof. by destruct first. Qed.

(** Reserving a slot of this buffer: the next one, held by this CPU alone. *)
Lemma slots_reserve_own :
  vms st' = <[n := set_buff_index b (u32 (buff_index b vm + 1)) vm]> (vms (shared c)) →
  inner_maps st' = inner_maps (shared c) → slot_of p = None → slot_of p' = Some (m, buff_index b vm) →
  slots (Datatypes.S N) W c' (set_buff_index b (u32 (buff_index b vm + 1)) vm) a.
Proof using Hs Hi Hwrap.
  intros Hv Hm Hsl Hsl'. pose proof (sl_index _ _ _ _ _ Hs) as Hx. rewrite u32_id in * by lia.
  assert (Hnew : buff_index b vm ∉ W.*1).
  { intros Hin. apply (proj2 (sl_log _ _ _ _ _ Hs)) in Hin. lia. }
  assert (Hcase : ∀ j q idx, <[i := p']> (pcs c) !! j = Some q → slot_of q = Some (m, idx) →
            (j = i ∧ idx = buff_index b vm) ∨ (j ≠ i ∧ pcs c !! j = Some q ∧ idx < buff_index b vm)).
  { intros j q idx. rewrite lookup_insert. case_decide as Hd.
    - intros [= <-] Hq. left. split; [done|congruence].
    - intros Hj Hq. right. pose proof (sl_held _ _ _ _ _ Hs j q idx Hj Hq). split_and!; [congruence|done|lia]. }
  split; simpl; rewrite ?set_buff_index_eq.
  - rewrite Hv. apply lookup_insert_eq.
  - rewrite set_buff_index_flag. apply Hs.
  - rewrite Hm. apply Hs.
  - lia.
  - intros idx Hidx. destruct (decide (idx = buff_index b vm)) as [->|Hne].
    + right. exists i, p'. by rewrite lookup_insert_eq.
    + destruct (sl_full _ _ _ _ _ Hs idx ltac:(lia)) as [|(j & q & Hj & Hq)]; [by left|].
      right. exists j, q. rewrite lookup_insert_ne; [done|]. congruence.
  - intros j q idx Hj Hq. destruct (Hcase j q idx Hj Hq) as [[_ ->]|(_ & Hj' & _)]; [split; [lia|done]|].
    destruct (sl_held _ _ _ _ _ Hs j q idx Hj' Hq). split; [lia|done].
  - intros j1 j2 q1 q2 idx H1 H2 Hq1 Hq2.
    destruct (Hcase j1 q1 idx H1 Hq1) as [[-> E1]|(N1 & J1 & L1)],
      (Hcase j2 q2 idx H2 Hq2) as [[-> E2]|(N2 & J2 & L2)]; try lia.
    by apply (sl_once _ _ _ _ _ Hs j1 j2 q1 q2 idx).
  - split; [apply Hs|]. intros k Hk. apply (proj2 (sl_log _ _ _ _ _ Hs)) in Hk. lia.
  - apply Hs.
  - apply Hs.
  - apply Hs.
  - apply (owned_map_keep (shared c)); [apply Hs|apply step_registry|].
    intros k. rewrite Hv, lookup_insert. case_decide; subst; [|done]. intros _. eexists. apply Hs.
  - by apply (aimed_run c vm); [apply Hs..|].
Qed.

(** Filling a slot: of another buffer, or of this one. *)
Lemma slots_store m' idx x :
  slot_of p = Some (m', idx) → slot_of p' = None → vms st' = vms (shared c) →
  inner_maps st' = inner_maps (put_sample m' idx x (shared c)) →
  ∃ a', slots (Datatypes.S N) (W ++ to_buffer m [(m', idx, x)]) c' vm a'.
Proof using Hs Hi.
  clear Hwrap. intros Hsl Hsl' Hv Hm.
  assert (Hsame : ∀ j q k, <[i := p']> (pcs c) !! j = Some q → slot_of q = Some (m, k) →
            pcs c !! j = Some q ∧ j ≠ i).
  { intros j q k. rewrite lookup_insert. case_decide as Hd; [|auto]. intros [= <-] Hq. congruence. }
  assert (Hown : owned_map st').
  { apply (owned_map_keep (shared c)); [apply Hs|apply step_registry|]. by rewrite Hv. }
  assert (Haim : aimed c') by by apply (aimed_run c vm); [apply Hs..|].
  pose proof (sl_index _ _ _ _ _ Hs) as Hx. unfold to_buffer. simpl. case_decide as Hd; [subst m'|].
  - destruct (sl_held _ _ _ _ _ Hs i p idx Hi Hsl) as [Hr Hnew]. destruct (sl_log _ _ _ _ _ Hs) as [Hnd Hlog].
    exists (array_update a idx x).
    assert (Hother : ∀ k, k ≠ idx → am_vals (array_update a idx x) !! k = am_vals a !! k).
    { intros k Hk. unfold array_update. case_bool; [|done]. simpl. by rewrite lookup_insert_ne. }
    split; simpl; rewrite ?Hv, ?fmap_app; simpl; try apply Hs; try done; try lia.
    + rewrite Hm. unfold put_sample. rewrite (sl_map _ _ _ _ _ Hs). simpl. by rewrite lookup_insert_eq.
    + intros k Hk. destruct (decide (k = idx)) as [->|Hne]; [left; set_solver|].
      destruct (sl_full _ _ _ _ _ Hs k Hk) as [|(j & q & Hj & Hq)]; [left; set_solver|right].
      exists j, q. rewrite lookup_insert_ne; [done|]. congruence.
    + intros j q k Hj Hq. destruct (Hsame j q k Hj Hq) as [Hj' Hne].
      destruct (sl_held _ _ _ _ _ Hs j q k Hj' Hq) as [Hrk Hnk]. split; [done|].
      assert (k ≠ idx) by (intros ->; by apply Hne, (sl_once _ _ _ _ _ Hs j i q p idx)). set_solver.
    + intros j1 j2 q1 q2 k H1 H2 Hq1 Hq2. destruct (Hsame j1 q1 k H1 Hq1), (Hsame j2 q2 k H2 Hq2).
      by apply (sl_once _ _ _ _ _ Hs j1 j2 q1 q2 k).
    + split; [|intros k Hk; set_solver]. apply NoDup_app. split; [done|].
      split; [set_solver|apply NoDup_singleton].
    + intros k y [Hy|Hy]%elem_of_app Hmax.
      * rewrite Hother; [by apply Hs|]. intros ->. apply Hnew, list_elem_of_fmap. by exists (idx, y).
      * apply list_elem_of_singleton in Hy as [= -> ->]. unfold array_update.
        rewrite (sl_max _ _ _ _ _ Hs).
        destruct (Z.leb_spec 0 idx), (Z.ltb_spec idx (am_max a0)); try lia. simpl. apply lookup_insert_eq.
    + intros k Hk. rewrite Hother by set_solver. apply Hs. set_solver.
    + rewrite am_max_update. apply Hs.
  - exists a. rewrite app_nil_r. split; simpl; rewrite ?Hv; try apply Hs; try done; try lia.
    + rewrite Hm. unfold put_sample.
      destruct (inner_maps (shared c) !! m'); [simpl; rewrite lookup_insert_ne by done|]; apply Hs.
    + intros k Hk. destruct (sl_full _ _ _ _ _ Hs k Hk) as [|(j & q & Hj & Hq)]; [by left|right].
      exists j, q. rewrite lookup_insert_ne; [done|]. congruence.
    + intros j q k Hj Hq. destruct (Hsame j q k Hj Hq) as [Hj' _]. by apply (sl_held _ _ _ _ _ Hs j q).
    + intros j1 j2 q1 q2 k H1 H2 Hq1 Hq2. destruct (Hsame j1 q1 k H1 Hq1), (Hsame j2 q2 k H2 Hq2).
      by apply (sl_once _ _ _ _ _ Hs j1 j2 q1 q2 k).
Qed.

Lemma slots_run :
  ∃ vm' a', slots (Datatypes.S N) (W ++ to_buffer m (store_of p)) c' vm' a'.
Proof using Hs Hi Hwrap.
  destruct (step_mark p (shared c))
    as [Hb Hm Hsl Hst|fr n' q b' m' vmn Hp Hn Hv Hm Hsl|m' idx x H1 Hst H2 Hv Hm].
  - rewrite Hst. simpl. rewrite app_nil_r. destruct slots_none as (vm' & Hs'); [done..|]. by exists vm', a.
  - destruct (sl_aimed _ _ _ _ _ Hs) as [_ A2].
    destruct (A2 i fr n' q b' m' ltac:(congruence)) as [Hr Hb].
    assert (Hnone : slot_of p = None) by by rewrite Hp.
    assert (store_of p = []) as -> by by rewrite Hp. simpl. rewrite app_nil_r.
    destruct (decide (n' = n)) as [->|Hne].
    + rewrite (Hb eq_refl) in *. destruct (sl_owned _ _ _ _ _ Hs) as [O1 _].
      assert (m' = m) as -> by congruence.
      rewrite (sl_vm _ _ _ _ _ Hs) in Hn. injection Hn as <-.
      eexists _, a. by apply slots_reserve_own.
    + exists vm, a.
      apply (slots_reserve_other n' b' m' vmn); try done. intros ->. apply Hne.
      destruct (sl_owned _ _ _ _ _ Hs) as [_ O2]. apply (O2 n' b'); [done|by eexists].
  - rewrite Hst. destruct (slots_store m' idx x) as (a' & Hs'); [done..|]. by exists vm, a'.
Qed.
End one_step.

Lemma slots_event N W c vm a i ctx :
  slots N W c vm a → default Idle (pcs c !! i) = Idle →
  slots (Datatypes.S N) W (Conf (<[i := LookIn ctx]> (pcs c)) (shared c) (lost c)) vm a.
Proof.
  intros Hs Hi.
  assert (Hnot : ∀ q idx, pcs c !! i = Some q → slot_of q = Some (m, idx) → False).
  { intros q idx Hq Hsl. rewrite Hq in Hi. simpl in Hi. by subst q. }
  assert (Hsame : ∀ j q idx, <[i := LookIn ctx]> (pcs c) !! j = Some q → slot_of q = Some (m, idx) →
            pcs c !! j = Some q).
  { intros j q idx. rewrite lookup_insert. case_decide as Hd; [|done]. by intros [= <-]. }
  split; simpl; try apply Hs.
  - pose proof (sl_index _ _ _ _ _ Hs). lia.
  - intros idx Hx. destruct (sl_full _ _ _ _ _ Hs idx Hx) as [|(j & q & Hj & Hq)]; [by left|].
    right. exists j, q. rewrite lookup_insert_ne; [done|]. intros <-. by eapply Hnot.
  - intros j q idx Hj Hq. apply (sl_held _ _ _ _ _ Hs j q); [by eapply Hsame|done].
  - intros j1 j2 q1 q2 idx H1 H2 Hq1 Hq2.
    apply (sl_once _ _ _ _ _ Hs j1 j2 q1 q2 idx); try done; by eapply Hsame.
  - destruct (sl_aimed _ _ _ _ _ Hs) as [A1 A2]. split; simpl.
    + intros j fr x b'. rewrite lookup_insert. case_decide; [done|apply A1].
    + intros j fr n' x b' m'. rewrite lookup_insert. case_decide; [done|apply A2].
Qed.

Lemma slots_lrun N W c c' vm a ls log :
  slots N W c vm a → lrun ls log c c' → LEnv ∉ ls → k0 + Z.of_nat (N + length ls) < 2 ^ 32 →
  ∃ vm' a', slots (N + length ls) (W ++ to_buffer m log) c' vm' a'.
Proof.
  intros Hs Hr. revert N W vm a Hs. induction Hr as [c|l ls log c c1 c' Hl _ IH]; intros N W vm a Hs Hne Hw.
  { exists vm, a. simpl. by rewrite Nat.add_0_r, app_nil_r. }
  simpl in Hw.
  assert (∃ vm1 a1, slots (Datatypes.S N) (W ++ to_buffer m (written l c)) c1 vm1 a1) as (vm1 & a1 & Hs1).
  { destruct Hl as [i ctx ps st k Hi Hg|i p p' ps st st' k Hi Hp Hst|ps st st' k Hst]; [| |set_solver].
    - exists vm, a. simpl. rewrite app_nil_r. by apply (slots_event N W (Conf ps st k)).
    - destruct (slots_run N W (Conf ps st k) vm a i p Hs Hi ltac:(lia)) as (vm1 & a1 & H1).
      simpl in H1. rewrite Hst in H1. exists vm1, a1. unfold written, pc_at. simpl. by rewrite Hi. }
  destruct (IH (Datatypes.S N) _ vm1 a1 Hs1) as (vm' & a' & Hs'); [set_solver|lia|].
  exists vm', a'. unfold to_buffer in *. rewrite omap_app, app_assoc.
  by replace (N + length (l :: ls))%nat with (Datatypes.S N + length ls)%nat by (simpl; lia).
Qed.
End samples.

(** ** A loop that gives up *)

Section giving_up.
Context {S : Type} `{HostKfuncs S}.
Implicit Types c : conf (S := S).


End giving_up.

(** ** Properties *)

Module ConcurrentProps.
Section props.
Context {S : Type} `{HostKfuncs S}.
Implicit Types (st : host S) (c : conf (S := S)).

(** The accesses, performed one after the other with no other CPU in
    between, are the handler: they end in the state the sequential definition
    gives. *)
Theorem handler_alone_is_sequential ctx st :
  run_alone 116 (LookIn ctx) st = (phantom_switch_handler ctx st, Idle).
Proof. apply finishes_run; [apply handler_finishes|]. vm_compute. lia. Qed.


(** Counting is right under every interleaving.  Whatever the CPUs and
    the timer do in between, as long as no loop has used up its attempts every
    counter stays between 0 and the VM's size, and whenever all handlers have
    ended it is the number of the VM's vCPUs flagged phantom. *)
Theorem concurrent_counters_exact st c :
  phantom_inv st → rtc cstep (start st) c → lost c = 0%nat →
  (∀ n a nb, counts (shared c) !! n = Some (a, nb) → 0 <= a <= nb) ∧
  (all_idle c → phantom_inv (shared c)).
Proof.
  intros Hi Hr Hl. pose proof (rtc_counted _ _ Hr (start_counted st Hi)) as Hc. split.
  - intros n a nb Hn. by apply (counted_bounds c n a nb).
  - by apply idle_inv.
Qed.

(** C17: handlers end.  In every infinite run in which a CPU is scheduled again
    and again while its handler is not done, the handler ends, whatever the
    other CPUs do to the counters it competes for. *)
Theorem fair_handlers_finish i σ ls :
  run (S := S) σ ls → fair_to i σ ls → ∀ m, ∃ m', (m <= m')%nat ∧ pc_at i (σ m') = Idle.
Proof. apply fair_finishes. Qed.

(** C18: no sample is lost or overwritten by another CPU.  Between two visits of
    the timer, in every run short enough for the 32-bit index not to wrap: when
    all handlers have ended, each slot of the VM's active buffer that was
    reserved in between has been filled by exactly one handler and (as far as the
    buffer reaches) holds the sample that handler stored; every other slot has
    kept its content. *)
Theorem concurrent_samples_kept st c n vm m a ls log :
  let b := is_collectx_in_buff_1 vm =? 1 in
  vms st !! n = Some vm → inner_maps st !! m = Some a → owned_map n b m st →
  0 <= buff_index b vm → buff_index b vm + Z.of_nat (length ls) < 2 ^ 32 →
  lrun ls log (start st) c → LEnv ∉ ls → all_idle c →
  let W := to_buffer m log in
  ∃ vm' a', vms (shared c) !! n = Some vm' ∧ inner_maps (shared c) !! m = Some a' ∧
    NoDup W.*1 ∧ (∀ k, k ∈ W.*1 ↔ buff_index b vm <= k < buff_index b vm') ∧
    (∀ k x, (k, x) ∈ W → k < am_max a → am_vals a' !! k = Some x) ∧
    (∀ k, k ∉ W.*1 → am_vals a' !! k = am_vals a !! k).
Proof.
  intros b Hn Hm Ho Hk Hw Hrun Hne Hidle W.
  assert (Hs : slots n b m (buff_index b vm) a 0 [] (start st) vm a).
  { split; simpl; try done; try lia; [split; [apply NoDup_nil_2|]|]; set_solver. }
  destruct (slots_lrun n b m (buff_index b vm) a 0 [] _ _ vm a ls log Hs Hrun Hne Hw)
    as (vm' & a' & Hs'). simpl in Hs'. fold W in Hs'. destruct (sl_log _ _ _ _ _ _ _ _ _ _ Hs') as [Hnd Hlog].
  exists vm', a'. split; [apply Hs'|]. split; [apply Hs'|]. split; [done|]. split_and!; [|apply Hs'..].
  intros k. split; [apply Hlog|]. intros Hr.
  destruct (sl_full _ _ _ _ _ _ _ _ _ _ Hs' k Hr) as [|(i & p & Hp & Hsl)]; [done|].
  by rewrite (Hidle i p Hp) in Hsl.
Qed.

End props.

(** *** Runs of two CPUs: CPU 0 preempts thread 100, CPU 1 switches 101 in and
    out. *)

Import BuffersProps.

Definition w_out : sched_switch := SchedSwitch 100 0 0.
Definition w_toggle (k : nat) : sched_switch :=
  if Nat.even k then SchedSwitch 0 0 101 else SchedSwitch 101 0 0.

(** Both handlers at once, one access each in turn. *)
Definition w_lockstep : list label :=
  LEvent 0 w_out :: LEvent 1 (w_toggle 0) :: concat (replicate 20 [LRun 0; LRun 1]).

Definition w_end : conf := foldl exec (start b_host) w_lockstep.

Lemma w_end_run : rtc cstep (start b_host) w_end.
Proof. apply exec_all_sound. Qed.

Definition w_all_idle (c : conf (S := hostmod)) : bool := bool_decide (map_Forall (λ _ p, is_idle p = true) (pcs c)).

Lemma w_all_idle_sound c : w_all_idle c = true → all_idle c.
Proof.
  intros Hb. apply bool_decide_eq_true in Hb. intros i p Hp. specialize (Hb i p Hp). by destruct p.
Qed.

Lemma concurrent_counters_exact_witness : phantom_inv (shared w_end).
Proof.
  refine (proj2 (concurrent_counters_exact b_host w_end _ w_end_run _) _).
  - decide_now.
  - vm_compute. reflexivity.
  - apply w_all_idle_sound. vm_compute. reflexivity.
Defined.

Lemma fair_handlers_finish_witness :
  ∃ m', (1 <= m')%nat ∧ pc_at 0 (solo w_out b_host m') = Idle.
Proof.
  apply (fair_handlers_finish 0 (solo w_out b_host) (λ m, solo_label w_out m (solo w_out b_host m))).
  - apply solo_run.
  - apply solo_fair.
Defined.

Lemma w_owned : owned_map PhantomSwitchProps.w_name false 2 b_host.
Proof.
  split; [vm_compute; reflexivity|]. intros n' b' Hm [vm Hn].
  apply b_only in Hn as [-> _]. split; [done|]. destruct b'; [|done].
  exfalso. revert Hm. vm_compute. discriminate.
Qed.

(** The same two handlers, every step of the schedule enabled. *)
Definition w_turns : list label :=
  LEvent 0 w_out :: LEvent 1 (w_toggle 0) :: concat (replicate 12 [LRun 0; LRun 1]) ++ [LRun 0; LRun 0].

Local Ltac not_in_schedule :=
  unfold w_turns; simpl; rewrite !not_elem_of_cons; repeat (split; [discriminate|]);
  apply not_elem_of_nil.

Lemma w_turns_run : lrun w_turns (stored w_turns (start b_host)) (start b_host)
  (foldl exec (start b_host) w_turns).
Proof. apply enabled_lrun. vm_compute. reflexivity. Qed.

(** CPU 1 gets slot 2 and CPU 0 slot 3. *)
Lemma concurrent_samples_kept_witness :
  ∃ a', inner_maps (shared (foldl exec (start b_host) w_turns)) !! 2 = Some a' ∧
    am_vals a' !! 2 = Some (Sample 1 3000) ∧ am_vals a' !! 3 = Some (Sample 2 4000) ∧
    am_vals a' !! 1 = am_vals b_map !! 1.
Proof.
  destruct (concurrent_samples_kept b_host (foldl exec (start b_host) w_turns)
    PhantomSwitchProps.w_name b_vm 2 b_map w_turns (stored w_turns (start b_host)))
    as (vm' & a' & _ & Ha & _ & _ & Hnew & Hold).
  - vm_compute. reflexivity.
  - reflexivity.
  - apply w_owned.
  - simpl. lia.
  - change (buff_index (is_collectx_in_buff_1 b_vm =? 1) b_vm) with 2.
    change (length w_turns) with 28%nat. lia.
  - exact w_turns_run.
  - not_in_schedule.
  - apply w_all_idle_sound. vm_compute. reflexivity.
  - assert (to_buffer 2 (stored w_turns (start b_host)) = [(2, Sample 1 3000); (3, Sample 2 4000)]) as HW
      by (vm_compute; reflexivity).
    rewrite HW in *. exists a'. split; [exact Ha|]. split_and!.
    + apply Hnew; [by left|]. by vm_compute.
    + apply Hnew; [by right; left|]. by vm_compute.
    + apply Hold. decide_now.
Defined.





End ConcurrentProps.
