(* ===== verification/Libbpf.v ===== *)
(** The libbpf calls of the loaders, as an interface.

    libbpf, the generated skeletons and the kernel's bpf file system are not
    part of the repository.  The class [Libbpf] lists the calls the loaders
    make, on an unknown state [K]; the class [LibbpfLaws] states what the
    loaders rely on, through an observation [view] of the state: the pinned
    objects, the object behind each map of an opened object file, the
    programs attached so far and the values user space wrote.  Every call may
    fail at any time; the laws say what a call that succeeded did, and that a
    call that failed did nothing that can be observed.  No other process
    changes the pins while a loader runs.

    Calls that return a pointer follow libbpf 1.x: NULL with [errno] set on
    failure.  The module [Bpffs] is a small kernel with an injected sequence of
    failures; it satisfies the laws and runs the loaders in the witnesses. *)

From stdpp Require Import strings.
From S2P Require Import Prelude CString BpfMap.

Local Open Scope pv_scope.
Local Open Scope Z_scope.

(** ** Effects: a state and a result *)

Definition io (K A : Type) : Type := K → A * K.

#[global] Instance io_ret {K} : MRet (io K) := λ A a k, (a, k).
#[global] Instance io_fmap {K} : FMap (io K) := λ A B f m k, let '(a, k) := m k in (f a, k).
#[global] Instance io_bind {K} : MBind (io K) := λ A B f m k, let '(a, k) := m k in f a k.

(** Observing the state inside a program. *)
Definition asks {K A} (f : K → A) : io K A := λ k, (f k, k).

(** The weakest precondition of a program. *)
Definition wp {K A} (m : io K A) (Q : A → K → Prop) (k : K) : Prop := Q (m k).1 (m k).2.

Section wp.
Context {K A B : Type}.
Implicit Types (Q : B → K → Prop) (k : K).

Lemma wp_bind (m : io K A) (f : A → io K B) Q k :
  wp m (λ a, wp (f a) Q) k → wp (m ≫= f) Q k.
Proof. unfold wp, mbind, io_bind. by destruct (m k). Qed.

Lemma wp_ret (b : B) Q k : Q b k → wp (mret b) Q k.
Proof. done. Qed.

Lemma wp_asks (f : K → B) Q k : Q (f k) k → wp (asks f) Q k.
Proof. done. Qed.

Lemma wp_fmap (f : A → B) (m : io K A) Q k : wp m (λ a, Q (f a)) k → wp (f <$> m) Q k.
Proof. unfold wp, fmap, io_fmap. by destruct (m k). Qed.

Lemma wp_mono (m : io K B) (P Q : B → K → Prop) k :
  wp m P k → (∀ b k', P b k' → Q b k') → wp m Q k.
Proof. unfold wp. auto. Qed.

Lemma wp_run (m : io K B) Q k b k' : wp m Q k → m k = (b, k') → Q b k'.
Proof. unfold wp. intros H E. by rewrite E in H. Qed.
End wp.

(** ** The calls *)

(** A pointer, or NULL with the value of [errno]. *)
Definition ptr : Type := nat + Z.

Definition libbpf_get_error (p : ptr) : Z := match p with inl _ => 0 | inr e => - e end.

(** Where a program is attached. *)
Inductive hook :=
  | HAuto                                  (* the SEC() of the program *)
  | HTracepoint (category name : string)
  | HUprobe (path func : string)
  | HUsdt (path provider name : string).

(** An object file: its name and its maps. *)
Record object_file := ObjectFile { of_name : string; of_maps : list string }.

Abbreviation obj := nat (only parsing).

Class Libbpf (K : Type) := {
  bpf_object__open : object_file → io K ptr;
  bpf_object__load : nat → io K Z;
  open_and_load : object_file → io K ptr;
  bpf_object__close : nat → io K unit;
  bpf_object__find_map_fd_by_name : nat → string → K → Z;
  bpf_object__find_program_by_name : nat → string → K → bool;
  bpf_map_create : Z → io K Z;
  bpf_map__set_inner_map_fd : nat → string → Z → io K Z;
  bpf_map__reuse_fd : nat → string → Z → io K Z;
  bpf_map__fd : nat → string → K → Z;
  bpf_map__pin : nat → string → string → io K Z;
  bpf_obj_get : string → io K Z;
  bpf_obj_pin : Z → string → io K Z;
  bpf_map_update_elem : Z → global_runnx_tracker_state → io K Z;
  bpf_map_lookup_elem : Z → K → option global_runnx_tracker_state;
  bpf_program__attach : nat → string → hook → io K ptr;
  skeleton__attach : nat → list string → io K Z;
  bpf_link__pin : nat → string → io K Z;
  bpf_link__destroy : option nat → io K unit;
  close : Z → io K unit;
  libbpf_num_possible_cpus : io K Z
}.

(** ** What can be observed *)

Record view := View {
  pins : gmap string obj;               (* the bpf file system *)
  objs : gmap (nat * string) obj;       (* the map behind a name of a handle *)
  attached : list (string * nat);       (* program and handle, latest first *)
  writes : list (obj * global_runnx_tracker_state) (* user-space updates *)
}.

Definition pin (p : string) (o : obj) (v : view) : view :=
  View (<[p := o]> (pins v)) (objs v) (attached v) (writes v).

Definition bind_map (h : nat) (m : string) (o : obj) (v : view) : view :=
  View (pins v) (<[(h, m) := o]> (objs v)) (attached v) (writes v).

Definition bind_new (new : gmap (nat * string) obj) (v : view) : view :=
  View (pins v) (objs v ∪ new) (attached v) (writes v).

Definition log_attach (ps : list string) (h : nat) (v : view) : view :=
  View (pins v) (objs v) (map (λ p, (p, h)) ps ++ attached v) (writes v).

Definition log_write (o : obj) (s : global_runnx_tracker_state) (v : view) : view :=
  View (pins v) (objs v) (attached v) ((o, s) :: writes v).

(** What a successful load creates: the maps of the handle that were not bound
    to an existing object, as objects that are not pinned. *)
Record created (h : nat) (ms : list string) (v : view) (new : gmap (nat * string) obj) : Prop := {
  new_maps : ∀ m, m ∈ ms → objs v !! (h, m) = None → is_Some (new !! (h, m));
  new_handle : ∀ h' m o, new !! (h', m) = Some o → h' = h;
  new_unpinned : ∀ x o p, new !! x = Some o → pins v !! p ≠ Some o
}.

Class LibbpfLaws (K : Type) `{Libbpf K} := {
  view_of : K → view;
  fd_obj : K → Z → option obj;
  maps_of : K → nat → list string;

  (* a fresh handle, none of whose maps exists *)
  open_law f k :
    wp (bpf_object__open f) (λ r k', view_of k' = view_of k ∧
      match r with
      | inl h => maps_of k' h = of_maps f ∧ ∀ m, objs (view_of k) !! (h, m) = None
      | inr e => 0 < e
      end) k;
  load_law h k :
    wp (bpf_object__load h) (λ r k', r <= 0 ∧
      if decide (r = 0) then ∃ new, created h (maps_of k h) (view_of k) new ∧
        view_of k' = bind_new new (view_of k)
      else view_of k' = view_of k) k;
  open_and_load_law f k :
    wp (open_and_load f) (λ r k',
      match r with
      | inl h => (∀ m, objs (view_of k) !! (h, m) = None) ∧
          ∃ new, created h (of_maps f) (view_of k) new ∧ view_of k' = bind_new new (view_of k)
      | inr e => 0 < e ∧ view_of k' = view_of k
      end) k;
  close_object_law h k : wp (bpf_object__close h) (λ _ k', view_of k' = view_of k) k;

  create_law n k : wp (bpf_map_create n) (λ _ k', view_of k' = view_of k ∧
    ∀ h, maps_of k' h = maps_of k h) k;
  inner_law h m fd k : wp (bpf_map__set_inner_map_fd h m fd) (λ _ k', view_of k' = view_of k ∧
    ∀ h, maps_of k' h = maps_of k h) k;
  (* the map of the handle becomes the object of the descriptor *)
  reuse_law h m fd k :
    wp (bpf_map__reuse_fd h m fd) (λ r k', (∀ h, maps_of k' h = maps_of k h) ∧
      if r <? 0 then view_of k' = view_of k
      else ∃ o, fd_obj k fd = Some o ∧ view_of k' = bind_map h m o (view_of k)) k;
  map_fd_law h m k : fd_obj k (bpf_map__fd h m k) = objs (view_of k) !! (h, m);
  (* a map may be pinned again where it is *)
  map_pin_law h m p k :
    wp (bpf_map__pin h m p) (λ r k',
      if r <? 0 then view_of k' = view_of k
      else ∃ o, objs (view_of k) !! (h, m) = Some o ∧ view_of k' = pin p o (view_of k) ∧
        (pins (view_of k) !! p = None ∨ pins (view_of k) !! p = Some o)) k;

  (* a path that is not pinned cannot be opened *)
  obj_get_law p k :
    wp (bpf_obj_get p) (λ r k', view_of k' = view_of k ∧ (∀ h, maps_of k' h = maps_of k h) ∧
      (0 <= r → is_Some (pins (view_of k) !! p) ∧ fd_obj k' r = pins (view_of k) !! p)) k;
  (* a path that is pinned cannot be pinned again *)
  obj_pin_law fd p k :
    wp (bpf_obj_pin fd p) (λ r k',
      if r <? 0 then view_of k' = view_of k
      else pins (view_of k) !! p = None ∧
        ∃ o, fd_obj k fd = Some o ∧ view_of k' = pin p o (view_of k)) k;
  link_pin_law l p k :
    wp (bpf_link__pin l p) (λ r k',
      if r <? 0 then view_of k' = view_of k
      else pins (view_of k) !! p = None ∧ ∃ o, view_of k' = pin p o (view_of k)) k;
  update_law fd s k :
    wp (bpf_map_update_elem fd s) (λ r k',
      (∀ f o, fd_obj k f = Some o → fd_obj k' f = Some o) ∧
      if r <? 0 then view_of k' = view_of k
      else ∃ o, fd_obj k fd = Some o ∧ view_of k' = log_write o s (view_of k)) k;

  attach_law h p w k :
    wp (bpf_program__attach h p w) (λ r k',
      match r with
      | inl _ => view_of k' = log_attach [p] h (view_of k)
      | inr e => 0 < e ∧ view_of k' = view_of k
      end) k;
  (* the descriptors stay open; programs are attached one after the other until one fails *)
  attach_all_law h ps k :
    wp (skeleton__attach h ps) (λ r k', r <= 0 ∧
      (∀ f o, fd_obj k f = Some o → fd_obj k' f = Some o) ∧
      ∃ n, (r = 0 → n = length ps) ∧ view_of k' = log_attach (take n ps) h (view_of k)) k;
  destroy_law l k : wp (bpf_link__destroy l) (λ _ k', view_of k' = view_of k) k;
  close_law fd k : wp (close fd) (λ _ k', view_of k' = view_of k) k;
  cpus_law k : wp libbpf_num_possible_cpus (λ _ k', view_of k' = view_of k) k
}.

(** A condition on the kernel, not a law of libbpf (the call may fail for lack of
    permission or descriptors): a pinned object can be opened. *)
Class PinsOpen (K : Type) `{LibbpfLaws K} :=
  pins_open p k : is_Some (pins (view_of k) !! p) → 0 <= (bpf_obj_get p k).1.

(** ** A small kernel

    A descriptor is the number of its object.  Calls consume a sequence of
    answers, [true] making the call fail; after its end every call succeeds. *)

Module Bpffs.

Record kern := Kern {
  k_view : view;
  k_maps : gmap nat (list string);
  k_faults : list bool
}.

Definition boot (faults : list bool) : kern := Kern (View ∅ ∅ [] []) ∅ faults.

(** A number above all the pinned objects, and one above all handles. *)
Definition new_obj (v : view) : obj := S (map_fold (λ _ o n, Nat.max o n) 0%nat (pins v)).
Definition new_handle (v : view) : nat := S (map_fold (λ x _ n, Nat.max x.1 n) 0%nat (objs v)).

(** Run [good] unless the next answer is a failure. *)
Definition may_fail {A} (bad : A) (good : io kern A) : io kern A := λ k,
  match k_faults k with
  | true :: l => (bad, Kern (k_view k) (k_maps k) l)
  | _ :: l => good (Kern (k_view k) (k_maps k) l)
  | [] => good k
  end.

Definition set_view {A} (a : A) (f : view → view) : io kern A := λ k,
  (a, Kern (f (k_view k)) (k_maps k) (k_faults k)).

Definition fresh_maps (h : nat) (ms : list string) (v : view) : gmap (nat * string) obj :=
  list_to_map (imap (λ i m, ((h, m), (new_obj v + i)%nat)) ms).

Definition load (h : nat) : io kern Z :=
  may_fail (-1) (λ k,
    set_view 0 (bind_new (fresh_maps h (default [] (k_maps k !! h)) (k_view k))) k).

Definition open (f : object_file) : io kern ptr :=
  may_fail (inr 1) (λ k,
    let h := new_handle (k_view k) in
    (inl h, Kern (k_view k) (<[h := of_maps f]> (k_maps k)) (k_faults k))).

Definition object_at (fd : Z) : option obj := if fd <? 0 then None else Some (Z.to_nat fd).
Definition fd_of (o : option obj) : Z := match o with Some n => Z.of_nat n | None => -1 end.

Fixpoint last_write (fd : Z) (l : list (obj * global_runnx_tracker_state)) :=
  match l with
  | [] => None
  | (o, s) :: l => if bool_decide (object_at fd = Some o) then Some s else last_write fd l
  end.

#[global] Instance bpffs : Libbpf kern := {
  bpf_object__open := open;
  bpf_object__load := load;
  open_and_load f := may_fail (inr 1) (λ k,
    let h := new_handle (k_view k) in
    set_view (inl h) (bind_new (fresh_maps h (of_maps f) (k_view k))) k);
  bpf_object__close h := mret tt;
  bpf_object__find_map_fd_by_name h m k := fd_of (objs (k_view k) !! (h, m));
  bpf_object__find_program_by_name h p k :=
    match k_faults k with true :: _ => false | _ => true end;
  bpf_map_create n := may_fail (-1) (mret 0);
  bpf_map__set_inner_map_fd h m fd := may_fail (-1) (mret 0);
  bpf_map__reuse_fd h m fd := may_fail (-1) (λ k,
    match object_at fd with
    | Some o => set_view 0 (bind_map h m o) k
    | None => (-1, k)
    end);
  bpf_map__fd h m k := fd_of (objs (k_view k) !! (h, m));
  bpf_map__pin h m p := may_fail (-1) (λ k,
    match objs (k_view k) !! (h, m), pins (k_view k) !! p with
    | Some o, None => set_view 0 (pin p o) k
    | _, _ => (-1, k)
    end);
  bpf_obj_get p := asks (λ k, fd_of (pins (k_view k) !! p));
  bpf_obj_pin fd p := may_fail (-1) (λ k,
    match object_at fd, pins (k_view k) !! p with
    | Some o, None => set_view 0 (pin p o) k
    | _, _ => (-1, k)
    end);
  bpf_map_update_elem fd s := may_fail (-1) (λ k,
    match object_at fd with
    | Some o => set_view 0 (log_write o s) k
    | None => (-1, k)
    end);
  bpf_map_lookup_elem fd k := last_write fd (writes (k_view k));
  bpf_program__attach h p w := may_fail (inr 1) (set_view (inl 0%nat) (log_attach [p] h));
  skeleton__attach h ps := may_fail (-1) (set_view 0 (log_attach ps h));
  bpf_link__pin l p := may_fail (-1) (λ k,
    match pins (k_view k) !! p with
    | None => set_view 0 (pin p (new_obj (k_view k))) k
    | Some _ => (-1, k)
    end);
  bpf_link__destroy l := mret tt;
  close fd := mret tt;
  libbpf_num_possible_cpus := may_fail (-1) (mret 4)
}.

Lemma wp_may_fail {A} (bad : A) good (Q : A → kern → Prop) k :
  (∀ k', k_view k' = k_view k → k_maps k' = k_maps k → Q bad k' ∧ wp good Q k') →
  wp (may_fail bad good) Q k.
Proof.
  intros HQ. destruct k as [v ms [|[] l]]; unfold wp, may_fail; simpl.
  - by apply HQ.
  - by apply (HQ (Kern v ms l)).
  - by apply (HQ (Kern v ms l)).
Qed.

Lemma fold_max `{Countable J} {A} (f : J → A → nat) (g : gmap J A) i x :
  g !! i = Some x → (f i x <= map_fold (λ i x n, Nat.max (f i x) n) 0%nat g)%nat.
Proof.
  revert i x. apply (map_fold_weak_ind (λ n g, ∀ i x, g !! i = Some x → (f i x <= n)%nat)).
  { intros i x Hi. by rewrite lookup_empty in Hi. }
  intros j y m n _ IH i x Hi. apply lookup_insert_Some in Hi as [[-> ->]|[_ Hi]]; [lia|].
  apply IH in Hi. lia.
Qed.

Lemma new_obj_fresh v p o : pins v !! p = Some o → (o < new_obj v)%nat.
Proof. intros Hp. apply (fold_max (λ _ o, o)) in Hp. cbv beta in Hp. unfold new_obj in *. lia. Qed.

Lemma new_handle_fresh v h m o : objs v !! (h, m) = Some o → (h < new_handle v)%nat.
Proof. intros Hp. apply (fold_max (λ x _, x.1)) in Hp. cbv beta in Hp. unfold new_handle in *. simpl in *. lia. Qed.

Lemma new_handle_unbound v m : objs v !! (new_handle v, m) = None.
Proof.
  destruct (objs v !! _) as [o|] eqn:E; [|done]. apply new_handle_fresh in E. lia.
Qed.

Lemma fresh_maps_created h ms v : created h ms v (fresh_maps h ms v).
Proof.
  unfold fresh_maps. split.
  - intros m Hm _. apply list_elem_of_lookup in Hm as [i Hi].
    destruct (list_to_map _ !! (h, m)) eqn:E; [done|]. apply not_elem_of_list_to_map in E.
    destruct E. apply list_elem_of_lookup. exists i. by rewrite list_lookup_fmap, list_lookup_imap, Hi.
  - intros h' m o Hm. apply elem_of_list_to_map_2, list_elem_of_lookup in Hm as [i Hi].
    rewrite list_lookup_imap in Hi. by destruct (ms !! i); simplify_eq/=.
  - intros x o p Hm Hp. apply elem_of_list_to_map_2, list_elem_of_lookup in Hm as [i Hi].
    rewrite list_lookup_imap in Hi. destruct (ms !! i); simplify_eq/=.
    apply new_obj_fresh in Hp. unfold new_obj in Hp. lia.
Qed.

Lemma object_at_fd_of o : object_at (fd_of o) = o.
Proof. destruct o as [n|]; [|done]. unfold object_at, fd_of. destruct (Z.ltb_spec (Z.of_nat n) 0); [lia|]. by rewrite Nat2Z.id. Qed.

Local Ltac run_may_fail :=
  apply wp_may_fail; intros k' Hv Hm; rewrite <-?Hv, <-?Hm; unfold wp; simpl; split; [done|].

#[global] Program Instance bpffs_laws : LibbpfLaws kern := {
  view_of := k_view;
  fd_obj _ := object_at;
  maps_of k h := default [] (k_maps k !! h)
}.
Next Obligation.
  intros f k. run_may_fail. split; [done|]. split; [by rewrite lookup_insert_eq|].
  intros m. apply new_handle_unbound.
Qed.
Next Obligation.
  intros h k. run_may_fail. split; [done|]. eexists. split; [|done].
  apply fresh_maps_created.
Qed.
Next Obligation.
  intros f k. run_may_fail. split; [intros m; apply new_handle_unbound|].
  eexists. split; [|done]. apply fresh_maps_created.
Qed.
Next Obligation. done. Qed.
Next Obligation. intros n k. run_may_fail. done. Qed.
Next Obligation. intros h m fd k. run_may_fail. done. Qed.
Next Obligation.
  intros h m fd k. run_may_fail. destruct (object_at fd) as [o|] eqn:E; simpl; [|done].
  split; [done|]. eauto.
Qed.
Next Obligation. intros h m k. apply object_at_fd_of. Qed.
Next Obligation.
  intros h m p k. run_may_fail.
  destruct (objs (k_view k') !! (h, m)) as [o|] eqn:E, (pins (k_view k') !! p) eqn:E'; simpl; eauto 6.
Qed.
Next Obligation.
  intros p k. unfold wp, asks. simpl. split; [done|]. split; [done|].
  destruct (pins (k_view k) !! p) as [o|]; simpl; [|lia].
  intros _. split; [done|]. apply (object_at_fd_of (Some o)).
Qed.
Next Obligation.
  intros fd p k. run_may_fail.
  destruct (object_at fd) as [o|] eqn:E, (pins (k_view k') !! p); simpl; eauto.
Qed.
Next Obligation.
  intros l p k. run_may_fail. destruct (pins (k_view k') !! p) eqn:E; simpl; eauto.
Qed.
Next Obligation.
  intros fd s k. run_may_fail. destruct (object_at fd) as [o|] eqn:E; simpl; eauto.
Qed.
Next Obligation. intros h p w k. run_may_fail. done. Qed.
Next Obligation.
  intros h ps k. apply wp_may_fail; intros k' Hv Hm; rewrite <-?Hv; unfold wp; simpl. split.
  - split; [lia|]. split; [done|]. exists 0%nat. split; [lia|]. by destruct (k_view k').
  - split; [lia|]. split; [done|]. exists (length ps). split; [done|]. by rewrite firstn_all.
Qed.
Next Obligation. done. Qed.
Next Obligation. done. Qed.
Next Obligation. intros k. by run_may_fail. Qed.

#[global] Instance bpffs_pins_open : PinsOpen kern.
Proof. intros p k [o Ho]. simpl in *. rewrite Ho. simpl. lia. Qed.

End Bpffs.
