(* ===== verification/Loaders.v ===== *)
(** The loaders: [create_maps.loader.c], [timer.loader.c],
    [global_running_tracker.loader.c], [h2g_msg_timer_loader.c] and
    [omp_thread_reg.loader.c], as programs over the calls of [Libbpf].

    A run ends with an exit code or reaches the point where it waits for a
    signal.  What is printed is left out.  The loops that wait are functions of
    the signals that arrive; the signal handlers of the timer and of the
    tracker never return, so they are programs of their own. *)

From stdpp Require Import strings.
From S2P Require Import Prelude CString BpfMap Sampling IdleAvg Libbpf.

Local Open Scope pv_scope.
Local Open Scope Z_scope.

Definition PIN_PATH_VMS : string := "/sys/fs/bpf/vms".
Definition PIN_PATH_VCPUS : string := "/sys/fs/bpf/vcpus".
Definition PIN_PATH_REGISTRY : string := "/sys/fs/bpf/map_registry".
Definition PIN_PATH_GLOBAL_TRACKER_STATE : string := "/sys/fs/bpf/global_tracker_state".
Definition PIN_PATH_LINK : string := "/sys/fs/bpf/links/sched_switch_link".
Definition LOADER_MAP_REGISTRY_MAX_ENTRIES : Z := 1000000.

Definition PIN_OMP_THREADS_MAP : string := "/sys/fs/bpf/omp_threads_map".
Definition PIN_MASTER_LINK : string := "/sys/fs/bpf/links/master".
Definition PIN_SWITCH_LINK : string := "/sys/fs/bpf/links/sched_switch".
Definition PIN_EXIT_LINK : string := "/sys/fs/bpf/links/sched_process_exit".
Definition PIN_EXEC_LINK : string := "/sys/fs/bpf/links/sched_process_exec".

(** The object files and the maps the loaders name in them. *)
Definition create_maps_bpf : object_file :=
  ObjectFile "create_maps.bpf.o" ["vms"; "vcpus"; "map_registry"].
Definition timer_bpf : object_file :=
  ObjectFile "timer.bpf.o"
    ["timer_map"; "vms"; "vcpus"; "map_registry"; "global_tracker_state"].
Definition global_running_tracker_bpf : object_file :=
  ObjectFile "global_running_tracker.bpf.o"
    ["collectx_buff_1"; "collectx_buff_2"; "global_tracker_state"; "timer_map"].
Definition h2g_msg_timer_bpf : object_file :=
  ObjectFile "h2g_msg_timer.bpf.o" ["h2g_msg_timer_map"].
Definition omp_thread_reg_bpf : object_file :=
  ObjectFile "omp_thread_reg.bpf.o" ["omp_threads_map"].

(** How a run ends: with an exit code, or waiting with its handle and link. *)
Inductive outcome := Exited (code : Z) | Waiting (skel : nat) (link : option nat).

(** [while (!exiting) pause();]: a signal may arrive before the test or during
    the call, which returns only then. *)
Definition pause_loop (before during : bool) : bool := before || during.

(** [while (!exiting) sleep(1);]: the call returns after a second at most;
    each entry says whether [exiting] is set by then. *)
Fixpoint sleep_loop (exiting : bool) (seconds : list bool) : bool :=
  exiting || match seconds with [] => false | s :: l => sleep_loop s l end.

(** The link pointers of the guest loader. *)
Record omp_links := OmpLinks {
  l_master : option nat; l_worker : option nat; l_switch : option nat;
  l_exit : option nat; l_exec : option nat
}.

(** Its run up to the loop: an exit code, or the links and the handle. *)
Abbreviation omp_ready := (Z + omp_links * nat)%type.

Section loaders.
Context {K : Type} `{Libbpf K}.

(** Reuse the map pinned at a path, when there is one: the descriptor, and
    whether the loader goes on. *)
Definition reuse_pinned (skel : nat) (m path : string) : io K (Z * bool) :=
  fd ← bpf_obj_get path;
  if 0 <=? fd then
    r ← bpf_map__reuse_fd skel m fd;
    mret (fd, 0 <=? r)
  else mret (fd, true).

(** Pin a map when its path was not pinned before. *)
Definition pin_new (skel : nat) (m path : string) (fd : Z) : io K bool :=
  if fd <? 0 then
    mfd ← asks (bpf_map__fd skel m);
    r ← bpf_obj_pin mfd path;
    mret (0 <=? r)
  else mret true.

(** ** [create_maps.loader.c] *)

Definition cleanup_skel (skel : nat) (ret : Z) : io K Z :=
  _ ← bpf_object__close skel; mret ret.
Definition cleanup_inner (inner_fd : Z) (skel : nat) (ret : Z) : io K Z :=
  _ ← close inner_fd; cleanup_skel skel ret.
Definition cleanup_link (link : nat) (inner_fd : Z) (skel : nat) (ret : Z) : io K Z :=
  _ ← bpf_link__destroy (Some link); cleanup_inner inner_fd skel ret.

(** The maps that were not pinned are pinned. *)
Definition create_maps_pin (link skel : nat) (inner_fd vms_fd vcpus_fd registry_fd : Z) : io K Z :=
  ok ← pin_new skel "vms" PIN_PATH_VMS vms_fd;
  if negb ok then cleanup_link link inner_fd skel 1 else
  ok ← pin_new skel "vcpus" PIN_PATH_VCPUS vcpus_fd;
  if negb ok then cleanup_link link inner_fd skel 1 else
  ok ← pin_new skel "map_registry" PIN_PATH_REGISTRY registry_fd;
  if negb ok then cleanup_link link inner_fd skel 1 else
  cleanup_link link inner_fd skel 0.

(** After the maps are bound: load, attach, pin. *)
Definition create_maps_start (skel : nat) (inner_fd vms_fd vcpus_fd registry_fd : Z) : io K Z :=
  r ← bpf_object__load skel;
  if r <? 0 then cleanup_inner inner_fd skel 1 else
  link ← bpf_program__attach skel "phantom_switch_handler" (HTracepoint "sched" "sched_switch");
  match link with
  | inr _ => cleanup_inner inner_fd skel 1
  | inl link =>
      r ← bpf_link__pin link PIN_PATH_LINK;
      if r <? 0 then cleanup_link link inner_fd skel 1 else
      create_maps_pin link skel inner_fd vms_fd vcpus_fd registry_fd
  end.

Definition create_maps_main : io K Z :=
  skel ← bpf_object__open create_maps_bpf;
  match skel with
  | inr _ => mret 1
  | inl skel =>
      inner_fd ← bpf_map_create LOADER_MAP_REGISTRY_MAX_ENTRIES;
      if inner_fd <? 0 then cleanup_skel skel 1 else
      r ← bpf_map__set_inner_map_fd skel "map_registry" inner_fd;
      if r <? 0 then cleanup_inner inner_fd skel 1 else
      x ← reuse_pinned skel "vms" PIN_PATH_VMS;
      if negb x.2 then cleanup_inner inner_fd skel 1 else
      y ← reuse_pinned skel "vcpus" PIN_PATH_VCPUS;
      if negb y.2 then cleanup_inner inner_fd skel 1 else
      z ← reuse_pinned skel "map_registry" PIN_PATH_REGISTRY;
      if negb z.2 then cleanup_inner inner_fd skel 1 else
      create_maps_start skel inner_fd x.1 y.1 z.1
  end.

(** ** [timer.loader.c] *)

Definition timer_fail (skel : nat) : io K outcome :=
  _ ← bpf_object__close skel; mret (Exited 1).

Definition timer_main : io K outcome :=
  skel ← bpf_object__open timer_bpf;
  match skel with
  | inr _ => mret (Exited 1)
  | inl skel =>
      x ← reuse_pinned skel "vms" PIN_PATH_VMS;
      if negb x.2 then timer_fail skel else
      x ← reuse_pinned skel "vcpus" PIN_PATH_VCPUS;
      if negb x.2 then timer_fail skel else
      x ← reuse_pinned skel "map_registry" PIN_PATH_REGISTRY;
      if negb x.2 then timer_fail skel else
      x ← reuse_pinned skel "global_tracker_state" PIN_PATH_GLOBAL_TRACKER_STATE;
      if negb x.2 then timer_fail skel else
      r ← bpf_object__load skel;
      if bool_decide (r ≠ 0) then timer_fail skel else
      link ← bpf_program__attach skel "phantom_timer_handler" HAuto;
      if bool_decide (libbpf_get_error link ≠ 0) then timer_fail skel else
      mret (Waiting skel (match link with inl l => Some l | inr _ => None end))
  end.

(** The signal handler of the timer. *)
Definition timer_cleanup (skel : nat) (link : option nat) : io K outcome :=
  _ ← bpf_link__destroy link;
  _ ← bpf_object__close skel;
  mret (Exited 0).

(** ** [global_running_tracker.loader.c] *)

Definition tracker_programs : list string :=
  ["global_running_tracker_switch_handler"; "global_running_tracker_timer_init"].

(** The element the loader writes into a new map. *)
Definition init_state (nb_cpus : Z) : global_runnx_tracker_state :=
  Tracker 0 0 0 0 (u32 nb_cpus) 0 0.

Definition tracker_fail (skel : nat) : io K outcome :=
  _ ← bpf_object__close skel; mret (Exited 1).

(** After the load: the state of a new map, the programs, the pin. *)
Definition tracker_start (skel : nat) (pinned_state_fd nb_cpus : Z) : io K outcome :=
  state_fd ← asks (bpf_map__fd skel "global_tracker_state");
  r ← (if pinned_state_fd <? 0 then bpf_map_update_elem state_fd (init_state nb_cpus)
       else mret 0);
  if r <? 0 then tracker_fail skel else
  r ← skeleton__attach skel tracker_programs;
  if bool_decide (r ≠ 0) then tracker_fail skel else
  r ← (if pinned_state_fd <? 0 then bpf_obj_pin state_fd PIN_PATH_GLOBAL_TRACKER_STATE
       else mret 0);
  if r <? 0 then tracker_fail skel else
  mret (Waiting skel None).

Definition tracker_main : io K outcome :=
  skel ← bpf_object__open global_running_tracker_bpf;
  match skel with
  | inr _ => mret (Exited 1)
  | inl skel =>
      x ← reuse_pinned skel "global_tracker_state" PIN_PATH_GLOBAL_TRACKER_STATE;
      if negb x.2 then tracker_fail skel else
      r ← bpf_object__load skel;
      if bool_decide (r ≠ 0) then tracker_fail skel else
      nb_cpus ← libbpf_num_possible_cpus;
      if nb_cpus <? 0 then tracker_fail skel else
      tracker_start skel x.1 nb_cpus
  end.

(** One turn of the polling loop: what it prints. *)
Definition tracker_poll (state_fd : Z) : io K (option (Z * Z)) :=
  cur ← asks (bpf_map_lookup_elem state_fd);
  mret ((λ s, (global_runnx_avg s, last_idle_avg s)) <$> cur).

(** The signal handler of the tracker. *)
Definition tracker_cleanup (skel : nat) : io K outcome :=
  _ ← bpf_object__close skel; mret (Exited 0).

(** ** [h2g_msg_timer_loader.c] *)

Definition h2g_cleanup (link : option nat) (obj : nat) (err : Z) : io K Z :=
  _ ← bpf_link__destroy link;
  _ ← bpf_object__close obj;
  mret (if bool_decide (err = 0) then 0 else 1).

(** Up to the loop: an exit code, or the link and the object. *)
Definition h2g_setup : io K (Z + nat * nat) :=
  obj ← bpf_object__open h2g_msg_timer_bpf;
  match obj with
  | inr _ => mret (inl 1)
  | inl obj =>
      err ← bpf_object__load obj;
      if bool_decide (err ≠ 0) then inl <$> h2g_cleanup None obj err else
      timer_map_fd ← asks (bpf_object__find_map_fd_by_name obj "h2g_msg_timer_map");
      if timer_map_fd <? 0 then inl <$> h2g_cleanup None obj err else
      prog ← asks (bpf_object__find_program_by_name obj "h2g_msg_timer_init");
      if negb prog then inl <$> h2g_cleanup None obj err else
      link ← bpf_program__attach obj "h2g_msg_timer_init" HAuto;
      match link with
      | inr e => inl <$> h2g_cleanup None obj (libbpf_get_error (inr e))
      | inl link => mret (inr (link, obj))
      end
  end.

(** [before] and [during] say when a signal arrives. *)
Definition h2g_main (before during : bool) : io K outcome :=
  x ← h2g_setup;
  match x with
  | inl code => mret (Exited code)
  | inr (link, obj) =>
      if pause_loop before during then Exited <$> h2g_cleanup (Some link) obj 0
      else mret (Waiting obj (Some link))
  end.

(** ** [omp_thread_reg.loader.c] *)

Definition omp_cleanup (l : omp_links) (skel : nat) (err : Z) : io K Z :=
  _ ← bpf_link__destroy (l_exec l);
  _ ← bpf_link__destroy (l_exit l);
  _ ← bpf_link__destroy (l_switch l);
  _ ← bpf_link__destroy (l_worker l);
  _ ← bpf_link__destroy (l_master l);
  _ ← bpf_object__close skel;
  mret (if bool_decide (err = 0) then 0 else 1).

(** Attach a program and pin its link; [next] goes on with the links.  A pin that
    fails leaves [err] at 0. *)
Definition attach_and_pin (skel : nat) (prog path : string) (l : omp_links)
    (with_link : nat → omp_links) (next : omp_links → io K omp_ready) : io K omp_ready :=
  link ← bpf_program__attach skel prog HAuto;
  match link with
  | inr e => inl <$> omp_cleanup l skel (libbpf_get_error (inr e))
  | inl link =>
      r ← bpf_link__pin link path;
      if r <? 0 then inl <$> omp_cleanup (with_link link) skel 0 else next (with_link link)
  end.

(** The pins of the probes' link and map, and the three tracepoints. *)
Definition omp_pin_all (skel master worker : nat) : io K omp_ready :=
  let l := OmpLinks (Some master) (Some worker) None None None in
  r ← bpf_link__pin master PIN_MASTER_LINK;
  if r <? 0 then inl <$> omp_cleanup l skel 0 else
  r ← bpf_map__pin skel "omp_threads_map" PIN_OMP_THREADS_MAP;
  if r <? 0 then inl <$> omp_cleanup l skel 0 else
  attach_and_pin skel "handle_switch" PIN_SWITCH_LINK l
    (λ s, OmpLinks (Some master) (Some worker) (Some s) None None) $ λ l,
  attach_and_pin skel "remove_exited_omp_thread" PIN_EXIT_LINK l
    (λ e, OmpLinks (Some master) (Some worker) (l_switch l) (Some e) None) $ λ l,
  attach_and_pin skel "remove_execed_omp_thread" PIN_EXEC_LINK l
    (λ e, OmpLinks (Some master) (Some worker) (l_switch l) (l_exit l) (Some e)) $ λ l,
  mret (inr (l, skel)).

Definition omp_setup (LIBGOMP_PATH : string) : io K omp_ready :=
  skel ← open_and_load omp_thread_reg_bpf;
  match skel with
  | inr _ => mret (inl 1)
  | inl skel =>
      link ← bpf_program__attach skel "capture_omp_master_thread"
               (HUprobe LIBGOMP_PATH "GOMP_parallel");
      match link with
      | inr e => inl <$> omp_cleanup (OmpLinks None None None None None) skel
                           (libbpf_get_error (inr e))
      | inl master =>
          worker ← bpf_program__attach skel "capture_omp_worker_threads"
                     (HUsdt LIBGOMP_PATH "gomp" "gomp_thread_start");
          match worker with
          | inr e => inl <$> omp_cleanup (OmpLinks (Some master) None None None None) skel
                               (libbpf_get_error (inr e))
          | inl worker => omp_pin_all skel master worker
          end
      end
  end.

Definition omp_main (LIBGOMP_PATH : string) (seconds : list bool) : io K outcome :=
  x ← omp_setup LIBGOMP_PATH;
  match x with
  | inl code => mret (Exited code)
  | inr (l, skel) =>
      if sleep_loop false seconds then Exited <$> omp_cleanup l skel 0
      else mret (Waiting skel (l_worker l))
  end.

End loaders.

(** ** What a run may do to the bpf file system *)

(** A later view: pins and maps are added, never replaced or removed. *)
Record grows (v v' : view) : Prop := {
  grows_pins : pins v ⊆ pins v';
  grows_objs : objs v ⊆ objs v';
  grows_attached : attached v `suffix_of` attached v'
}.

#[global] Instance grows_preorder : PreOrder grows.
Proof.
  split; [by split|]. intros x y z [] []. split; [by etrans..|]. by etrans.
Qed.

(** The map [m] of a handle is the object pinned at [p]. *)
Definition tied (v : view) (h : nat) (x : string * string) : Prop :=
  ∃ o, objs v !! (h, x.1) = Some o ∧ pins v !! x.2 = Some o.

Lemma tied_grows v v' h x : grows v v' → tied v h x → tied v' h x.
Proof. intros [Hp Ho _] (o & H1 & H2). exists o. eauto using lookup_weaken. Qed.

(** Two handles tied to the same path use the same map. *)
Lemma tied_same v h h' m m' p :
  tied v h (m, p) → tied v h' (m', p) → objs v !! (h, m) = objs v !! (h', m').
Proof. intros (o & H1 & H2) (o' & H3 & H4). simpl in *. congruence. Qed.

Lemma grows_pin p o v : pins v !! p = None → grows v (pin p o v).
Proof. split; simpl; [by apply insert_subseteq|done|done]. Qed.

Lemma grows_bind h m o v : objs v !! (h, m) = None → grows v (bind_map h m o v).
Proof. split; simpl; [done|by apply insert_subseteq|done]. Qed.

Lemma grows_new new v : grows v (bind_new new v).
Proof. split; simpl; [done|apply map_union_subseteq_l|done]. Qed.

Lemma grows_attach ps h v : grows v (log_attach ps h v).
Proof. split; simpl; [done|done|by eexists]. Qed.

Lemma grows_write o s v : grows v (log_write o s v).
Proof. by split. Qed.

#[export] Hint Resolve grows_pin grows_bind grows_new grows_attach grows_write : pv.

(** Step through the next call of a program with its law. *)
Ltac wp_call law :=
  apply wp_bind; eapply wp_mono; [apply law|];
  let r := fresh "r" in let k := fresh "k" in intros r k; cbv beta.

Section specs.
Context {K : Type} `{HL : LibbpfLaws K}.
Implicit Types (k : K) (v : view) (h : nat) (m p : string).

Lemma cleanup_skel_spec h n k :
  wp (cleanup_skel h n) (λ r k', r = n ∧ view_of k' = view_of k) k.
Proof. by wp_call close_object_law. Qed.

Lemma cleanup_inner_spec fd h n k :
  wp (cleanup_inner fd h n) (λ r k', r = n ∧ view_of k' = view_of k) k.
Proof. wp_call close_law. intros <-. apply cleanup_skel_spec. Qed.

Lemma cleanup_link_spec l fd h n k :
  wp (cleanup_link l fd h n) (λ r k', r = n ∧ view_of k' = view_of k) k.
Proof. wp_call destroy_law. intros <-. apply cleanup_inner_spec. Qed.

Lemma pin_new_spec h m p fd k :
  (0 <= fd → tied (view_of k) h (m, p)) →
  wp (pin_new h m p fd) (λ ok k', grows (view_of k) (view_of k') ∧
    attached (view_of k') = attached (view_of k) ∧ writes (view_of k') = writes (view_of k) ∧
    (ok = true → tied (view_of k') h (m, p))) k.
Proof.
  intros Ht. unfold pin_new. destruct (Z.ltb_spec fd 0) as [Hfd|Hfd].
  2:{ apply wp_ret. split_and!; [done..|auto]. }
  apply wp_bind, wp_asks. wp_call obj_pin_law. destruct (Z.ltb_spec r 0) as [Hr|Hr].
  - intros Hv. apply wp_ret. rewrite Hv. split_and!; [done..|]. destruct (Z.leb_spec 0 r); [lia|done].
  - intros (Hp & o & Ho & Hv). apply wp_ret. rewrite Hv. split_and!; [auto with pv|done|done|].
    intros _. exists o. simpl. rewrite lookup_insert_eq. by rewrite <-map_fd_law.
Qed.

(** What holds after some pinned maps were looked up: [ds] names them. *)
Record reusing h (ds : list (string * string)) v0 v : Prop := {
  ru_grows : grows v0 v;
  ru_pins : pins v = pins v0;
  ru_attached : attached v = attached v0;
  ru_writes : writes v = writes v0;
  ru_bound : ∀ m o, objs v !! (h, m) = Some o → ∃ p, (m, p) ∈ ds ∧ pins v0 !! p = Some o;
  ru_open : PinsOpen K → ∀ x, x ∈ ds → is_Some (pins v0 !! x.2) → tied v h x
}.

Lemma reusing_none h v : (∀ m, objs v !! (h, m) = None) → reusing h [] v v.
Proof. intros Hh. split; try done; [intros m o Hm; congruence|]. by intros _ x Hx%elem_of_nil. Qed.

Lemma reusing_skip h ds m p v0 v :
  (PinsOpen K → pins v0 !! p = None) → reusing h ds v0 v → reusing h ((m, p) :: ds) v0 v.
Proof.
  intros Hp []. split; try done.
  - intros m' o Ho. destruct (ru_bound0 m' o Ho) as (q & Hq & Hqo). exists q. set_solver.
  - intros HP x [-> |Hx]%elem_of_cons Hs; [|auto]. simpl in Hs. rewrite Hp in Hs by done.
    by destruct Hs.
Qed.

Lemma reusing_unbound h ds m v0 v : m ∉ ds.*1 → reusing h ds v0 v → objs v !! (h, m) = None.
Proof.
  intros Hm Hu. destruct (objs v !! (h, m)) as [o'|] eqn:E; [|done].
  apply (ru_bound _ _ _ _ Hu) in E as (q & Hq & _).
  destruct Hm. apply list_elem_of_fmap. by exists (m, q).
Qed.

Lemma reusing_bind h ds m p o v0 v :
  m ∉ ds.*1 → pins v0 !! p = Some o → reusing h ds v0 v →
  reusing h ((m, p) :: ds) v0 (bind_map h m o v).
Proof.
  intros Hm Hp Hu. pose proof (reusing_unbound h ds m v0 v Hm Hu) as Hn. destruct Hu.
  split; simpl; [|done..| |].
  - etrans; [done|]. auto with pv.
  - intros m' o' Ho. apply lookup_insert_Some in Ho as [[[= <-] <-]|[_ Ho]].
    + exists p. set_solver.
    + destruct (ru_bound0 m' o' Ho) as (q & Hq & Hqo). exists q. set_solver.
  - intros HP x [-> |Hx]%elem_of_cons Hs.
    + exists o. simpl. by rewrite lookup_insert_eq, ru_pins0.
    + eapply tied_grows; [by apply grows_bind|]. by apply ru_open0.
Qed.

Lemma obj_get_spec p k :
  wp (bpf_obj_get p) (λ r k', view_of k' = view_of k ∧ (∀ h', maps_of k' h' = maps_of k h') ∧
    if r <? 0 then PinsOpen K → pins (view_of k) !! p = None
    else is_Some (pins (view_of k) !! p) ∧ fd_obj k' r = pins (view_of k) !! p) k.
Proof.
  pose proof (obj_get_law p k) as Hg. unfold wp in *. destruct Hg as (? & ? & Hfd).
  split_and!; try done. destruct (Z.ltb_spec (bpf_obj_get p k).1 0) as [Hr|Hr]; [|auto].
  intros HP. destruct (pins (view_of k) !! p) as [o|] eqn:E; [|done].
  assert (is_Some (pins (view_of k) !! p)) as Hs by eauto. apply pins_open in Hs. lia.
Qed.

(** Reusing one map: either the program gives up with the view unchanged, or it
    goes on with the map looked up. *)
Lemma wp_reuse {A} h ds m p v0 k (fail : io K A) (next : Z * bool → io K A) Q :
  m ∉ ds.*1 → reusing h ds v0 (view_of k) →
  (∀ k', view_of k' = view_of k → wp fail Q k') →
  (∀ fd k', grows (view_of k) (view_of k') → (∀ h', maps_of k' h' = maps_of k h') →
    reusing h ((m, p) :: ds) v0 (view_of k') → (0 <= fd → tied (view_of k') h (m, p)) →
    (fd < 0 → view_of k' = view_of k) → wp (next (fd, true)) Q k') →
  wp (x ← reuse_pinned h m p; if negb x.2 then fail else next x) Q k.
Proof.
  intros Hm Hu Hfail Hnext. apply wp_bind. unfold reuse_pinned. apply wp_bind.
  eapply wp_mono; [apply obj_get_spec|]. intros fd k1 (Hv & Hms & Hfd).
  rewrite (ru_pins _ _ _ _ Hu) in Hfd.
  destruct (Z.ltb_spec fd 0) as [Hr|Hr], (Z.leb_spec 0 fd); try lia.
  - apply wp_ret. simpl. apply Hnext; rewrite ?Hv; [done|done|by apply reusing_skip|lia|done].
  - wp_call reuse_law. intros [Hm1 Hr1]. apply wp_ret.
    destruct (Z.ltb_spec r 0) as [Hneg|Hpos], (Z.leb_spec 0 r); try lia; simpl.
    { apply Hfail. congruence. }
    destruct Hr1 as (o & Ho1 & Hv1), Hfd as [_ Hp]. rewrite Ho1 in Hp. rewrite Hv in Hv1.
    pose proof (reusing_bind h ds m p o v0 (view_of k) Hm (eq_sym Hp) Hu) as Hb.
    apply Hnext; rewrite ?Hv1; [|intros; by rewrite Hm1, Hms|done| |lia].
    + apply grows_bind. by eapply reusing_unbound.
    + intros _. exists o. simpl. rewrite lookup_insert_eq. by rewrite (ru_pins _ _ _ _ Hu).
Qed.

(** *** [create_maps.loader.c] *)

Definition core_maps : list (string * string) :=
  [("vms", PIN_PATH_VMS); ("vcpus", PIN_PATH_VCPUS); ("map_registry", PIN_PATH_REGISTRY)].

(** What a run of the loader leaves, from the view before to the one after. *)
Record create_maps_post v0 (r : Z) v : Prop := {
  cm_code : r = 0 ∨ r = 1;
  cm_grows : grows v0 v;
  cm_writes : writes v = writes v0;
  cm_again : is_Some (pins v0 !! PIN_PATH_LINK) → r = 1 ∧ pins v = pins v0;
  cm_done : r = 0 → is_Some (pins v !! PIN_PATH_LINK) ∧
    ∃ h, attached v = ("phantom_switch_handler", h) :: attached v0 ∧ Forall (tied v h) core_maps
}.

Lemma create_maps_failed v0 v :
  grows v0 v → writes v = writes v0 →
  (is_Some (pins v0 !! PIN_PATH_LINK) → pins v = pins v0) → create_maps_post v0 1 v.
Proof. intros. split; auto. done. Qed.

Lemma create_maps_pin_spec l h ifd f1 f2 f3 k :
  (0 <= f1 → tied (view_of k) h ("vms", PIN_PATH_VMS)) →
  (0 <= f2 → tied (view_of k) h ("vcpus", PIN_PATH_VCPUS)) →
  (0 <= f3 → tied (view_of k) h ("map_registry", PIN_PATH_REGISTRY)) →
  wp (create_maps_pin l h ifd f1 f2 f3) (λ r k',
    grows (view_of k) (view_of k') ∧ attached (view_of k') = attached (view_of k) ∧
    writes (view_of k') = writes (view_of k) ∧
    (r = 1 ∨ r = 0 ∧ Forall (tied (view_of k') h) core_maps)) k.
Proof.
  intros H1 H2 H3. apply wp_bind. eapply wp_mono; [by apply pin_new_spec|].
  intros ok1 k1 (G1 & A1 & W1 & T1). destruct ok1; simpl.
  2:{ eapply wp_mono; [apply cleanup_link_spec|]. intros ? k' [-> ->]. auto. }
  apply wp_bind. eapply wp_mono; [apply pin_new_spec; eauto using tied_grows|].
  intros ok2 k2 (G2 & A2 & W2 & T2). assert (grows (view_of k) (view_of k2)) by by etrans.
  destruct ok2; simpl.
  2:{ eapply wp_mono; [apply cleanup_link_spec|]. intros ? k' [-> ->].
      split_and!; [done|congruence..|by left]. }
  apply wp_bind. eapply wp_mono; [apply pin_new_spec; eauto using tied_grows|].
  intros ok3 k3 (G3 & A3 & W3 & T3). assert (grows (view_of k) (view_of k3)) by by etrans.
  destruct ok3; simpl; (eapply wp_mono; [apply cleanup_link_spec|]); intros ? k' [-> ->];
    (split_and!; [done|congruence..|]); [right|by left].
  split; [done|]. repeat constructor; [|by eauto using tied_grows..].
  eapply tied_grows; [|by apply T1]. by etrans.
Qed.

Lemma create_maps_start_spec h ifd f1 f2 f3 k :
  (0 <= f1 → tied (view_of k) h ("vms", PIN_PATH_VMS)) →
  (0 <= f2 → tied (view_of k) h ("vcpus", PIN_PATH_VCPUS)) →
  (0 <= f3 → tied (view_of k) h ("map_registry", PIN_PATH_REGISTRY)) →
  wp (create_maps_start h ifd f1 f2 f3) (λ r k', create_maps_post (view_of k) r (view_of k')) k.
Proof.
  intros H1 H2 H3. wp_call load_law. intros [Hr Hk]. destruct (Z.ltb_spec r 0) as [Hneg|Hpos].
  { rewrite decide_False in Hk by lia. eapply wp_mono; [apply cleanup_inner_spec|].
    intros ? k' [-> Hv]. rewrite Hv, Hk. by apply create_maps_failed. }
  rewrite decide_True in Hk by lia. destruct Hk as (new & _ & Hk).
  wp_call attach_law. destruct r0 as [l|e].
  2:{ intros [_ Hv]. eapply wp_mono; [apply cleanup_inner_spec|]. intros ? k' [-> Hv'].
      rewrite Hv', Hv, Hk. apply create_maps_failed; auto with pv. }
  intros Hv1. rewrite Hk in Hv1. assert (grows (view_of k) (view_of k1)) as G1
    by (rewrite Hv1; etrans; [apply grows_new|apply grows_attach]).
  wp_call link_pin_law. destruct (Z.ltb_spec r0 0) as [Hn|Hp].
  { intros Hv2. eapply wp_mono; [apply cleanup_link_spec|]. intros ? k' [-> Hv3].
    rewrite Hv3, Hv2. apply create_maps_failed; [done|by rewrite Hv1..]. }
  intros (Hfree & o & Hv2). assert (pins (view_of k) !! PIN_PATH_LINK = None) as Hfree0
    by by rewrite Hv1 in Hfree.
  assert (grows (view_of k) (view_of k2)) as G2 by (rewrite Hv2; etrans; [done|auto with pv]).
  eapply wp_mono; [apply create_maps_pin_spec; eauto using tied_grows|].
  intros r2 k' (G & HA & HW & Hres). rewrite Hv2, Hv1 in HA, HW. simpl in HA, HW.
  assert (grows (view_of k) (view_of k')) by by etrans.
  destruct Hres as [-> |[-> Ht]].
  { apply create_maps_failed; [done|done|]. rewrite Hfree0. by intros []. }
  split; [by left|done|done|rewrite Hfree0; by intros []|].
  intros _. split; [|by exists h]. exists o. eapply lookup_weaken; [|apply G].
  rewrite Hv2. simpl. apply lookup_insert_eq.
Qed.

Lemma create_maps_post_reusing h ds v0 v r v' :
  reusing h ds v0 v → create_maps_post v r v' → create_maps_post v0 r v'.
Proof.
  intros [] []. rewrite ru_attached0, ru_pins0, ru_writes0 in *. split; try done. by etrans.
Qed.

Lemma create_maps_main_spec k :
  wp create_maps_main (λ r k', create_maps_post (view_of k) r (view_of k')) k.
Proof.
  wp_call open_law. intros [Hv Hr]. destruct r as [h|e].
  2:{ apply wp_ret. rewrite Hv. by apply create_maps_failed. }
  destruct Hr as [_ Hh%reusing_none]. rewrite <-Hv in *. clear Hv k.
  assert (∀ ds fd kk, reusing h ds (view_of k0) (view_of kk) →
    wp (cleanup_inner fd h 1) (λ r k', create_maps_post (view_of k0) r (view_of k')) kk) as Hquit.
  { intros ds fd kk []. eapply wp_mono; [apply cleanup_inner_spec|]. intros r' k' [-> ->].
    by apply create_maps_failed. }
  wp_call create_law. intros [Hv _]. destruct (Z.ltb_spec r 0).
  { eapply wp_mono; [apply cleanup_skel_spec|]. intros r' k' [-> ->]. rewrite Hv.
    by apply create_maps_failed. }
  wp_call inner_law. intros [Hv' _]. rewrite <-Hv in Hh at 2. rewrite <-Hv' in Hh.
  destruct (Z.ltb_spec r0 0); [by eapply Hquit|]. clear Hv Hv'.
  eapply wp_reuse; [|done| |]; [set_solver|intros k' Hk'; eapply Hquit; by rewrite Hk'|].
  intros f1 k3 _ _ U1 T1 _.
  eapply wp_reuse; [|done| |]; [set_solver|intros k' Hk'; eapply Hquit; by rewrite Hk'|].
  intros f2 k4 G2 _ U2 T2 _.
  eapply wp_reuse; [|done| |]; [set_solver|intros k' Hk'; eapply Hquit; by rewrite Hk'|].
  intros f3 k5 G3 _ U3 T3 _. simpl.
  eapply wp_mono; [apply create_maps_start_spec|]; [|eauto using tied_grows|done|].
  - intros. eapply tied_grows; [|eauto]. by etrans.
  - intros r' k'. by eapply create_maps_post_reusing.
Qed.

(** *** [timer.loader.c] *)

(** The map of a handle is the pinned one, or one nobody else can open. *)
Definition own_or_pinned v0 v h (x : string * string) : Prop :=
  ∃ o, objs v !! (h, x.1) = Some o ∧
    (pins v0 !! x.2 = Some o ∨ ∀ q, pins v0 !! q ≠ Some o).

Lemma loaded_maps h ds ms new v0 v x :
  reusing h ds v0 v → created h ms v new → NoDup ds.*1 → x ∈ ds → x.1 ∈ ms →
  own_or_pinned v0 (bind_new new v) h x.
Proof.
  intros Hu Hc Hd Hx Hm. destruct x as [m p], (objs v !! (h, m)) as [o|] eqn:E; simpl in *.
  - exists o. split; [by apply lookup_union_Some_l|left].
    apply (ru_bound _ _ _ _ Hu) in E as (q & Hq & Hqo). simpl.
    apply list_elem_of_lookup in Hx as [i Hi], Hq as [j Hj].
    assert (i = j) as ->; [|by simplify_eq].
    apply (NoDup_lookup ds.*1 i j m Hd); by rewrite list_lookup_fmap, ?Hi, ?Hj.
  - destruct (new_maps _ _ _ _ Hc m Hm E) as [o Ho]. exists o. split.
    + simpl. by rewrite lookup_union_r.
    + right. intros q. rewrite <-(ru_pins _ _ _ _ Hu). by eapply new_unpinned.
Qed.

Definition timer_maps : list (string * string) :=
  [("global_tracker_state", PIN_PATH_GLOBAL_TRACKER_STATE); ("map_registry", PIN_PATH_REGISTRY);
   ("vcpus", PIN_PATH_VCPUS); ("vms", PIN_PATH_VMS)].

Record timer_post v0 (r : outcome) v : Prop := {
  tm_grows : grows v0 v;
  tm_pins : pins v = pins v0;
  tm_writes : writes v = writes v0;
  tm_result : match r with
    | Exited c => c = 1
    | Waiting h l => is_Some l ∧ attached v = ("phantom_timer_handler", h) :: attached v0 ∧
        Forall (own_or_pinned v0 v h) timer_maps ∧
        (PinsOpen K → ∀ x, x ∈ timer_maps → is_Some (pins v0 !! x.2) → tied v h x)
    end
}.

Lemma timer_fail_spec h k :
  wp (timer_fail h) (λ r k', r = Exited 1 ∧ view_of k' = view_of k) k.
Proof. by wp_call close_object_law. Qed.

Lemma timer_quit h ds v0 k :
  reusing h ds v0 (view_of k) → wp (timer_fail h) (λ r k', timer_post v0 r (view_of k')) k.
Proof.
  intros []. eapply wp_mono; [apply timer_fail_spec|]. intros r k' [-> ->]. by split.
Qed.

Lemma timer_main_spec k :
  wp timer_main (λ r k', timer_post (view_of k) r (view_of k')) k.
Proof.
  wp_call open_law. intros [Hv Hr]. destruct r as [h|e].
  2:{ apply wp_ret. rewrite Hv. by split. }
  destruct Hr as [M0 Hh%reusing_none]. rewrite <-Hv in *. clear Hv k.
  eapply wp_reuse; [|done| |]; [set_solver|intros k' Hk'; eapply timer_quit; by rewrite Hk'|].
  intros f1 k1 _ M1 U1 _ _.
  eapply wp_reuse; [|done| |]; [set_solver|intros k' Hk'; eapply timer_quit; by rewrite Hk'|].
  intros f2 k2 _ M2 U2 _ _.
  eapply wp_reuse; [|done| |]; [set_solver|intros k' Hk'; eapply timer_quit; by rewrite Hk'|].
  intros f3 k3 _ M3 U3 _ _.
  eapply wp_reuse; [|done| |]; [set_solver|intros k' Hk'; eapply timer_quit; by rewrite Hk'|].
  intros f4 k4 _ M4 U4 _ _. rewrite <-M1, <-M2, <-M3, <-M4 in M0. clear M1 M2 M3 M4.
  wp_call load_law. intros [_ Hl]. destruct (decide (r = 0)) as [-> |Hr].
  2:{ rewrite bool_decide_true by done. eapply timer_quit. by rewrite Hl. }
  rewrite bool_decide_false by auto. destruct Hl as (new & Hc & Hl).
  rename k into k5. rewrite M0 in Hc. assert (grows (view_of k4) (view_of k5)) as G5 by (rewrite Hl; auto with pv).
  assert (Forall (own_or_pinned (view_of k0) (view_of k5) h) timer_maps) as Hown.
  { rewrite Hl. apply Forall_forall. intros x Hx. eapply loaded_maps; [done|done| |done|].
    - by apply (bool_decide_unpack _).
    - clear -Hx. set_solver. }
  assert (timer_post (view_of k0) (Exited 1) (view_of k5)) as Hpost.
  { destruct U4. rewrite Hl in *. split; simpl; [|done..]. etrans; [done|auto with pv]. }
  wp_call attach_law. destruct r as [l|e]; cbn [libbpf_get_error].
  - intros Hv. rewrite bool_decide_false by auto. apply wp_ret. rewrite Hv.
    split; [|apply Hpost..|]; [etrans; [apply Hpost|auto with pv]|].
    split_and!; [done|simpl; f_equal; by rewrite Hl, <-(ru_attached _ _ _ _ U4)|done|].
    intros HP x Hx Hs. apply (tied_grows (view_of k4)); [etrans; [done|apply grows_attach]|].
    by apply (ru_open _ _ _ _ U4).
  - intros [He Hv]. rewrite bool_decide_true by lia. eapply wp_mono; [apply timer_fail_spec|].
    intros ? k' [-> ->]. by rewrite Hv.
Qed.

(** *** [global_running_tracker.loader.c] *)

Definition tracker_map : string * string :=
  ("global_tracker_state", PIN_PATH_GLOBAL_TRACKER_STATE).

(** The writes of a run: none, or the initial state of a map nobody shares. *)
Definition tracker_writes v0 v : Prop :=
  writes v = writes v0 ∨ ∃ o nb, 0 <= nb ∧ writes v = (o, init_state nb) :: writes v0 ∧
    ∀ q, pins v0 !! q ≠ Some o.

Record tracker_post v0 (r : outcome) v : Prop := {
  tr_grows : grows v0 v;
  tr_writes : tracker_writes v0 v;
  tr_result : match r with
    | Exited c => c = 1 ∧ pins v = pins v0
    | Waiting h l => attached v = map (λ p, (p, h)) tracker_programs ++ attached v0 ∧
        tied v h tracker_map ∧
        match pins v0 !! PIN_PATH_GLOBAL_TRACKER_STATE with
        | Some o => pins v = pins v0 ∧ writes v = writes v0
        | None => ∃ o nb, 0 <= nb ∧ pins v = <[PIN_PATH_GLOBAL_TRACKER_STATE := o]> (pins v0) ∧
            writes v = (o, init_state nb) :: writes v0
        end
    end
}.

Lemma tracker_fail_spec h k :
  wp (tracker_fail h) (λ r k', r = Exited 1 ∧ view_of k' = view_of k) k.
Proof. by wp_call close_object_law. Qed.

Lemma tracker_quit h v0 k :
  grows v0 (view_of k) → pins (view_of k) = pins v0 → tracker_writes v0 (view_of k) →
  wp (tracker_fail h) (λ r k', tracker_post v0 r (view_of k')) k.
Proof.
  intros. eapply wp_mono; [apply tracker_fail_spec|]. intros r k' [-> ->]. by split.
Qed.

(** With a map that was pinned. *)
Lemma tracker_start_reused h fd nb k :
  0 <= fd → tied (view_of k) h tracker_map →
  wp (tracker_start h fd nb) (λ r k', tracker_post (view_of k) r (view_of k')) k.
Proof.
  intros Hfd Ht. apply wp_bind, wp_asks. apply wp_bind.
  destruct (Z.ltb_spec fd 0); [lia|]. apply wp_ret. simpl.
  wp_call attach_all_law. intros (_ & _ & n & Hn & Hv).
  assert (grows (view_of k) (view_of k0)) as G by (rewrite Hv; auto with pv).
  destruct (decide (r = 0)) as [-> |Hr].
  2:{ rewrite bool_decide_true by done. apply tracker_quit; [done|by rewrite Hv|left; by rewrite Hv]. }
  rewrite bool_decide_false by auto. apply wp_bind, wp_ret. simpl. apply wp_ret.
  split; [done|left; by rewrite Hv|]. rewrite (Hn eq_refl) in Hv.
  split_and!; [by rewrite Hv|by eapply tied_grows|]. destruct Ht as (o & _ & Ho). simpl in Ho.
  rewrite Ho, Hv. done.
Qed.

(** With a map of its own, which is written before it is pinned. *)
Lemma tracker_start_new h fd nb o k :
  fd < 0 → 0 <= nb → objs (view_of k) !! (h, "global_tracker_state") = Some o →
  (∀ q, pins (view_of k) !! q ≠ Some o) →
  wp (tracker_start h fd nb) (λ r k', tracker_post (view_of k) r (view_of k')) k.
Proof.
  intros Hfd Hnb Ho Hq. apply wp_bind, wp_asks. destruct (Z.ltb_spec fd 0); [|lia].
  wp_call update_law. intros [F0 Hv]. destruct (Z.ltb_spec r 0) as [Hr|Hr].
  { apply tracker_quit; rewrite Hv; [done..|by left]. }
  destruct Hv as (o' & Ho' & Hv). pose proof Ho' as Ho1. apply F0 in Ho1.
  rewrite map_fd_law, Ho in Ho'. injection Ho' as <-.
  assert (tracker_writes (view_of k) (view_of k0)) as W0.
  { right. exists o, nb. by rewrite Hv. }
  assert (grows (view_of k) (view_of k0)) as G0 by (rewrite Hv; apply grows_write).
  wp_call attach_all_law. intros (_ & F1 & n & Hn & Hv1). apply F1 in Ho1.
  assert (grows (view_of k) (view_of k1)) as G1 by (rewrite Hv1; etrans; [done|apply grows_attach]).
  assert (tracker_writes (view_of k) (view_of k1)) as W1 by (by rewrite Hv1).
  assert (pins (view_of k1) = pins (view_of k)) as P1 by by rewrite Hv1, Hv.
  destruct (decide (r0 = 0)) as [-> |Hr0].
  2:{ rewrite bool_decide_true by done. by apply tracker_quit. }
  rewrite bool_decide_false by auto. wp_call obj_pin_law. destruct (Z.ltb_spec r0 0).
  { intros Hv2. apply tracker_quit; by rewrite Hv2. }
  intros (Hp & o2 & Ho2 & Hv2). rewrite Ho1 in Ho2. injection Ho2 as <-. rewrite P1 in Hp.
  apply wp_ret. rewrite (Hn eq_refl) in Hv1. split.
  - rewrite Hv2. etrans; [done|]. apply grows_pin. by rewrite P1.
  - rewrite Hv2. done.
  - rewrite Hv2. split_and!; [simpl; by rewrite Hv1, Hv| |].
    + exists o. simpl. rewrite lookup_insert_eq. split; [|done]. rewrite Hv1, Hv. done.
    + rewrite Hp. exists o, nb. simpl. rewrite P1. split_and!; [done..|]. by rewrite Hv1, Hv.
Qed.

Lemma tracker_post_grow v0 v r v' :
  grows v0 v → pins v = pins v0 → attached v = attached v0 → writes v = writes v0 →
  tracker_post v r v' → tracker_post v0 r v'.
Proof.
  intros Hg Hp Ha Hw []. unfold tracker_writes in *. rewrite Hp, Ha, Hw in *.
  split; try done. by etrans.
Qed.

Lemma tracker_main_spec k :
  wp tracker_main (λ r k', tracker_post (view_of k) r (view_of k')) k.
Proof.
  wp_call open_law. intros [Hv Hr]. destruct r as [h|e].
  2:{ apply wp_ret. rewrite Hv. split; [done|by left|done]. }
  destruct Hr as [M0 Hh]. rewrite <-Hv in *. clear Hv k.
  eapply wp_reuse; [|by apply reusing_none| |]; [set_solver| |].
  { intros k' Hk'. apply tracker_quit; rewrite Hk'; [done..|by left]. }
  intros fd k1 _ M1 [G1 P1 A1 W1 _ _] T1 N1. rewrite <-M1 in M0.
  wp_call load_law. intros [_ Hl]. destruct (decide (r = 0)) as [-> |Hr].
  2:{ rewrite bool_decide_true by done. apply tracker_quit; rewrite Hl; [done..|by left]. }
  rewrite bool_decide_false by auto. destruct Hl as (new & Hc & Hl). rewrite M0 in Hc.
  wp_call cpus_law. intros Hv. rewrite Hl in Hv.
  assert (grows (view_of k1) (view_of k2)) as G2 by (rewrite Hv; auto with pv).
  destruct (Z.ltb_spec r 0).
  { apply tracker_quit; rewrite ?Hv; simpl; [|done|by left]. etrans; [done|auto with pv]. }
  simpl. eapply (wp_mono _ (λ r k', tracker_post (view_of k2) r (view_of k'))).
  2:{ intros r' k'. apply tracker_post_grow; [by etrans|by rewrite Hv..]. }
  destruct (Z.le_gt_cases 0 fd) as [Hfd|Hfd].
  - apply tracker_start_reused; [done|]. eapply tied_grows; [done|]. by apply T1.
  - rewrite N1 in * by done. assert (objs (view_of k0) !! (h, "global_tracker_state") = None) as Hn
      by apply Hh.
    destruct (new_maps _ _ _ _ Hc "global_tracker_state") as [o Ho]; [set_solver|done|].
    apply (tracker_start_new _ _ _ o); [done|done| |]; rewrite Hv; simpl.
    + by rewrite lookup_union_r.
    + intros q. by eapply new_unpinned.
Qed.

(** *** [h2g_msg_timer_loader.c] *)

Lemma h2g_cleanup_spec l h e k :
  wp (h2g_cleanup l h e) (λ r k', r = (if bool_decide (e = 0) then 0 else 1) ∧
    view_of k' = view_of k) k.
Proof. wp_call destroy_law. intros <-. by wp_call close_object_law. Qed.

(** *** [omp_thread_reg.loader.c] *)

Lemma omp_cleanup_spec l h e k :
  wp (omp_cleanup l h e) (λ r k', r = (if bool_decide (e = 0) then 0 else 1) ∧
    view_of k' = view_of k) k.
Proof.
  do 5 (wp_call destroy_law; intros <-). by wp_call close_object_law.
Qed.

Definition omp_paths : list string :=
  [PIN_EXEC_LINK; PIN_EXIT_LINK; PIN_SWITCH_LINK; PIN_OMP_THREADS_MAP; PIN_MASTER_LINK].

Definition omp_probes (h : nat) : list (string * nat) :=
  [("capture_omp_worker_threads", h); ("capture_omp_master_thread", h)].

(** With the link of the first probe pinned already, a run ends without reaching
    its loop; its exit code is 0 when both probes could be attached. *)
Definition omp_refused v0 (x : omp_ready) v : Prop :=
  pins v = pins v0 ∧
  ((x = inl 1 ∧ (length (attached v) < 2 + length (attached v0))%nat) ∨
   (x = inl 0 ∧ ∃ h, attached v = omp_probes h ++ attached v0)).

Record omp_post v0 (x : omp_ready) v : Prop := {
  om_grows : grows v0 v;
  om_again : is_Some (pins v0 !! PIN_MASTER_LINK) → omp_refused v0 x v;
  om_ready : match x with
    | inl c => c = 0 ∨ c = 1
    | inr (l, h) => Forall (λ p, is_Some (pins v !! p)) omp_paths ∧
        tied v h ("omp_threads_map", PIN_OMP_THREADS_MAP)
    end
}.

Lemma omp_exit_spec l h e v0 k :
  grows v0 (view_of k) →
  (is_Some (pins v0 !! PIN_MASTER_LINK) →
    omp_refused v0 (inl (if bool_decide (e = 0) then 0 else 1)) (view_of k)) →
  wp (inl <$> omp_cleanup l h e) (λ x k', omp_post v0 x (view_of k')) k.
Proof.
  intros Hg Ha. apply wp_fmap. eapply wp_mono; [apply omp_cleanup_spec|].
  intros c k' [-> ->]. split; [done|done|]. case_bool_decide; auto.
Qed.

Lemma wp_attach_and_pin h prog path l wl next v0 k :
  grows v0 (view_of k) → pins v0 !! PIN_MASTER_LINK = None →
  (∀ link k', grows v0 (view_of k') → grows (view_of k) (view_of k') →
    is_Some (pins (view_of k') !! path) →
    wp (next (wl link)) (λ x k', omp_post v0 x (view_of k')) k') →
  wp (attach_and_pin h prog path l wl next) (λ x k', omp_post v0 x (view_of k')) k.
Proof.
  intros Hg Hm Hnext. wp_call attach_law. destruct r as [link|e].
  2:{ intros [_ Hv]. apply omp_exit_spec; [by rewrite Hv|]. rewrite Hm. by intros []. }
  intros Hv. assert (grows (view_of k) (view_of k0)) as G by (rewrite Hv; auto with pv).
  wp_call link_pin_law. destruct (Z.ltb_spec r 0).
  { intros Hv1. apply omp_exit_spec; [rewrite Hv1; by etrans|]. rewrite Hm. by intros []. }
  intros (Hp & o & Hv1). assert (grows (view_of k0) (view_of k1)) as G1
    by (rewrite Hv1; auto with pv).
  apply Hnext; [etrans; [done|]; by etrans|by etrans|].
  rewrite Hv1. simpl. rewrite lookup_insert_eq. eauto.
Qed.

Lemma omp_pin_all_spec h master worker v0 k :
  grows v0 (view_of k) → pins (view_of k) = pins v0 →
  attached (view_of k) = omp_probes h ++ attached v0 →
  wp (omp_pin_all h master worker) (λ x k', omp_post v0 x (view_of k')) k.
Proof.
  intros Hg Hp Ha. wp_call link_pin_law. destruct (Z.ltb_spec r 0).
  { intros Hv. apply omp_exit_spec; rewrite Hv; [done|]. intros _. split; [done|right].
    split; [done|]. by exists h. }
  intros (Hf & o & Hv). rewrite Hp in Hf.
  assert (grows (view_of k) (view_of k0)) as G0 by (rewrite Hv; apply grows_pin; by rewrite Hp).
  assert (is_Some (pins (view_of k0) !! PIN_MASTER_LINK)) as L0
    by (rewrite Hv; simpl; rewrite lookup_insert_eq; eauto).
  wp_call map_pin_law. destruct (Z.ltb_spec r0 0).
  { intros Hv1. apply omp_exit_spec; rewrite ?Hv1; [by etrans|]. rewrite Hf. by intros []. }
  intros (o' & Ho' & Hv1 & Hc). assert (grows (view_of k0) (view_of k1)) as G1.
  { rewrite Hv1. destruct Hc as [Hc|Hc]; [by apply grows_pin|].
    unfold pin. rewrite insert_id by done. by destruct (view_of k0). }
  assert (tied (view_of k1) h ("omp_threads_map", PIN_OMP_THREADS_MAP)) as T1.
  { exists o'. rewrite Hv1. simpl. by rewrite lookup_insert_eq. }
  assert (grows v0 (view_of k1)) as V1 by (etrans; [done|]; by etrans).
  apply wp_attach_and_pin; [done|done|]. intros l2 k2 V2 G2 L2.
  apply wp_attach_and_pin; [done|done|]. intros l3 k3 V3 G3 L3.
  apply wp_attach_and_pin; [done|done|]. intros l4 k4 V4 G4 L4.
  apply wp_ret. split; [done|rewrite Hf; by intros []|].
  assert (grows (view_of k2) (view_of k4)) as G24 by by etrans.
  assert (grows (view_of k1) (view_of k4)) as G14 by by etrans.
  assert (∀ v v' p, grows v v' → is_Some (pins v !! p) → is_Some (pins v' !! p)) as Hs.
  { intros v v' p G [x Hx]. exists x. eapply lookup_weaken; [done|apply G]. }
  split; [|by eapply tied_grows]. unfold omp_paths. rewrite !Forall_cons. split_and!.
  - done.
  - by eapply (Hs (view_of k3)).
  - by eapply (Hs (view_of k2)).
  - destruct T1 as (x & _ & Hx). eapply Hs; [apply G14|by exists x].
  - eapply Hs; [apply G14|]. by eapply (Hs (view_of k0)).
  - done.
Qed.

Lemma omp_setup_spec path k :
  wp (omp_setup path) (λ x k', omp_post (view_of k) x (view_of k')) k.
Proof.
  wp_call open_and_load_law. destruct r as [h|e].
  2:{ intros [_ Hv]. apply wp_ret. rewrite Hv. split; [done| |by right].
      intros _. split; [done|left]. split; [done|lia]. }
  intros (_ & new & _ & Hv). assert (grows (view_of k) (view_of k0)) as G0
    by (rewrite Hv; auto with pv).
  wp_call attach_law. destruct r as [master|e].
  2:{ intros [He Hv1]. apply omp_exit_spec; rewrite Hv1; [done|]. intros _.
      rewrite bool_decide_false by (simpl; lia). split; [by rewrite Hv|left]. split; [done|].
      rewrite Hv. simpl. lia. }
  intros Hv1. assert (grows (view_of k0) (view_of k1)) as G1 by (rewrite Hv1; auto with pv).
  wp_call attach_law. destruct r as [worker|e].
  2:{ intros [He Hv2]. apply omp_exit_spec; rewrite Hv2; [by etrans|]. intros _.
      rewrite bool_decide_false by (simpl; lia). rewrite Hv1, Hv. split; [done|left].
      split; [done|]. simpl. lia. }
  intros Hv2. apply omp_pin_all_spec; rewrite Hv2, ?Hv1, ?Hv; [|done|done].
  rewrite <-Hv, <-Hv1. etrans; [done|]. etrans; [done|]. auto with pv.
Qed.
End specs.

(** The loop with [sleep] ends once a signal has set the flag. *)
Lemma sleep_loop_elem b l : sleep_loop b l = true ↔ b = true ∨ true ∈ l.
Proof.
  revert b. induction l as [|s l IH]; intros b; simpl.
  - destruct b; simpl; [|set_solver]. split; auto.
  - destruct b; simpl; [split; auto|]. rewrite IH, elem_of_cons. naive_solver.
Qed.

Section runs.
Context {K : Type} `{HL : LibbpfLaws K}.

(** A run of the guest loader that reaches its loop, and the same run stopped by
    a signal. *)
Lemma omp_main_stopped path secs (k k1 : K) h l :
  omp_main path [] k = (Waiting h l, k1) → true ∈ secs →
  ∃ k', omp_main path secs k = (Exited 0, k') ∧ view_of k' = view_of k1 ∧
    Forall (λ p, is_Some (pins (view_of k1) !! p)) omp_paths.
Proof.
  intros Hr Hs. unfold omp_main, mbind, io_bind in *. pose proof (omp_setup_spec path k) as Hp.
  unfold wp in Hp. destruct (omp_setup path k) as [[c|[ls h']] k0]; [done|].
  simpl in Hr. injection Hr as -> <- <-. destruct Hp as [_ _ [Hp _]].
  assert (sleep_loop false secs = true) as -> by (apply sleep_loop_elem; by right).
  pose proof (omp_cleanup_spec ls h 0 k0) as Hc. unfold wp in Hc. unfold fmap, io_fmap.
  destruct (omp_cleanup ls h 0 k0) as [c k']. simpl in Hc. destruct Hc as [-> Hc]. by exists k'.
Qed.

(** A run that reached its loop uses the map it has pinned. *)
Lemma omp_main_spec path secs (k : K) :
  wp (omp_main path secs) (λ r k', match r with
    | Exited _ => True
    | Waiting h _ => tied (view_of k') h ("omp_threads_map", PIN_OMP_THREADS_MAP)
    end) k.
Proof.
  apply wp_bind. eapply wp_mono; [apply omp_setup_spec|]. intros [c|[ls h]] k' [_ _ Hr]; [done|].
  case_match; [by apply wp_fmap|]. apply wp_ret. apply Hr.
Qed.

Lemma omp_main_refused path secs (k : K) :
  is_Some (pins (view_of k) !! PIN_MASTER_LINK) →
  wp (omp_main path secs) (λ r k', pins (view_of k') = pins (view_of k) ∧
    ((r = Exited 1 ∧ (length (attached (view_of k')) < 2 + length (attached (view_of k)))%nat) ∨
     (r = Exited 0 ∧ ∃ h, attached (view_of k') = omp_probes h ++ attached (view_of k)))) k.
Proof.
  intros Hs. apply wp_bind. eapply wp_mono; [apply omp_setup_spec|].
  intros x k' [_ Ha _]. destruct (Ha Hs) as [Hp [[-> Hl]|[-> Hl]]]; apply wp_ret; auto.
Qed.
End runs.

(** Two handles use the same map under a name; a map nobody else can open. *)
Definition same_map (v : view) (h h' : nat) (m : string) : Prop :=
  is_Some (objs v !! (h, m)) ∧ objs v !! (h, m) = objs v !! (h', m).
Definition private_map (v : view) (h : nat) (m : string) : Prop :=
  ∃ o, objs v !! (h, m) = Some o ∧ ∀ q, pins v !! q ≠ Some o.

Lemma shared_or_private v0 v h h' m p (P : Prop) :
  grows v0 v → pins v = pins v0 → tied v0 h' (m, p) → own_or_pinned v0 v h (m, p) →
  (P → is_Some (pins v0 !! p) → tied v h (m, p)) →
  (same_map v h h' m ∨ private_map v h m) ∧ (P → same_map v h h' m).
Proof.
  intros G Hp Ht (o & Ho & Hown) Hopen. pose proof (tied_grows _ _ _ _ G Ht) as Ht'.
  assert (tied v h (m, p) → same_map v h h' m) as Hsame.
  { intros Hh. split; [|by eapply tied_same]. destruct Hh as (o' & Ho' & _). by exists o'. }
  split.
  - destruct Hown as [Hpin|Hfree]; [left; apply Hsame; exists o; by rewrite Hp|right].
    exists o. split; [done|]. by rewrite Hp.
  - intros HP. apply Hsame, Hopen; [done|]. destruct Ht as (o' & _ & Ho'). by exists o'.
Qed.

(** ** Properties of the loaders *)

Module LoadersProps.
Section props.
Context {K : Type} `{HL : LibbpfLaws K}.

(** C10: whatever call fails, a run of the [create_maps] loader exits with 0 or 1,
    removes or replaces no pin and writes no map; when it exits with 0 the link is
    pinned, the switch handler is attached, and each of its three maps is the one
    pinned at its path: the map that was pinned before, if there was one. *)
Theorem create_maps_loader_contract (k : K) :
  let '(r, k') := create_maps_main k in
  let v := view_of k in let v' := view_of k' in
  (r = 0 ∨ r = 1) ∧ pins v ⊆ pins v' ∧ writes v' = writes v ∧
  (r = 0 → is_Some (pins v' !! PIN_PATH_LINK) ∧
    ∃ h, attached v' = ("phantom_switch_handler", h) :: attached v ∧
      ∀ m p, (m, p) ∈ core_maps → ∃ o, objs v' !! (h, m) = Some o ∧ pins v' !! p = Some o ∧
        (∀ o', pins v !! p = Some o' → o' = o)).
Proof.
  pose proof (create_maps_main_spec k) as Hw. unfold wp in Hw.
  destruct (create_maps_main k) as [r k']. destruct Hw as [Hc Hg Hwr _ Hd].
  split_and!; [done|apply Hg|done|]. intros Hr. destruct (Hd Hr) as (Hl & h & Ha & Ht).
  split; [done|]. exists h. split; [done|]. intros m p Hm. rewrite Forall_forall in Ht.
  destruct (Ht _ Hm) as (o & Ho & Hp). exists o. split_and!; [done..|].
  intros o' Ho'. eapply lookup_weaken in Ho'; [|apply Hg]. simpl in *. congruence.
Qed.

(** Once a run has pinned the link, whether it then succeeded or failed, every
    later run exits with 1 and pins nothing, also after other programs added
    pins. *)
Theorem create_maps_refuses_again (k1 k2 : K) :
  is_Some (pins (view_of (create_maps_main k1).2) !! PIN_PATH_LINK) →
  grows (view_of (create_maps_main k1).2) (view_of k2) →
  (create_maps_main k2).1 = 1 ∧ pins (view_of (create_maps_main k2).2) = pins (view_of k2).
Proof.
  intros [o Ho] Hg. apply (create_maps_main_spec k2). exists o.
  eapply lookup_weaken; [done|apply Hg].
Qed.

(** C15: what the programs share when the three loaders were started one after
    the other, each after the previous one had succeeded: each of the timer's
    maps is the one of the switch handler (the state: the one of the idle
    tracker), or one of its own that no path leads to; and if a path that is
    pinned can always be opened, it is the shared one. *)
Theorem loaders_share_maps (k k1 k2 k3 : K) hg lg ht lt :
  create_maps_main k = (0, k1) → tracker_main k1 = (Waiting hg lg, k2) →
  timer_main k2 = (Waiting ht lt, k3) →
  let v := view_of k3 in
  ∃ hc, ("phantom_switch_handler", hc) ∈ attached v ∧ ("phantom_timer_handler", ht) ∈ attached v ∧
    ∀ m h, m ∈ ["vms"; "vcpus"; "map_registry"] ∧ h = hc ∨ m = "global_tracker_state" ∧ h = hg →
      (same_map v ht h m ∨ private_map v ht m) ∧ (PinsOpen K → same_map v ht h m).
Proof.
  intros H1 H2 H3 v.
  destruct (wp_run _ _ _ _ _ (create_maps_main_spec k) H1) as [_ _ _ _ Hd].
  destruct (Hd eq_refl) as (_ & hc & Ac & Tc).
  destruct (wp_run _ _ _ _ _ (tracker_main_spec k1) H2) as [G2 _ (_ & Tg & _)].
  destruct (wp_run _ _ _ _ _ (timer_main_spec k2) H3) as [G3 P3 _ (_ & At & Own & Tt)].
  exists hc. split_and!.
  - destruct G2 as [_ _ [l2 G2]], G3 as [_ _ [l3 G3]]. unfold v. rewrite G3, G2, Ac. set_solver.
  - unfold v. rewrite At. set_solver.
  - intros m h Hm. assert (∃ p, (m, p) ∈ timer_maps ∧ tied (view_of k2) h (m, p)) as (p & Hp & Ht).
    { destruct Hm as [[Hm ->]|[-> ->]]; [|eexists; split; [|exact Tg]; unfold timer_maps; set_solver].
      assert (∃ p, (m, p) ∈ core_maps ∧ (m, p) ∈ timer_maps) as (p & Hc & Hp)
        by (unfold core_maps, timer_maps; set_solver).
      exists p. split; [done|]. eapply tied_grows; [exact G2|]. by eapply Forall_forall in Tc. }
    eapply Forall_forall in Own; [|exact Hp].
    exact (shared_or_private (view_of k2) v ht h m p _ G3 P3 Ht Own (λ HP, Tt HP _ Hp)).
Qed.

(** The timer's loader changes no pin.  When it reaches its wait, each of the
    four maps it shares is the pinned one or, if the path is not pinned, a map
    that no path leads to: it starts without the maps of the other programs. *)
Theorem timer_loader_maps (k : K) :
  let '(r, k') := timer_main k in
  let v := view_of k in let v' := view_of k' in
  pins v' = pins v ∧ writes v' = writes v ∧
  match r with
  | Exited c => c = 1
  | Waiting h l => attached v' = ("phantom_timer_handler", h) :: attached v ∧
      ∀ m p, (m, p) ∈ timer_maps → ∃ o, objs v' !! (h, m) = Some o ∧
        (pins v !! p = Some o ∨ ∀ q, pins v' !! q ≠ Some o)
  end.
Proof.
  pose proof (timer_main_spec k) as Hw. unfold wp in Hw.
  destruct (timer_main k) as [r k']. destruct Hw as [Hg Hp Hwr Hr]. simpl in *.
  split_and!; [done..|]. destruct r as [c|h l]; [done|]. destruct Hr as (_ & Ha & Hm & _).
  split; [done|]. intros m p Hx. rewrite Forall_forall in Hm. rewrite Hp. apply (Hm _ Hx).
Qed.

(** The idle tracker's loader never writes a pinned map.  When it reaches its
    loop, its state map is the pinned one; a state pinned before is kept as it
    was, and a new one holds what [loader_init] says. *)
Theorem tracker_loader_state (k : K) (c : clock) :
  let '(r, k') := tracker_main k in
  let v := view_of k in let v' := view_of k' in
  (∀ o s, (o, s) ∈ writes v' → (o, s) ∈ writes v ∨ ∀ q, pins v !! q ≠ Some o) ∧
  match r with
  | Exited code => code = 1 ∧ pins v' = pins v
  | Waiting h _ => ∃ o, objs v' !! (h, "global_tracker_state") = Some o ∧
      pins v' !! PIN_PATH_GLOBAL_TRACKER_STATE = Some o ∧
      match pins v !! PIN_PATH_GLOBAL_TRACKER_STATE with
      | Some o' => o' = o ∧ writes v' = writes v
      | None => ∃ nb, 0 <= nb ∧
          option_map (λ s, (o, s) :: writes v)
            (array_lookup tracker_zero (tracker_state (loader_init nb None c)) 0) = Some (writes v')
      end
  end.
Proof.
  pose proof (tracker_main_spec k) as Hw. unfold wp in Hw.
  destruct (tracker_main k) as [r k']. destruct Hw as [Hg Hwr Hr]. simpl in *. split.
  { destruct Hwr as [-> |(o' & nb & _ & -> & Hq)]; [by left|].
    intros o s [[= -> ->]|Hos]%elem_of_cons; [by right|by left]. }
  destruct r as [code|h l]; [done|]. destruct Hr as (_ & (o & Ho & Hp) & Hm). simpl in *.
  exists o. split_and!; [done..|]. destruct (pins (view_of k) !! _) as [o'|] eqn:E.
  - destruct Hm as [Hpp Hm]. rewrite Hpp in Hp. split; [congruence|done].
  - destruct Hm as (o' & nb & Hnb & Hpp & Hm). exists nb. split; [done|].
    rewrite Hpp, lookup_insert_eq in Hp. injection Hp as ->. by rewrite Hm.
Qed.

(** C26: the guest's loader runs once.  When a run that reached its loop is stopped
    by a signal, it exits with 0 and its five pins stay; as long as nobody
    removes them (the loader has no way to, and scripts that restart it do so by
    hand) a later run ends without reaching its loop and without pinning
    anything, and exits with 0 when it could attach its probes. *)
Theorem omp_loader_runs_once (path path' : string) (secs secs' : list bool) (k k1 k2 : K) h l :
  omp_main path [] k = (Waiting h l, k1) → true ∈ secs →
  grows (view_of (omp_main path secs k).2) (view_of k2) →
  (omp_main path secs k).1 = Exited 0 ∧
  (∀ p, p ∈ omp_paths → is_Some (pins (view_of (omp_main path secs k).2) !! p)) ∧
  let '(r, k3) := omp_main path' secs' k2 in
  pins (view_of k3) = pins (view_of k2) ∧
  ((r = Exited 1 ∧ (length (attached (view_of k3)) < 2 + length (attached (view_of k2)))%nat) ∨
   (r = Exited 0 ∧ ∃ h', attached (view_of k3) = omp_probes h' ++ attached (view_of k2))).
Proof.
  intros Hr Hs Hg. destruct (omp_main_stopped _ secs _ _ _ _ Hr Hs) as (k' & Hk & Hv & Hp).
  rewrite Hk in *. simpl in *. rewrite <-Hv, Forall_forall in Hp. split_and!; [done..|].
  pose proof (omp_main_refused path' secs' k2) as Hw. unfold wp in Hw.
  destruct (omp_main path' secs' k2) as [r k3]. apply Hw.
  destruct (Hp PIN_MASTER_LINK) as [o Ho]; [unfold omp_paths; set_solver|].
  exists o. eapply lookup_weaken; [done|apply Hg].
Qed.

(** When the object of the message timer is loaded but its map or its program is
    not found, the loader gives up, attaches nothing, and exits with 0. *)
Theorem h2g_loader_gives_up_with_zero (before during : bool) (k k1 k2 : K) obj :
  bpf_object__open h2g_msg_timer_bpf k = (inl obj, k1) → bpf_object__load obj k1 = (0, k2) →
  bpf_object__find_map_fd_by_name obj "h2g_msg_timer_map" k2 < 0 ∨
    bpf_object__find_program_by_name obj "h2g_msg_timer_init" k2 = false →
  let '(r, k') := h2g_main before during k in
  r = Exited 0 ∧ attached (view_of k') = attached (view_of k).
Proof.
  intros Ho Hl Hf. pose proof (wp_run _ _ _ _ _ (open_law _ k) Ho) as [Hv1 _].
  pose proof (wp_run _ _ _ _ _ (load_law obj k1) Hl) as [_ Hv2].
  rewrite decide_True in Hv2 by done. destruct Hv2 as (new & _ & Hv2).
  unfold h2g_main, h2g_setup, mbind, io_bind, asks, fmap, io_fmap. rewrite Ho, Hl. simpl.
  pose proof (h2g_cleanup_spec None obj 0 k2) as Hc. unfold wp in Hc.
  destruct (h2g_cleanup None obj 0 k2) as [c k'] eqn:Hk. simpl in Hc. destruct Hc as [-> Hc].
  destruct (Z.ltb_spec (bpf_object__find_map_fd_by_name obj "h2g_msg_timer_map" k2) 0) as [Hlt|Hge].
  - simpl. rewrite Hk. simpl. by rewrite Hc, Hv2, <-Hv1.
  - destruct Hf as [Hf| ->]; [lia|]. simpl. rewrite Hk. simpl. by rewrite Hc, Hv2, <-Hv1.
Qed.
End props.

(** ** Witnesses, on the kernel of [Bpffs] *)

Import Bpffs.

Definition w_boot : kern := boot [].

Lemma run_result {A} (x : A * kern) a : x.1 = a → x = (a, x.2).
Proof. by destruct x; intros <-. Qed.

(** The kernel after the second of the three map pins failed. *)
Definition w_partial : kern :=
  (create_maps_main (boot [false; false; false; false; false; false; false; true])).2.

Lemma create_maps_loader_contract_witness :
  (create_maps_main w_boot).1 = 0 ∧
  let '(r, k') := create_maps_main w_boot in
  (r = 0 ∨ r = 1) ∧ pins (view_of w_boot) ⊆ pins (view_of k').
Proof.
  split; [by vm_compute|]. pose proof (create_maps_loader_contract w_boot) as Hc.
  destruct (create_maps_main w_boot) as [r k']. destruct Hc as (? & ? & _). by split.
Defined.

Lemma create_maps_refuses_again_witness :
  (create_maps_main w_partial).1 = 1 ∧ pins (view_of w_partial) !! PIN_PATH_VCPUS = None.
Proof.
  split; [|by vm_compute].
  apply (create_maps_refuses_again (boot [false; false; false; false; false; false; false; true])).
  - eexists. vm_compute. reflexivity.
  - apply grows_preorder.
Defined.

Definition w_maps : kern := (create_maps_main w_boot).2.
Definition w_tracker : kern := (tracker_main w_maps).2.
Definition w_timer : kern := (timer_main w_tracker).2.

Lemma loaders_share_maps_witness :
  ∃ hc, ("phantom_switch_handler", hc) ∈ attached (view_of w_timer) ∧
    is_Some (objs (view_of w_timer) !! (3%nat, "global_tracker_state")).
Proof.
  assert ((create_maps_main w_boot).1 = 0) as H1%run_result by (vm_compute; reflexivity).
  assert ((tracker_main w_maps).1 = Waiting 2 None) as H2%run_result by (vm_compute; reflexivity).
  assert ((timer_main w_tracker).1 = Waiting 3 (Some 0%nat)) as H3%run_result
    by (vm_compute; reflexivity).
  destruct (loaders_share_maps _ _ _ _ _ _ _ _ H1 H2 H3) as (hc & Hc & _ & Hs).
  exists hc. split; [exact Hc|].
  exact (proj1 (proj2 (Hs "global_tracker_state" 2%nat (or_intror (conj eq_refl eq_refl)))
    Bpffs.bpffs_pins_open)).
Defined.

Lemma timer_loader_maps_witness :
  pins (view_of (timer_main w_boot).2) = ∅ ∧ is_Some (objs (view_of (timer_main w_boot).2) !! (1%nat, "vms")).
Proof.
  split; [|eexists; vm_compute; reflexivity]. pose proof (timer_loader_maps w_boot) as Ht.
  destruct (timer_main w_boot) as [r k']. by destruct Ht as (? & _).
Defined.

Lemma tracker_loader_state_witness :
  writes (view_of (tracker_main (tracker_main w_boot).2).2) = writes (view_of (tracker_main w_boot).2).
Proof.
  pose proof (tracker_loader_state (tracker_main w_boot).2 (Clock (λ _, 0) 0)) as Ht.
  assert ((tracker_main (tracker_main w_boot).2).1 = Waiting 2 None) as Hr by by vm_compute.
  assert (pins (view_of (tracker_main w_boot).2) !! PIN_PATH_GLOBAL_TRACKER_STATE = Some 3%nat) as Hp
    by by vm_compute.
  destruct (tracker_main (tracker_main w_boot).2) as [r k']. simpl in Hr. subst r.
  destruct Ht as (_ & o & _ & _ & Hm). cbv zeta in Hm. rewrite Hp in Hm. apply Hm.
Defined.

Definition w_lib : string := "/lib/libgomp.so.1".
Definition w_omp : kern := (omp_main w_lib [false; true] w_boot).2.

Lemma omp_loader_runs_once_witness :
  (omp_main w_lib [false; true] w_boot).1 = Exited 0 ∧ (omp_main w_lib [] w_omp).1 = Exited 0.
Proof.
  assert ((omp_main w_lib [] w_boot).1 = Waiting 1 (Some 0%nat)) as H1%run_result
    by (vm_compute; reflexivity).
  destruct (omp_loader_runs_once w_lib w_lib [false; true] [] _ _ w_omp _ _ H1) as (H2 & _ & _).
  - apply list_elem_of_further, list_elem_of_here.
  - apply grows_preorder.
  - split; [exact H2|vm_compute; reflexivity].
Defined.

(** The object is opened and loaded; its program is not found. *)
Definition w_h2g : kern := boot [false; false; true].
Definition w_h2g_open : kern := (bpf_object__open h2g_msg_timer_bpf w_h2g).2.

Lemma h2g_loader_gives_up_with_zero_witness :
  (h2g_main false false w_h2g).1 = Exited 0.
Proof.
  assert ((bpf_object__open h2g_msg_timer_bpf w_h2g).1 = inl 1%nat) as H1%run_result
    by (vm_compute; reflexivity).
  assert ((bpf_object__load 1 w_h2g_open).1 = 0) as H2%run_result by (vm_compute; reflexivity).
  pose proof (h2g_loader_gives_up_with_zero false false _ _ _ _ H1 H2) as Hw.
  destruct (h2g_main false false w_h2g) as [r k']. apply Hw. right. vm_compute. reflexivity.
Defined.
End LoadersProps.
