(* ===== verification/ProbeLoaders.v ===== *)
(** The loaders of the experiments: [barrier_sync.loader.c] and
    [dop_decision.loader.c], as programs over the calls of [Libbpf].

    The first shares the thread map of the guest's loader through its pin and
    refuses to run without it; the second has no map.  Neither pins anything.
    What is printed is left out. *)

From stdpp Require Import strings.
From S2P Require Import Prelude CString BpfMap Libbpf Loaders.

Local Open Scope pv_scope.
Local Open Scope Z_scope.

Definition barrier_sync_bpf : object_file :=
  ObjectFile "barrier_sync.bpf.o" ["omp_threads_map"].
Definition dop_decision_bpf : object_file := ObjectFile "dop_decision.bpf.o" [].

Section loaders.
Context {K : Type} `{Libbpf K}.

(** The label [cleanup] of both programs: the links, latest first, then the object. *)
Fixpoint destroy_links (links : list (option nat)) : io K unit :=
  match links with
  | [] => mret tt
  | l :: links => _ ← bpf_link__destroy l; destroy_links links
  end.

Definition probe_cleanup (links : list (option nat)) (skel : nat) (err : Z) : io K Z :=
  _ ← destroy_links links;
  _ ← bpf_object__close skel;
  mret (if bool_decide (err = 0) then 0 else 1).

(** Attach one program; on failure its link is NULL and the run ends with the
    error, else [next] goes on. *)
Definition attach_probe (skel : nat) (prog : string) (where_ : hook)
    (with_link : option nat → list (option nat)) (next : nat → io K outcome) : io K outcome :=
  link ← bpf_program__attach skel prog where_;
  match link with
  | inr e => Exited <$> probe_cleanup (with_link None) skel (libbpf_get_error (inr e))
  | inl link => next link
  end.

(** [while (!exiting) sleep(1);] and the exit. *)
Definition probe_loop (seconds : list bool) (links : list (option nat)) (skel : nat)
    (last : nat) : io K outcome :=
  if sleep_loop false seconds then Exited <$> probe_cleanup links skel 0
  else mret (Waiting skel (Some last)).

(** ** [barrier_sync.loader.c] *)

Definition barrier_attach (LIBGOMP_PATH : string) (seconds : list bool) (skel : nat) : io K outcome :=
  attach_probe skel "gomp_switch_handler" HAuto (λ s, [None; None; None; s]) $ λ s,
  attach_probe skel "gomp_futex_enter" HAuto (λ f, [None; None; f; Some s]) $ λ f,
  attach_probe skel "gomp_do_wait_handler" (HUsdt LIBGOMP_PATH "gomp" "do_wait")
    (λ d, [None; d; Some f; Some s]) $ λ d,
  attach_probe skel "gomp_phantom_average_handler" (HUsdt LIBGOMP_PATH "gomp" "phantom_average")
    (λ a, [a; Some d; Some f; Some s]) $ λ a,
  probe_loop seconds [Some a; Some d; Some f; Some s] skel a.

Definition barrier_main (LIBGOMP_PATH : string) (seconds : list bool) : io K outcome :=
  let no_links : list (option nat) := [None; None; None; None] in
  skel ← bpf_object__open barrier_sync_bpf;
  match skel with
  | inr _ => mret (Exited 1)
  | inl skel =>
      pinned_map_fd ← bpf_obj_get PIN_OMP_THREADS_MAP;
      if pinned_map_fd <? 0 then Exited <$> probe_cleanup no_links skel (-1) else
      r ← bpf_map__reuse_fd skel "omp_threads_map" pinned_map_fd;
      if r <? 0 then _ ← close pinned_map_fd; Exited <$> probe_cleanup no_links skel (-1) else
      _ ← close pinned_map_fd;
      err ← bpf_object__load skel;
      if bool_decide (err ≠ 0) then Exited <$> probe_cleanup no_links skel err
      else barrier_attach LIBGOMP_PATH seconds skel
  end.

(** ** [dop_decision.loader.c] *)

Definition dop_main (LIBGOMP_PATH : string) (seconds : list bool) : io K outcome :=
  skel ← open_and_load dop_decision_bpf;
  match skel with
  | inr _ => mret (Exited 1)
  | inl skel =>
      attach_probe skel "gomp_dop_decision_handler" (HUsdt LIBGOMP_PATH "gomp" "dop_decision")
        (λ d, [None; d]) $ λ d,
      attach_probe skel "gomp_dyn_max_threads_handler" (HUsdt LIBGOMP_PATH "gomp" "dyn_max_threads")
        (λ m, [m; Some d]) $ λ m,
      probe_loop seconds [Some m; Some d] skel m
  end.
End loaders.

(** ** What a run does *)

Section specs.
Context {K : Type} `{HL : LibbpfLaws K}.
Implicit Types (k : K) (v : view) (h : nat).

Lemma destroy_links_spec ls k : wp (destroy_links ls) (λ _ k', view_of k' = view_of k) k.
Proof.
  revert k. induction ls as [|l ls IH]; intros k; [done|]. simpl.
  wp_call destroy_law. intros Hv. eapply wp_mono; [apply IH|]. simpl. congruence.
Qed.

Lemma probe_cleanup_spec ls h e k :
  wp (Exited <$> probe_cleanup ls h e)
    (λ r k', r = Exited (if bool_decide (e = 0) then 0 else 1) ∧ view_of k' = view_of k) k.
Proof.
  apply wp_fmap. wp_call destroy_links_spec. intros Hv. wp_call close_object_law. intros Hv'.
  apply wp_ret. split; [done|congruence].
Qed.

(** A run of a loader that attaches [progs] in order, to a handle whose maps are
    tied as [ds] says: nothing is pinned, replaced or written, a failure exits
    with 1 after a prefix of the programs, and otherwise all are attached. *)
Record probe_post (ds : list (string * string)) (progs : list string) (stop : bool)
    v0 (r : outcome) v : Prop := {
  pp_grows : grows v0 v;
  pp_pins : pins v = pins v0;
  pp_writes : writes v = writes v0;
  pp_result :
    (r = Exited 1 ∧ ∃ h n, (n < length progs)%nat ∧
       attached v = map (λ p, (p, h)) (reverse (take n progs)) ++ attached v0) ∨
    (∃ h, (if stop then r = Exited 0 else ∃ l, r = Waiting h (Some l)) ∧ Forall (tied v h) ds ∧
       attached v = map (λ p, (p, h)) (reverse progs) ++ attached v0)
}.

(** The state between two calls: [n] programs attached. *)
Record attaching (ds : list (string * string)) (progs : list string) v0 h (n : nat) v : Prop := {
  at_grows : grows v0 v;
  at_pins : pins v = pins v0;
  at_writes : writes v = writes v0;
  at_tied : Forall (tied v h) ds;
  at_attached : attached v = map (λ p, (p, h)) (reverse (take n progs)) ++ attached v0
}.

Lemma attaching_quit ds progs stop v0 h n ls e k :
  attaching ds progs v0 h n (view_of k) → (n < length progs)%nat → e ≠ 0 →
  wp (Exited <$> probe_cleanup ls h e) (λ r k', probe_post ds progs stop v0 r (view_of k')) k.
Proof.
  intros [] Hn He. eapply wp_mono; [apply probe_cleanup_spec|]. intros r k' [-> ->].
  rewrite bool_decide_false by done. split; [done..|]. left. split; [done|]. by exists h, n.
Qed.

Lemma wp_attach_probe ds progs stop v0 h n prog w wl next k :
  progs !! n = Some prog → attaching ds progs v0 h n (view_of k) →
  (∀ l k', attaching ds progs v0 h (S n) (view_of k') →
    wp (next l) (λ r k', probe_post ds progs stop v0 r (view_of k')) k') →
  wp (attach_probe h prog w wl next) (λ r k', probe_post ds progs stop v0 r (view_of k')) k.
Proof.
  intros Hp Ha Hnext. wp_call attach_law. destruct r as [l|e].
  - intros Hv. apply Hnext. destruct Ha. rewrite Hv. split; try done.
    + etrans; [done|auto with pv].
    + simpl. rewrite at_attached0, (take_S_r _ _ _ Hp), reverse_app. done.
  - intros [He Hv]. eapply attaching_quit; [by rewrite Hv| |simpl; lia].
    by eapply lookup_lt_Some.
Qed.

Lemma probe_loop_spec ds progs v0 h secs ls last k :
  attaching ds progs v0 h (length progs) (view_of k) →
  wp (probe_loop secs ls h last)
    (λ r k', probe_post ds progs (sleep_loop false secs) v0 r (view_of k')) k.
Proof.
  intros []. unfold probe_loop. rewrite firstn_all in at_attached0. case_match.
  - eapply wp_mono; [apply probe_cleanup_spec|]. intros r k' [-> ->].
    rewrite bool_decide_true by done. split; [done..|]. right. by exists h.
  - apply wp_ret. split; [done..|]. right. exists h. eauto.
Qed.

Definition barrier_programs : list string :=
  ["gomp_switch_handler"; "gomp_futex_enter"; "gomp_do_wait_handler"; "gomp_phantom_average_handler"].
Definition barrier_maps : list (string * string) := [("omp_threads_map", PIN_OMP_THREADS_MAP)].
Definition dop_programs : list string :=
  ["gomp_dop_decision_handler"; "gomp_dyn_max_threads_handler"].

Lemma barrier_attach_spec path secs v0 h k :
  attaching barrier_maps barrier_programs v0 h 0 (view_of k) →
  wp (barrier_attach path secs h)
    (λ r k', probe_post barrier_maps barrier_programs (sleep_loop false secs) v0 r (view_of k')) k.
Proof.
  intros Ha. unfold barrier_attach.
  eapply (wp_attach_probe _ _ _ _ _ 0); [done|done|]. intros l1 k1 A1.
  eapply (wp_attach_probe _ _ _ _ _ 1); [done|done|]. intros l2 k2 A2.
  eapply (wp_attach_probe _ _ _ _ _ 2); [done|done|]. intros l3 k3 A3.
  eapply (wp_attach_probe _ _ _ _ _ 3); [done|done|]. intros l4 k4 A4.
  by apply probe_loop_spec.
Qed.

(** A run that gives up before it attached anything. *)
Lemma probe_refused ds progs stop v0 h ls e k :
  grows v0 (view_of k) → pins (view_of k) = pins v0 → writes (view_of k) = writes v0 →
  attached (view_of k) = attached v0 → (0 < length progs)%nat → e ≠ 0 →
  wp (Exited <$> probe_cleanup ls h e) (λ r k', probe_post ds progs stop v0 r (view_of k')) k.
Proof.
  intros Hg Hp Hw Ha Hl He. eapply wp_mono; [apply probe_cleanup_spec|]. intros r k' [-> ->].
  rewrite bool_decide_false by done. split; [done..|]. left. split; [done|]. by exists h, 0%nat.
Qed.

Lemma barrier_main_spec path secs k :
  wp (barrier_main path secs)
    (λ r k', probe_post barrier_maps barrier_programs (sleep_loop false secs) (view_of k) r (view_of k')) k.
Proof.
  wp_call open_law. intros [Hv Hr]. destruct r as [h|e].
  2:{ apply wp_ret. rewrite Hv. split; [done..|]. left. split; [done|]. exists 0%nat, 0%nat.
      split; [simpl; lia|done]. }
  destruct Hr as [M0 Hh]. rewrite <-Hv in *. clear Hv k. rename k0 into k.
  wp_call obj_get_spec. intros (Hv1 & M1 & Hg). destruct (r <? 0).
  { apply probe_refused; rewrite ?Hv1; (done || simpl; lia). }
  destruct Hg as [[o Ho] Hfd]. wp_call reuse_law. intros [M2 Hr]. destruct (r0 <? 0).
  { wp_call close_law. intros Hv2. apply probe_refused; rewrite ?Hv2, ?Hr, ?Hv1; (done || simpl; lia). }
  destruct Hr as (o' & Ho' & Hv2). rewrite Hfd, Ho in Ho'. simplify_eq. rewrite Hv1 in Hv2.
  wp_call close_law. intros Hv3. rewrite Hv2 in Hv3. clear Hv2.
  assert (grows (view_of k) (view_of k2)) as G by (rewrite Hv3; auto with pv).
  wp_call load_law. intros [_ Hl]. destruct (decide (r2 = 0)) as [-> |Hne].
  2:{ rewrite bool_decide_true by done. apply probe_refused; rewrite ?Hl; [done|..|done];
      rewrite ?Hv3; simpl; (done || lia). }
  rewrite bool_decide_false by auto. destruct Hl as (new & _ & Hl).
  apply barrier_attach_spec. assert (grows (view_of k2) (view_of k3)) as G3 by (rewrite Hl; auto with pv).
  split; [by etrans|by rewrite Hl, Hv3..| |by rewrite Hl, Hv3].
  apply Forall_singleton. apply (tied_grows (view_of k2)); [done|]. exists o'. rewrite Hv3. simpl.
  by rewrite lookup_insert_eq.
Qed.

Lemma dop_main_spec path secs k :
  wp (dop_main path secs)
    (λ r k', probe_post [] dop_programs (sleep_loop false secs) (view_of k) r (view_of k')) k.
Proof.
  wp_call open_and_load_law. destruct r as [h|e].
  2:{ intros [_ Hv]. apply wp_ret. rewrite Hv. split; [done..|]. left. split; [done|]. exists 0%nat, 0%nat.
      split; [simpl; lia|done]. }
  intros (_ & new & _ & Hv).
  assert (attaching [] dop_programs (view_of k) h 0 (view_of k0)) as A0.
  { rewrite Hv. split; [auto with pv|done..]. }
  eapply (wp_attach_probe _ _ _ _ _ 0); [done|done|]. intros l1 k1 A1.
  eapply (wp_attach_probe _ _ _ _ _ 1); [done|done|]. intros l2 k2 A2.
  by apply probe_loop_spec.
Qed.
End specs.

(** ** Properties of the loaders *)

Module ProbeLoadersProps.
Section props.
Context {K : Type} `{HL : LibbpfLaws K}.

(** Whatever call fails, a run of the barrier experiment's loader pins nothing,
    writes no map and ends in one of three ways: it exits with 1, which it does
    whenever the thread map is not pinned; it waits; or, stopped by a signal, it
    exits with 0.  In the last two cases its four programs are attached, and the
    map they look threads up in is the pinned one. *)
Theorem barrier_loader_contract (path : string) (secs : list bool) (k : K) :
  let '(r, k') := barrier_main path secs k in
  let v := view_of k in let v' := view_of k' in
  pins v' = pins v ∧ writes v' = writes v ∧
  (pins v !! PIN_OMP_THREADS_MAP = None → r = Exited 1) ∧
  (r = Exited 1 ∨
   (r = Exited 0 ↔ true ∈ secs) ∧
   ∃ h o, objs v' !! (h, "omp_threads_map") = Some o ∧ pins v !! PIN_OMP_THREADS_MAP = Some o ∧
     attached v' = map (λ p, (p, h)) (reverse barrier_programs) ++ attached v).
Proof.
  pose proof (barrier_main_spec path secs k) as Hw. unfold wp in Hw.
  destruct (barrier_main path secs k) as [r k']. destruct Hw as [_ Hp Hwr Hres]. cbn [fst snd] in *.
  split_and!; [done|done|..].
  - intros Hn. destruct Hres as [[-> _]|(h & _ & (o & _ & Ho)%Forall_singleton & _)]; [done|].
    rewrite Hp in Ho. simpl in Ho. congruence.
  - destruct Hres as [[-> _]|(h & Hr & (o & Hm & Ho)%Forall_singleton & Ha)]; [by left|right].
    rewrite Hp in Ho. split; [|by exists h, o]. pose proof (sleep_loop_elem false secs) as Hs.
    destruct (sleep_loop false secs); [naive_solver|]. destruct Hr as [l ->]. naive_solver.
Qed.

(** Started after the guest's loader has reached its loop, the experiment looks
    threads up in the very map the guest's programs fill, also when the guest's
    loader has been stopped in between. *)
Theorem barrier_shares_threads (path path' : string) (secs : list bool) (k k1 k2 k3 : K) h l h' l' :
  omp_main path [] k = (Waiting h l, k1) → grows (view_of k1) (view_of k2) →
  barrier_main path' secs k2 = (Waiting h' l', k3) →
  let v := view_of k3 in
  ("gomp_switch_handler", h') ∈ attached v ∧
  is_Some (objs v !! (h, "omp_threads_map")) ∧
  objs v !! (h, "omp_threads_map") = objs v !! (h', "omp_threads_map").
Proof.
  intros Ho Hg Hb. pose proof (omp_main_spec path [] k) as Hw.
  assert (tied (view_of k1) h ("omp_threads_map", PIN_OMP_THREADS_MAP)) as T1
    by exact (wp_run _ _ _ _ _ Hw Ho).
  destruct (wp_run _ _ _ _ _ (barrier_main_spec path' secs k2) Hb) as [G _ _ Hres].
  destruct Hres as [[? _]|(h3 & Hr & HT & Ha)]; [done|].
  pose proof (Forall_inv HT) as T2.
  destruct (sleep_loop false secs); [done|]. destruct Hr as [l3 [= <- _]].
  assert (tied (view_of k3) h ("omp_threads_map", PIN_OMP_THREADS_MAP)) as T3
    by (eapply tied_grows; [|exact T1]; by etrans).
  split_and!; [rewrite Ha; set_solver| |exact (tied_same _ _ _ _ _ _ T3 T2)].
  destruct T3 as (o & Hm & _). by exists o.
Qed.

(** The degree-of-parallelism loader pins nothing and writes no map; it exits with
    1 unless both its programs are attached, and then runs until a signal. *)
Theorem dop_loader_contract (path : string) (secs : list bool) (k : K) :
  let '(r, k') := dop_main path secs k in
  let v := view_of k in let v' := view_of k' in
  pins v' = pins v ∧ writes v' = writes v ∧
  (r = Exited 1 ∨
   (r = Exited 0 ↔ true ∈ secs) ∧
   ∃ h, attached v' = map (λ p, (p, h)) (reverse dop_programs) ++ attached v).
Proof.
  pose proof (dop_main_spec path secs k) as Hw. unfold wp in Hw.
  destruct (dop_main path secs k) as [r k']. destruct Hw as [_ Hp Hwr Hres]. cbn [fst snd] in *.
  split_and!; [done|done|]. destruct Hres as [[-> _]|(h & Hr & _ & Ha)]; [by left|right].
  split; [|by exists h]. pose proof (sleep_loop_elem false secs) as Hs.
  destruct (sleep_loop false secs); [naive_solver|]. destruct Hr as [l ->]. naive_solver.
Qed.
End props.

(** *** Witnesses, on the kernel of [Bpffs] *)

Import Bpffs LoadersProps.

(** The guest's loader waits; the experiment is started and waits as well. *)
Definition pl_omp : kern := (omp_main w_lib [] w_boot).2.
Definition pl_barrier : kern := (barrier_main w_lib [false] pl_omp).2.

Lemma barrier_loader_contract_witness :
  (barrier_main w_lib [false] w_boot).1 = Exited 1 ∧
  (barrier_main w_lib [false; true] pl_omp).1 = Exited 0.
Proof.
  split; [|vm_compute; reflexivity]. pose proof (barrier_loader_contract w_lib [false] w_boot) as Hb.
  destruct (barrier_main w_lib [false] w_boot) as [r k']. apply Hb. vm_compute. reflexivity.
Defined.

Lemma barrier_shares_threads_witness :
  is_Some (objs (view_of pl_barrier) !! (1%nat, "omp_threads_map")) ∧
  objs (view_of pl_barrier) !! (1%nat, "omp_threads_map") =
    objs (view_of pl_barrier) !! (2%nat, "omp_threads_map").
Proof.
  assert ((omp_main w_lib [] w_boot).1 = Waiting 1 (Some 0%nat)) as H1%run_result
    by (vm_compute; reflexivity).
  assert ((barrier_main w_lib [false] pl_omp).1 = Waiting 2 (Some 0%nat)) as H2%run_result
    by (vm_compute; reflexivity).
  exact (proj2 (barrier_shares_threads _ _ _ _ _ _ _ _ _ _ _ H1 (reflexivity _) H2)).
Defined.
End ProbeLoadersProps.
