(* ===== verification/BackendTool.v ===== *)
(** [register_vm_backend.c]: the tool that asks the host module for a backend.

    It reads the number of vCPUs from its argument with [strtol], issues the
    [PHANT_REG] ioctl of [HostIvshmem] and prints the id of the VM and the size
    of its memory, which the caller reads back.  [open_ok] says whether the
    device can be opened; [kenv] holds the answers the module gets. *)

From S2P Require Import Prelude CString BpfMap Host Memory HostIvshmem Qmp.

Local Open Scope pv_scope.

(** ** The C library *)

Fixpoint skip_digits (s : list Z) : list Z :=
  match s with
  | c :: s' => if is_digit c then skip_digits s' else s
  | [] => []
  end.

Definition LONG_MAX : Z := 2 ^ 63 - 1.
Definition LONG_MIN : Z := - 2 ^ 63.

(** The sign of a number and what follows it. *)
Definition scan_sign (s : list Z) : Z * list Z :=
  match s with
  | c :: s' => if c =? 45 then (-1, s') else if c =? 43 then (1, s') else (1, s)
  | [] => (1, s)
  end.

(** [strtol(s, &endptr, 10)]: the value, the rest of the string, and whether
    [errno] is [ERANGE]. *)
Definition strtol (s : list Z) : Z * list Z * bool :=
  let '(sign, t) := scan_sign (skip_space s) in
  match t with
  | c :: _ =>
      if is_digit c then
        let v := sign * digits_val 0 t in
        (Z.max LONG_MIN (Z.min LONG_MAX v), skip_digits t, (v <? LONG_MIN) || (LONG_MAX <? v))
      else (0, s, false)
  | [] => (0, s, false)
  end.

(** The [%d] and [%llu] of [printf]; 20 digits are enough for 64 bits. *)
Definition fmt_llu (n : Z) : list Z := dec_aux 20 n.
Definition fmt_d (n : Z) : list Z := if n <? 0 then 45 :: fmt_llu (- n) else fmt_llu n.

(** ** The program: the module, the exit code and what is printed *)

Definition print_answer (req : vm_reg_req) : list Z :=
  fmt_d (req_vm_id req) ++ 32 :: fmt_llu (req_size req) ++ [10].

Definition register_vm_backend (open_ok : bool) (env : kenv) (argv : list (list Z)) (st : hostmod)
  : hostmod * Z * option (list Z) :=
  match argv with
  | [_; arg] =>
      let '(nb, endptr, erange) := strtol arg in
      if erange || negb (bool_decide (endptr = [])) || (nb <=? 0) then (st, 1, None)
      else if negb open_ok then (st, 1, None)
      else match host_registry_ioctl env true (VmRegReq (u32 nb) 0 0) st with
      | (st, Ok req) => (st, 0, Some (print_answer req))
      | (st, _) => (st, 1, None)
      end
  | _ => (st, 1, None)
  end.

(** ** Printed numbers are read back *)

Lemma skip_digits_app l r : Forall (λ c, is_digit c = true) l → skip_digits (l ++ r) = skip_digits r.
Proof. induction 1 as [|c l Hc _ IH]; [done|]. simpl. by rewrite Hc. Qed.

Lemma digit_head c : is_digit c = true → is_space c = false ∧ (c =? 45) = false ∧ (c =? 43) = false.
Proof.
  unfold is_digit, is_space. rewrite andb_true_iff, !Z.leb_le, orb_false_iff, !Z.eqb_neq,
    andb_false_iff, !Z.leb_gt. lia.
Qed.

Lemma fmt_llu_head n : 0 <= n → ∃ c l, fmt_llu n = c :: l ∧ is_digit c = true.
Proof.
  intros Hn. pose proof (dec_aux_digits 20 n Hn) as Hd. unfold fmt_llu.
  destruct (dec_aux 20 n) as [|c l] eqn:E; [|apply Forall_cons in Hd as [? _]; eauto].
  exfalso. change (dec_aux 20 n) with
    (if n <? 10 then [48 + n] else dec_aux 19 (n / 10) ++ [48 + n mod 10]) in E.
  destruct (Z.ltb_spec n 10); [done|]. by apply app_nil in E as [_ ?].
Qed.

(** A printed number followed by something that is not a digit. *)
Lemma strtol_fmt n r :
  0 <= n <= LONG_MAX → (∀ c, head r = Some c → is_digit c = false) →
  strtol (fmt_llu n ++ r) = (n, r, false).
Proof.
  unfold LONG_MAX. intros Hn Hr. destruct (fmt_llu_head n) as (d & l & Hd & Hdig); [lia|].
  assert (Forall (λ c, is_digit c = true) (fmt_llu n)) as Hds by (apply dec_aux_digits; lia).
  assert (digits_val 0 (fmt_llu n ++ r) = n) as Hval.
  { transitivity (digits_val 0 (fmt_llu n)); [|apply dec_aux_val; simpl; lia].
    destruct r as [|c r]; [by rewrite app_nil_r|].
    apply (proj2 (digits_val_app 0 (fmt_llu n) c r Hds)). by apply Hr. }
  assert (skip_digits (fmt_llu n ++ r) = r) as Hskip.
  { rewrite skip_digits_app by done. destruct r as [|c r]; [done|]. simpl. by rewrite Hr. }
  destruct (digit_head d Hdig) as (H1 & H2 & H3).
  unfold strtol. rewrite Hd in *. cbn [app skip_space] in *. rewrite H1. cbn [scan_sign].
  rewrite H2, H3. cbv beta iota. rewrite Hdig. cbv zeta. rewrite Z.mul_1_l, Hval, Hskip.
  unfold LONG_MIN, LONG_MAX. f_equal; [f_equal; lia|].
  apply orb_false_iff. rewrite !Z.ltb_ge. lia.
Qed.

(** What the tool does with a printed positive number. *)
Lemma backend_tool_request prog n open_ok env st :
  0 < n <= LONG_MAX →
  register_vm_backend open_ok env [prog; fmt_llu n] st =
    if open_ok then
      match host_registry_ioctl env true (VmRegReq (u32 n) 0 0) st with
      | (st, Ok req) => (st, 0, Some (print_answer req))
      | (st, _) => (st, 1, None)
      end
    else (st, 1, None).
Proof.
  intros Hn. unfold register_vm_backend. rewrite <-(app_nil_r (fmt_llu n)).
  rewrite strtol_fmt by (try done; lia). simpl. destruct (Z.leb_spec n 0); [lia|].
  by destruct open_ok.
Qed.

Lemma u32_is_u32 n : is_u32 (u32 n).
Proof. unfold u32. pose proof (Z.mod_pos_bound n (2 ^ 32) ltac:(lia)). lia. Qed.

Lemma backend_size_small nb : is_u32 nb → 0 < backend_size nb <= LONG_MAX.
Proof.
  intros Hnb. destruct (backend_size_bounds nb Hnb) as (H1 & H2 & _).
  rewrite (backend_pages_eq nb Hnb) in *. unfold LONG_MAX, HOST_IVSHMEM_G2H_OFFSET, MSG_SIZE, PAGE_SIZE in *.
  pose proof (Z.div_mod (nb * 64 + 4095) 4096 ltac:(lia)).
  pose proof (Z.mod_pos_bound (nb * 64 + 4095) 4096 ltac:(lia)). lia.
Qed.

(** The line is read back. *)
Lemma print_answer_read req :
  0 <= req_vm_id req <= LONG_MAX → 0 <= req_size req <= LONG_MAX →
  ∃ rest, strtol (print_answer req) = (req_vm_id req, 32 :: rest, false) ∧
    strtol rest = (req_size req, [10], false).
Proof.
  intros Hid Hs. exists (fmt_llu (req_size req) ++ [10]). unfold print_answer, fmt_d.
  destruct (Z.ltb_spec (req_vm_id req) 0); [lia|].
  split; apply strtol_fmt; try done; intros c [= <-]; done.
Qed.

(** A successful ioctl. *)
Lemma ioctl_cases env req st st' rsp :
  host_registry_ioctl env true req st = (st', Ok rsp) → host_register_vm env req st = (st', Ok rsp).
Proof.
  unfold host_registry_ioctl. simpl. destruct (copy_from_user_ok env); simpl; [|done].
  destruct (host_register_vm env req st) as [st1 [rsp1|e|]]; [|done..].
  by destruct (copy_to_user_ok env).
Qed.

(** ** Properties of the tool *)

Module BackendToolProps.

(** C25: for every number of vCPUs of 32 bits, a run that exits with 0 registered a
    new backend with a slot for each of them and touched no other; the line it
    printed is read back as the VM's id and the size of that backend. *)
Theorem backend_tool_registers prog n env st st' out :
  hm_wf st → 0 < n < 2 ^ 32 →
  register_vm_backend true env [prog; fmt_llu n] st = (st', 0, out) →
  ∃ b id line rest, out = Some line ∧
    devices st' = <[id + 1 := b]> (devices st) ∧ devices st !! (id + 1) = None ∧
    HOST_IVSHMEM_G2H_OFFSET + n * MSG_SIZE <= b_size b ∧
    strtol line = (id, 32 :: rest, false) ∧ strtol rest = (b_size b, [10], false).
Proof.
  intros Hwf Hn. rewrite backend_tool_request by (unfold LONG_MAX; lia). rewrite u32_id by lia.
  destruct (host_registry_ioctl env true _ st) as [st1 [rsp|e|]] eqn:Hi; intros [= <- <-].
  apply ioctl_cases in Hi.
  assert (is_u32 (nb_cpu (VmRegReq n 0 0))) as Hnb by (simpl; lia).
  destruct (register_cases env _ st Hwf Hnb)
    as [[e He]|[(_ & _ & He)|(b & Hk & Hb & Hbs & Hbm & Hbd & He)]];
    rewrite Hi in He; [done..|]. injection He as -> ->. simpl in *.
  destruct (backend_size_bounds _ Hnb) as (H1 & H2 & _). pose proof (wf_next _ Hwf) as Hx.
  destruct (print_answer_read (VmRegReq n (next_vm_id st) (backend_size n))) as (rest & R1 & R2).
  { unfold LONG_MAX, MAX_NB_DEVICES in *. simpl. lia. }
  { pose proof (backend_size_small n Hnb). simpl. lia. }
  exists b, (next_vm_id st), (print_answer (VmRegReq n (next_vm_id st) (backend_size n))), rest. split_and!; [done|done| | |exact R1|by rewrite Hbs].
  - apply hm_wf_fresh; [done|lia].
  - rewrite Hbs. simpl in *. lia.
Qed.

(** The number is cut to 32 bits after the check.  A multiple of [2 ^ 32]
    passes, and the run registers a backend without a single guest-to-host
    slot, the first of which the host then reads out of bounds. *)
Theorem backend_tool_wraps prog n env st st' out :
  hm_wf st → 0 < n <= LONG_MAX → n mod 2 ^ 32 = 0 →
  register_vm_backend true env [prog; fmt_llu n] st = (st', 0, out) →
  ∃ b, devices st' !! (next_vm_id st + 1) = Some b ∧ b_size b = HOST_IVSHMEM_G2H_OFFSET ∧
    host_ivshmem_g2h_read (Some b) 0 = Fault.
Proof.
  intros Hwf Hn Hz. rewrite backend_tool_request by done. unfold u32. rewrite Hz.
  destruct (host_registry_ioctl env true _ st) as [st1 [rsp|e|]] eqn:Hi; intros [= <- <-].
  apply ioctl_cases in Hi. assert (is_u32 (nb_cpu (VmRegReq 0 0 0))) as Hnb by (simpl; lia).
  destruct (register_cases env _ st Hwf Hnb)
    as [[e He]|[(_ & _ & He)|(b & _ & Hb & Hbs & _ & _ & He)]];
    rewrite Hi in He; [done..|]. injection He as -> ->. simpl in *.
  rewrite backend_size_0 in Hbs. exists b. rewrite lookup_insert_eq. split_and!; [done..|].
  destruct Hb as (m & Hm & Hms & _). rewrite Hm. apply load_fault. rewrite Hms, Hbs. simpl. lia.
Qed.

(** A run that does not exit with 0 exits with 1 and prints nothing.  It leaves
    the module as it was, except that a failed allocation consumes a VM id and
    that a request which cannot be copied back leaves its VM registered; an
    argument that is not a positive number never reaches the module. *)
Theorem backend_tool_failure open_ok env argv st :
  hm_wf st →
  let '(st', code, out) := register_vm_backend open_ok env argv st in
  (code = 0 ∨ code = 1 ∧ out = None ∧
    (st' = st ∨ (kzalloc_ok env = false ∧ st' = set_next_vm_id (next_vm_id st + 1) st) ∨
     (copy_to_user_ok env = false ∧
      ∃ b, devices st' = <[next_vm_id st + 1 := b]> (devices st)))) ∧
  ((∀ prog arg n, argv = [prog; arg] → strtol arg = (n, [], false) → n <= 0) →
    st' = st ∧ code = 1).
Proof.
  intros Hwf. unfold register_vm_backend.
  destruct argv as [|prog [|arg [|x argv]]]; try (simpl; by auto 6).
  destruct (strtol arg) as [[n endptr] erange] eqn:Hs.
  destruct (erange || negb (bool_decide (endptr = [])) || (n <=? 0)) eqn:Hbad; [by auto 6|].
  rewrite !orb_false_iff, negb_false_iff, bool_decide_eq_true, Z.leb_gt in Hbad.
  destruct Hbad as [[-> ->] Hn].
  assert ((∀ prog0 arg0 n0, [prog; arg] = [prog0; arg0] → strtol arg0 = (n0, [], false) → n0 <= 0)
    → False) as Hno by (intros H; specialize (H _ _ _ eq_refl Hs); lia).
  destruct open_ok; simpl; [|by auto 6].
  unfold host_registry_ioctl. simpl. destruct (copy_from_user_ok env); simpl; [|split; [by auto 6|done]].
  destruct (register_cases env (VmRegReq (u32 n) 0 0) st Hwf (u32_is_u32 n))
    as [[e ->]|[(Hz & _ & ->)|(b & _ & _ & _ & _ & _ & ->)]].
  - split; [by auto 6|done].
  - split; [by auto 7|done].
  - destruct (copy_to_user_ok env); (split; [|done]); [by auto|]. right. split_and!; [done..|].
    right. right. split; [done|]. by exists b.
Qed.

(** ** Witnesses *)

Definition w_st : hostmod := loaded (InitEnv None None true None None None).

Lemma w_st_wf : hm_wf w_st.
Proof. apply loaded_state. by repeat split. Qed.

Definition w_run (n : Z) : hostmod * Z * option (list Z) :=
  register_vm_backend true kenv_ok [[]; fmt_llu n] w_st.

(** Four vCPUs: VM 0 and 16384 bytes. *)
Lemma backend_tool_registers_witness :
  ∃ b, devices (w_run 4).1.1 = <[1 := b]> ∅ ∧ 8448 <= b_size b.
Proof.
  destruct (backend_tool_registers [] 4 kenv_ok w_st (w_run 4).1.1
    (Some (fmt_d 0 ++ 32 :: fmt_llu 16384 ++ [10])))
    as (b & id & line & rest & [= <-] & Hd & _ & Hs & Hl & _).
  - exact w_st_wf.
  - lia.
  - vm_compute. reflexivity.
  - vm_compute in Hl. injection Hl as <- _. exists b. split; [exact Hd|exact Hs].
Defined.

Lemma backend_tool_wraps_witness :
  ∃ b, devices (w_run (2 ^ 32)).1.1 !! 1 = Some b ∧ host_ivshmem_g2h_read (Some b) 0 = Fault.
Proof.
  destruct (backend_tool_wraps [] (2 ^ 32) kenv_ok w_st (w_run (2 ^ 32)).1.1
    (Some (fmt_d 0 ++ 32 :: fmt_llu 8192 ++ [10]))) as (b & Hb & _ & Hf).
  - exact w_st_wf.
  - unfold LONG_MAX. lia.
  - reflexivity.
  - vm_compute. reflexivity.
  - exists b. exact (conj Hb Hf).
Defined.

(** The argument [4x] is refused. *)
Lemma backend_tool_failure_witness :
  register_vm_backend true kenv_ok [[]; [52; 120]] w_st = (w_st, 1, None) ∧ hm_wf w_st.
Proof.
  split; [|exact w_st_wf].
  pose proof (backend_tool_failure true kenv_ok [[]; [52; 120]] w_st w_st_wf) as Hf.
  destruct (register_vm_backend true kenv_ok [[]; [52; 120]] w_st) as [[st' code] out].
  destruct Hf as [Hcode Hf]. destruct Hf as [-> ->].
  - intros prog arg n [= <- <-] Hn. vm_compute in Hn. discriminate Hn.
  - destruct Hcode as [Hc|(_ & -> & _)]; [discriminate Hc|reflexivity].
Defined.
End BackendToolProps.
