(* ===== verification/Readers.v ===== *)
(** The guest's side of the host-to-guest page: the device file
    [/dev/guest_ivshmem] and the programs that read it,
    [test/shmem/guest/read_phantom_avg.c], [test/h2g_read_test.c] and
    [test/barrier_sync/read_phantom_avg.c].

    The programs reach the driver of [GuestIvshmem] through its table of file
    operations.  A process reads its mapping of the device as the memory behind
    it; an access outside the mapping is a [Fault].  A program's result is its
    exit code with the number it prints. *)

From S2P Require Import Prelude CString BpfMap Host Memory HostIvshmem GuestIvshmem Qmp BackendTool.

Local Open Scope pv_scope.

(** ** The device file *)

(** The operations of a driver, as far as the programs use them; [file] is the
    private data of the open file. *)
Record file_operations := FileOps {
  fo_open : guestmod → option Z;
  fo_release : option Z → option Z;
  fo_read : option (option Z → Z → Z → guestmod → result (list Z));
  fo_mmap : option (option Z → Z → Z → guestmod → result (Z * Z))
}.

Definition guest_ivshmem_fops : file_operations :=
  FileOps guest_ivshmem_open guest_ivshmem_release None (Some guest_ivshmem_mmap).

(** [open("/dev/guest_ivshmem", O_RDONLY)]; [deny] is a failure that is not the
    driver's (permissions, descriptors). *)
Definition sys_open (deny : option errno) (ops : file_operations) (st : guestmod)
  : result (option Z) :=
  match deny with
  | Some e => Err e
  | None => if g_node st then Ok (fo_open ops st) else Err ENOENT
  end.

(** [pread]: a file whose driver cannot read is refused with [EINVAL]. *)
Definition sys_pread (ops : file_operations) (file : option Z) (len off : Z) (st : guestmod)
  : result (list Z) :=
  match fo_read ops with Some read => read file len off st | None => Err EINVAL end.

(** [mmap]: the page offset and the number of pages reach the driver; the first
    frame and the length of the mapping. *)
Definition sys_mmap (ops : file_operations) (file : option Z) (len off : Z) (st : guestmod)
  : result (Z * Z) :=
  match fo_mmap ops with
  | Some mmap => mmap file (off / PAGE_SIZE) ((len + PAGE_SIZE - 1) / PAGE_SIZE) st
  | None => Err ENODEV
  end.

(** A load of the process at offset [o] of a mapping of the device. *)
Definition user_load (n : nat) (file : option Z) (map : Z * Z) (o : Z) (st : guestmod) : result Z :=
  let '(pfn, len) := map in
  if negb ((0 <=? o) && (o + Z.of_nat n <=? len)) then Fault
  else match file with
  | None => Fault
  | Some p =>
      match g_heap st !! p with
      | None => Fault
      | Some guest =>
          match pdevs st !! g_pdev guest with
          | None => Fault
          | Some d => load n (bar d) (pfn * PAGE_SIZE + o - bar_start d)
          end
      end
  end.

(** ** [test/shmem/guest/read_phantom_avg.c] *)

Definition read_phantom_avg (deny : option errno) (ops : file_operations) (st : guestmod)
  : result (Z * option Z) :=
  match sys_open deny ops st with
  | Ok file =>
      match sys_mmap ops file PAGE_SIZE 0 st with
      | Ok map =>
          let! msg := user_load 8 file map (H2G_LATEST_SLOT * MSG_SIZE) st in
          let phantom_avg := s64 msg in
          Ok (0, Some (u64 phantom_avg))
      | Err _ => Ok (1, None)
      | Fault => Fault
      end
  | Err _ => Ok (1, None)
  | Fault => Fault
  end.

(** ** [test/h2g_read_test.c] *)

(** The word at the start of a message. *)
Definition msg_word (bytes : list Z) : Z := foldr (λ b v, b + 256 * v) 0 (take 8 bytes).

(** The slot the arguments name, if they are accepted. *)
Definition h2g_slot (argv : list (list Z)) : option Z :=
  match argv with
  | _ :: _ :: _ :: _ => None
  | [_; arg] =>
      let '(slot, endptr, _) := strtol arg in
      if negb (bool_decide (endptr = [])) || (slot <? 0) || (u64 slot >=? NR_HOST_IVSHMEM_MSGS)
      then None else Some slot
  | _ => Some H2G_LATEST_SLOT
  end.

Definition h2g_read_test (deny : option errno) (ops : file_operations) (argv : list (list Z))
    (st : guestmod) : result (Z * option (Z * Z)) :=
  match h2g_slot argv with
  | None => Ok (1, None)
  | Some slot =>
      match sys_open deny ops st with
      | Ok file =>
          match sys_pread ops file MSG_SIZE slot st with
          | Ok bytes =>
              if Z.of_nat (length bytes) =? MSG_SIZE then Ok (0, Some (slot, msg_word bytes))
              else Ok (1, None)
          | Err _ => Ok (1, None)
          | Fault => Fault
          end
      | Err _ => Ok (1, None)
      | Fault => Fault
      end
  end.

(** ** [test/barrier_sync/read_phantom_avg.c] *)

(** The polling loop on the states of the guest at its turns: what it prints
    ([None] for the message about a short read) and its exit code once it
    stops. *)
Fixpoint poll_loop (ops : file_operations) (file : option Z) (turns : list guestmod)
  : result (list (option Z) * option Z) :=
  match turns with
  | [] => Ok ([], None)
  | st :: turns =>
      match sys_pread ops file MSG_SIZE (H2G_LATEST_SLOT * MSG_SIZE) st with
      | Err _ => Ok ([], Some 1)
      | Fault => Fault
      | Ok bytes =>
          let! (out, code) := poll_loop ops file turns in
          Ok ((if Z.of_nat (length bytes) =? MSG_SIZE then Some (msg_word bytes) else None) :: out,
              code)
      end
  end.

Definition poll_phantom_avg (deny : option errno) (ops : file_operations) (st : guestmod)
    (turns : list guestmod) : result (list (option Z) * option Z) :=
  match sys_open deny ops st with
  | Ok file => poll_loop ops file turns
  | Err _ => Ok ([], Some 1)
  | Fault => Fault
  end.

(** ** A guest with the driver loaded on a backend's memory *)

Record attached (id start : Z) (m : mem) (g : guestmod) (p : Z) (guest : guest_ivshmem_device)
    (d : pci_dev) : Prop := {
  at_node : g_node g = true;
  at_ptr : guest_ivshmem g = Some p;
  at_guest : g_heap g !! p = Some guest;
  at_pdev : g_pdev guest = id;
  at_dev : pdevs g !! id = Some d;
  at_bar : bar d = m;
  at_start : bar_start d = start;
  at_metadata : metadata_phy_page guest = start;
  at_h2g : g_h2g_page_size guest = PAGE_SIZE
}.

(** Loading the module on a VM with the host's backend gives such a guest. *)
Lemma load_attached env id start b m g :
  backend_wf b → b_mem b = Some m →
  guest_ivshmem_init env [id] (guest0 {[id := plugged start m]}) = Ok (g, Ok tt) →
  ∃ p guest d, attached id start m g p guest d.
Proof.
  intros (m0 & Hm0 & _ & _ & Hhdr) Hm Hi. assert (m0 = m) as -> by congruence.
  destruct (init_cases id start m env) as (st & r & Hi' & Hr). rewrite Hi in Hi'.
  injection Hi' as <- <-. destruct Hr as [(hdr & page & Hh & Hheap) Hp _ Hd _ _ _ Hn].
  simpl in Hh. rewrite Hhdr in Hh. injection Hh as <-.
  exists 0, (probed_guest id (plugged start m) (new_header (b_size b)) page),
    (set_bound true (set_drvdata (Some 0) (add_resources 1 1 1 (plugged start m)))). split; try done.
  - rewrite Hheap. apply lookup_singleton_eq.
  - rewrite Hd. apply lookup_singleton_eq.
Qed.

(** The host writes into the memory behind the BAR. *)
Lemma attached_share id start m m' g p guest d :
  attached id start m g p guest d →
  attached id start m' (on_pdev id (set_bar m') g) p guest (set_bar m' d).
Proof.
  intros [? ? ? ? Hd ? ? ? ?]. split; try done. simpl. rewrite lookup_alter_eq, Hd. done.
Qed.

Section attached.
Context (id start : Z) (m : mem) (g : guestmod) (p : Z) (guest : guest_ivshmem_device) (d : pci_dev).
Context (Hat : attached id start m g p guest d).
Context (Hstart : 0 <= start) (Halign : start mod PAGE_SIZE = 0) (Hend : start + 2 * PAGE_SIZE < 2 ^ 64).

(** The two pages can be mapped, alone or together. *)
Lemma attached_mmap k n :
  0 <= k < 2 → 0 < n → k + n <= 2 →
  guest_ivshmem_mmap (guest_ivshmem_open g) k n g = Ok (start / PAGE_SIZE + k, n * PAGE_SIZE).
Proof using All.
  intros Hk Hn Hkn. destruct Hat as [_ Hp Hg _ _ _ _ Hm Hh].
  unfold guest_ivshmem_open, guest_ivshmem_mmap. rewrite Hp, Hg, Hm, Hh.
  unfold GUEST_IVSHMEM_METADATA_SIZE, PAGE_SHIFT, PAGE_SIZE in *.
  rewrite Z.shiftl_mul_pow2 by lia. change (2 ^ 12) with 4096.
  rewrite !u64_id by lia. case_bool; [apply orb_true_iff in E as [E|E]; bool_hyps; lia|].
  rewrite Z.shiftr_div_pow2 by lia. change (2 ^ 12) with 4096.
  by rewrite Z.div_add by lia.
Qed.

(** A load through the mapping is a load of the memory. *)
Lemma attached_load j k n o :
  0 <= k → 0 <= o → o + Z.of_nat j <= n * PAGE_SIZE →
  user_load j (guest_ivshmem_open g) (start / PAGE_SIZE + k, n * PAGE_SIZE) o g =
    load j m (k * PAGE_SIZE + o).
Proof using All.
  intros Hk Ho Hlen. destruct Hat as [_ Hp Hg Hid Hd Hb Hs _ _].
  unfold user_load, guest_ivshmem_open.
  destruct (Z.leb_spec 0 o), (Z.leb_spec (o + Z.of_nat j) (n * PAGE_SIZE)); try lia. simpl.
  rewrite Hp, Hg, Hid, Hd, Hb, Hs. f_equal. unfold PAGE_SIZE in *.
  pose proof (Z.div_mod start 4096 ltac:(lia)). lia.
Qed.
End attached.

(** A word is its two halves. *)
Lemma load_le_app n k off bs :
  load_le (n + k) off bs =
    load_le n off bs + 256 ^ Z.of_nat n * load_le k (off + Z.of_nat n) bs.
Proof.
  revert off. induction n as [|n IH]; intros off; [simpl; rewrite Z.add_0_r; lia|].
  cbn [Nat.add load_le]. rewrite IH, Nat2Z.inj_succ, Z.pow_succ_r by lia.
  replace (off + 1 + Z.of_nat n) with (off + Z.succ (Z.of_nat n)) by lia. lia.
Qed.

Lemma load_header_word m hdr :
  read_header m = Ok hdr → load 8 m 0 = Ok (magic hdr + 2 ^ 32 * version hdr).
Proof.
  unfold read_header, load. intros Hr.
  destruct (in_region m 0 4), (in_region m 4 4), (in_region m 8 4), (in_region m 16 8),
    (in_region m 24 8), (in_region m 32 8), (in_region m 40 8) eqn:E; try done.
  injection Hr as <-. simpl magic. simpl version. apply in_region_true in E as [_ E].
  assert (in_region m 0 8 = true) as -> by (apply in_region_true; simpl in *; lia).
  f_equal. exact (load_le_app 4 4 0 (m_bytes m)).
Qed.

(** What the host sees in a slot is what its memory holds there. *)
Lemma view_load hm b m j :
  devices hm !! 1 = Some b → b_mem b = Some m → backend_wf b → 0 <= j < NR_HOST_IVSHMEM_MSGS →
  ∃ v, mod_h2g_view hm j = Some v ∧ load 8 m (HOST_IVSHMEM_H2G_OFFSET + j * MSG_SIZE) = Ok v.
Proof.
  intros Hb Hm (m0 & Hm0 & Hsz & Hlen & _) Hj. assert (m0 = m) as -> by congruence.
  unfold mod_h2g_view. rewrite Hb. destruct b as [mm size ? ? ?]. simpl in *. subst mm.
  unfold NR_HOST_IVSHMEM_MSGS, HOST_IVSHMEM_H2G_OFFSET, PAGE_SIZE, MSG_SIZE in *.
  change (4096 / 64) with 64 in *.
  destruct (Z.leb_spec 0 j), (Z.ltb_spec j 64); try lia. simpl.
  rewrite load_in_region by (simpl; lia). eauto.
Qed.

(** The guest's mapping of the page shows the host's view of its slots. *)
Lemma guest_sees_view id start m g p guest d hm b j :
  attached id start m g p guest d → 0 <= start → start mod PAGE_SIZE = 0 →
  start + 2 * PAGE_SIZE < 2 ^ 64 → devices hm !! 1 = Some b → b_mem b = Some m → backend_wf b →
  0 <= j < NR_HOST_IVSHMEM_MSGS →
  ∃ v, h2g_view hm j = Some v ∧
    user_load 8 (guest_ivshmem_open g) (start / PAGE_SIZE + 1, 1 * PAGE_SIZE) (j * MSG_SIZE) g = Ok v.
Proof.
  intros Hat H0 Hal He Hb Hm Hwf Hj. destruct (view_load hm b m j Hb Hm Hwf Hj) as (v & Hv & Hl).
  exists v. split; [done|].
  rewrite (attached_load id start m g p guest d Hat H0 Hal He); [exact Hl|lia|..];
    unfold NR_HOST_IVSHMEM_MSGS, PAGE_SIZE, MSG_SIZE in *; change (4096 / 64) with 64 in Hj; simpl; lia.
Qed.

Lemma fops_mmap file k n st :
  0 <= k → 0 < n →
  sys_mmap guest_ivshmem_fops file (n * PAGE_SIZE) (k * PAGE_SIZE) st = guest_ivshmem_mmap file k n st.
Proof.
  intros Hk Hn. unfold sys_mmap. simpl. unfold PAGE_SIZE. rewrite Z.div_mul by lia. f_equal.
  rewrite <- Z.add_sub_assoc, Z.div_add_l by lia. change ((4096 - 1) / 4096) with 0. lia.
Qed.

Module ReadersProps.

(** What the host publishes is what the guest's processes read.  In a VM
    whose driver was loaded, however that went, on the memory of the host's
    backend, a process can map the host-to-guest page, and after the host's kfunc
    has written a word to a history slot the process reads that word there and
    in the latest slot, and every other slot unchanged. *)
Theorem published_word_reaches_guest env id start hm b m g i w :
  devices hm !! 1 = Some b → backend_wf b → b_mem b = Some m →
  guest_ivshmem_init env [id] (guest0 {[id := plugged start m]}) = Ok (g, Ok tt) →
  0 <= start → start mod PAGE_SIZE = 0 → start + 2 * PAGE_SIZE < 2 ^ 64 →
  H2G_FIRST_HISTORY_SLOT <= i < NR_HOST_IVSHMEM_MSGS → is_u64 w →
  ∃ hm' b' m' map, bpf_host_ivshmem_h2g_write hm i w = (hm', Ok tt) ∧
    devices hm' !! 1 = Some b' ∧ b_mem b' = Some m' ∧
    let g' := on_pdev id (set_bar m') g in
    let file := fo_open guest_ivshmem_fops g' in
    sys_mmap guest_ivshmem_fops file PAGE_SIZE PAGE_SIZE g' = Ok map ∧
    user_load 8 file map (H2G_LATEST_SLOT * MSG_SIZE) g' = Ok w ∧
    user_load 8 file map (i * MSG_SIZE) g' = Ok w ∧
    ∀ j, 0 <= j < NR_HOST_IVSHMEM_MSGS → j ≠ i → j ≠ H2G_LATEST_SLOT →
      user_load 8 file map (j * MSG_SIZE) g' = user_load 8 file map (j * MSG_SIZE) g.
Proof.
  intros Hb Hwf Hm Hinit H0 Hal He Hi Hw.
  destruct (load_attached env id start b m g Hwf Hm Hinit) as (p & guest & d & Hat).
  destruct (h2g_write_history hm i w) as (hm' & Hwr & Hrdy & Hvi & Hvl & Hoth & _);
    [by exists b|done|done|].
  destruct Hrdy as (b' & Hb' & Hwf'). pose proof Hwf' as (m' & Hm' & _).
  pose proof (attached_share id start m m' g p guest d Hat) as Hat'.
  exists hm', b', m', (start / PAGE_SIZE + 1, 1 * PAGE_SIZE). do 3 (split; [done|]).
  cbv zeta. cbn [fo_open guest_ivshmem_fops].
  assert (∀ j, 0 <= j < NR_HOST_IVSHMEM_MSGS → ∃ v, h2g_view hm' j = Some v ∧
    user_load 8 (guest_ivshmem_open (on_pdev id (set_bar m') g)) (start / PAGE_SIZE + 1, 1 * PAGE_SIZE)
      (j * MSG_SIZE) (on_pdev id (set_bar m') g) = Ok v) as Hload.
  { intros j Hj. by apply (guest_sees_view id start m' _ p guest (set_bar m' d) hm' b' j). }
  split_and!.
  - change PAGE_SIZE with (1 * PAGE_SIZE) at 1 2. rewrite fops_mmap by lia.
    by apply (attached_mmap id start m' _ p guest (set_bar m' d)).
  - destruct (Hload H2G_LATEST_SLOT) as (v & Hv & Hl); [by vm_compute|]. rewrite Hl. congruence.
  - destruct (Hload i) as (v & Hv & Hl); [unfold H2G_FIRST_HISTORY_SLOT in *; lia|]. rewrite Hl. congruence.
  - intros j Hj Hji Hj0. destruct (Hload j Hj) as (v & Hv & Hl). rewrite Hl.
    destruct (guest_sees_view id start m g p guest d hm b j) as (v0 & Hv0 & Hl0); [done..|].
    rewrite Hoth in Hv by done.
    change (guest_ivshmem_open (on_pdev id (set_bar m') g)) with (guest_ivshmem_open g).
    rewrite Hl0. congruence.
Qed.

(** C40: [read_phantom_avg] of [test/shmem] maps the first page of the device,
    which is the metadata: whatever average the host has published, the program
    succeeds and prints the first word of the header, the magic number and the
    version. *)
Theorem read_phantom_avg_prints_header env id start b m g :
  backend_wf b → b_mem b = Some m →
  guest_ivshmem_init env [id] (guest0 {[id := plugged start m]}) = Ok (g, Ok tt) →
  0 <= start → start mod PAGE_SIZE = 0 → start + 2 * PAGE_SIZE < 2 ^ 64 →
  read_phantom_avg None guest_ivshmem_fops g = Ok (0, Some (PVSCHED_MAGIC + 2 ^ 32 * PVSCHED_VERSION)).
Proof.
  intros Hwf Hm Hinit H0 Hal He.
  destruct (load_attached env id start b m g Hwf Hm Hinit) as (p & guest & d & Hat).
  destruct Hwf as (m0 & Hm0 & _ & _ & Hhdr). assert (m0 = m) as -> by congruence.
  unfold read_phantom_avg, sys_open. rewrite (at_node _ _ _ _ _ _ _ Hat). simpl fo_open.
  change (sys_mmap guest_ivshmem_fops (guest_ivshmem_open g) PAGE_SIZE 0 g)
    with (guest_ivshmem_mmap (guest_ivshmem_open g) 0 1 g).
  rewrite (attached_mmap id start m g p guest d Hat) by (done || lia).
  rewrite (attached_load id start m g p guest d Hat) by (done || (unfold PAGE_SIZE; simpl; lia)).
  change (load 8 m _) with (load 8 m 0). rewrite (load_header_word m _ Hhdr). reflexivity.
Qed.

(** The driver has no [read] operation, so the two programs that use
    [pread] can never succeed: whatever their arguments and the state of the
    guest, [h2g_read_test] exits with 1 and prints no message, and the poller
    of [test/barrier_sync] ends with 1 at its first turn. *)
Theorem pread_readers_fail deny argv st turn turns :
  h2g_read_test deny guest_ivshmem_fops argv st = Ok (1, None) ∧
  poll_phantom_avg deny guest_ivshmem_fops st (turn :: turns) = Ok ([], Some 1).
Proof.
  split.
  - unfold h2g_read_test, sys_open. destruct (h2g_slot argv), deny, (g_node st); done.
  - unfold poll_phantom_avg, sys_open. by destruct deny, (g_node st).
Qed.

(** The slot of [h2g_read_test]: a decimal number is accepted exactly when it
    names a slot, and an empty argument is accepted as slot 0. *)
Theorem h2g_slot_argument prog n :
  0 <= n <= LONG_MAX →
  h2g_slot [prog; fmt_llu n] = (if n <? NR_HOST_IVSHMEM_MSGS then Some n else None) ∧
  h2g_slot [prog; []] = Some 0.
Proof.
  intros Hn. split; [|done]. unfold h2g_slot. rewrite <-(app_nil_r (fmt_llu n)), strtol_fmt by done.
  unfold LONG_MAX in Hn. simpl. rewrite u64_id by lia. destruct (Z.ltb_spec n 0); [lia|].
  destruct (n >=? NR_HOST_IVSHMEM_MSGS) eqn:E, (Z.ltb_spec n NR_HOST_IVSHMEM_MSGS); bool_hyps; try lia; done.
Qed.

(** *** Witnesses: the VM of [GuestIvshmemProps], its BAR at [2 ^ 32]. *)

Lemma w_loads : ∃ g, guest_ivshmem_init load_ok [5] (guest0 {[5 := plugged (2 ^ 32) GuestIvshmemProps.w_mem]})
  = Ok (g, Ok tt).
Proof. eexists. vm_compute. reflexivity. Qed.

Lemma w_backend : ∃ b, devices HostIvshmemProps.one_vm !! 1 = Some b ∧ backend_wf b ∧
  b_mem b = Some GuestIvshmemProps.w_mem.
Proof.
  destruct HostIvshmemProps.one_vm_ready as (b & Hb & Hwf). exists b. split; [done|]. split; [done|].
  destruct Hwf as (m & Hm & _).
  assert (GuestIvshmemProps.w_mem = m) as ->; [|done].
  unfold GuestIvshmemProps.w_mem. rewrite Hb. destruct b. simpl in Hm. by subst.
Qed.

Lemma published_word_reaches_guest_witness :
  ∃ map file g', user_load 8 file map (H2G_LATEST_SLOT * MSG_SIZE) g' = Ok 77 ∧
    user_load 8 file map (3 * MSG_SIZE) g' = Ok 77.
Proof.
  destruct w_loads as [g Hg]. destruct w_backend as (b & Hb & Hwf & Hm).
  destruct (published_word_reaches_guest load_ok 5 (2 ^ 32) HostIvshmemProps.one_vm b
    GuestIvshmemProps.w_mem g 3 77) as (hm' & b' & m' & map & _ & _ & _ & _ & H1 & H2 & _).
  - exact Hb.
  - exact Hwf.
  - exact Hm.
  - exact Hg.
  - lia.
  - reflexivity.
  - unfold PAGE_SIZE. lia.
  - split; [unfold H2G_FIRST_HISTORY_SLOT; lia|reflexivity].
  - lia.
  - exists map, (fo_open guest_ivshmem_fops (on_pdev 5 (set_bar m') g)), (on_pdev 5 (set_bar m') g).
    split; [exact H1|exact H2].
Defined.

Lemma read_phantom_avg_prints_header_witness :
  ∃ g, read_phantom_avg None guest_ivshmem_fops g = Ok (0, Some 5508518733).
Proof.
  destruct w_loads as [g Hg]. destruct w_backend as (b & _ & Hwf & Hm). exists g.
  apply (read_phantom_avg_prints_header load_ok 5 (2 ^ 32) b GuestIvshmemProps.w_mem g).
  - exact Hwf.
  - exact Hm.
  - exact Hg.
  - lia.
  - reflexivity.
  - unfold PAGE_SIZE. lia.
Defined.

Lemma h2g_slot_argument_witness : h2g_slot [[]; fmt_llu 63] = Some 63.
Proof. refine (proj1 (h2g_slot_argument [] 63 _)). unfold LONG_MAX. lia. Defined.
End ReadersProps.
