(* ===== verification/EndToEnd.v ===== *)
(** Host and guest together.

    The parts meet in the shared memory: the guest's tracker ([OmpThreadReg])
    writes the slots of its CPUs through the guest driver ([GuestIvshmem]), the
    switch handler of the host ([PhantomSwitch]) reads them through the host
    module ([HostIvshmem]), and the timer ([PhantomTimer]) writes the averages
    the guest's processes map ([Readers]).  A world has both sides and the vCPU
    threads that have left a host CPU; whenever one side has written, the other
    side's copy of the memory is brought up to date.  The theorems relate what happens
    to the threads on both sides with what is counted and published. *)

From S2P Require Import Prelude CString BpfMap Sampling Host Memory HostIvshmem PhantomSwitch.
From S2P Require Import PhantomTimer Buffers GuestIvshmem OmpThreadReg RegisterVm System Qmp BackendTool Readers.

(** ** The world *)

(** What a guest CPU does with its current thread. *)
Inductive guest_event := GMaster | GWorker | GExit | GExec | GSwitch (next : Z).

Definition guest_handle (cpu : Z) (ev : guest_event) (o : omp guestmod) : omp guestmod :=
  match ev with
  | GMaster => capture_omp_master_thread (running o cpu) cpu o
  | GWorker => capture_omp_worker_threads (running o cpu) cpu o
  | GExit => remove_exited_omp_thread (running o cpu) cpu o
  | GExec => remove_execed_omp_thread (running o cpu) cpu o
  | GSwitch next => set_running cpu next (handle_switch (running o cpu) next cpu o)
  end.

Definition guest_may (cpu : Z) (ev : guest_event) (o : omp guestmod) : Prop :=
  0 <= cpu ∧
  match ev with
  | GSwitch next => next = 0 ∨ (∀ c, c ≠ cpu → running o c ≠ next)
  | _ => running o cpu ≠ 0
  end.

(** How a vCPU thread left its host CPU: the state of the event, and whether
    the thread that came in is a vCPU too. *)
Record departure := Departure { d_state : Z; d_for_vcpu : bool }.

(** The handler takes the thread for preempted: rightly so in the first case;
    in the second it does not look at the state. *)
Definition taken_for_preempted (d : departure) : bool :=
  preempted (d_state d) || negb (d_for_vcpu d).

Record world := World {
  host_side : host hostmod;
  guest_side : omp guestmod;
  departed : gmap Z departure   (* vCPU threads that left and have not come back *)
}.

(** The host sees the memory behind the guest's BAR, and the guest the memory
    of the host's first backend. *)
Definition to_host (id : Z) (o : omp guestmod) (st : host hostmod) : host hostmod :=
  match bar <$> pdevs (omp_mod o) !! id with
  | Some m => set_shmem (share m (shmem st)) st
  | None => st
  end.

Definition to_guest (id : Z) (st : host hostmod) (o : omp guestmod) : omp guestmod :=
  match devices (shmem st) !! 1 with
  | Some (Backend (Some m) _ _ _ _) => set_mod (on_pdev id (set_bar m) (omp_mod o)) o
  | _ => o
  end.

(** The vCPU threads off the host's CPUs after a context switch. *)
Definition moved (ctx : sched_switch) (st : host hostmod) (D : gmap Z departure) : gmap Z departure :=
  let D := delete (next_pid ctx) D in
  if bool_decide (is_Some (vcpus st !! prev_pid ctx))
  then <[prev_pid ctx :=
           Departure (prev_state ctx) (bool_decide (is_Some (vcpus st !! next_pid ctx)))]> D
  else D.

(** A guest CPU acts while its vCPU has not left its host CPU; a host CPU
    switches from a thread that has not left to another one; the timer visits a
    VM.  The guest is the one of the VM [name], and the memory of its device is
    the first backend, the one the kfuncs know; vCPUs of other VMs come and go
    as they like. *)
Inductive wstep (id : Z) (name : list Z) : world → world → Prop :=
  | w_guest_step cpu ev st o D :
      guest_may cpu ev o →
      (∀ t v, vcpus st !! t = Some v → vm_name v = name → vcpu_index v = cpu → D !! t = None) →
      let o' := guest_handle cpu ev o in
      wstep id name (World st o D) (World (to_host id o' st) o' D)
  | w_switch_step ctx st o D :
      is_u32 (next_pid ctx) → is_u32 (prev_pid ctx) → is_u64 (prev_state ctx) →
      D !! prev_pid ctx = None → prev_pid ctx ≠ next_pid ctx →
      wstep id name (World st o D) (World (phantom_switch_handler ctx st) o (moved ctx st D))
  | w_timer_step n vm st o D :
      vms st !! n = Some vm →
      let st' := callback_fn n vm st in
      wstep id name (World st o D) (World st' (to_guest id st' o) D).

(** ** The slots on both sides *)

Lemma linked_word id g hm i :
  linked id g hm → 0 <= i < NR_GUEST_IVSHMEM_MSGS →
  bpf_host_ivshmem_g2h_read hm i = Ok (g2h_word g i).
Proof.
  intros (b & m & Hb & Hm & _ & Hpub) Hi. simpl.
  rewrite (guest_word_published g id _ m i Hpub).
  unfold kfunc_g2h_read, host_ivshmem_g2h_read. rewrite Hb, Hm.
  destruct Hpub as (p & guest & d & len & _ & _ & _ & _ & _ & _ & Ho & Hl & Hin).
  unfold NR_GUEST_IVSHMEM_MSGS, PAGE_SIZE, MSG_SIZE in *. change (4096 / 64) with 64 in *.
  destruct (i >=? 64) eqn:E; bool_hyps; [lia|]. by rewrite load_in_region by (simpl; lia).
Qed.

Lemma g2h_read_past (hm : hostmod) i :
  NR_GUEST_IVSHMEM_MSGS <= i → is_ok (bpf_host_ivshmem_g2h_read hm i) = false.
Proof.
  intros Hi. simpl. unfold kfunc_g2h_read, host_ivshmem_g2h_read.
  destruct (devices hm !! 1) as [b|]; [|done]. destruct (b_mem b); [|done].
  destruct (i >=? NR_GUEST_IVSHMEM_MSGS) eqn:E; bool_hyps; [done|lia].
Qed.

Lemma share_share m m' hm : share m (share m' hm) = share m hm.
Proof.
  unfold share, set_devices. simpl. f_equal. rewrite alter_alter_eq.
  apply alter_ext. by intros [] _.
Qed.

(** The guest's memory is the one the host would see. *)
Definition synced (id : Z) (g : guestmod) (hm : hostmod) : Prop :=
  ∃ m, (bar <$> pdevs g !! id) = Some m ∧ linked id g (share m hm).

Lemma linked_synced id g hm : linked id g hm → synced id g hm.
Proof.
  intros (b & m & Hb & Hm & Hwf & Hpub). exists m.
  pose proof Hpub as (p & guest & d & len & _ & _ & _ & _ & Hd & Hbar & _).
  split; [rewrite Hd; simpl; by rewrite Hbar|].
  exists (Backend (Some m) (b_size b) (b_minor b) (b_dev b) (b_debugfs b)), m.
  simpl. rewrite lookup_alter_eq, Hb. split_and!; try done. destruct b. simpl in *. by subst.
Qed.

Lemma synced_send id cpu v o hm :
  synced id (omp_mod o) hm → 0 <= cpu → is_u64 v → synced id (omp_mod (send cpu v o)) hm.
Proof.
  intros (m & Hm & Hl) Hcpu Hv.
  change (omp_mod (send cpu v o)) with (guest_g2h_write (omp_mod o) cpu v).1.
  destruct (decide (cpu < NR_GUEST_IVSHMEM_MSGS)) as [Hlt|Hge].
  - destruct (linked_write id (omp_mod o) (share m hm) cpu v Hl ltac:(lia) Hv)
      as (g' & m' & Hw & Hm' & Hl' & _). simpl. rewrite Hw. exists m'. split; [done|].
    by rewrite share_share in Hl'.
  - rewrite g2h_write_past by lia. by exists m.
Qed.

Lemma guest_handle_synced id cpu ev o hm :
  synced id (omp_mod o) hm → 0 <= cpu → synced id (omp_mod (guest_handle cpu ev o)) hm.
Proof.
  intros Hs Hcpu.
  assert (∀ v o, v = 0 ∨ v = 1 → synced id (omp_mod o) hm → synced id (omp_mod (send cpu v o)) hm)
    as Hsend by (intros v o' Hv Ho; apply synced_send; [done|done|lia]).
  assert (∀ tid o, synced id (omp_mod o) hm → synced id (omp_mod (remove_current_tid tid cpu o)) hm)
    as Hrem.
  { intros tid o' Ho. unfold remove_current_tid. simpl. case_match; [|done]. apply Hsend; auto. }
  destruct ev as [| | | |next]; simpl.
  - unfold capture_omp_master_thread, record_thread. by case_match.
  - unfold capture_omp_worker_threads, record_thread. by case_match.
  - by apply Hrem.
  - by apply Hrem.
  - unfold handle_switch. repeat case_match; auto.
Qed.

(** A guest CPU writes no slot but its own. *)
Lemma guest_handle_words cpu ev o c :
  g2h_up (omp_mod o) → 0 <= cpu → has_slot c → c ≠ cpu →
  g2h_word (omp_mod (guest_handle cpu ev o)) c = g2h_word (omp_mod o) c.
Proof.
  intros Hup Hcpu Hc Hne.
  assert (∀ v o, v = 0 ∨ v = 1 → g2h_up (omp_mod o) → g2h_up (omp_mod (send cpu v o)) ∧
    g2h_word (omp_mod (send cpu v o)) c = g2h_word (omp_mod o) c) as Hsend.
  { intros v o' Hv Ho. destruct (send_spec cpu v o' Ho Hcpu Hv) as (Hu & _ & _ & Hw).
    split; [done|]. rewrite Hw by done. by rewrite decide_False. }
  assert (∀ tid o, g2h_up (omp_mod o) →
    g2h_word (omp_mod (remove_current_tid tid cpu o)) c = g2h_word (omp_mod o) c) as Hrem.
  { intros tid o' Ho. unfold remove_current_tid. cbn [omp_mod set_threads].
    case_match; [|done]. apply Hsend; auto. }
  destruct ev as [| | | |next]; simpl guest_handle.
  - unfold capture_omp_master_thread, record_thread. by case_match.
  - unfold capture_omp_worker_threads, record_thread. by case_match.
  - by apply Hrem.
  - by apply Hrem.
  - unfold handle_switch. cbn [omp_mod set_running].
    destruct (omp_threads_map o !! running o cpu).
    + destruct (Hsend 0 o) as [Hu0 Hw0]; [by left|done|]. case_match; [|done].
      destruct (Hsend 1 (send cpu 0 o)) as [_ ->]; [by right|done|done].
    + case_match; [|done]. apply Hsend; auto.
Qed.

Lemma guest_handle_step cpu ev o : guest_may cpu ev o → omp_step o (guest_handle cpu ev o).
Proof. intros [Hc Hev]. destruct ev; simpl in *; by constructor. Qed.

(** The word a host thread's vCPU shows, on the guest's side. *)
Lemma openmp_linked id g st v :
  linked id g (shmem st) → 0 <= vcpu_index v →
  openmp_msg st v =
    if decide (vcpu_index v < NR_GUEST_IVSHMEM_MSGS) then g2h_word g (vcpu_index v) else 0.
Proof.
  intros Hl Hi. unfold openmp_msg. case_decide as Hd.
  - by rewrite (linked_word id g) by (done || lia).
  - pose proof (g2h_read_past (shmem st) (vcpu_index v) ltac:(lia)) as Hp.
    by destruct (bpf_host_ivshmem_g2h_read _ _).
Qed.

(** The same words give the same answer. *)
Lemma runs_openmp_linked id g g' st st' t :
  linked id g (shmem st) → linked id g' (shmem st') → vcpus st' = vcpus st →
  (∀ v, vcpus st !! t = Some v → 0 <= vcpu_index v) →
  (∀ v, vcpus st !! t = Some v → has_slot (vcpu_index v) →
     g2h_word g' (vcpu_index v) = g2h_word g (vcpu_index v)) →
  runs_openmp st' t = runs_openmp st t.
Proof.
  intros Hl Hl' Hv Hi Hw. unfold runs_openmp. rewrite Hv.
  destruct (vcpus st !! t) as [v|] eqn:E; [|done]. specialize (Hi v eq_refl). specialize (Hw v eq_refl).
  rewrite (openmp_linked id g st v), (openmp_linked id g' st' v) by done.
  case_decide; [|done]. by rewrite Hw by lia.
Qed.

(** What the guest keeps when the host has written outside of the slots. *)
Definition same_slots (id : Z) (st' : host hostmod) (o : omp guestmod) : Prop :=
  let o' := to_guest id st' o in
  linked id (omp_mod o') (shmem st') ∧
  omp_threads_map o' = omp_threads_map o ∧ running o' = running o ∧
  ∀ c, has_slot c → g2h_word (omp_mod o') c = g2h_word (omp_mod o) c.

Lemma to_guest_slots id o st st' b b' m m' :
  linked id (omp_mod o) (shmem st) → devices (shmem st) !! 1 = Some b → b_mem b = Some m →
  devices (shmem st') !! 1 = Some b' → b_mem b' = Some m' → backend_wf b' → m_size m' = m_size m →
  (∀ j, 0 <= j → bpf_host_ivshmem_g2h_read (shmem st') j = bpf_host_ivshmem_g2h_read (shmem st) j) →
  same_slots id st' o.
Proof.
  intros Hl Hb Hm Hb' Hm' Hwf' Hms Hread. pose proof Hl as (b0 & m0 & Hb0 & Hm0 & _ & Hpub).
  assert (b0 = b) as -> by congruence. assert (m0 = m) as -> by congruence.
  assert (Hto : to_guest id st' o = set_mod (on_pdev id (set_bar m') (omp_mod o)) o).
  { unfold to_guest. rewrite Hb'. destruct b'. simpl in Hm'. by subst. }
  unfold same_slots. rewrite Hto. cbn [omp_mod set_mod omp_threads_map running].
  assert (Hl' : linked id (on_pdev id (set_bar m') (omp_mod o)) (shmem st')).
  { exists b', m'. do 3 (split; [done|]).
    destruct Hpub as (p & guest & d & len & Hp & Hh & Hid & Hpg & Hd & Hbar & Ho & Hlen & Hin).
    exists p, guest, (set_bar m' d), len. simpl. rewrite lookup_alter_eq, Hd. by split_and!; rewrite ?Hms. }
  split; [done|]. do 2 (split; [done|]). intros c Hc.
  pose proof (linked_word _ _ _ c Hl Hc) as H1. pose proof (linked_word _ _ _ c Hl' Hc) as H2.
  rewrite Hread in H2 by lia. congruence.
Qed.

(** A visit of the timer publishes at most one word. *)
Lemma callback_publish_shmem n vm (st : host hostmod) :
  shmem (callback_fn n vm st) = shmem st ∨
  ∃ i w, H2G_FIRST_HISTORY_SLOT <= i < NR_HOST_IVSHMEM_MSGS ∧ is_u64 w ∧
    shmem (callback_fn n vm st) = (bpf_host_ivshmem_h2g_write (shmem st) i w).1.
Proof.
  unfold callback_fn. destruct (collection_keys n) as [k1 k2].
  destruct (map_registry st !! k1) as [m1|]; [|by left].
  destruct (map_registry st !! k2) as [m2|]; [|by left]. right.
  set (ce := Sample _ (now st)). set (cs := Sample _ (now (tick st))).
  assert (Hs : shmem (swap_buffers n vm m1 m2 cs ce (tick (tick st))).2 = shmem st).
  { unfold swap_buffers.
    case_bool; cbn [snd]; rewrite (proj2 (proj2 (proj2 (proj2 (proj2 (put_sample_frame _ _ _ _))))));
      simpl; by rewrite (proj2 (proj2 (proj2 (proj2 (proj2 (put_sample_frame _ _ _ _)))))). }
  destruct (swap_buffers n vm m1 m2 cs ce (tick (tick st))) as [[[m nb] vm'] st']. simpl in Hs.
  pose proof (next_history_slot_range vm') as Hr.
  destruct (next_history_slot vm') as [slot vm'']. unfold write_watermark. simpl. rewrite Hs.
  eexists slot, _. split; [exact Hr|]. split; [apply watermark_u64|done].
Qed.

(** So it reaches the guest's BAR and leaves the slots alone. *)
Lemma callback_slots id n vm st o :
  linked id (omp_mod o) (shmem st) → same_slots id (callback_fn n vm st) o.
Proof.
  intros Hl. pose proof Hl as (b & m & Hb & Hm & Hwf & _).
  destruct (callback_publish_shmem n vm st) as [He|(i & w & Hi & Hw & He)].
  - apply (to_guest_slots id o st _ b b m m); rewrite ?He; done.
  - destruct (h2g_write_history (shmem st) i w) as (hm' & Hwr & _ & _ & _ & _ & Hread);
      [by exists b|done|done|]. rewrite Hwr in He. simpl in He.
    destruct (h2g_write_spec b i w Hwf Hi)
      as (b' & m0 & m' & Hwb & Hm0 & Hm' & _ & _ & _ & _ & Hms & _).
    assert (m0 = m) as -> by congruence.
    apply (to_guest_slots id o st _ b b' m m'); rewrite ?He; try done.
    + simpl in Hwr. unfold kfunc_h2g_write in Hwr. rewrite Hb, Hwb in Hwr. injection Hwr as <-.
      simpl. apply lookup_insert_eq.
    + by eapply backend_wf_write.
Qed.

(** ** The invariant of the world *)

(** A registered vCPU of the VM. *)
Definition in_vm (name : list Z) (st : host hostmod) (t : Z) : Prop :=
  ∃ v, vcpus st !! t = Some v ∧ vm_name v = name.

(** What the flag of a vCPU means. *)
Definition left_openmp (st : host hostmod) (D : gmap Z departure) (t : Z) : Prop :=
  ∃ d, D !! t = Some d ∧ taken_for_preempted d = true ∧ runs_openmp st t = true.

Record winv (id : Z) (name : list Z) (w : world) : Prop := {
  wi_linked : linked id (omp_mod (guest_side w)) (shmem (host_side w));
  wi_counts : phantom_inv (host_side w);
  wi_guest : omp_inv (guest_side w);
  wi_index t v : vcpus (host_side w) !! t = Some v → 0 <= vcpu_index v;
  wi_set t : in_vm name (host_side w) t →
    t ∈ phantom_set (host_side w) ↔ left_openmp (host_side w) (departed w) t
}.

Lemma phantom_set_vcpus (st st' : host hostmod) : vcpus st' = vcpus st → phantom_set st' = phantom_set st.
Proof. intros Hv. unfold phantom_set. by rewrite Hv. Qed.

Lemma left_openmp_iff st st' D t :
  runs_openmp st' t = runs_openmp st t ∨ D !! t = None → left_openmp st' D t ↔ left_openmp st D t.
Proof. unfold left_openmp. intros [-> | ->]; naive_solver. Qed.

Lemma guest_winv id name cpu ev st o D :
  guest_may cpu ev o →
  (∀ t v, vcpus st !! t = Some v → vm_name v = name → vcpu_index v = cpu → D !! t = None) →
  winv id name (World st o D) →
  winv id name (World (to_host id (guest_handle cpu ev o) st) (guest_handle cpu ev o) D).
Proof.
  intros Hmay Hfree [Hl Hc Hg Hi Hs]. simpl in *. set (o' := guest_handle cpu ev o).
  destruct (guest_handle_synced id cpu ev o (shmem st) (linked_synced _ _ _ Hl) (proj1 Hmay))
    as (m & Hm & Hl'). fold o' in Hm, Hl'.
  assert (Hto : to_host id o' st = set_shmem (share m (shmem st)) st) by (unfold to_host; by rewrite Hm).
  split; simpl; rewrite ?Hto; simpl; try done.
  - eapply step_inv; [by apply guest_handle_step|done].
  - intros t Ht. change (in_vm name st t) in Ht. rewrite (phantom_set_vcpus st) by done. rewrite (Hs t Ht).
    symmetry. apply left_openmp_iff. destruct Ht as (v & Hv & Hn).
    destruct (decide (vcpu_index v = cpu)) as [He|He]; [right; by apply (Hfree t v)|left].
    apply (runs_openmp_linked id (omp_mod o) (omp_mod o')); [done|done|done|eauto|].
    intros v' Hv' Hslot. assert (v' = v) as -> by congruence.
    apply guest_handle_words; [apply Hg|apply Hmay|done|done].
Qed.

Lemma timer_winv id name n vm st o D :
  vms st !! n = Some vm → winv id name (World st o D) →
  winv id name (World (callback_fn n vm st) (to_guest id (callback_fn n vm st) o) D).
Proof.
  intros Hn [Hl Hc Hg Hi Hs]. simpl in *. pose proof (callback_counts st n vm Hn) as Hsame.
  destruct (callback_slots id n vm st o Hl) as (Hl' & Hm & Hr & Hw).
  set (st' := callback_fn n vm st) in *. set (o' := to_guest id st' o) in *.
  assert (Hv : vcpus st' = vcpus st) by apply Hsame.
  split; simpl; try done.
  - by apply (same_counts_inv st).
  - destruct Hg as [_ Hw0 Ht0 Ho0 Hi0]. unfold tracked in *.
    split; unfold tracked; rewrite ?Hr, ?Hm; try done.
    + destruct Hl' as (b & m & _ & _ & _ & Hp). by exists id, HOST_IVSHMEM_G2H_OFFSET, m.
    + intros c Hslot. rewrite Hw by done. by apply Hw0.
    + intros c Hslot. rewrite Hw by done. by apply Ht0.
  - rewrite Hv. done.
  - unfold in_vm. rewrite Hv. intros t Ht. rewrite (phantom_set_vcpus st) by done. rewrite (Hs t Ht).
    symmetry. apply left_openmp_iff. left.
    apply (runs_openmp_linked id (omp_mod o) (omp_mod o')); eauto.
Qed.

(** The state by which the handler judges the outgoing thread. *)
Lemma judged_preempted ctx (st : host hostmod) :
  preempted (if decide (is_Some (vcpus st !! next_pid ctx)) then prev_state ctx else 0) =
  taken_for_preempted
    (Departure (prev_state ctx) (bool_decide (is_Some (vcpus st !! next_pid ctx)))).
Proof.
  unfold taken_for_preempted. simpl. rewrite bool_decide_decide.
  case_decide; simpl; [by rewrite orb_false_r|by rewrite orb_true_r].
Qed.

Lemma switch_winv id name ctx st o D :
  is_u32 (next_pid ctx) → is_u32 (prev_pid ctx) → is_u64 (prev_state ctx) →
  D !! prev_pid ctx = None → prev_pid ctx ≠ next_pid ctx →
  winv id name (World st o D) →
  winv id name (World (phantom_switch_handler ctx st) o (moved ctx st D)).
Proof.
  intros Hn Hp Hps Hprev Hne [Hl Hc Hg Hi Hs]. simpl in *. split; simpl; try done.
  - by rewrite handler_shmem.
  - by apply handler_inv.
  - intros t v Hv. apply handler_index in Hv as (v0 & Hv0 & -> & _). eauto.
  - intros t (v & Hv & Hvn). apply handler_index in Hv as (v0 & Hv0 & _ & Hv0n).
    specialize (Hs t (ex_intro _ v0 (conj Hv0 (eq_trans (eq_sym Hv0n) Hvn)))).
    unfold left_openmp in *. rewrite handler_openmp, handler_set by (done || apply Hc).
    rewrite judged_preempted. unfold moved.
    set (d := Departure (prev_state ctx) _). clearbody d.
    destruct (decide (t = prev_pid ctx)) as [->|Htp].
    + rewrite bool_decide_true by eauto. rewrite lookup_insert_eq. rewrite Hprev in Hs.
      assert (prev_pid ctx ∉ phantom_set st) as Hout by (rewrite Hs; naive_solver). clear -Hout Hne.
      destruct (runs_openmp st (prev_pid ctx)); [destruct (taken_for_preempted d) eqn:Ed|];
        simpl; (split; [intros Hin|intros (d' & [= <-] & ? & ?)]); try done.
      * by exists d.
      * by apply elem_of_union_r, elem_of_singleton.
      * destruct Hout. by destruct (runs_openmp st (next_pid ctx)); [apply elem_of_difference in Hin as [? _]|].
      * congruence.
      * destruct Hout. by destruct (runs_openmp st (next_pid ctx)); [apply elem_of_difference in Hin as [? _]|].
    + assert ((if bool_decide (is_Some (vcpus st !! prev_pid ctx))
               then <[prev_pid ctx := d]> (delete (next_pid ctx) D)
               else delete (next_pid ctx) D) !! t = delete (next_pid ctx) D !! t) as ->
        by (case_match; [by rewrite lookup_insert_ne|done]).
      assert (∀ P : gset Z, t ∈ (if runs_openmp st (prev_pid ctx) && taken_for_preempted d
        then P ∪ {[prev_pid ctx]} else P) ↔ t ∈ P) as -> by (intros P; case_match; set_solver).
      destruct (decide (t = next_pid ctx)) as [->|Htn].
      * rewrite lookup_delete_eq. clear -Hs.
        destruct (runs_openmp st (next_pid ctx)); (split; [|naive_solver]); [|naive_solver].
        intros [_ []]%elem_of_difference. by apply elem_of_singleton.
      * rewrite lookup_delete_ne by done. rewrite <-Hs. clear -Htn. case_match; set_solver.
Qed.

Lemma wstep_winv id name w w' : wstep id name w w' → winv id name w → winv id name w'.
Proof.
  intros [cpu ev st o D Hmay Hfree|ctx st o D ????? |n vm st o D Hn].
  - by apply guest_winv.
  - by apply switch_winv.
  - by apply timer_winv.
Qed.

Lemma wsteps_winv id name w w' : rtc (wstep id name) w w' → winv id name w → winv id name w'.
Proof. induction 1; eauto using wstep_winv. Qed.

(** Both sides as they are loaded: no vCPU is flagged, none has left its CPU
    since, no thread of the guest is tracked, its slots are zero. *)
Record world_start (id : Z) (w : world) : Prop := {
  ws_linked : linked id (omp_mod (guest_side w)) (shmem (host_side w));
  ws_counts : phantom_inv (host_side w);
  ws_vcpus t v : vcpus (host_side w) !! t = Some v → is_phantom v = 0 ∧ 0 <= vcpu_index v;
  ws_guest : guest_side w = omp_start (omp_mod (guest_side w));
  ws_words c : has_slot c → g2h_word (omp_mod (guest_side w)) c = 0;
  ws_departed : departed w = ∅
}.

Lemma start_winv id name w : world_start id w → winv id name w.
Proof.
  intros [Hl Hc Hv Hg Hw Ho]. split; try done.
  - rewrite Hg. apply start_inv; [|done].
    destruct Hl as (b & m & _ & _ & _ & Hp). by exists id, HOST_IVSHMEM_G2H_OFFSET, m.
  - intros t v Ht. by apply (Hv t v).
  - intros t _. unfold left_openmp. rewrite Ho, elem_of_phantom_set. split.
    + intros (v & Ht & Hp). apply Hv in Ht. lia.
    + intros (d & Hd & _). by rewrite lookup_empty in Hd.
Qed.

(** A visit of the timer leaves the backend well formed. *)
Lemma callback_ready n vm (st : host hostmod) :
  h2g_ready (shmem st) → h2g_ready (shmem (callback_fn n vm st)).
Proof.
  intros Hr. destruct (callback_publish_shmem n vm st) as [-> |(i & w & Hi & Hw & ->)]; [done|].
  by destruct (h2g_write_history (shmem st) i w) as (hm' & -> & Hr' & _).
Qed.

(** ** Properties *)

Module EndToEndProps.

(** C3: the system counts what its handler means to count.  From the state in
    which both sides are loaded, however guest CPUs enter and leave parallel
    regions and switch threads, host CPUs switch threads and the timer expires: a
    vCPU of the guest's VM is flagged phantom exactly when it is off its host CPU,
    its slot says OpenMP, and it left runnable or for a thread that is not a
    vCPU; each flagged vCPU runs a tracked OpenMP thread in the guest; one that
    left for another vCPU was preempted; and the counter of every VM is the
    number of its flagged vCPUs. *)
Theorem flags_match_departures id name w0 w :
  world_start id w0 → rtc (wstep id name) w0 w →
  (∀ t v, vcpus (host_side w) !! t = Some v → vm_name v = name →
     (is_phantom v = 1 ↔ left_openmp (host_side w) (departed w) t) ∧
     (is_phantom v = 1 → tracked (guest_side w) (running (guest_side w) (vcpu_index v)) ∧
        ∃ d, departed w !! t = Some d ∧ (d_for_vcpu d = true → preempted (d_state d) = true))) ∧
  (∀ n vm, vms (host_side w) !! n = Some vm → phantom_count vm = phantoms n (host_side w)).
Proof.
  intros Hs Hr. pose proof (wsteps_winv id name w0 w Hr (start_winv id name w0 Hs)) as Hw. split.
  - intros t v Ht Hn.
    assert (is_phantom v = 1 ↔ left_openmp (host_side w) (departed w) t) as Hiff.
    { rewrite <-(wi_set _ _ _ Hw t) by by exists v. rewrite elem_of_phantom_set. naive_solver. }
    split; [done|]. intros (d & Hd & Htk & Hrun)%Hiff. split.
    + unfold runs_openmp in Hrun. rewrite Ht in Hrun. apply Z.eqb_eq in Hrun.
      pose proof (wi_index _ _ _ Hw t v Ht) as Hidx.
      rewrite (openmp_linked id (omp_mod (guest_side w))) in Hrun by (done || apply Hw).
      case_decide as Hslot; [|done]. apply (inv_tracked _ (wi_guest _ _ _ Hw)); [lia|done].
    + exists d. split; [done|]. unfold taken_for_preempted in Htk. intros Hv. rewrite Hv in Htk.
      by rewrite orb_false_r in Htk.
  - intros n vm Hn. destruct (wi_counts _ _ _ Hw) as [_ Hc]. by eapply (Hc n), counts_lookup.
Qed.

(** C2: what a process of the first VM's guest reads is the average of the
    counter's history.  In every reachable state of the host, when the timer has
    just visited a VM, a process of the guest on the first backend (whose driver
    was loaded on that memory at some earlier time) that maps the host-to-guest
    page reads in the latest slot a word whose phantom field is the time-weighted
    average of the history of the visited VM's counter, between 0 and that VM's
    number of vCPUs.  The visited VM is the guest's own when there is one VM;
    [MultiVm] says what happens with several. *)
Theorem guest_reads_average st f n vm env id start b0 m0 g :
  reachable (st, f) → vms st !! n = Some vm → index_room 1 st → uptime_ok (ticks (clk st)) st →
  nb_vcpus vm < 2 ^ 16 → h2g_ready (shmem st) →
  backend_wf b0 → b_mem b0 = Some m0 →
  guest_ivshmem_init env [id] (guest0 {[id := plugged start m0]}) = Ok (g, Ok tt) →
  0 <= start → start mod PAGE_SIZE = 0 → start + 2 * PAGE_SIZE < 2 ^ 64 →
  ∃ b m map h w, devices (shmem (callback_fn n vm st)) !! 1 = Some b ∧ b_mem b = Some m ∧
    let g' := on_pdev id (set_bar m) g in
    let file := fo_open guest_ivshmem_fops g' in
    sys_mmap guest_ivshmem_fops file PAGE_SIZE PAGE_SIZE g' = Ok map ∧
    user_load 8 file map (H2G_LATEST_SLOT * MSG_SIZE) g' = Ok w ∧
    collecting st n vm h ∧ sound st vm h ∧
    wm_phantom w = weighted_avg (closed st vm h) ∧ 0 <= wm_phantom w <= nb_vcpus vm.
Proof.
  intros Hreach Hn Hroom Hup Hnb Hr Hwf0 Hm0 Hinit H0 Hal He.
  destruct (reachable_publishes st f n vm) as (_ & h & w & Hcol & Hs & Hv & Hw & Hrange); [done..|].
  destruct (callback_ready n vm st Hr) as (b & Hb & Hwf). pose proof Hwf as (m & Hm & _).
  destruct (load_attached env id start b0 m0 g Hwf0 Hm0 Hinit) as (p & guest & d & Hat).
  pose proof (attached_share id start m0 m g p guest d Hat) as Hat'.
  exists b, m, (start / PAGE_SIZE + 1, 1 * PAGE_SIZE), h, w. do 2 (split; [done|]).
  cbv zeta. cbn [fo_open guest_ivshmem_fops]. split_and!; try done; try apply Hrange.
  - change PAGE_SIZE with (1 * PAGE_SIZE) at 1 2. rewrite fops_mmap by lia.
    by apply (attached_mmap id start m _ p guest (set_bar m d)).
  - destruct (guest_sees_view id start m _ p guest _ _ b H2G_LATEST_SLOT Hat' H0 Hal He Hb Hm Hwf)
      as (v & Hv' & ->); [by vm_compute|]. congruence.
Qed.

(** *** Witnesses: guest CPU 2 runs the OpenMP thread 7 when its vCPU, host thread
    100, is preempted. *)

Import OmpThreadRegProps.

Definition e_host : host hostmod :=
  Host {[PhantomSwitchProps.w_name := VM [] 0 0 0 0 4 0]}
       {[100 := VCPU 2 PhantomSwitchProps.w_name 0]}
       (<[registry_key [118; 109] suffix_1 := 1]> {[registry_key [118; 109] suffix_2 := 2]})
       (<[1 := array_new VM_MAP_MAX_ENTRIES]> {[2 := array_new VM_MAP_MAX_ENTRIES]})
       (array_new 1) (Clock (λ n, 1000 * Z.of_nat n) 0) HostIvshmemProps.one_vm.

Definition e_h1 : host hostmod := to_host 5 o_st1 e_host.
Definition e_h2 : host hostmod := to_host 5 o_st2 e_h1.
Definition e_h3 : host hostmod := to_host 5 o_st3 e_h2.
Definition e_h4 : host hostmod := to_host 5 o_st4 e_h3.
Definition e_preempt : sched_switch := SchedSwitch 100 0 0.
Definition e_start : world := World e_host o_start ∅.
Definition e_end : world :=
  World (phantom_switch_handler e_preempt e_h4) o_st4 (moved e_preempt e_h4 ∅).

Lemma e_world_start : world_start 5 e_start.
Proof.
  split; try done.
  - exact GuestIvshmemProps.w_linked.
  - decide_now.
  - intros t v Ht.
    change (vcpus (host_side e_start)) with ({[100 := VCPU 2 PhantomSwitchProps.w_name 0]} : gmap Z vcpu_t) in Ht.
    apply lookup_singleton_Some in Ht as [_ <-]. simpl. lia.
  - exact o_zero.
Qed.

(** With nobody off its CPU, a guest CPU may act. *)
Lemma guest_acts id cpu ev st o o' st' :
  guest_may cpu ev o → o' = guest_handle cpu ev o → st' = to_host id o' st →
  wstep id PhantomSwitchProps.w_name (World st o ∅) (World st' o' ∅).
Proof. intros Hmay -> ->. apply w_guest_step; [done|]. intros t v _ _ _. apply lookup_empty. Qed.

Lemma e_run : rtc (wstep 5 PhantomSwitchProps.w_name) e_start e_end.
Proof.
  apply rtc_l with (World e_h1 o_st1 ∅).
  { apply (guest_acts 5 2 (GSwitch 7)); [|done|done]. split; [lia|]. right. intros c _. simpl. lia. }
  apply rtc_l with (World e_h2 o_st2 ∅).
  { apply (guest_acts 5 2 GMaster); [|by unfold o_st2|done]. split; [lia|]. simpl. lia. }
  apply rtc_l with (World e_h3 o_st3 ∅).
  { apply (guest_acts 5 2 (GSwitch 0)); [|by unfold o_st3|done]. split; [lia|]. by left. }
  apply rtc_l with (World e_h4 o_st4 ∅).
  { apply (guest_acts 5 2 (GSwitch 7)); [|by unfold o_st4|done]. split; [lia|].
    right. intros c Hc. unfold o_st3, o_st2, capture_omp_master_thread. cbn [running set_running].
    rewrite decide_False, running_switch, running_record by done.
    unfold o_st1. cbn [running set_running]. rewrite decide_False, running_switch by done.
    simpl. lia. }
  apply rtc_once. unfold e_end. generalize e_h4. intros h.
  apply w_switch_step; [simpl; lia..|apply lookup_empty|simpl; lia].
Qed.

Lemma flags_match_departures_witness :
  left_openmp (host_side e_end) (departed e_end) 100 ∧ tracked o_st4 (running o_st4 2).
Proof.
  assert (Hv : vcpus (host_side e_end) !! 100 = Some (VCPU 2 PhantomSwitchProps.w_name 1))
    by (vm_compute; reflexivity).
  destruct (proj1 (flags_match_departures 5 PhantomSwitchProps.w_name e_start e_end e_world_start e_run)
    100 (VCPU 2 PhantomSwitchProps.w_name 1) Hv eq_refl) as [H1 H2].
  split; [by apply H1|]. exact (proj1 (H2 eq_refl)).
Defined.

Lemma guest_reads_average_witness :
  ∃ g map h w, user_load 8 (fo_open guest_ivshmem_fops g) map (H2G_LATEST_SLOT * MSG_SIZE) g = Ok w ∧
    collecting SystemProps.w_preempted (key_of RegisterVmProps.w_name) SystemProps.w_vm h ∧
    wm_phantom w = weighted_avg (closed SystemProps.w_preempted SystemProps.w_vm h).
Proof.
  destruct ReadersProps.w_loads as [g Hg]. destruct ReadersProps.w_backend as (b0 & _ & Hwf0 & Hm0).
  destruct (guest_reads_average SystemProps.w_preempted SystemProps.w_fs
    (key_of RegisterVmProps.w_name) SystemProps.w_vm load_ok 5 (2 ^ 32) b0 GuestIvshmemProps.w_mem g)
    as (b & m & map & h & w & _ & _ & _ & Hload & Hcol & _ & Hw & _).
  - exact SystemProps.w_run.
  - rewrite SystemProps.w_preempted_vms. apply lookup_singleton_eq.
  - intros n vm Hn. apply SystemProps.w_preempted_only in Hn as ->.
    change (buffer_index SystemProps.w_vm) with 1. lia.
  - apply SystemProps.w_preempted_uptime.
  - change (nb_vcpus SystemProps.w_vm) with 2. lia.
  - rewrite SystemProps.w_preempted_shmem. exact BuffersProps.b_ready.
  - exact Hwf0.
  - exact Hm0.
  - exact Hg.
  - lia.
  - reflexivity.
  - unfold PAGE_SIZE. lia.
  - exists (on_pdev 5 (set_bar m) g), map, h, w. split; [exact Hload|]. split; [exact Hcol|exact Hw].
Defined.
End EndToEndProps.
