(* ===== verification/MultiVm.v ===== *)
(** Several VMs on one host.

    Counters, buffers and averages are kept per VM, but the kfuncs of
    [host_ivshmem.c] take no VM: they target the backend of minor 1.  This file
    says what follows.  Two host states are related by [agrees] when they differ
    only in what the kfuncs cannot see; the eBPF programs respect that relation
    ([Proper] instances), for any module whose kfuncs do.  For the real module
    the relation is equality of the first backend: whatever the guests of other
    VMs write is never read, nothing is ever published to them, and the page of
    the first VM shows the average of the VM visited last. *)

From S2P Require Import Prelude CString BpfMap Atomics Sampling Host Memory HostIvshmem PhantomSwitch.
From S2P Require Import PhantomTimer Buffers GuestIvshmem Readers EndToEnd.

(** ** Runs of the host programs *)

Inductive host_event :=
  | Switch (ctx : sched_switch)
  | Period (order : list (list Z)).

Section events.
Context {S : Type} `{HostKfuncs S}.

Definition host_handle (ev : host_event) (st : host S) : host S :=
  match ev with
  | Switch ctx => phantom_switch_handler ctx st
  | Period order => for_each_vm order st
  end.

Definition host_run (evs : list host_event) (st : host S) : host S :=
  foldl (λ st ev, host_handle ev st) st evs.
End events.

(** ** What the kfuncs can see *)

(** Module states the kfuncs cannot tell apart. *)
Class KfuncsRespect {S : Type} `{HostKfuncs S} (R : relation S) := {
  respect_read s s' i : R s s' →
    bpf_host_ivshmem_g2h_read s' i = bpf_host_ivshmem_g2h_read s i;
  respect_write s s' i m : R s s' →
    R (bpf_host_ivshmem_h2g_write s i m).1 (bpf_host_ivshmem_h2g_write s' i m).1
}.

(** Host states that agree on everything but the module, and there up to [R]. *)
Definition agrees {S : Type} (R : relation S) : relation (host S) := λ st st',
  R (shmem st) (shmem st') ∧ st' = set_shmem (shmem st') st.

Section respect.
Context {S : Type} `{HK : HostKfuncs S} (R : relation S) `{HR : !KfuncsRespect R}.
Implicit Types st : host S.

Lemma agrees_set s st : R (shmem st) s → agrees R st (set_shmem s st).
Proof using Type. by split. Qed.

Lemma agrees_vcpus st st' : agrees R st st' → vcpus st' = vcpus st.
Proof using Type. by intros [_ ->]. Qed.

Lemma agrees_inv st st' : agrees R st st' → ∃ s, R (shmem st) s ∧ st' = set_shmem s st.
Proof using Type. intros [Hr E]. eauto. Qed.

#[global] Instance agrees_equivalence `{!Equivalence R} : Equivalence (agrees R).
Proof using Type.
  split.
  - intros st. split; [reflexivity|by destruct st].
  - intros st st' (s & Hr & ->)%agrees_inv. split; [by symmetry|by destruct st].
  - intros st st' st'' (s & Hr & ->)%agrees_inv (s' & Hr' & ->)%agrees_inv.
    refine (agrees_set s' st _). by etrans.
Qed.

Local Ltac fieldwise :=
  intros st st' (s & Hr & ->)%agrees_inv; by split.

#[global] Instance put_vm_proper n vm : Proper (agrees R ==> agrees R) (put_vm n vm).
Proof using Type. fieldwise. Qed.

#[global] Instance put_vcpu_proper t v : Proper (agrees R ==> agrees R) (put_vcpu t v).
Proof using Type. fieldwise. Qed.

#[global] Instance tick_proper : Proper (agrees R ==> agrees R) tick.
Proof using Type. fieldwise. Qed.

#[global] Instance put_sample_proper m i x : Proper (agrees R ==> agrees R) (put_sample m i x).
Proof using Type.
  intros st st' (s & Hr & ->)%agrees_inv. unfold put_sample. simpl. case_match; by split.
Qed.

#[global] Instance record_sample_proper n vm c :
  Proper (agrees R ==> agrees R) (record_sample n vm c).
Proof using Type.
  intros st st' Hst. assert (map_registry st' = map_registry st ∧ clk st' = clk st) as [Hm Hk]
    by (destruct Hst as [_ ->]; done).
  unfold record_sample. rewrite Hm. unfold now. simpl. rewrite Hk.
  repeat case_match; try done; apply put_sample_proper, tick_proper, put_vm_proper, Hst.
Qed.

Lemma openmp_msg_agrees st st' v : agrees R st st' → openmp_msg st' v = openmp_msg st v.
Proof using HR. intros [Hr _]. unfold openmp_msg. by rewrite (respect_read _ _ _ Hr). Qed.

Lemma switch_in_agrees ctx st st' :
  agrees R st st' →
  (switch_in ctx st').1 = (switch_in ctx st).1 ∧ agrees R (switch_in ctx st).2 (switch_in ctx st').2.
Proof using HR.
  intros Hst. assert (vcpus st' = vcpus st ∧ vms st' = vms st) as [Hv Hn]
    by (destruct Hst as [_ ->]; done).
  unfold switch_in. rewrite Hv. destruct (vcpus st !! u32 (next_pid ctx)) as [v|]; [|done].
  rewrite (openmp_msg_agrees st st' v Hst).
  destruct ((openmp_msg st v =? 1) && (is_phantom v =? 1)); [|done]. simpl. rewrite Hn.
  destruct (vms st !! vm_name v) as [vm|]; (split; [done|]); simpl;
    [apply record_sample_proper, put_vm_proper|]; by apply put_vcpu_proper.
Qed.

#[global] Instance switch_out_proper s ctx : Proper (agrees R ==> agrees R) (switch_out s ctx).
Proof using HR.
  intros st st' Hst. assert (vcpus st' = vcpus st ∧ vms st' = vms st) as [Hv Hn]
    by (destruct Hst as [_ ->]; done).
  unfold switch_out. rewrite Hv. destruct (vcpus st !! u32 (prev_pid ctx)) as [v|]; [|done].
  rewrite (openmp_msg_agrees st st' v Hst). case_match; [|done]. simpl. rewrite Hn.
  destruct (vms st !! vm_name v) as [vm|]; simpl;
    [apply record_sample_proper, put_vm_proper|]; by apply put_vcpu_proper.
Qed.

#[global] Instance switch_handler_proper ctx : Proper (agrees R ==> agrees R) (phantom_switch_handler ctx).
Proof using HR.
  intros st st' Hst. unfold phantom_switch_handler.
  destruct (switch_in_agrees ctx st st' Hst) as [Hs Ha].
  destruct (switch_in ctx st) as [s st1], (switch_in ctx st') as [s' st1']. simpl in *. subst s'.
  by apply switch_out_proper.
Qed.

Lemma swap_buffers_agrees n vm m1 m2 cs ce st st' :
  agrees R st st' →
  (swap_buffers n vm m1 m2 cs ce st').1 = (swap_buffers n vm m1 m2 cs ce st).1 ∧
  agrees R (swap_buffers n vm m1 m2 cs ce st).2 (swap_buffers n vm m1 m2 cs ce st').2.
Proof using Type.
  intros Hst. unfold swap_buffers. case_match; (split; [done|]); simpl;
    by apply put_sample_proper, put_vm_proper, put_sample_proper.
Qed.

Lemma write_watermark_agrees i ts p d st st' :
  agrees R st st' → agrees R (write_watermark i ts p d st) (write_watermark i ts p d st').
Proof using HR.
  intros (s & Hr & ->)%agrees_inv. unfold write_watermark. simpl. split; [|done].
  by apply respect_write.
Qed.

#[global] Instance callback_proper n vm : Proper (agrees R ==> agrees R) (callback_fn n vm).
Proof using HR.
  intros st st' Hst. assert (map_registry st' = map_registry st ∧ now st' = now st ∧
    now (tick st') = now (tick st)) as (Hm & Hk & Hk') by (destruct Hst as [_ ->]; done).
  unfold callback_fn. destruct (collection_keys n) as [k1 k2]. rewrite Hm.
  destruct (map_registry st !! k1) as [m1|], (map_registry st !! k2) as [m2|]; try done.
  cbv zeta. rewrite Hk, Hk'.
  set (cs := Sample (phantom_count vm) (now (tick st))).
  set (ce := Sample (phantom_count vm) (now st)).
  destruct (swap_buffers_agrees n vm m1 m2 cs ce (tick (tick st)) (tick (tick st'))) as [Hs Ha];
    [by do 2 apply tick_proper|].
  destruct (swap_buffers n vm m1 m2 cs ce (tick (tick st))) as [[[m k] vm1] st1].
  destruct (swap_buffers n vm m1 m2 cs ce (tick (tick st'))) as [[[m' k'] vm1'] st1'].
  simpl in Hs, Ha. injection Hs as -> -> ->. destruct (next_history_slot vm1) as [slot vm2].
  assert (average_of m (s32 k) st1' = average_of m (s32 k) st1 ∧
          published_idle_avg st1' = published_idle_avg st1 ∧ now st1' = now st1) as (-> & -> & ->)
    by (destruct Ha as [_ ->]; done).
  by apply write_watermark_agrees, put_vm_proper, tick_proper.
Qed.

#[global] Instance visit_proper n : Proper (agrees R ==> agrees R) (visit_vm n).
Proof using HR.
  intros st st' Hst. assert (vms st' = vms st) as Hv by (destruct Hst as [_ ->]; done).
  unfold visit_vm. rewrite Hv. case_match; [by apply callback_proper|done].
Qed.

#[global] Instance for_each_proper order : Proper (agrees R ==> agrees R) (for_each_vm order).
Proof using HR.
  induction order as [|n order IH]; intros st st' Hst; simpl; [done|]. by apply IH, visit_proper.
Qed.

#[global] Instance host_run_proper evs : Proper (agrees R ==> agrees R) (host_run evs).
Proof using HR.
  induction evs as [|[ctx|order] evs IH]; intros st st' Hst; simpl; [done|..]; apply IH; simpl.
  - by apply switch_handler_proper.
  - by apply for_each_proper.
Qed.
End respect.

(** ** The module: only the first backend *)

Definition first_backend : relation hostmod := λ hm hm', devices hm' !! 1 = devices hm !! 1.

#[global] Instance first_backend_equivalence : Equivalence first_backend.
Proof. unfold first_backend. split; [done|intros x y ?; congruence|intros x y z ? ?; congruence]. Qed.

#[global] Instance hostmod_respects : KfuncsRespect first_backend.
Proof.
  unfold first_backend. split; intros hm hm' i; simpl; unfold kfunc_g2h_read, kfunc_h2g_write.
  - by intros ->.
  - intros msg E. rewrite E. case_match; simpl; [by rewrite !lookup_insert_eq|done|done].
Qed.

(** The backends of the other VMs. *)
Definition other_backends (hm hm' : hostmod) : Prop :=
  ∀ k, k ≠ 1 → devices hm' !! k = devices hm !! k.

#[global] Instance other_backends_preorder : PreOrder other_backends.
Proof. split; [done|]. intros x y z H1 H2 k Hk. by rewrite H2, H1. Qed.

Lemma kfunc_write_others hm i m : other_backends hm (kfunc_h2g_write hm i m).1.
Proof.
  intros k Hk. unfold kfunc_h2g_write. case_match; simpl; [|done..]. by rewrite lookup_insert_ne.
Qed.

Lemma host_run_others evs st : other_backends (shmem st) (shmem (host_run evs st)).
Proof.
  revert st. induction evs as [|ev evs IH]; intros st; [done|]. simpl. etrans; [|apply IH]. clear.
  destruct ev as [ctx|order]; simpl; [by rewrite handler_shmem|].
  revert st. induction order as [|n order IH]; intros st; [done|]. simpl. etrans; [|apply IH].
  unfold visit_vm. destruct (vms st !! n) as [vm|]; [|done].
  destruct (callback_publish_shmem n vm st) as [-> |(i & w & _ & _ & ->)]; [done|].
  apply kfunc_write_others.
Qed.

(** The memory of a new backend is zero behind the header. *)
Lemma register_zeroed env req hm hm' rsp :
  hm_wf hm → is_u32 (nb_cpu req) → host_register_vm env req hm = (hm', Ok rsp) →
  ∃ b m, devices hm' !! (req_vm_id rsp + 1) = Some b ∧ b_mem b = Some m ∧ backend_wf b ∧
    ∀ n off, HEADER_SIZE <= off → load n m off = load n (mem_new (b_size b)) off.
Proof.
  intros Hwf Hnb Hr. pose proof (wf_backend _ (register_wf env req hm Hwf Hnb)) as Hall.
  rewrite Hr in Hall. simpl in Hall. revert Hr. unfold host_register_vm.
  case_bool; [done|]. destruct (kzalloc_ok env); [|done]. simpl.
  unfold host_ivshmem_create_static_backend. destruct (vmalloc_ok env); [|done]. simpl.
  destruct (create_header (backend_size (nb_cpu req))) as (m & -> & _ & _ & Hz);
    [by apply backend_size_min|].
  destruct (cdev_add_err env); [done|]. destruct (device_create_err env); [done|]. simpl.
  intros [= <- <-]. simpl in *. eexists _, m. rewrite lookup_insert_eq in *.
  split; [done|]. split; [done|]. split; [|exact Hz].
  eapply Hall. apply lookup_insert_eq.
Qed.

Lemma callback_vms n vm (st : host hostmod) k :
  k ≠ n → vms (callback_fn n vm st) !! k = vms st !! k.
Proof.
  intros Hk. unfold callback_fn. destruct (collection_keys n) as [k1 k2].
  destruct (map_registry st !! k1) as [m1|], (map_registry st !! k2) as [m2|]; try done.
  cbv zeta. set (ce := Sample _ (now st)). set (cs := Sample _ (now (tick st))).
  assert (vms (swap_buffers n vm m1 m2 cs ce (tick (tick st))).2 !! k = vms st !! k) as Hs.
  { unfold swap_buffers. case_match; cbn [snd]; rewrite (proj1 (put_sample_frame _ _ _ _)); simpl;
      rewrite lookup_insert_ne by done; by rewrite (proj1 (put_sample_frame _ _ _ _)). }
  destruct (swap_buffers n vm m1 m2 cs ce (tick (tick st))) as [[[m i] vm1] st1].
  destruct (next_history_slot vm1) as [slot vm2]. simpl in *. by rewrite lookup_insert_ne.
Qed.

(** A visit of other VMs keeps this one's entry and the first backend usable. *)
Lemma for_each_others order (st : host hostmod) n :
  n ∉ order → h2g_ready (shmem st) →
  vms (for_each_vm order st) !! n = vms st !! n ∧ h2g_ready (shmem (for_each_vm order st)).
Proof.
  revert st. induction order as [|k order IH]; intros st Hn Hr; [done|]. simpl.
  apply not_elem_of_cons in Hn as [Hnk Hn].
  assert (vms (visit_vm k st) !! n = vms st !! n ∧ h2g_ready (shmem (visit_vm k st))) as [<- Hr'].
  { unfold visit_vm. destruct (vms st !! k) as [vm|]; [|done].
    split; [by apply callback_vms|by apply callback_ready]. }
  by apply IH.
Qed.

(** ** Properties *)

Module MultiVmProps.

(** C19: the tracker looks at one backend only.  Two hosts that differ in nothing but
    the memory of backends other than the first stay so through every sequence
    of context switches and timer periods: flags, counters, samples and what is
    published are the same, whatever the guests of the other VMs report. *)
Theorem only_first_backend_matters (evs : list host_event) (st st' : host hostmod) :
  agrees first_backend st st' → agrees first_backend (host_run evs st) (host_run evs st').
Proof. apply (host_run_proper first_backend). Qed.

(** C20: nothing is published to the other VMs.  A VM that is not the first one to be
    registered gets a backend whose host-to-guest slots all read 0 for the
    processes of its guest, for ever: after any context switches and timer
    periods, whenever its driver was loaded. *)
Theorem other_guests_read_zero env req hm hm' rsp (st : host hostmod) evs env' id start :
  hm_wf hm → is_u32 (nb_cpu req) → host_register_vm env req hm = (hm', Ok rsp) →
  req_vm_id rsp ≠ 0 → shmem st = hm' →
  0 <= start → start mod PAGE_SIZE = 0 → start + 2 * PAGE_SIZE < 2 ^ 64 →
  ∃ b m, devices (shmem (host_run evs st)) !! (req_vm_id rsp + 1) = Some b ∧ b_mem b = Some m ∧
    ∀ g, guest_ivshmem_init env' [id] (guest0 {[id := plugged start m]}) = Ok (g, Ok tt) →
    let file := fo_open guest_ivshmem_fops g in
    ∃ map, sys_mmap guest_ivshmem_fops file PAGE_SIZE PAGE_SIZE g = Ok map ∧
      ∀ j, 0 <= j < NR_HOST_IVSHMEM_MSGS → user_load 8 file map (j * MSG_SIZE) g = Ok 0.
Proof.
  intros Hwf Hnb Hr Hid Hst H0 Hal He.
  destruct (register_zeroed env req hm hm' rsp Hwf Hnb Hr) as (b & m & Hb & Hm & Hbwf & Hz).
  exists b, m. split; [|split; [done|]].
  { rewrite (host_run_others evs st) by lia. by rewrite Hst. }
  intros g Hg file. destruct (load_attached env' id start b m g Hbwf Hm Hg) as (p & guest & d & Hat).
  exists (start / PAGE_SIZE + 1, 1 * PAGE_SIZE). split.
  - change PAGE_SIZE with (1 * PAGE_SIZE) at 1 2. rewrite fops_mmap by lia.
    by apply (attached_mmap id start m g p guest d).
  - intros j Hj. unfold file. cbn [fo_open guest_ivshmem_fops].
    destruct Hbwf as (_ & _ & _ & Hsz & _).
    unfold NR_HOST_IVSHMEM_MSGS, PAGE_SIZE, MSG_SIZE in *. change (4096 / 64) with 64 in Hj.
    rewrite (attached_load id start m g p guest d Hat H0 Hal He) by (unfold PAGE_SIZE; simpl; lia).
    unfold PAGE_SIZE. rewrite Hz by (unfold HEADER_SIZE; lia).
    rewrite load_in_region by (simpl; lia). done.
Qed.

(** C21: the first VM's guest reads the average of the VM that was visited last,
    whichever that is: after a period whose last visit is to [n], the latest slot
    carries the time-weighted average of the history of [n]. *)
Theorem last_visited_published (st : host hostmod) (H0 : history) order n vm e :
  tracks st H0 → room 1 H0 → NoDup (order ++ [n]) → vms st !! n = Some vm →
  (ticks (clk st) + 3 * length (order ++ [n]) <= e)%nat →
  (∀ k w, k ∈ order ++ [n] → vms st !! k = Some w → period_ok_until e st w (H0 k)) →
  nb_vcpus vm < 2 ^ 16 → h2g_ready (shmem st) →
  let st1 := for_each_vm order st in
  ∃ w, h2g_view (shmem (for_each_vm (order ++ [n]) st)) H2G_LATEST_SLOT = Some w ∧
    wm_phantom w = weighted_avg (closed st1 vm (H0 n)).
Proof.
  intros Ht Hroom (Hnd & Hn & _)%NoDup_app Hvm He Hper Hnb Hr st1.
  assert (n ∉ order) as Hno by (intros Hin; apply (Hn n Hin); set_solver).
  rewrite length_app in He. simpl in He.
  destruct (for_each_tracks order st H0 e Hnd Ht Hroom) as (H' & Ht' & _ & Hout & Hrd & Htk);
    [lia|intros k w Hk; apply Hper; set_solver|].
  destruct (for_each_others order st n Hno Hr) as [Hvm' Hr']. fold st1 in Ht', Hrd, Htk, Hvm', Hr'.
  rewrite Hvm in Hvm'. destruct (tracks_vm _ _ Ht' n vm Hvm') as (_ & _ & _ & Hu).
  assert (for_each_vm (order ++ [n]) st = callback_fn n vm st1) as ->.
  { unfold for_each_vm. rewrite foldl_app. simpl. fold (for_each_vm order st). fold st1.
    unfold visit_vm. by rewrite Hvm'. }
  assert (period_ok st1 vm (H0 n)) as Hp.
  { apply (period_ok_now e); [apply (tracks_clock _ _ Ht')|lia|lia|].
    intros x Hx. rewrite Hrd. apply (Hper n vm); [set_solver|done|done]. }
  rewrite <-(Hout n Hno) in Hp |- *.
  destruct (callback_publishes st1 H' n vm) as (w & Hw & _ & Hph & _); try done.
  - rewrite (Hout n Hno). apply Hroom.
  - by exists w.
Qed.

(** *** Witnesses: two VMs of 4 vCPUs; the guest of the first announces OpenMP on its
    CPU 0, the counters are 0 and 3. *)

Import HostIvshmemProps PhantomSwitchProps.

Definition mv_name : list Z := strncpy_zeroed VM_NAME_LEN [118; 110].
Definition mv_mod : hostmod := (host_register_vm kenv_ok req4 w_mod).1.

Definition mv_vm1 : vm_t := VM [] 0 0 1 0 4 0.
Definition mv_vm2 : vm_t := VM [] 3 0 1 0 4 0.

Definition mv_buffer (c : Z) : array_map sample :=
  array_update (array_new VM_MAP_MAX_ENTRIES) 0 (Sample c 0).

Definition mv_host : host hostmod :=
  Host (<[w_name := mv_vm1]> {[mv_name := mv_vm2]})
       (<[100 := VCPU 0 w_name 0]> {[200 := VCPU 0 mv_name 0]})
       (<[registry_key [118; 109] suffix_1 := 1]> (<[registry_key [118; 109] suffix_2 := 2]>
         (<[registry_key [118; 110] suffix_1 := 3]> {[registry_key [118; 110] suffix_2 := 4]})))
       (<[1 := array_new VM_MAP_MAX_ENTRIES]> (<[2 := mv_buffer 0]>
         (<[3 := array_new VM_MAP_MAX_ENTRIES]> {[4 := mv_buffer 3]})))
       (array_new 1) (Clock (λ n, Z.min (1000 * Z.of_nat n) (2 ^ 40)) 3) mv_mod.

(** The same host after the second guest has announced OpenMP everywhere. *)
Definition mv_other : hostmod :=
  set_devices (alter (λ b, Backend (Some (Mem 16384 (store_le 8 HOST_IVSHMEM_G2H_OFFSET 1 ∅)))
    (b_size b) (b_minor b) (b_dev b) (b_debugfs b)) 2 (devices mv_mod)) mv_mod.

(** Thread 200 of the second VM is preempted: it becomes phantom because the first
    guest announced OpenMP on its CPU 0, whatever its own guest says. *)
Definition mv_events : list host_event := [Switch (SchedSwitch 200 0 0); Period [w_name; mv_name]].

Lemma mv_first_backend : first_backend mv_mod mv_other.
Proof. unfold first_backend, mv_other. cbn [set_devices devices]. by apply lookup_alter_ne. Qed.

Lemma only_first_backend_matters_witness :
  vcpus (host_run mv_events (set_shmem mv_other mv_host)) = vcpus (host_run mv_events mv_host) ∧
  vcpus (host_run [Switch (SchedSwitch 200 0 0)] mv_host) !! 200 = Some (VCPU 0 mv_name 1).
Proof.
  split; [|vm_compute; reflexivity].
  exact (agrees_vcpus first_backend _ _ (only_first_backend_matters mv_events mv_host _
    (agrees_set first_backend mv_other mv_host mv_first_backend))).
Defined.

Lemma one_vm_wf : hm_wf one_vm.
Proof. eapply hm_steps_wf; [apply one_vm_reached|]. apply loaded_state, loads_init_ok. Qed.

Definition mv_two : hostmod := (host_register_vm kenv_ok req4 one_vm).1.

Definition mv_mem : mem := default (mem_new 0) (devices mv_two !! 2 ≫= b_mem).

Definition mv_guest : guestmod :=
  match guest_ivshmem_init load_ok [7] (guest0 {[7 := plugged 65536 mv_mem]}) with
  | Ok (g, _) => g
  | _ => guest0 ∅
  end.

Lemma mv_backend :
  devices (shmem (host_run mv_events (set_shmem mv_two mv_host))) !! 2 ≫= b_mem = Some mv_mem.
Proof.
  rewrite (host_run_others mv_events (set_shmem mv_two mv_host) 2) by lia.
  change (shmem (set_shmem mv_two mv_host)) with mv_two. vm_compute. reflexivity.
Qed.

Lemma mv_guest_loads :
  guest_ivshmem_init load_ok [7] (guest0 {[7 := plugged 65536 mv_mem]}) = Ok (mv_guest, Ok tt).
Proof. vm_compute. reflexivity. Qed.

(** The second VM's guest loads its driver and reads 0 from all its slots after the
    two events. *)
Lemma other_guests_read_zero_witness :
  let file := fo_open guest_ivshmem_fops mv_guest in
  ∃ map, sys_mmap guest_ivshmem_fops file PAGE_SIZE PAGE_SIZE mv_guest = Ok map ∧
    ∀ j, 0 <= j < NR_HOST_IVSHMEM_MSGS → user_load 8 file map (j * MSG_SIZE) mv_guest = Ok 0.
Proof.
  destruct (other_guests_read_zero kenv_ok req4 one_vm mv_two (VmRegReq 4 1 16384)
    (set_shmem mv_two mv_host) mv_events load_ok 7 65536) as (b & m & Hb & Hm & Hg).
  - exact one_vm_wf.
  - simpl. lia.
  - vm_compute. reflexivity.
  - simpl. lia.
  - reflexivity.
  - lia.
  - reflexivity.
  - reflexivity.
  - apply Hg. pose proof mv_backend as E. change (req_vm_id _ + 1) with 2 in Hb.
    rewrite Hb in E. simpl in E. rewrite Hm in E. injection E as ->.
    exact mv_guest_loads.
Defined.

(** Two VMs: the last visited is the second, whose counter is 3. *)
Definition mv_history : history :=
  set_history w_name [Sample 0 0] (set_history mv_name [Sample 3 0] (λ _, [])).

Lemma mv_only n vm :
  vms mv_host !! n = Some vm → n = w_name ∧ vm = mv_vm1 ∨ n = mv_name ∧ vm = mv_vm2.
Proof.
  change (vms mv_host) with (<[w_name := mv_vm1]> {[mv_name := mv_vm2]} : gmap (list Z) vm_t).
  intros [[-> ->]|[_ [-> ->]%lookup_singleton_Some]]%lookup_insert_Some; auto.
Qed.

Lemma mv_history_1 : mv_history w_name = [Sample 0 0].
Proof. apply set_history_eq. Qed.

Lemma mv_history_2 : mv_history mv_name = [Sample 3 0].
Proof. vm_compute. reflexivity. Qed.

Lemma mv_sound c vm : nb_vcpus vm = 4 → phantom_count vm = c → 0 <= c <= 4 → sound mv_host vm [Sample c 0].
Proof.
  intros Hnb Hc Hr. split.
  - apply Forall_singleton. rewrite Hnb. change (now mv_host) with 3000. simpl. lia.
  - intros [|i] a b; [|done]. simpl. done.
  - by intros x [= <-].
Qed.

Lemma mv_holds c : holds (mv_buffer c) (clip [Sample c 0]).
Proof.
  unfold clip. rewrite take_ge by (unfold VM_MAP_MAX_ENTRIES; simpl length; lia).
  split; [by vm_compute|]. intros [|i] x [= <-]. reflexivity.
Qed.

Lemma mv_tracks : tracks mv_host mv_history.
Proof.
  split.
  - split; simpl; intros; lia.
  - assert (buf_maps mv_host w_name = Some (1, 2) ∧ buf_maps mv_host mv_name = Some (3, 4)) as [H1 H2]
      by (split; vm_compute; reflexivity).
    intros n n' m [vm Hn] [vm' Hn'] (m1 & m2 & E & Hm) (m1' & m2' & E' & Hm').
    destruct (mv_only _ _ Hn) as [[-> _]|[-> _]], (mv_only _ _ Hn') as [[-> _]|[-> _]];
      [done|exfalso..|done]; [rewrite H1 in E; rewrite H2 in E'|rewrite H2 in E; rewrite H1 in E'];
      injection E as <- <-; injection E' as <- <-; clear -Hm Hm'; lia.
  - intros n vm [[-> ->]|[-> ->]]%mv_only; rewrite ?mv_history_1, ?mv_history_2;
      (split; [|split; [by apply mv_sound|simpl; lia]]).
    + split; [by left|]. exists 1, 2, (mv_buffer 0), (array_new VM_MAP_MAX_ENTRIES).
      split; [vm_compute; reflexivity|]. split; [lia|].
      do 5 (split; [reflexivity|]). apply mv_holds.
    + split; [by left|]. exists 3, 4, (mv_buffer 3), (array_new VM_MAP_MAX_ENTRIES).
      split; [vm_compute; reflexivity|]. split; [lia|].
      do 5 (split; [reflexivity|]). apply mv_holds.
Qed.

Lemma mv_ready : h2g_ready (shmem mv_host).
Proof.
  destruct BuffersProps.b_ready as (b & Hb & Hwf). exists b. split; [|exact Hwf].
  change (devices w_mod !! 1 = Some b) in Hb. rewrite <-Hb. vm_compute. reflexivity.
Qed.

Lemma last_visited_published_witness :
  ∃ w, h2g_view (shmem (for_each_vm [w_name; mv_name] mv_host)) H2G_LATEST_SLOT = Some w ∧
    wm_phantom w = 3.
Proof.
  destruct (last_visited_published mv_host mv_history [w_name] mv_name mv_vm2 9) as (w & Hw & Hp).
  - exact mv_tracks.
  - intros n. unfold mv_history, set_history. repeat case_decide; simpl; lia.
  - decide_now.
  - vm_compute. reflexivity.
  - simpl. lia.
  - intros k v _ [[-> ->]|[-> ->]]%mv_only; rewrite ?mv_history_1, ?mv_history_2;
      intros x [= <-]; simpl; lia.
  - simpl. lia.
  - exact mv_ready.
  - exists w. split; [exact Hw|]. rewrite Hp. rewrite mv_history_2. vm_compute. reflexivity.
Defined.

End MultiVmProps.
