(* ===== verification/TimerRace.v ===== *)
(** The timer's visit of a VM as a sequence of accesses, and the race with the
    switch handler.

    [PhantomTimer] runs [callback_fn] in one go.  Here it is a program counter
    [tpc] with one constructor per access to memory the CPUs share, reached
    through the pointer to the VM's entry, as in [Concurrent].  The iteration
    over the closed buffer is one access: nobody but the timer reads it; a handler
    that is still about to fill a slot of it is the subject of [UnfilledSample].  Alone the
    accesses are [callback_fn]; they never touch what the counters depend on;
    and a context switch between the reads of the counter and the swap of the
    buffers leaves the next buffer with the counter's old value. *)

From S2P Require Import Prelude CString BpfMap Sampling Host Memory HostIvshmem PhantomSwitch.
From S2P Require Import PhantomTimer Buffers System Concurrent.

(** ** The accesses *)

(** What the visit has found: the name and the two maps. *)
Record visit := Visit { v_name : list Z; v_map_1 : Z; v_map_2 : Z }.

Inductive tpc :=
  | TDone
  | TLook (n : list Z)
  | TEndTime (v : visit)
  | TEndCount (v : visit) (t : Z)
  | TStartTime (v : visit) (e : sample)
  | TStartCount (v : visit) (e : sample) (t : Z)
  | TFlag (v : visit) (e s : sample)
  | TFirst (v : visit) (e s : sample) (one : bool)
  | TIndex (v : visit) (e : sample) (one : bool)
  | TSwap (v : visit) (e : sample) (one : bool)
  | TReserve (v : visit) (e : sample) (one : bool)
  | TLast (v : visit) (e : sample) (one : bool) (idx : Z)
  | TAverage (v : visit) (one : bool) (idx : Z)
  | TIdle (v : visit) (avg : Z)
  | TTime (v : visit) (avg idle : Z)
  | TSlot (v : visit) (avg idle ts : Z)
  | TWrite (slot avg idle ts : Z).

(** The buffer being closed and the one being opened; [one] says that the
    first is active. *)
Definition old_map (one : bool) (v : visit) : Z := if one then v_map_1 v else v_map_2 v.
Definition new_map (one : bool) (v : visit) : Z := if one then v_map_2 v else v_map_1 v.

Section timer.
Context {S : Type} `{HostKfuncs S}.
Implicit Types st : host S.

Definition at_vm (n : list Z) st (k : vm_t → host S * tpc) : host S * tpc :=
  match vms st !! n with Some vm => k vm | None => (st, TDone) end.

Definition timer_step (p : tpc) st : host S * tpc :=
  match p with
  | TDone => (st, TDone)
  | TLook n =>
      let '(k1, k2) := collection_keys n in
      match map_registry st !! k1, map_registry st !! k2 with
      | Some m1, Some m2 => (st, TEndTime (Visit n m1 m2))
      | _, _ => (st, TDone)
      end
  | TEndTime v => (tick st, TEndCount v (now st))
  | TEndCount v t => at_vm (v_name v) st (λ vm, (st, TStartTime v (Sample (phantom_count vm) t)))
  | TStartTime v e => (tick st, TStartCount v e (now st))
  | TStartCount v e t => at_vm (v_name v) st (λ vm, (st, TFlag v e (Sample (phantom_count vm) t)))
  | TFlag v e s => at_vm (v_name v) st (λ vm, (st, TFirst v e s (is_collectx_in_buff_1 vm =? 1)))
  | TFirst v e s one => (put_sample (new_map one v) 0 s st, TIndex v e one)
  | TIndex v e one =>
      at_vm (v_name v) st (λ vm,
        (put_vm (v_name v) (set_buff_index (negb one) 1 vm) st, TSwap v e one))
  | TSwap v e one =>
      at_vm (v_name v) st (λ vm,
        (if is_collectx_in_buff_1 vm =? Z.b2z one
         then put_vm (v_name v) (set_collectx (Z.b2z (negb one)) vm) st else st, TReserve v e one))
  | TReserve v e one =>
      at_vm (v_name v) st (λ vm,
        (put_vm (v_name v) (set_buff_index one (u32 (buff_index one vm + 1)) vm) st,
         TLast v e one (buff_index one vm)))
  | TLast v e one idx => (put_sample (old_map one v) idx e st, TAverage v one idx)
  | TAverage v one idx => (st, TIdle v (average_of (old_map one v) (s32 idx) st))
  | TIdle v avg => (st, TTime v avg (published_idle_avg st))
  | TTime v avg idle => (tick st, TSlot v avg idle (now st))
  | TSlot v avg idle ts =>
      at_vm (v_name v) st (λ vm,
        let '(slot, vm) := next_history_slot vm in
        (put_vm (v_name v) vm st, TWrite slot avg idle ts))
  | TWrite slot avg idle ts => (write_watermark slot ts avg idle st, TDone)
  end.

Fixpoint run_timer (k : nat) (p : tpc) st : host S * tpc :=
  match k with
  | O => (st, p)
  | Datatypes.S k' => let '(st', p') := timer_step p st in run_timer k' p' st'
  end.

Lemma run_timer_add k k' p st :
  run_timer (k + k') p st = let '(st', p') := run_timer k p st in run_timer k' p' st'.
Proof.
  revert p st. induction k as [|k IH]; intros p st; simpl; [done|].
  by destruct (timer_step p st) as [st' p'].
Qed.

(** ** The accesses never touch a counter *)

Lemma timer_step_counts p st : same_counts st (timer_step p st).1.
Proof.
  destruct p; simpl; unfold at_vm; try done; try apply same_counts_put_sample;
    try (destruct (vms st !! v_name v) as [vm|] eqn:Hn; [|done]).
  - destruct (collection_keys n). repeat case_match; done.
  - done.
  - done.
  - done.
  - apply (same_counts_put_vm _ _ vm); [done|]. by destruct one.
  - case_match; [|done]. by apply (same_counts_put_vm _ _ vm).
  - apply (same_counts_put_vm _ _ vm); [done|]. by destruct one.
  - by apply (same_counts_put_vm _ _ vm).
Qed.

(** ** Alone, the accesses are the callback *)

Lemma put_vm_twice n vm vm' st : put_vm n vm' (put_vm n vm st) = put_vm n vm' st.
Proof. unfold put_vm. simpl. by rewrite insert_insert_eq. Qed.

Lemma at_put_vm n vm st k : at_vm n (put_vm n vm st) k = k vm.
Proof. unfold at_vm. simpl. by rewrite lookup_insert_eq. Qed.

Lemma at_vm_some n vm st k : vms st !! n = Some vm → at_vm n st k = k vm.
Proof. intros Hn. unfold at_vm. by rewrite Hn. Qed.

(** Storing samples and entries does not touch the idle average. *)
Lemma stores_idle m i x n vm m' i' x' st :
  published_idle_avg (put_sample m i x (put_vm n vm (put_sample m' i' x' st))) =
  published_idle_avg st.
Proof.
  unfold published_idle_avg. destruct (put_sample_frame m i x (put_vm n vm (put_sample m' i' x' st)))
    as (_ & _ & _ & -> & _). simpl.
  by destruct (put_sample_frame m' i' x' st) as (_ & _ & _ & -> & _).
Qed.

(** From the flag on, with the counter's values read before: the swap of the
    entry as it is then. *)
Lemma run_swap v e s vm st :
  vms st !! v_name v = Some vm →
  let '(_, idx, vm', st') := swap_buffers (v_name v) vm (v_map_1 v) (v_map_2 v) s e st in
  run_timer 6 (TFlag v e s) st = (st', TAverage v (is_collectx_in_buff_1 vm =? 1) idx) ∧
  vms st' !! v_name v = Some vm' ∧ published_idle_avg st' = published_idle_avg st ∧
  h2g_history_index vm' = h2g_history_index vm.
Proof.
  intros Hn. unfold swap_buffers.
  destruct (is_collectx_in_buff_1 vm =? 1) eqn:Hone; cbn [run_timer timer_step];
    rewrite (at_vm_some _ vm) by done; rewrite Hone; cbn [run_timer timer_step];
    rewrite (at_vm_some _ vm) by (by rewrite (proj1 (put_sample_frame _ _ _ _)));
    cbn [run_timer timer_step negb Z.b2z]; rewrite at_put_vm; cbn [set_buff_index].
  - change (is_collectx_in_buff_1 (set_buff_2_index 1 vm)) with (is_collectx_in_buff_1 vm).
    rewrite Hone. cbn [run_timer timer_step]. rewrite put_vm_twice, at_put_vm.
    cbn [run_timer timer_step]. rewrite put_vm_twice.
    split; [done|]. rewrite (proj1 (put_sample_frame _ _ _ _)). simpl. rewrite lookup_insert_eq.
    split; [done|]. split; [apply stores_idle|done].
  - change (is_collectx_in_buff_1 (set_buff_1_index 1 vm)) with (is_collectx_in_buff_1 vm).
    destruct (is_collectx_in_buff_1 vm =? 0); cbn [run_timer timer_step];
      rewrite ?put_vm_twice, at_put_vm; cbn [run_timer timer_step]; rewrite put_vm_twice;
      (split; [done|]; rewrite (proj1 (put_sample_frame _ _ _ _)); simpl; rewrite lookup_insert_eq;
       split; [done|]; split; [apply stores_idle|done]).
Qed.

(** The accesses after the swap. *)
Lemma run_publish v one idx vm st :
  vms st !! v_name v = Some vm →
  run_timer 5 (TAverage v one idx) st =
    (write_watermark (next_history_slot vm).1 (now st) (average_of (old_map one v) (s32 idx) st)
       (published_idle_avg st) (put_vm (v_name v) (next_history_slot vm).2 (tick st)), TDone).
Proof.
  intros Hn. cbn [run_timer timer_step]. rewrite (at_vm_some _ vm) by done. done.
Qed.

(** The accesses up to the flag read the clock and the counter twice. *)
Lemma run_reads n vm m1 m2 st :
  vms st !! n = Some vm → buf_maps st n = Some (m1, m2) →
  run_timer 5 (TLook n) st =
    (tick (tick st), TFlag (Visit n m1 m2) (Sample (phantom_count vm) (now st))
       (Sample (phantom_count vm) (now (tick st)))).
Proof.
  intros Hn Hm. apply buf_maps_Some in Hm as [H1 H2]. cbn [run_timer timer_step].
  destruct (collection_keys n) as [k1 k2]. simpl in H1, H2. rewrite H1, H2.
  cbn [run_timer timer_step v_name]. rewrite (at_vm_some _ vm) by done.
  cbn [run_timer timer_step v_name]. by rewrite (at_vm_some _ vm) by done.
Qed.

Lemma swap_buffers_map n vm m1 m2 cs ce st :
  (swap_buffers n vm m1 m2 cs ce st).1.1.1 = old_map (is_collectx_in_buff_1 vm =? 1) (Visit n m1 m2).
Proof. unfold swap_buffers. by destruct (is_collectx_in_buff_1 vm =? 1). Qed.

Lemma callback_accesses n vm st :
  vms st !! n = Some vm → run_timer 16 (TLook n) st = (callback_fn n vm st, TDone).
Proof.
  intros Hn. unfold callback_fn. destruct (buf_maps st n) as [[m1 m2]|] eqn:Hm.
  - change 16%nat with (5 + (6 + 5))%nat. rewrite run_timer_add, (run_reads n vm m1 m2) by done.
    apply buf_maps_Some in Hm as [H1 H2]. destruct (collection_keys n) as [k1 k2].
    simpl in H1, H2. rewrite H1, H2, run_timer_add.
    set (e := Sample (phantom_count vm) (now st)).
    set (s := Sample (phantom_count vm) (now (tick st))).
    pose proof (run_swap (Visit n m1 m2) e s vm (tick (tick st)) Hn) as Hs. cbn [v_name v_map_1 v_map_2] in Hs.
    pose proof (swap_buffers_map n vm m1 m2 s e (tick (tick st))) as Hmap.
    destruct (swap_buffers n vm m1 m2 s e (tick (tick st))) as [[[m idx] vm'] st'].
    destruct Hs as (-> & Hn' & _). simpl in Hmap. subst m.
    rewrite (run_publish (Visit n m1 m2) _ idx vm' st' Hn'). by destruct (next_history_slot vm').
  - unfold buf_maps in Hm. cbn [run_timer timer_step]. destruct (collection_keys n) as [k1 k2].
    simpl in Hm. destruct (map_registry st !! k1), (map_registry st !! k2); try done.
Qed.
End timer.

(** ** The race *)

Section race.
Context {S : Type} `{HK : HostKfuncs S}.
Implicit Types st : host S.

Lemma tracks_tick st (H0 : history) : tracks st H0 → tracks (tick st) H0.
Proof.
  intros [Hc Hd Ht]. split; [by apply clock_ok_tick|done|].
  intros n vm Hn. destruct (Ht n vm Hn) as (Hcol & Hs & Hp). split; [|split; [|done]].
  - by apply (collecting_frame st).
  - apply (sound_frame st _ vm vm); [|done|done]. unfold now. simpl. by apply ktime_mono.
Qed.

(** Whatever the entry and the buffers are when the timer reads the flag, the
    next buffer starts with the sample taken before. *)
Lemma race_collecting v e s vm st h :
  vms st !! v_name v = Some vm → collecting st (v_name v) vm h →
  buf_maps st (v_name v) = Some (v_map_1 v, v_map_2 v) →
  let st3 := (run_timer 11 (TFlag v e s) st).1 in
  (run_timer 11 (TFlag v e s) st).2 = TDone ∧
  ∃ vm3, vms st3 !! v_name v = Some vm3 ∧ core vm3 = core vm ∧ collecting st3 (v_name v) vm3 [s].
Proof.
  intros Hn Hcol Hm. change 11%nat with (6 + 5)%nat. rewrite run_timer_add.
  pose proof (run_swap v e s vm st Hn) as Hs.
  rewrite swap_buffers_eq in Hs by apply Hcol. destruct Hs as (-> & Hn' & _).
  set (st' := put_sample _ _ _ _) in *.
  rewrite (run_publish v _ _ (swapped vm) st' Hn'). split; [done|].
  exists (next_history_slot (swapped vm)).2. split; [simpl; apply lookup_insert_eq|].
  split; [rewrite <-(core_swapped vm); done|].
  destruct (put_sample_frame (spare vm (v_map_1 v) (v_map_2 v)) 0 s st) as (_ & _ & Hr1 & _).
  destruct (put_sample_frame (active vm (v_map_1 v) (v_map_2 v)) (buffer_index vm) e
    (put_vm (v_name v) (swapped vm) (put_sample (spare vm (v_map_1 v) (v_map_2 v)) 0 s st)))
    as (_ & _ & Hr2 & _).
  eapply (collecting_swap st _ _ vm _ h s e); try done.
  - simpl. unfold st'. by rewrite Hr2.
  - simpl. unfold st', put_sample. simpl.
    destruct (inner_maps st !! spare vm (v_map_1 v) (v_map_2 v)); simpl; by case_match.
  - unfold swapped, buffer_index. by destruct (is_collectx_in_buff_1 vm =? 1).
Qed.

(** A buffer that holds one sample determines the history. *)
Lemma collecting_unique st n vm x h :
  collecting st n vm [x] → collecting st n vm h → h = [x].
Proof.
  intros (_ & m1 & m2 & a & b & Hm & _ & Ha & Hf & _ & _ & Hi & _ & Hx)
    (_ & m1' & m2' & a' & b' & Hm' & _ & Ha' & _ & _ & _ & Hi' & _ & Hh).
  rewrite Hm in Hm'. injection Hm' as <- <-. rewrite Ha in Ha'. injection Ha' as <-.
  rewrite Hi in Hi'. destruct h as [|y [|z h]]; simpl in Hi'; try lia. f_equal.
  specialize (Hx 0%nat x eq_refl). specialize (Hh 0%nat y eq_refl). congruence.
Qed.

(** With one sample in the buffer, a visit publishes its count. *)
Lemma weighted_avg_two c t c' t' :
  0 <= c → t < t' → weighted_avg [Sample c t; Sample c' t'] = c.
Proof.
  intros Hc Ht. unfold weighted_avg, weighted_time, weighted_sum. simpl. unfold area, held. simpl.
  rewrite !Z.add_0_r, !Z.max_r by lia. destruct (Z.ltb_spec 0 (t' - t)); [|lia].
  apply Z.div_mul. lia.
Qed.

Lemma race_clock v e s vm st :
  vms st !! v_name v = Some vm → flag_ok vm →
  clk (run_timer 11 (TFlag v e s) st).1 = ktick (clk st).
Proof.
  intros Hn Hf. change 11%nat with (6 + 5)%nat. rewrite run_timer_add.
  pose proof (run_swap v e s vm st Hn) as Hs.
  rewrite swap_buffers_eq in Hs by done. destruct Hs as (-> & Hn' & _).
  rewrite (run_publish v _ _ (swapped vm) _ Hn'). simpl.
  destruct (put_sample_frame (active vm (v_map_1 v) (v_map_2 v)) (buffer_index vm) e
    (put_vm (v_name v) (swapped vm) (put_sample (spare vm (v_map_1 v) (v_map_2 v)) 0 s st)))
    as (_ & _ & _ & _ & -> & _). simpl.
  by destruct (put_sample_frame (spare vm (v_map_1 v) (v_map_2 v)) 0 s st) as (_ & _ & _ & _ & -> & _).
Qed.

Section laws.
Context `{HL : !HostKfuncsLaws S}.

(** The end of a visit writes one watermark. *)
Lemma publish_ready v one idx vm st :
  vms st !! v_name v = Some vm → h2g_ready (shmem st) →
  h2g_ready (shmem (run_timer 5 (TAverage v one idx) st).1).
Proof.
  intros Hn Hr. rewrite (run_publish v one idx vm st Hn). unfold write_watermark. simpl.
  edestruct (h2g_write_history (shmem st) (next_history_slot vm).1) as (s' & Hw & Hr' & _);
    [done|apply next_history_slot_range|apply watermark_u64|]. simpl in Hw. by rewrite Hw.
Qed.

Lemma race_ready v e s vm st :
  vms st !! v_name v = Some vm → flag_ok vm → h2g_ready (shmem st) →
  h2g_ready (shmem (run_timer 11 (TFlag v e s) st).1).
Proof.
  intros Hn Hf Hr. change 11%nat with (6 + 5)%nat. rewrite run_timer_add.
  pose proof (run_swap v e s vm st Hn) as Hs.
  rewrite swap_buffers_eq in Hs by done. destruct Hs as (-> & Hn' & _).
  apply (publish_ready v _ _ (swapped vm)); [done|].
  destruct (put_sample_frame (active vm (v_map_1 v) (v_map_2 v)) (buffer_index vm) e
    (put_vm (v_name v) (swapped vm) (put_sample (spare vm (v_map_1 v) (v_map_2 v)) 0 s st)))
    as (_ & _ & _ & _ & _ & ->). simpl.
  by destruct (put_sample_frame (spare vm (v_map_1 v) (v_map_2 v)) 0 s st) as (_ & _ & _ & _ & _ & ->).
Qed.

(** Whatever the samples in the buffer are, in order or not, a visit publishes their
    average, as long as the sums fit. *)
Lemma collected_published st n vm h :
  clock_ok (clk st) → collecting st n vm h → Z.of_nat (length h) < 2 ^ 32 →
  Forall (λ x, is_u64 (timestamp x)) h → weighted_sum (closed st vm h) < 2 ^ 63 →
  weighted_time (closed st vm h) < 2 ^ 64 → 0 <= weighted_avg (closed st vm h) < 2 ^ 16 →
  h2g_ready (shmem st) →
  ∃ w, h2g_view (shmem (callback_fn n vm st)) H2G_LATEST_SLOT = Some w ∧
    wm_phantom w = weighted_avg (closed st vm h).
Proof.
  intros Hc Hcol Hlen Hts Hsum Htime Hrange Hr.
  pose proof Hcol as (Hf & m1 & m2 & _ & _ & Hm & _ & _ & _ & _ & _ & Hidx & _).
  rewrite (callback_eq st n vm m1 m2 Hf Hm). cbv zeta.
  destruct (after_swap_frame st n vm m1 m2) as (_ & _ & Hreg & _ & Hk & Hsh).
  destruct (collecting_swap st _ n vm (swapped vm) _ _ _ m1 m2 Hcol Hm Hreg
    (after_swap_inner st n vm m1 m2) eq_refl) as (_ & a & Ha & Hfa & Hh).
  { unfold swapped, buffer_index. by destruct (is_collectx_in_buff_1 vm =? 1). }
  pose proof (ktime_u64 _ Hc) as Hu. fold (now st) in Hu.
  unfold closed in *. set (e := Sample (phantom_count vm) (now st)) in *.
  assert (average_of (active vm m1 m2) (s32 (buffer_index vm)) (after_swap st n vm m1 m2)
    = weighted_avg (clip (h ++ [e]))) as ->.
  { unfold average_of. rewrite Ha. rewrite (clip_fits a _ Hfa) in *. rewrite Hidx.
    apply phantom_average_ref; try done.
    - rewrite Hfa. unfold VM_MAP_MAX_ENTRIES. lia.
    - rewrite length_app. simpl. lia.
    - lia.
    - apply Forall_app. split; [done|]. by apply Forall_singleton. }
  unfold write_watermark. simpl. rewrite Hsh.
  edestruct (h2g_write_history (shmem st) (next_history_slot vm).1) as (s' & Hw & _ & _ & Hl & _);
    [done|apply next_history_slot_range|apply watermark_u64|].
  simpl in Hw. rewrite Hw. eexists. split; [exact Hl|].
  edestruct watermark_fields as (_ & -> & _). by apply Z.mod_small.
Qed.

(** With one sample in the buffer, a visit publishes its count. *)
Lemma one_sample_published st n vm x :
  clock_ok (clk st) → collecting st n vm [x] → 0 <= count x < 2 ^ 16 →
  0 <= timestamp x < now st → count x * (now st - timestamp x) < 2 ^ 63 → h2g_ready (shmem st) →
  ∃ w, h2g_view (shmem (callback_fn n vm st)) H2G_LATEST_SLOT = Some w ∧ wm_phantom w = count x.
Proof.
  intros Hc Hcol Hx Ht Hov Hr. pose proof (ktime_u64 _ Hc) as Hu. fold (now st) in Hu.
  set (e := Sample (phantom_count vm) (now st)).
  assert (closed st vm [x] = [x; e]) as Hcl
    by (apply take_ge; unfold VM_MAP_MAX_ENTRIES; simpl length; lia).
  assert (weighted_avg [x; e] = count x) as Havg
    by (destruct x; apply weighted_avg_two; simpl in *; lia).
  rewrite <-Havg, <-Hcl. apply collected_published; rewrite ?Hcl, ?Havg; try done.
  - apply Forall_singleton. lia.
  - unfold weighted_sum. simpl. unfold area, held. simpl. rewrite !Z.max_r by lia. lia.
  - unfold weighted_time. simpl. unfold held. simpl. lia.
Qed.
End laws.
End race.

(** ** Handlers and the timer together *)

Section together.
Context {S : Type} `{HK : HostKfuncs S}.
Implicit Types (st : host S) (c : conf (S := S)).

(** A CPU moves, the timer performs its next access, or it visits a VM. *)
Inductive fstep : conf (S := S) * tpc → conf (S := S) * tpc → Prop :=
  | f_cpu l c c' p : l ≠ LEnv → lstep l c c' → fstep (c, p) (c', p)
  | f_timer c p :
      fstep (c, p) (Conf (pcs c) (timer_step p (shared c)).1 (lost c), (timer_step p (shared c)).2)
  | f_visit c n : is_Some (vms (shared c) !! n) → fstep (c, TDone) (c, TLook n).

(** For the counters the timer is part of the environment. *)
Lemma fstep_cstep x y : fstep x y → rtc cstep x.1 y.1.
Proof.
  destruct 1 as [l c c' p _ Hl|c p|c n _]; simpl; [apply rtc_once; by exists l| |done].
  apply rtc_once. exists LEnv. destruct c as [ps st k]. apply c_env, timer_step_counts.
Qed.

Lemma fsteps_csteps x y : rtc fstep x y → rtc cstep x.1 y.1.
Proof. induction 1 as [|x y z Hs _ IH]; [done|]. etrans; [by apply fstep_cstep|done]. Qed.

Lemma timer_fsteps j ps st k p :
  rtc fstep (Conf ps st k, p) (Conf ps (run_timer j p st).1 k, (run_timer j p st).2).
Proof.
  revert p st. induction j as [|j IH]; intros p st; simpl; [done|].
  eapply rtc_l; [apply f_timer|]. simpl. destruct (timer_step p st) as [st' p']. apply IH.
Qed.

Lemma exec_fsteps ls c p : Forall (λ l, l ≠ LEnv) ls → rtc fstep (c, p) (foldl exec c ls, p).
Proof.
  intros Hls. revert c. induction Hls as [|l ls Hl _ IH]; intros c; simpl; [done|].
  etrans; [|apply IH]. destruct (exec_lstep c l) as [-> |Hstep]; [done|].
  apply rtc_once. by apply (f_cpu l).
Qed.

(** A handler that runs from beginning to end on an idle machine. *)
Lemma finishes_fsteps q st st' p k :
  finishes q st st' →
  ∃ k', rtc fstep (Conf {[0%nat := q]} st k, p) (Conf {[0%nat := Idle]} st' k', p).
Proof.
  intros Hf. revert k. induction Hf as [st|q st st' q' st'' Hq Hs _ IH]; intros k.
  { by exists k. }
  destruct (IH (k + gives_up q)%nat) as [k' Hr]. exists k'. eapply rtc_l; [|exact Hr].
  apply (f_cpu (LRun 0)); [done|].
  replace ({[0%nat := q']} : gmap nat pc) with (<[0%nat := q']> ({[0%nat := q]} : gmap nat pc))
    by apply insert_singleton_eq.
  apply (c_run 0 q); [apply lookup_singleton_eq|done|done].
Qed.

Lemma handler_fsteps ctx st p :
  ∃ k', rtc fstep (start st, p) (Conf {[0%nat := Idle]} (phantom_switch_handler ctx st) k', p).
Proof.
  destruct (finishes_fsteps _ _ _ p 0 (handler_finishes ctx st)) as [k' Hr].
  exists k'. eapply rtc_l; [|exact Hr]. apply (f_cpu (LEvent 0 ctx)); [done|].
  apply c_event; [done|]. intros j q t _ Hj. by rewrite lookup_empty in Hj.
Qed.
End together.

(** ** Properties *)

Module TimerRaceProps.
Section props.
Context {S : Type} `{HK : HostKfuncs S}.
Implicit Types (st : host S) (c : conf (S := S)).

(** The accesses of a visit, performed with nobody in between, are the
    callback: after 16 of them the visit has ended in the state the sequential
    definition gives. *)
Theorem visit_alone_is_sequential n vm st :
  vms st !! n = Some vm → run_timer 16 (TLook n) st = (callback_fn n vm st, TDone).
Proof. apply callback_accesses. Qed.

(** C5: with the timer performing its accesses between those of the handlers,
    counting is still right: counters stay within their bounds and, whenever the
    handlers have ended, count the phantom vCPUs, wherever the timer is. *)
Theorem counters_exact_with_timer st c p :
  phantom_inv st → rtc fstep (start st, TDone) (c, p) → lost c = 0%nat →
  (∀ n a nb, counts (shared c) !! n = Some (a, nb) → 0 <= a <= nb) ∧
  (all_idle c → phantom_inv (shared c)).
Proof.
  intros Hi Hr Hl. apply fsteps_csteps in Hr. simpl in Hr.
  pose proof (rtc_counted _ _ Hr (start_counted st Hi)) as Hc. split.
  - intros n a nb Hn. by apply (counted_bounds c n a nb).
  - by apply idle_inv.
Qed.

(** C22: the buffers are not so lucky.  When a context switch moves the counter of a VM
    after the timer has read it and before the timer swaps the buffers, the next
    buffer starts with the old value, although the counter has the new one and
    the machine is idle: no history describes the buffers any more, and the next
    visit publishes the old value for the whole period. *)
Theorem swap_race_publishes_stale_count `{HL : !HostKfuncsLaws S} st (H0 : history) n vm ctx vm2 :
  let '(st1, p1) := run_timer 5 (TLook n) st in
  let st2 := phantom_switch_handler ctx st1 in
  let st3 := (run_timer 11 p1 st2).1 in
  tracks st H0 → room 2 H0 → vms st !! n = Some vm → nb_vcpus vm < 2 ^ 16 →
  h2g_ready (shmem st) → vms st2 !! n = Some vm2 → phantom_count vm2 ≠ phantom_count vm →
  now (tick st) < now st3 → nb_vcpus vm * (now st3 - now (tick st)) < 2 ^ 63 →
  (∃ k, rtc fstep (start st, TDone) (Conf {[0%nat := Idle]} st3 k, TDone)) ∧
  (∀ H3, ¬ tracks st3 H3) ∧
  ∃ vm3 w, vms st3 !! n = Some vm3 ∧ phantom_count vm3 = phantom_count vm2 ∧
    h2g_view (shmem (callback_fn n vm3 st3)) H2G_LATEST_SLOT = Some w ∧
    wm_phantom w = phantom_count vm.
Proof.
  destruct (run_timer 5 (TLook n) st) as [st1 p1] eqn:E1. intros st2 st3 Ht Hroom Hn Hnb Hr Hn2 Hne Hnow Hov.
  destruct (tracks_vm _ _ Ht n vm Hn) as (Hcol & _ & Hp & _).
  destruct Hcol as (_ & m1 & m2 & _ & _ & Hm & _).
  rewrite (run_reads n vm m1 m2 st Hn Hm) in E1. injection E1 as <- <-.
  assert (tracks st2 (switch_hist ctx (tick (tick st)) H0)) as Ht2
    by (apply handler_tracks; [by do 2 apply tracks_tick|done]).
  destruct (tracks_vm _ _ Ht2 n vm2 Hn2) as (Hcol2 & _).
  assert (buf_maps st2 n = Some (m1, m2)) as Hm2.
  { rewrite <-Hm. apply buf_maps_registry. apply (kp_registry _ _ (handler_keeps ctx (tick (tick st)))). }
  set (v := Visit n m1 m2) in *. set (x := Sample (phantom_count vm) (now (tick st))) in *.
  set (e := Sample (phantom_count vm) (now st)) in *.
  destruct (race_collecting v e x vm2 st2 _ Hn2 Hcol2 Hm2) as (Hdone & vm3 & Hn3 & Hcore & Hcol3).
  fold st3 in Hn3, Hcol3. injection Hcore as Hc3 _.
  assert (clk st3 = ktick (clk st2)) as Hk by (apply (race_clock v e x vm2); [done|apply Hcol2]).
  assert (h2g_ready (shmem st3)) as Hr3.
  { apply (race_ready v e x vm2); [done|apply Hcol2|]. unfold st2. by rewrite handler_shmem. }
  pose proof (tracks_clock _ _ Ht) as Hclk.
  pose proof (ktime_u64 _ (clock_ok_tick _ Hclk)) as Hu.
  split_and!.
  - destruct (handler_fsteps ctx (tick (tick st)) (TFlag v e x)) as [k Hh]. exists k.
    eapply rtc_l; [apply f_visit; by exists vm|].
    etrans; [apply (timer_fsteps 5)|]. rewrite (run_reads n vm m1 m2 st Hn Hm).
    etrans; [exact Hh|]. pose proof (timer_fsteps 11 {[0%nat := Idle]} st2 k (TFlag v e x)) as Hrun.
    by rewrite Hdone in Hrun.
  - intros H3 Ht3. destruct (tracks_vm _ _ Ht3 n vm3 Hn3) as (Hcol' & Hs & _).
    pose proof (collecting_unique _ _ _ _ _ Hcol3 Hcol') as Hh. rewrite Hh in Hs.
    pose proof (sound_last _ _ _ Hs x eq_refl) as Hl. simpl in Hl. congruence.
  - destruct (one_sample_published st3 n vm3 x) as (w & Hw & Hwp); simpl; try done.
    + rewrite Hk. apply clock_ok_tick, (tracks_clock _ _ Ht2).
    + lia.
    + split; [|done]. apply Hu.
    + eapply Z.le_lt_trans; [|exact Hov]. apply Z.mul_le_mono_nonneg_r; lia.
    + by exists vm3, w.
Qed.
End props.

(** ** Witnesses *)

Import BuffersProps ConcurrentProps.

Lemma visit_alone_is_sequential_witness :
  run_timer 16 (TLook PhantomSwitchProps.w_name) b_host =
    (callback_fn PhantomSwitchProps.w_name b_vm b_host, TDone).
Proof. apply visit_alone_is_sequential. vm_compute. reflexivity. Defined.

(** The timer has read the counter when the handlers of two CPUs run. *)
Definition w_reads : host hostmod := (run_timer 5 (TLook PhantomSwitchProps.w_name) b_host).1.
Definition w_mid : conf := foldl exec (start w_reads) w_lockstep.

Lemma counters_exact_with_timer_witness : phantom_inv (shared w_mid).
Proof.
  refine (proj2 (counters_exact_with_timer b_host w_mid
    (run_timer 5 (TLook PhantomSwitchProps.w_name) b_host).2 _ _ _) _).
  - decide_now.
  - eapply rtc_l; [apply (f_visit _ PhantomSwitchProps.w_name); eexists; vm_compute; reflexivity|].
    etrans; [apply (timer_fsteps 5)|]. apply exec_fsteps.
    unfold w_lockstep. simpl. repeat (apply Forall_cons_2; [discriminate|]). apply Forall_nil_2.
  - vm_compute. reflexivity.
  - apply w_all_idle_sound. vm_compute. reflexivity.
Defined.

(** Thread 100 is preempted at that point: the counter goes from 2 to 3. *)
Definition w_visit : visit := Visit PhantomSwitchProps.w_name 1 2.
Definition w_moved : host hostmod := phantom_switch_handler w_out (tick (tick b_host)).
Definition w_vm2 : vm_t := VM [] 3 0 3 0 4 5.

Lemma w_moved_vm : vms w_moved !! PhantomSwitchProps.w_name = Some w_vm2.
Proof. vm_compute. reflexivity. Qed.

Lemma w_late e x : now (run_timer 11 (TFlag w_visit e x) w_moved).1 = 7000.
Proof.
  unfold now. rewrite (race_clock w_visit e x w_vm2); [vm_compute; reflexivity|exact w_moved_vm|].
  left. reflexivity.
Qed.

Lemma swap_race_publishes_stale_count_witness :
  ∃ st3 vm3 w, vms st3 !! PhantomSwitchProps.w_name = Some vm3 ∧ phantom_count vm3 = 3 ∧
    h2g_view (shmem (callback_fn PhantomSwitchProps.w_name vm3 st3)) H2G_LATEST_SLOT = Some w ∧
    wm_phantom w = 2.
Proof.
  pose proof (swap_race_publishes_stale_count b_host b_history PhantomSwitchProps.w_name b_vm w_out
    w_vm2) as Hrace.
  rewrite (run_reads PhantomSwitchProps.w_name b_vm 1 2 b_host) in Hrace;
    [|vm_compute; reflexivity..].
  destruct Hrace as (_ & _ & vm3 & w & Hv & Hc & Hw & Hp).
  - exact b_tracks.
  - intros n. unfold b_history, set_history. case_decide; simpl; lia.
  - vm_compute. reflexivity.
  - simpl. lia.
  - exact b_ready.
  - exact w_moved_vm.
  - discriminate.
  - pose proof (w_late (Sample (phantom_count b_vm) (now b_host))
      (Sample (phantom_count b_vm) (now (tick b_host)))) as Hl.
    unfold w_visit, w_moved in Hl. rewrite Hl. change (now (tick b_host)) with 4000. lia.
  - pose proof (w_late (Sample (phantom_count b_vm) (now b_host))
      (Sample (phantom_count b_vm) (now (tick b_host)))) as Hl.
    unfold w_visit, w_moved in Hl. rewrite Hl. change (now (tick b_host)) with 4000.
    simpl. lia.
  - eexists _, vm3, w. split; [exact Hv|]. split; [exact Hc|]. split; [exact Hw|exact Hp].
Defined.
End TimerRaceProps.
