(* ===== verification/UnfilledSample.v ===== *)
(** A visit of the timer while a handler on another CPU has reserved an index of
    the active buffer and not yet stored its sample.

    [TimerRace] interleaves the accesses of the timer with handlers that run to
    their end.  Here the handler stops between [__sync_fetch_and_add] and
    [bpf_map_update_elem]: the slot it reserved still has its old content, which
    the timer averages as if it were a sample.  The check in [phantom_avg_cb]
    drops the pair that ends in such a slot and keeps the pair that starts there,
    so a slot that was never used counts as no phantom vCPU since the machine
    was booted. *)

From S2P Require Import Prelude CString BpfMap Atomics Sampling Host Memory HostIvshmem PhantomSwitch.
From S2P Require Import PhantomTimer Buffers System Concurrent TimerRace.

(** ** The average of a buffer with an old sample in it *)

Lemma pair_sum_snoc2 f h y x e :
  last h = Some y → pair_sum f (h ++ [x; e]) = pair_sum f h + f y x + f x e.
Proof.
  intros Hy. rewrite pair_sum_snoc. apply last_Some in Hy as [h' ->].
  rewrite <-app_assoc. simpl. by rewrite pair_sum_snoc.
Qed.

(** The pair that ends in the old sample counts nothing, the pair that starts
    there counts its value since its time. *)
Lemma weighted_old h y x e :
  last h = Some y → timestamp x <= timestamp y → timestamp x <= timestamp e → 0 <= count x →
  weighted_sum (h ++ [x; e]) = weighted_sum h + count x * (timestamp e - timestamp x) ∧
  weighted_time (h ++ [x; e]) = weighted_time h + (timestamp e - timestamp x).
Proof.
  intros Hy Hxy Hxe Hx. unfold weighted_sum, weighted_time. rewrite !(pair_sum_snoc2 _ h y) by done.
  unfold area, held. rewrite (Z.max_l 0 (timestamp x - timestamp y)) by lia.
  rewrite (Z.max_r 0 (timestamp e - timestamp x)), (Z.max_r 0 (count x)) by lia. split; lia.
Qed.

(** ** A handler stopped after its reservation *)

Section unfilled.
Context {S : Type} `{HK : HostKfuncs S}.
Implicit Types st : host S.

(** The context switch of a preempted vCPU that the guest reports as running
    OpenMP, to a thread that is no vCPU. *)
Record preempts st (ctx : sched_switch) (v : vcpu_t) (vm : vm_t) : Prop := {
  pe_next : vcpus st !! u32 (next_pid ctx) = None;
  pe_prev : vcpus st !! u32 (prev_pid ctx) = Some v;
  pe_openmp : read_msg st (vcpu_index v) = 1;
  pe_flag : is_phantom v = 0;
  pe_vm : vms st !! vm_name v = Some vm;
  pe_room : 0 <= phantom_count vm < nb_vcpus vm;
  pe_size : is_u32 (nb_vcpus vm)
}.

(** The VM's entry once the handler has counted and reserved. *)
Definition counted_vm (vm : vm_t) : vm_t := set_phantom_count (phantom_count vm + 1) vm.

Definition reserved st (ctx : sched_switch) (v : vcpu_t) (vm : vm_t) : host S :=
  put_vm (vm_name v) (reserve (counted_vm vm))
    (put_vm (vm_name v) (counted_vm vm) (put_vcpu (u32 (prev_pid ctx)) (set_is_phantom 1 v) st)).

(** Ten accesses later the handler is about to take the time of its sample. *)
Lemma handler_reserves st ctx v vm m1 m2 :
  preempts st ctx v vm → buf_maps st (vm_name v) = Some (m1, m2) →
  run_alone 10 (LookIn ctx) st =
    (reserved st ctx v vm,
     Stamp (Frame OutHalf ctx 0) (vm_name v) (phantom_count vm + 1) (active vm m1 m2) (buffer_index vm)).
Proof.
  intros [Hnext Hprev Hmsg Hflag Hvm Hroom Hsize] Hm. apply buf_maps_Some in Hm as [H1 H2].
  assert (s64 (phantom_count vm + 1) = phantom_count vm + 1) as Hs by (apply s64_id; lia).
  cbn [run_alone cpu_step]. rewrite Hnext. cbn [run_alone cpu_step]. rewrite Hprev.
  cbn [run_alone cpu_step]. rewrite Hmsg. change (1 =? 1) with true.
  change ((0 =? TASK_RUNNING) || (0 =? TASK_WAKING)) with true. cbn [andb run_alone cpu_step].
  rewrite Hprev, Hflag. change (0 =? 0) with true. cbn [run_alone cpu_step]. simpl vms. rewrite Hvm.
  unfold CAS_ATTEMPTS. cbn [run_alone cpu_step]. unfold on_vm. simpl vms. rewrite Hvm.
  cbn [at_bound f_half]. rewrite Z.geb_leb. destruct (Z.leb_spec (nb_vcpus vm) (phantom_count vm)); [lia|].
  cbn [run_alone cpu_step]. unfold on_vm. simpl vms. rewrite Hvm, Z.eqb_refl.
  cbn [run_alone cpu_step moved f_half]. rewrite Hs. fold (counted_vm vm).
  unfold on_vm. simpl vms. rewrite lookup_insert_eq. cbn [run_alone cpu_step].
  change (is_collectx_in_buff_1 (counted_vm vm)) with (is_collectx_in_buff_1 vm).
  unfold buff_key. simpl map_registry.
  unfold reserved, reserve, buff_index, set_buff_index, active, buffer_index.
  change (is_collectx_in_buff_1 (counted_vm vm)) with (is_collectx_in_buff_1 vm).
  destruct (is_collectx_in_buff_1 vm =? 1); rewrite ?H1, ?H2; cbn [run_alone cpu_step];
    unfold on_vm; simpl vms; rewrite lookup_insert_eq; reflexivity.
Qed.

(** The content of the slot the next sample goes to. *)
Definition next_slot st (n : list Z) (vm : vm_t) : option sample :=
  match buf_maps st n with
  | Some (m1, m2) =>
      match inner_maps st !! active vm m1 m2 with
      | Some a => array_lookup sample_zero a (buffer_index vm)
      | None => None
      end
  | None => None
  end.

(** To the timer the reserved slot is one more sample. *)
Lemma reserved_collecting st ctx v vm h x :
  collecting st (vm_name v) vm h → next_slot st (vm_name v) vm = Some x →
  Z.of_nat (length h) + 1 <= VM_MAP_MAX_ENTRIES →
  collecting (reserved st ctx v vm) (vm_name v) (reserve (counted_vm vm)) (h ++ [x]).
Proof.
  intros (Hf & m1 & m2 & a & b & Hm & Hne & Ha & Hfa & Hb & Hfb & Hidx & Hlen & Hh) Hx Hfit.
  unfold next_slot in Hx. rewrite Hm, Ha, Hidx in Hx.
  set (vm' := reserve (counted_vm vm)).
  assert (is_collectx_in_buff_1 vm' = is_collectx_in_buff_1 vm) as Hflag.
  { unfold vm', reserve. change (is_collectx_in_buff_1 (counted_vm vm)) with (is_collectx_in_buff_1 vm).
    by case_bool. }
  assert (buffer_index vm' = u32 (buffer_index vm + 1)) as Hix.
  { unfold vm', reserve, buffer_index.
    change (is_collectx_in_buff_1 (counted_vm vm)) with (is_collectx_in_buff_1 vm).
    destruct (is_collectx_in_buff_1 vm =? 1) eqn:E; simpl; by rewrite E. }
  assert (∀ l, Z.of_nat (length l) <= VM_MAP_MAX_ENTRIES → clip l = l) as Hclip
    by (intros l Hl; apply take_ge; lia).
  rewrite Hclip in Hh by lia.
  split; [unfold flag_ok in *; by rewrite Hflag|]. exists m1, m2, a, b.
  unfold active, spare in *. rewrite Hflag. split_and!; try done.
  - rewrite Hix, Hidx, length_app. simpl.
    rewrite u32_id by (unfold VM_MAP_MAX_ENTRIES in *; lia). lia.
  - rewrite Hclip by (rewrite length_app; simpl; lia). split; [rewrite length_app, Hfa; simpl; lia|].
    intros i y Hi. apply lookup_snoc_Some in Hi as [[Hi Hy]|[-> ->]]; [by apply Hh|done].
Qed.

(** *** Its accesses as steps of the machine *)

Lemma run_alone_fsteps k p st j q :
  ∃ j', rtc fstep (Conf {[0%nat := p]} st j, q)
    (Conf {[0%nat := (run_alone k p st).2]} (run_alone k p st).1 j', q).
Proof.
  revert p st j. induction k as [|k IH]; intros p st j; [by exists j|].
  assert (p = Idle ∨ p ≠ Idle) as [->|Hp] by (destruct p; auto); [apply IH|]. cbn [run_alone].
  destruct (cpu_step p st) as [st' p'] eqn:E. destruct (IH p' st' (j + gives_up p)%nat) as [j' Hr].
  exists j'. eapply rtc_l; [|exact Hr]. apply (f_cpu (LRun 0)); [done|].
  replace ({[0%nat := p']} : gmap nat pc) with (<[0%nat := p']> ({[0%nat := p]} : gmap nat pc))
    by apply insert_singleton_eq.
  by apply (c_run 0 p); [apply lookup_singleton_eq| |].
Qed.

(** A handler stopped after [k] accesses, then a whole visit. *)
Lemma stopped_visit_fsteps k ctx n st :
  is_Some (vms (run_alone k (LookIn ctx) st).1 !! n) →
  let st1 := (run_alone k (LookIn ctx) st).1 in
  ∃ q j, rtc fstep (start st, TDone) (Conf {[0%nat := q]} (run_timer 16 (TLook n) st1).1 j, TDone).
Proof.
  intros [vm Hn] st1. destruct (run_alone_fsteps k (LookIn ctx) st 0 TDone) as [j Hr].
  exists (run_alone k (LookIn ctx) st).2, j. eapply rtc_l.
  { apply (f_cpu (LEvent 0 ctx)); [done|]. apply c_event; [done|]. intros i q t _ Hi.
    by rewrite lookup_empty in Hi. }
  etrans; [exact Hr|]. eapply rtc_l; [apply f_visit; by exists vm|].
  pose proof (timer_fsteps 16 {[0%nat := (run_alone k (LookIn ctx) st).2]} st1 j (TLook n)) as Ht.
  by rewrite (callback_accesses n vm st1 Hn) in Ht |- *.
Qed.

(** The average the timer computes when the reserved slot was never used. *)
Lemma unused_slot_average st vm vm' h x0 :
  sound st vm h → head h = Some x0 → 0 <= now st →
  Z.of_nat (length h) + 2 <= VM_MAP_MAX_ENTRIES →
  nb_vcpus vm * (now st - timestamp x0) < now st →
  let l := closed st vm' (h ++ [sample_zero]) in
  0 <= weighted_sum l < now st ∧ now st <= weighted_time l <= 2 * now st ∧ weighted_avg l = 0.
Proof.
  intros [Hr Ho _] Hx0 Hnow Hlen Hup l. set (e := Sample (phantom_count vm') (now st)).
  assert (l = h ++ [sample_zero; e]) as Hl.
  { unfold l, closed. rewrite <-app_assoc. apply take_ge. rewrite length_app. simpl. lia. }
  destruct (last h) as [y|] eqn:Hy; [|apply last_None in Hy; by subst].
  pose proof (last_Some_elem_of _ _ Hy) as Hin. rewrite Forall_forall in Hr.
  pose proof (Hr y Hin) as [_ Hyt].
  destruct (weighted_old h y sample_zero e Hy) as [Hs Ht]; [simpl; lia..|].
  rewrite <-Hl in Hs, Ht. simpl in Hs, Ht.
  assert (weighted_time h <= now st - timestamp x0) as Hspan.
  { apply weighted_time_span; [done..|]. apply Forall_forall. intros z Hz. by apply Hr. }
  assert (weighted_sum h <= nb_vcpus vm * weighted_time h) as Hsum.
  { apply weighted_sum_le; [pose proof (Hr y Hin); lia|]. apply Forall_forall. intros z Hz. by apply Hr. }
  pose proof (weighted_sum_nonneg h). pose proof (weighted_time_nonneg h).
  assert (0 <= nb_vcpus vm) by (pose proof (Hr y Hin); lia).
  assert (0 <= timestamp x0) by (destruct h; simplify_eq/=; pose proof (Hr x0 (list_elem_of_here _ _)); lia).
  assert (weighted_sum h < now st) by nia.
  split_and!; [lia|lia|lia|lia|].
  unfold weighted_avg. rewrite Hs, Ht. destruct (Z.ltb_spec 0 (weighted_time h + (now st - 0))); [|done].
  apply Z.div_small. lia.
Qed.
End unfilled.

(** ** Properties *)

Module UnfilledSampleProps.
Section props.
Context {S : Type} `{HK : HostKfuncs S} `{HL : !HostKfuncsLaws S}.
Implicit Types st : host S.

(** C23: the timer averages a slot that is reserved and not filled.  When a vCPU is
    preempted on one CPU by a thread that is not a vCPU, and the timer visits the VM after the handler there has
    reserved its index and before it stores the sample, in a slot of the buffer
    not used before, the value published is 0, whatever the counter was and
    although it is at least 1, as soon as the machine has been up longer than the
    period times the number of vCPUs. *)
Theorem unfilled_sample_publishes_zero st (H0 : history) ctx v vm x0 :
  tracks st H0 → preempts st ctx v vm → head (H0 (vm_name v)) = Some x0 →
  Z.of_nat (length (H0 (vm_name v))) + 2 <= VM_MAP_MAX_ENTRIES →
  next_slot st (vm_name v) vm = Some sample_zero →
  now st < 2 ^ 63 → nb_vcpus vm * (now st - timestamp x0) < now st → h2g_ready (shmem st) →
  let st1 := (run_alone 10 (LookIn ctx) st).1 in
  let st2 := (run_timer 16 (TLook (vm_name v)) st1).1 in
  (∃ q k, rtc fstep (start st, TDone) (Conf {[0%nat := q]} st2 k, TDone)) ∧
  (∃ vm1, vms st1 !! vm_name v = Some vm1 ∧ phantom_count vm1 = phantom_count vm + 1) ∧
  ∃ w, h2g_view (shmem st2) H2G_LATEST_SLOT = Some w ∧ wm_phantom w = 0.
Proof.
  intros Ht Hp Hx0 Hlen Hslot Hnow Hup Hr st1 st2.
  destruct (tracks_vm _ _ Ht _ _ (pe_vm _ _ _ _ Hp)) as (Hcol & Hs & _).
  pose proof Hcol as (_ & m1 & m2 & _ & _ & Hm & _).
  assert (st1 = reserved st ctx v vm) as E1
    by (unfold st1; by rewrite (handler_reserves st ctx v vm m1 m2 Hp Hm)).
  set (vm1 := reserve (counted_vm vm)).
  assert (vms st1 !! vm_name v = Some vm1) as Hn1
    by (rewrite E1; unfold reserved; simpl; apply lookup_insert_eq).
  assert (core vm1 = core (counted_vm vm)) as Hcore by apply core_reserve.
  split_and!.
  - apply stopped_visit_fsteps. by exists vm1.
  - exists vm1. split; [done|]. by injection Hcore.
  - unfold st2. rewrite (callback_accesses _ vm1 st1 Hn1). cbn [fst].
    pose proof (reserved_collecting st ctx v vm _ _ Hcol Hslot ltac:(lia)) as Hcol1.
    rewrite <-E1 in Hcol1. fold vm1 in Hcol1.
    assert (now st1 = now st ∧ clk st1 = clk st ∧ shmem st1 = shmem st) as (Hn & Hk & Hsh)
      by by rewrite E1.
    pose proof (ktime_u64 _ (tracks_clock _ _ Ht)) as Hu. fold (now st) in Hu.
    destruct (unused_slot_average st vm vm1 _ x0 Hs Hx0 ltac:(lia) Hlen Hup) as (Hsum & Htime & Havg).
    assert (closed st1 vm1 (H0 (vm_name v) ++ [sample_zero]) =
            closed st vm1 (H0 (vm_name v) ++ [sample_zero])) as Hcl by (unfold closed; by rewrite Hn).
    rewrite <-Hcl in Hsum, Htime, Havg. rewrite <-Havg.
    apply collected_published; rewrite ?Hk, ?Hsh, ?Havg; try done; try lia.
    + apply Ht.
    + rewrite length_app. simpl. unfold VM_MAP_MAX_ENTRIES in *. lia.
    + apply Forall_app. split; [|by apply Forall_singleton].
      eapply Forall_impl; [apply Hs|]. simpl. lia.
Qed.
End props.

(** *** Witness: the VM of [BuffersProps.b_host], 100 microseconds later *)

Import PhantomSwitchProps.

Definition u_hist : list sample := [Sample 1 100000; Sample 2 101000].
Definition u_history : history := set_history w_name u_hist (λ _, []).

Definition u_map : array_map sample :=
  array_update (array_update (array_new VM_MAP_MAX_ENTRIES) 0 (Sample 1 100000)) 1 (Sample 2 101000).

Definition u_host : host hostmod :=
  Host (vms BuffersProps.b_host) (vcpus BuffersProps.b_host) (map_registry BuffersProps.b_host)
       (<[1 := array_new VM_MAP_MAX_ENTRIES]> {[2 := u_map]})
       (array_new 1) (Clock (λ n, Z.min (100000 + 1000 * Z.of_nat n) (2 ^ 40)) 3) w_mod.

Lemma u_tracks : tracks u_host u_history.
Proof.
  split; [split; simpl; intros; lia| |].
  - intros n n' m [vm Hn] [vm' Hn'] _ _.
    apply BuffersProps.b_only in Hn as [-> _], Hn' as [-> _]. done.
  - intros n vm Hn. apply BuffersProps.b_only in Hn as [-> ->]. unfold u_history. rewrite set_history_eq.
    split; [|split; [|simpl; lia]].
    + split; [by left|]. exists 1, 2, u_map, (array_new VM_MAP_MAX_ENTRIES).
      split; [vm_compute; reflexivity|]. split; [lia|].
      assert (clip u_hist = u_hist) as ->
        by (apply take_ge; unfold VM_MAP_MAX_ENTRIES; simpl length; lia).
      do 5 (split; [reflexivity|]). split; [by vm_compute|].
      intros [|[|i]] x [= <-]; reflexivity.
    + split.
      * change (now u_host) with 103000.
        apply Forall_cons_2; [|apply Forall_cons_2; [|apply Forall_nil_2]]; simpl; lia.
      * intros [|[|i]] a b [= <-] [= <-]. simpl. lia.
      * intros x [= <-]. reflexivity.
Qed.

Definition u_vcpu : vcpu_t := VCPU 0 w_name 0.

Lemma u_preempts : preempts u_host ConcurrentProps.w_out u_vcpu BuffersProps.b_vm.
Proof. split; by vm_compute. Qed.

(** The counter goes from 2 to 3 and 0 is published; without the handler the
    average is 1. *)
Lemma unfilled_sample_publishes_zero_witness :
  (∃ w, h2g_view (shmem (run_timer 16 (TLook w_name)
       (run_alone 10 (LookIn ConcurrentProps.w_out) u_host).1).1) H2G_LATEST_SLOT = Some w ∧ wm_phantom w = 0) ∧
  weighted_avg (closed u_host BuffersProps.b_vm u_hist) = 1.
Proof.
  split.
  - refine (proj2 (proj2 (unfilled_sample_publishes_zero u_host u_history ConcurrentProps.w_out
      u_vcpu BuffersProps.b_vm (Sample 1 100000) u_tracks u_preempts _ _ _ _ _ _))).
    + vm_compute. reflexivity.
    + vm_compute. discriminate.
    + vm_compute. reflexivity.
    + vm_compute. reflexivity.
    + vm_compute. reflexivity.
    + exact BuffersProps.b_ready.
  - unfold closed, clip. rewrite take_ge by (unfold VM_MAP_MAX_ENTRIES; simpl length; lia). reflexivity.
Defined.
End UnfilledSampleProps.
